(** * katalyst-core: resource advisor, memory headroom, checkpoint and health registry

    A shallow embedding of the parts of the repository that the specification
    describes, and the properties of the specification proved of them.

    Conventions used throughout.
    - Go [int], [int64] and [time.Duration] values are integers of [Z]; the
      models cover runs in which no 64-bit overflow happens.
    - Go [float64] values are exact rationals of [Q]: rounding, NaN and the
      infinities are outside the model.  [int(f)] is truncation towards zero.
    - Go maps are [gmap]s; where the source iterates a map in an order that
      matters the iteration order is an explicit list.
    - [time.Time] is the number of nanoseconds since Go's zero instant, so
      [IsZero] is a comparison with [0]. *)

From Stdlib Require Import ZArith QArith Qabs Qminmax Qround Lqa Lia List Bool.

From stdpp Require Import base option gmap strings list fin_maps.

Close Scope Q_scope.

(** * Part I: the model *)

Local Open Scope Z_scope.

(** ** Numeric conversions of the Go runtime *)

(** [int(f)] for a float64 [f]: the fractional part is discarded. *)
Definition float_to_int (f : Q) : Z := Z.quot (Qnum f) (Zpos (Qden f)).

(** [float64(i)] for an int [i]. *)
Definition int_to_float (i : Z) : Q := inject_Z i.

(** [math.Ceil]. *)
Definition math_Ceil (f : Q) : Z := Qceiling f.

(** [math.Round]: halves are rounded away from zero. *)
Definition math_Round (f : Q) : Z :=
  if Qle_bool 0 f then Qfloor (f + (1 # 2))%Q else Qceiling (f - (1 # 2))%Q.

(** [math.Abs]. *)
Definition math_Abs (f : Q) : Q := Qabs f.

(** ** Errors

    Go errors are compared by identity against the one sentinel the advisor
    declares; every other error is a formatted message.  A run-time panic
    (an index out of range) ends the call as well and is kept apart. *)
Inductive error : Type :=
  | errIsolationSafetyCheckFailed
  | Errorf (msg : string)
  | Panic (msg : string).

Definition error_eqb (a b : error) : bool :=
  match a, b with
  | errIsolationSafetyCheckFailed, errIsolationSafetyCheckFailed => true
  | Errorf x, Errorf y => String.eqb x y
  | Panic x, Panic y => String.eqb x y
  | _, _ => false
  end.

(** A result of fallible code: [inl] carries the error. *)
Definition result (A : Type) : Type := error + A.

Definition is_err {A} (r : result A) : bool :=
  match r with inl _ => true | inr _ => false end.

(** ** Health registry (pkg/util/general, healthz) *)

Module Healthz.

Definition HealthzCheckStateReady : string := "Ready".

Definition HealthzCheckStateNotReady : string := "NotReady".

Definition HealthzCheckStateUnknown : string := "Unknown".

Definition HealthzCheckStateFailed : string := "Failed".

Definition InitMessage : string := "Init".

Definition HealthzCheckModeHeartBeat : string := "heartbeat".

Definition HealthzCheckModeReport : string := "report".

Record HealthzCheckResult := mkResult {
  Ready : bool;
  Message : string
}.

Record healthzCheckStatus := mkStatus {
  State : string;
  StatusMessage : string;
  LastUpdateTime : Z;
  Mode : string;
  TimeoutPeriod : Z;
  UnhealthyStartTime : Z;
  TolerationPeriod : Z;
  temporary : bool;
  count : Z
}.

(** [healthzCheckStatus.update], with the clock reading passed in. *)
Definition update (now : Z) (h : healthzCheckStatus) (state message : string)
: healthzCheckStatus :=
let unhealthy :=
  if String.eqb (State h) HealthzCheckStateReady
     && negb (String.eqb state HealthzCheckStateReady)
  then now else UnhealthyStartTime h in
{| State := state; StatusMessage := message; LastUpdateTime := now;
   Mode := Mode h; TimeoutPeriod := TimeoutPeriod h;
   UnhealthyStartTime := unhealthy;
   TolerationPeriod := TolerationPeriod h;
   temporary := temporary h; count := count h |}.

Definition RegisterHeartbeatCheck (now : Z) (name : string) (timeout : Z)
  (initState : string) (tolerationPeriod : Z)
  (healthzCheckMap : gmap string healthzCheckStatus)
: gmap string healthzCheckStatus :=
match healthzCheckMap !! name with
| Some _ => healthzCheckMap
| None =>
    <[name := {| State := initState; StatusMessage := InitMessage;
                 LastUpdateTime := now; Mode := HealthzCheckModeHeartBeat;
                 TimeoutPeriod := timeout; UnhealthyStartTime := 0;
                 TolerationPeriod := tolerationPeriod;
                 temporary := false; count := 0 |}]> healthzCheckMap
end.

Definition RegisterReportCheck (name : string) (timeout : Z)
  (initState : string) (healthzCheckMap : gmap string healthzCheckStatus)
: gmap string healthzCheckStatus :=
match healthzCheckMap !! name with
| Some _ => healthzCheckMap
| None =>
    <[name := {| State := initState; StatusMessage := InitMessage;
                 LastUpdateTime := 0; Mode := HealthzCheckModeReport;
                 TimeoutPeriod := timeout; UnhealthyStartTime := 0;
                 TolerationPeriod := 0;
                 temporary := false; count := 0 |}]> healthzCheckMap
end.

Definition UpdateHealthzState (now : Z) (name state message : string)
  (healthzCheckMap : gmap string healthzCheckStatus)
: gmap string healthzCheckStatus * option error :=
match healthzCheckMap !! name with
| None => (healthzCheckMap, Some (Errorf ("check rule " ++ name ++ " not found")))
| Some status =>
    (<[name := update now status state message]> healthzCheckMap, None)
end.

Definition UpdateHealthzStateByError (now : Z) (name : string)
  (err : option string) (healthzCheckMap : gmap string healthzCheckStatus)
: gmap string healthzCheckStatus * option error :=
match err with
| Some msg => UpdateHealthzState now name HealthzCheckStateNotReady msg healthzCheckMap
| None => UpdateHealthzState now name HealthzCheckStateReady "" healthzCheckMap
end.

Section Readiness.

(** The text of the heartbeat timeout message is a [Sprintf] of a duration
    and an instant; only its dependence on the two is kept. *)
Variable timeoutMessage : Z -> Z -> string.

(** The body of the loop of [GetRegisterReadinessCheckResult]. *)
Definition readiness (now : Z) (checkStatus : healthzCheckStatus)
  : HealthzCheckResult :=
  let ready := true in
  let message := StatusMessage checkStatus in
  if String.eqb (Mode checkStatus) HealthzCheckModeHeartBeat then
    let '(ready, message) :=
      if (0 <? TimeoutPeriod checkStatus)
         && (TimeoutPeriod checkStatus <? now - LastUpdateTime checkStatus)
      then (false, timeoutMessage (TimeoutPeriod checkStatus)
                                  (LastUpdateTime checkStatus))
      else (ready, message) in
    let ready :=
      if (TolerationPeriod checkStatus <=? 0)
         && negb (String.eqb (State checkStatus) HealthzCheckStateReady)
      then false else ready in
    let ready :=
      if (0 <? TolerationPeriod checkStatus)
         && (TolerationPeriod checkStatus <? now - UnhealthyStartTime checkStatus)
         && negb (String.eqb (State checkStatus) HealthzCheckStateReady)
      then false else ready in
    {| Ready := ready; Message := message |}
  else if String.eqb (Mode checkStatus) HealthzCheckModeReport then
    let ready := String.eqb (State checkStatus) HealthzCheckStateReady in
    if (0 <? TimeoutPeriod checkStatus)
       && negb (LastUpdateTime checkStatus =? 0)
       && (LastUpdateTime checkStatus <? now - TimeoutPeriod checkStatus)
    then {| Ready := false; Message := "timeout" |}
    else {| Ready := ready; Message := message |}
  else {| Ready := ready; Message := message |}.

Definition GetRegisterReadinessCheckResult (now : Z)
    (healthzCheckMap : gmap string healthzCheckStatus)
  : gmap string HealthzCheckResult :=
  readiness now <$> healthzCheckMap.

End Readiness.

(** The registry of the failing run: one report check with a timeout of ten
    seconds, registered as ready. *)
Definition tenSeconds : Z := 10000000000.

Definition reportRegistry : gmap string healthzCheckStatus :=
  RegisterReportCheck "sync" tenSeconds HealthzCheckStateReady ∅.


Definition RegisterTemporaryHeartbeatCheck (now : Z) (name : string) (timeout : Z)
  (initState : string) (tolerationPeriod : Z)
  (healthzCheckMap : gmap string healthzCheckStatus)
: gmap string healthzCheckStatus :=
match healthzCheckMap !! name with
| Some origin =>
    if negb (temporary origin) then healthzCheckMap
    else
      <[name := {| State := State origin; StatusMessage := StatusMessage origin;
                   LastUpdateTime := LastUpdateTime origin; Mode := Mode origin;
                   TimeoutPeriod := TimeoutPeriod origin;
                   UnhealthyStartTime := UnhealthyStartTime origin;
                   TolerationPeriod := TolerationPeriod origin;
                   temporary := temporary origin;
                   count := count origin + 1 |}]> healthzCheckMap
| None =>
    <[name := {| State := initState; StatusMessage := InitMessage;
                 LastUpdateTime := now; Mode := HealthzCheckModeHeartBeat;
                 TimeoutPeriod := timeout; UnhealthyStartTime := 0;
                 TolerationPeriod := tolerationPeriod;
                 temporary := true; count := 1 |}]> healthzCheckMap
end.

Definition unregisterHealthCheck (name mode : string)
  (healthzCheckMap : gmap string healthzCheckStatus)
: gmap string healthzCheckStatus :=
match healthzCheckMap !! name with
| None => healthzCheckMap
| Some current =>
    if negb (temporary current) then healthzCheckMap
    else if negb (String.eqb (Mode current) mode) then healthzCheckMap
    else
      let count' := count current - 1 in
      if count' =? 0 then delete name healthzCheckMap
      else
        <[name := {| State := State current; StatusMessage := StatusMessage current;
                     LastUpdateTime := LastUpdateTime current; Mode := Mode current;
                     TimeoutPeriod := TimeoutPeriod current;
                     UnhealthyStartTime := UnhealthyStartTime current;
                     TolerationPeriod := TolerationPeriod current;
                     temporary := temporary current;
                     count := count' |}]> healthzCheckMap
end.

Definition UnregisterTemporaryHeartbeatCheck (name : string)
  (healthzCheckMap : gmap string healthzCheckStatus)
: gmap string healthzCheckStatus :=
unregisterHealthCheck name HealthzCheckModeHeartBeat healthzCheckMap.

(** The calls that change the registry, and a run of them: each call comes
    with the clock reading at which it is made. *)
Inductive registryCall : Type :=
  | CallRegisterHeartbeatCheck (name : string) (timeout : Z) (initState : string)
      (tolerationPeriod : Z)
  | CallRegisterTemporaryHeartbeatCheck (name : string) (timeout : Z)
      (initState : string) (tolerationPeriod : Z)
  | CallUnregisterTemporaryHeartbeatCheck (name : string)
  | CallRegisterReportCheck (name : string) (timeout : Z) (initState : string)
  | CallUpdateHealthzState (name state message : string)
  | CallUpdateHealthzStateByError (name : string) (err : option string).

Definition registryStep (healthzCheckMap : gmap string healthzCheckStatus)
  (c : Z * registryCall) : gmap string healthzCheckStatus :=
match c with
| (now, CallRegisterHeartbeatCheck name timeout initState tolerationPeriod) =>
    RegisterHeartbeatCheck now name timeout initState tolerationPeriod healthzCheckMap
| (now, CallRegisterTemporaryHeartbeatCheck name timeout initState tolerationPeriod) =>
    RegisterTemporaryHeartbeatCheck now name timeout initState tolerationPeriod
      healthzCheckMap
| (_, CallUnregisterTemporaryHeartbeatCheck name) =>
    UnregisterTemporaryHeartbeatCheck name healthzCheckMap
| (_, CallRegisterReportCheck name timeout initState) =>
    RegisterReportCheck name timeout initState healthzCheckMap
| (now, CallUpdateHealthzState name state message) =>
    fst (UpdateHealthzState now name state message healthzCheckMap)
| (now, CallUpdateHealthzStateByError name err) =>
    fst (UpdateHealthzStateByError now name err healthzCheckMap)
end.

Definition registryRun (calls : list (Z * registryCall))
  (healthzCheckMap : gmap string healthzCheckStatus)
: gmap string healthzCheckStatus :=
fold_left registryStep calls healthzCheckMap.

End Healthz.

(** ** Error monad for fallible code *)

Definition bind {A B} (c : result A) (k : A -> result B) : result B :=
  match c with
  | inl err => inl err
  | inr a => k a
  end.

Notation "'do' x <- c ; k" := (bind c (fun x => k))
  (at level 10, x pattern, c at level 100, k at level 200).

(** A loop whose body may return early with an error. *)
Fixpoint foldM {A S} (step : S -> A -> result S) (l : list A) (s : S) : result S :=
  match l with
  | [] => inr s
  | a :: l' => do s' <- step s a; foldM step l' s'
  end.

Definition Qlt_bool (a b : Q) : bool := negb (Qle_bool b a).

(** Sum of a list of floats. *)
Definition Qsum (l : list Q) : Q := fold_right Qplus 0%Q l.

(** ** Memory headroom policy NUMAAware
    (pkg/agent/sysadvisor/plugin/qosaware/resource/memory/headroompolicy) *)

Module MemoryHeadroom.

Inductive PolicyUpdateStatus : Type :=
  | PolicyUpdateSucceeded
  | PolicyUpdateFailed.

Inductive NumaMetricName : Type :=
  | MetricMemFreeNuma
  | MetricMemInactiveFileNuma
  | MetricMemTotalNuma.

(** The two fields of [types.ContainerInfo] the policy reads.  Of the map
    [TopologyAwareAssignments] only the key set (NUMA ids) is used. *)
Record ContainerInfo := mkContainer {
  MemoryRequest : Q;
  TopologyAwareAssignments : gset Z
}.

(** What one call of [Update] reads from its collaborators: the helper
    [GetAvailableNUMAsAndReclaimedCores], the metric store, the machine
    topology, the dynamic configuration and the region essentials. *)
Record Env := mkEnv {
  GetAvailableNUMAsAndReclaimedCores : result (list Z * list ContainerInfo);
  GetNumaMetric : Z -> NumaMetricName -> result Q;
  GetNodeMetricScaleFactor : result Q;
  NumNUMANodes : Z;
  NUMANodes : list Z;
  CacheBasedRatio : Q;
  ReservedForAllocate : Q
}.

Record PolicyNUMAAware := mkPolicy {
  memoryHeadroom : Q;
  numaMemoryHeadroom : gmap Z Z;
  updateStatus : PolicyUpdateStatus
}.

(** [NewPolicyNUMAAware]. *)
Definition NewPolicyNUMAAware : PolicyNUMAAware :=
  {| memoryHeadroom := 0%Q; numaMemoryHeadroom := ∅;
     updateStatus := PolicyUpdateFailed |}.

(** The local variables of [Update] that the two loops accumulate. *)
Record locals := mkLocals {
  reclaimableMemory : Q;
  numaReclaimableMemory : gmap Z Q;
  availNUMATotal : Q;
  reservedForAllocate : Q
}.

Definition locals0 : locals :=
  {| reclaimableMemory := 0%Q; numaReclaimableMemory := ∅;
     availNUMATotal := 0%Q; reservedForAllocate := 0%Q |}.

(** Body of the loop over the available NUMAs. *)
Definition numaStep (e : Env) (a : locals) (numaID : Z) : result locals :=
  do free <- GetNumaMetric e numaID MetricMemFreeNuma;
  do inactiveFile <- GetNumaMetric e numaID MetricMemInactiveFileNuma;
  do total <- GetNumaMetric e numaID MetricMemTotalNuma;
  let numaReclaimable := (free + inactiveFile * CacheBasedRatio e)%Q in
  inr {| availNUMATotal := (availNUMATotal a + total)%Q;
         reservedForAllocate :=
           (reservedForAllocate a
            + ReservedForAllocate e / int_to_float (NumNUMANodes e))%Q;
         reclaimableMemory := (reclaimableMemory a + numaReclaimable)%Q;
         numaReclaimableMemory :=
           <[numaID := numaReclaimable]> (numaReclaimableMemory a) |}.

(** [m[numaID] += x] on a Go map: a missing key reads as zero. *)
Definition addAt (x : Q) (m : gmap Z Q) (numaID : Z) : gmap Z Q :=
  <[numaID := (default 0%Q (m !! numaID) + x)%Q]> m.

(** Body of the loop over the reclaimed-cores containers. *)
Definition containerStep (a : locals) (container : ContainerInfo) : locals :=
  let assignments := elements (TopologyAwareAssignments container) in
  let perNuma :=
    if Qlt_bool 0 (MemoryRequest container) && (0 <? Z.of_nat (length assignments))
    then
      let reclaimableMemoryPerNuma :=
        (MemoryRequest container / int_to_float (Z.of_nat (length assignments)))%Q in
      fold_left (addAt reclaimableMemoryPerNuma) assignments (numaReclaimableMemory a)
    else numaReclaimableMemory a in
  {| availNUMATotal := availNUMATotal a;
     reservedForAllocate := reservedForAllocate a;
     reclaimableMemory := (reclaimableMemory a + MemoryRequest container)%Q;
     numaReclaimableMemory := perNuma |}.

(** The last loop: NUMAs that got no entry report an empty quantity. *)
Definition fillEmpty (allNUMAs : list Z) (numaHeadroom : gmap Z Z) : gmap Z Z :=
  fold_left (fun m numaID =>
               match m !! numaID with
               | Some _ => m
               | None => <[numaID := 0]> m
               end) allNUMAs numaHeadroom.

Definition reduceRatioOf (headroom reclaimable : Q) : Q :=
  if Qlt_bool 0 reclaimable then (headroom / reclaimable)%Q else 0%Q.

(** Everything [Update] computes; every error return of the source happens
    before the first assignment to a field of the policy. *)
Definition compute (e : Env) : result (Q * gmap Z Z) :=
  do (availNUMAs, reclaimedCoresContainers) <- GetAvailableNUMAsAndReclaimedCores e;
  do a <- foldM (numaStep e) availNUMAs locals0;
  let a := fold_left containerStep reclaimedCoresContainers a in
  do watermarkScaleFactor <- GetNodeMetricScaleFactor e;
  let systemWatermarkReserved :=
    (availNUMATotal a * watermarkScaleFactor / 10000)%Q in
  let headroom :=
    Qmax (reclaimableMemory a - systemWatermarkReserved - reservedForAllocate a) 0 in
  let reduceRatio := reduceRatioOf headroom (reclaimableMemory a) in
  let numaHeadroom :=
    (fun v => float_to_int (v * reduceRatio)%Q) <$> numaReclaimableMemory a in
  inr (headroom, fillEmpty (NUMANodes e) numaHeadroom).

(** [Update]: the deferred function sets the status from the returned error. *)
Definition Update (e : Env) (p : PolicyNUMAAware) : PolicyNUMAAware * option error :=
  match compute e with
  | inl err =>
      ({| memoryHeadroom := memoryHeadroom p;
          numaMemoryHeadroom := numaMemoryHeadroom p;
          updateStatus := PolicyUpdateFailed |}, Some err)
  | inr (headroom, numaHeadroom) =>
      ({| memoryHeadroom := headroom;
          numaMemoryHeadroom := numaHeadroom;
          updateStatus := PolicyUpdateSucceeded |}, None)
  end.

(** [GetHeadroom]: the total as an int64 quantity and the per-NUMA map. *)
Definition GetHeadroom (p : PolicyNUMAAware) : result (Z * gmap Z Z) :=
  match updateStatus p with
  | PolicyUpdateSucceeded => inr (float_to_int (memoryHeadroom p), numaMemoryHeadroom p)
  | PolicyUpdateFailed => inl (Errorf "last update failed")
  end.

(** A run of the policy: the calls made on it, in order. *)
Inductive call : Type :=
  | CallUpdate (e : Env)
  | CallGetHeadroom.

Definition step (p : PolicyNUMAAware) (c : call)
  : PolicyNUMAAware * (option error + result (Z * gmap Z Z)) :=
  match c with
  | CallUpdate e => let '(p', err) := Update e p in (p', inl err)
  | CallGetHeadroom => (p, inr (GetHeadroom p))
  end.

Fixpoint run (p : PolicyNUMAAware) (cs : list call)
  : PolicyNUMAAware * list (option error + result (Z * gmap Z Z)) :=
  match cs with
  | [] => (p, [])
  | c :: cs' =>
      let '(p', o) := step p c in
      let '(p'', os) := run p' cs' in (p'', o :: os)
  end.

(** Scenario 5 of the specification. *)
Definition G : Q := 1073741824%Q.

Definition scenario5 : Env :=
  {| GetAvailableNUMAsAndReclaimedCores := inr ([0; 1], []);
     GetNumaMetric := fun _ name =>
       match name with
       | MetricMemFreeNuma => inr (4 * G)%Q
       | MetricMemInactiveFileNuma => inr (10 * G)%Q
       | MetricMemTotalNuma => inr (32 * G)%Q
       end;
     GetNodeMetricScaleFactor := inr 100%Q;
     NumNUMANodes := 2;
     NUMANodes := [0; 1];
     CacheBasedRatio := (1 # 2)%Q;
     ReservedForAllocate := (2 * G)%Q |}.

(** *** Quantities of the specification

    The total functions below read a metric that is known to be available;
    they are the vocabulary in which the results of [Update] are stated. *)

Definition numaMetric (e : Env) (numaID : Z) (name : NumaMetricName) : Q :=
  match GetNumaMetric e numaID name with
  | inr v => v
  | inl _ => 0%Q
  end.

Definition numaReclaimable (e : Env) (numaID : Z) : Q :=
  (numaMetric e numaID MetricMemFreeNuma
   + numaMetric e numaID MetricMemInactiveFileNuma * CacheBasedRatio e)%Q.

Definition metricsAvailable (e : Env) (numaID : Z) : Prop :=
  forall name, exists v, GetNumaMetric e numaID name = inr v.

Definition eligible (c : ContainerInfo) : bool :=
  Qlt_bool 0 (MemoryRequest c)
  && (0 <? Z.of_nat (length (elements (TopologyAwareAssignments c)))).

Definition containerShare (c : ContainerInfo) (numaID : Z) : Q :=
  if eligible c && bool_decide (numaID ∈ TopologyAwareAssignments c)
  then (MemoryRequest c
        / int_to_float (Z.of_nat (length (elements (TopologyAwareAssignments c)))))%Q
  else 0%Q.

Definition touches (cs : list ContainerInfo) (n : Z) : Prop :=
  Exists (fun c => eligible c && bool_decide (n ∈ TopologyAwareAssignments c) = true) cs.

Definition totalReclaimable (e : Env) (avail : list Z) (cs : list ContainerInfo) : Q :=
  (Qsum (map (numaReclaimable e) avail) + Qsum (map MemoryRequest cs))%Q.

Definition watermarkReserve (e : Env) (avail : list Z) (scaleFactor : Q) : Q :=
  (Qsum (map (fun n => numaMetric e n MetricMemTotalNuma) avail) * scaleFactor / 10000)%Q.

Definition allocateReserve (e : Env) (avail : list Z) : Q :=
  Qsum (map (fun _ => ReservedForAllocate e / int_to_float (NumNUMANodes e))%Q avail).

Definition expectedHeadroom (e : Env) (avail : list Z) (cs : list ContainerInfo)
    (scaleFactor : Q) : Q :=
  Qmax 0 (totalReclaimable e avail cs - watermarkReserve e avail scaleFactor
          - allocateReserve e avail).

Definition numaReclaimableTotal (e : Env) (cs : list ContainerInfo) (n : Z) : Q :=
  (numaReclaimable e n + Qsum (map (fun c => containerShare c n) cs))%Q.

Definition hasData (avail : list Z) (cs : list ContainerInfo) (n : Z) : Prop :=
  n ∈ avail \/ touches cs n.

Definition noSuccessfulUpdate (cs : list call) : Prop :=
  Forall (fun c => match c with
                   | CallUpdate e => forall q, snd (Update e q) <> None
                   | CallGetHeadroom => True
                   end) cs.

Definition allRefused (outs : list (option error + result (Z * gmap Z Z))) : Prop :=
  Forall (fun o => match o with
                   | inr r => is_err r = true
                   | inl _ => True
                   end) outs.

Definition doubleInactiveFile (e : Env) : Env :=
  {| GetAvailableNUMAsAndReclaimedCores := GetAvailableNUMAsAndReclaimedCores e;
     GetNumaMetric := fun numaID name =>
       match name with
       | MetricMemInactiveFileNuma =>
           do v <- GetNumaMetric e numaID name; inr (2 * v)%Q
       | _ => GetNumaMetric e numaID name
       end;
     GetNodeMetricScaleFactor := GetNodeMetricScaleFactor e;
     NumNUMANodes := NumNUMANodes e;
     NUMANodes := NUMANodes e;
     CacheBasedRatio := CacheBasedRatio e;
     ReservedForAllocate := ReservedForAllocate e |}.

(** An environment whose metric store has no reading for NUMA 1. *)
Definition brokenMetrics : Env :=
  {| GetAvailableNUMAsAndReclaimedCores := inr ([0; 1], []);
     GetNumaMetric := fun numaID name =>
       if numaID =? 1 then inl (Errorf "metric not found") else inr G;
     GetNodeMetricScaleFactor := inr 100%Q;
     NumNUMANodes := 2;
     NUMANodes := [0; 1];
     CacheBasedRatio := (1 # 2)%Q;
     ReservedForAllocate := 0%Q |}.


(** The environment of the last [Update] of a run, if the run has one. *)
Definition lastUpdate (cs : list call) : option Env :=
  fold_left (fun last c =>
               match c with
               | CallUpdate e => Some e
               | CallGetHeadroom => last
               end) cs None.

(** What [GetHeadroom] serves right after an [Update] in environment [e]. *)
Definition servedAfter (e : Env) : result (Z * gmap Z Z) :=
  GetHeadroom (fst (Update e NewPolicyNUMAAware)).

(** Scenario 5 with a reservation larger than the reclaimable memory. *)
Definition overReserved : Env :=
  {| GetAvailableNUMAsAndReclaimedCores := GetAvailableNUMAsAndReclaimedCores scenario5;
     GetNumaMetric := GetNumaMetric scenario5;
     GetNodeMetricScaleFactor := GetNodeMetricScaleFactor scenario5;
     NumNUMANodes := NumNUMANodes scenario5;
     NUMANodes := NUMANodes scenario5;
     CacheBasedRatio := CacheBasedRatio scenario5;
     ReservedForAllocate := (100 * G)%Q |}.

End MemoryHeadroom.

(** ** Provision assembler (cpu/assembler/provisionassembler)

    The source holds two implementations of [ProvisionAssemblerCommon]; the
    first keeps the names of the source, the second carries the suffix [0]. *)

Module Assembler.

Inductive QoSRegionType : Type :=
  | QoSRegionTypeShare
  | QoSRegionTypeIsolation
  | QoSRegionTypeDedicatedNumaExclusive.

Definition QoSRegionType_eqb (a b : QoSRegionType) : bool :=
  match a, b with
  | QoSRegionTypeShare, QoSRegionTypeShare
  | QoSRegionTypeIsolation, QoSRegionTypeIsolation
  | QoSRegionTypeDedicatedNumaExclusive, QoSRegionTypeDedicatedNumaExclusive => true
  | _, _ => false
  end.

Inductive ControlKnobName : Type :=
  | ControlKnobNonReclaimedCPURequirement
  | ControlKnobNonReclaimedCPURequirementUpper
  | ControlKnobNonReclaimedCPURequirementLower
  | ControlKnobReclaimedCPUQuota.

(** [types.ControlKnob]: knob name to value; a knob may be absent. *)
Definition ControlKnob : Type := ControlKnobName -> option Q.

(** [controlKnob[name].Value]: an absent knob reads as the zero value. *)
Definition knobValue (controlKnob : ControlKnob) (name : ControlKnobName) : Q :=
  default 0%Q (controlKnob name).

(** What the assembler observes of a [region.QoSRegion]. *)
Record QoSRegion := mkRegion {
  Name : string;
  Type_ : QoSRegionType;
  IsNumaBinding : bool;
  GetBindingNumas : list Z;
  OwnerPoolName : string;
  GetProvision : result ControlKnob;
  GetPodsRequest : Q;
  EnableReclaim : bool;
  GetPods : list string
}.

Definition PoolNameReserve : string := "reserve".

Definition PoolNameReclaim : string := "reclaim".

Definition FakedNUMAID : Z := -1.

Record CPUResource := mkCPUResource {
  Size : Z;
  Quota : Q
}.

(** [types.InternalCPUCalculationResult] without its time stamp. *)
Record InternalCPUCalculationResult := mkCalc {
  PoolEntries : gmap string (gmap Z CPUResource);
  PoolOverlapInfo : gmap string (gmap Z (gmap string Z));
  AllowSharedCoresOverlapReclaimedCores : bool
}.

(** Modelled from the spec: the methods of the calculation result are not
    under src/; the result is "pool -> numa -> {size, quota}" with overlap
    records "pool -> numa -> otherPool -> size", and a setter stores its
    arguments at that place. *)
Definition SetPoolEntry (poolName : string) (numaID : Z) (size : Z) (quota : Q)
    (r : InternalCPUCalculationResult) : InternalCPUCalculationResult :=
  {| PoolEntries :=
       <[poolName := <[numaID := {| Size := size; Quota := quota |}]>
                       (default ∅ (PoolEntries r !! poolName))]> (PoolEntries r);
     PoolOverlapInfo := PoolOverlapInfo r;
     AllowSharedCoresOverlapReclaimedCores := AllowSharedCoresOverlapReclaimedCores r |}.

(** Modelled from the spec: see [SetPoolEntry]. *)
Definition GetPoolEntry (poolName : string) (numaID : Z)
    (r : InternalCPUCalculationResult) : option CPUResource :=
  match PoolEntries r !! poolName with
  | Some entries => entries !! numaID
  | None => None
  end.

(** Modelled from the spec: see [SetPoolEntry]. *)
Definition SetPoolOverlapInfo (poolName : string) (numaID : Z)
    (overlapPoolName : string) (size : Z)
    (r : InternalCPUCalculationResult) : InternalCPUCalculationResult :=
  let byNuma := default ∅ (PoolOverlapInfo r !! poolName) in
  let byPool := default ∅ (byNuma !! numaID) in
  {| PoolEntries := PoolEntries r;
     PoolOverlapInfo :=
       <[poolName := <[numaID := <[overlapPoolName := size]> byPool]> byNuma]>
         (PoolOverlapInfo r);
     AllowSharedCoresOverlapReclaimedCores := AllowSharedCoresOverlapReclaimedCores r |}.

(** Modelled from the spec: [general.SumUpMapValues] is not under src/; it is
    the sum of the values of a map. *)
Definition SumUpMapValues (m : gmap string Z) : Z :=
  map_fold (fun _ v acc => v + acc) 0 m.

(** Modelled from the spec: [getNUMAsResource] is not under src/; the spec
    reads it as the sum of the per-NUMA resource over the given NUMAs.  An
    absent NUMA contributes nothing, as in [getNumasReservedForReclaim]. *)
Definition getNUMAsResource (resources : gmap Z Z) (numas : list Z) : Z :=
  fold_left (fun res id => res + default 0 (resources !! id)) numas 0.

(** [r.GetBindingNumas().ToSliceInt()[0]]. *)
Definition firstNuma (r : QoSRegion) : result Z :=
  match GetBindingNumas r with
  | numaID :: _ => inr numaID
  | [] => inl (Panic "index out of range [0] with length 0")
  end.

(** [RegionMapHelper.GetRegions]: the regions of a type bound to a NUMA. *)
Definition GetRegions (regions : list QoSRegion) (numaID : Z)
    (regionType : QoSRegionType) : list QoSRegion :=
  filter (fun r => bool_decide (numaID ∈ GetBindingNumas r)
                   && QoSRegionType_eqb (Type_ r) regionType) regions.

(** Publishing a map of pool sizes at one NUMA, without quota. *)
Definition setPoolEntries (poolSizes : gmap string Z) (numaID : Z)
    (r : InternalCPUCalculationResult) : InternalCPUCalculationResult :=
  map_fold (fun poolName size acc => SetPoolEntry poolName numaID size (-1) acc)
           r poolSizes.

Definition setPoolOverlapInfos (poolName : string) (numaID : Z)
    (sizes : gmap string Z) (r : InternalCPUCalculationResult)
  : InternalCPUCalculationResult :=
  map_fold (fun overlapPoolName size acc =>
              SetPoolOverlapInfo poolName numaID overlapPoolName size acc)
           r sizes.

(** The fields of the assembler and what it reads from its collaborators:
    the node-level reclaim switch and the size of the reserve pool.  The
    region map is listed in the order in which [range] visits it. *)
Record ProvisionAssemblerCommon := mkAssembler {
  regionMap : list QoSRegion;
  reservedForReclaim : gmap Z Z;
  numaAvailable : gmap Z Z;
  nonBindingNumas : list Z;
  allowSharedCoresOverlapReclaimedCores : bool;
  nodeEnableReclaim : bool;
  reservePoolSize : Z
}.

(** The calculation result together with the regions' throttled marks that
    [SetThrottled] leaves behind (region name to mark). *)
Definition assembly : Type := InternalCPUCalculationResult * gmap string bool.

(** What the loop of [AssembleProvision] accumulates for the non-binding
    share and isolation regions. *)
Record collective := mkCollective {
  sharePoolRequirements : gmap string Z;
  sharePoolRequests : gmap string Z;
  isolationUpperSizes : gmap string Z;
  isolationLowerSizes : gmap string Z
}.

Section Assemblers.

(** Code of the package that is not under src/: the two regulators, and for
    the second implementation its own regulator, the pod-level reclaim switch and
    the helpers on maps. *)
Variable regulatePoolSizes :
  gmap string Z -> gmap string Z -> Z -> bool -> gmap string Z * bool.

Variable regulateOverlapReclaimPoolSize :
  gmap string Z -> Z -> result (gmap string Z).

Variable IsCgroup2UnifiedMode : bool.

Definition getIsolationRequirements (pa : ProvisionAssemblerCommon) (r : QoSRegion)
  : result (gmap string Z) :=
  let reservedForReclaim := getNUMAsResource (reservedForReclaim pa) (GetBindingNumas r) in
  let available := getNUMAsResource (numaAvailable pa) (GetBindingNumas r) in
  let available :=
    if allowSharedCoresOverlapReclaimedCores pa
    then available + reservedForReclaim else available in
  do numaID <- firstNuma r;
  let podsRequests := Z.max 1 (math_Ceil (GetPodsRequest r)) in
  let isolationRegions := GetRegions (regionMap pa) numaID QoSRegionTypeIsolation in
  do knobs <-
    foldM (fun (acc : list (string * ControlKnob) * Z) isolationRegion =>
             do isolationControlKnob <- GetProvision isolationRegion;
             inr ((Name isolationRegion, isolationControlKnob) :: fst acc,
                  snd acc + float_to_int
                    (knobValue isolationControlKnob
                       ControlKnobNonReclaimedCPURequirementUpper)))
          isolationRegions ([], 0);
  let '(isolationRegionControlKnobs, isolationUpperSum) := knobs in
  let isolationRegionControlKnobKey :=
    match isolationRegions with
    | [] => ControlKnobNonReclaimedCPURequirementUpper
    | _ :: _ =>
        if available <? podsRequests + isolationUpperSum
        then ControlKnobNonReclaimedCPURequirementLower
        else ControlKnobNonReclaimedCPURequirementUpper
    end in
  inr (fold_right
         (fun '(isolationRegionName, isolationRegionControlKnob) m =>
            <[isolationRegionName :=
                float_to_int (knobValue isolationRegionControlKnob
                                isolationRegionControlKnobKey)]> m)
         ∅ isolationRegionControlKnobs).

Definition assembleShareNB (pa : ProvisionAssemblerCommon) (r : QoSRegion)
    (st : assembly) : result assembly :=
  let '(result, throttled) := st in
  if negb (QoSRegionType_eqb (Type_ r) QoSRegionTypeShare) || negb (IsNumaBinding r)
  then inl (Errorf ("region " ++ Name r ++ " is not a SNB region")) else
  do controlKnob <- GetProvision r;
  do regionNuma <- firstNuma r;
  let reservedForReclaim := getNUMAsResource (reservedForReclaim pa) (GetBindingNumas r) in
  let podsRequests := Z.max 1 (math_Ceil (GetPodsRequest r)) in
  let available := getNUMAsResource (numaAvailable pa) (GetBindingNumas r) in
  do isolationRequirements <- getIsolationRequirements pa r;
  let shareRequirements : gmap string Z := {[ OwnerPoolName r := podsRequests ]} in
  let allowExpand :=
    negb (nodeEnableReclaim pa) || allowSharedCoresOverlapReclaimedCores pa in
  let '(poolSizes, poolThrottled) :=
    regulatePoolSizes shareRequirements isolationRequirements available allowExpand in
  let throttled := <[Name r := poolThrottled]> throttled in
  let result := setPoolEntries poolSizes regionNuma result in
  let ownerPoolSize := default 0 (poolSizes !! OwnerPoolName r) in
  let '(result, reclaimedCoresSize, reclaimedCoresLimit) :=
    if allowSharedCoresOverlapReclaimedCores pa then
      let reclaimedCoresAvail :=
        ownerPoolSize
        - float_to_int (knobValue controlKnob ControlKnobNonReclaimedCPURequirement) in
      let reclaimedCoresAvail :=
        if negb (nodeEnableReclaim pa) then 0 else reclaimedCoresAvail in
      let '(reclaimedCoresSize, reclaimedCoresLimit) :=
        if IsCgroup2UnifiedMode then
          let reclaimedCoresLimit :=
            match controlKnob ControlKnobReclaimedCPUQuota with
            | Some quota => quota
            | None => int_to_float (Z.max reservedForReclaim reclaimedCoresAvail)
            end in
          (ownerPoolSize, reclaimedCoresLimit)
        else
          (Z.min (Z.max reservedForReclaim reclaimedCoresAvail) ownerPoolSize,
           (-1)%Q) in
      (SetPoolOverlapInfo PoolNameReclaim regionNuma (OwnerPoolName r)
         reclaimedCoresSize result,
       reclaimedCoresSize, reclaimedCoresLimit)
    else
      let reclaimedCoresSize :=
        available - SumUpMapValues poolSizes + reservedForReclaim in
      let reclaimedCoresSize :=
        if negb (nodeEnableReclaim pa) then reservedForReclaim else reclaimedCoresSize in
      (result, reclaimedCoresSize, (-1)%Q) in
  inr (SetPoolEntry PoolNameReclaim regionNuma reclaimedCoresSize reclaimedCoresLimit
         result, throttled).

Definition assembleIsolationNB (pa : ProvisionAssemblerCommon) (r : QoSRegion)
    (st : assembly) : result assembly :=
  let '(result, throttled) := st in
  if negb (QoSRegionType_eqb (Type_ r) QoSRegionTypeIsolation) || negb (IsNumaBinding r)
  then inl (Errorf ("region " ++ Name r ++ " is not a IsolationNB region")) else
  do controlKnob <- GetProvision r;
  do regionNuma <- firstNuma r;
  match GetRegions (regionMap pa) regionNuma QoSRegionTypeShare with
  | _ :: _ => inr (result, throttled)
  | [] =>
      let result :=
        SetPoolEntry (Name r) regionNuma
          (float_to_int (knobValue controlKnob ControlKnobNonReclaimedCPURequirementUpper))
          (-1) result in
      match GetPoolEntry PoolNameReclaim regionNuma result with
      | Some _ => inr (result, throttled)
      | None =>
          let available := getNUMAsResource (numaAvailable pa) (GetBindingNumas r) in
          let reservedForReclaim :=
            getNUMAsResource (reservedForReclaim pa) (GetBindingNumas r) in
          let isolationRegions :=
            GetRegions (regionMap pa) regionNuma QoSRegionTypeIsolation in
          do isolationSizes <-
            foldM (fun acc ir =>
                     do ck <- GetProvision ir;
                     inr (acc + float_to_int
                            (knobValue ck ControlKnobNonReclaimedCPURequirementUpper)))
                  isolationRegions 0;
          let reclaimedCoresSize := Z.max (available - isolationSizes) reservedForReclaim in
          inr (SetPoolEntry PoolNameReclaim regionNuma reclaimedCoresSize (-1) result,
               throttled)
      end
  end.

Definition assembleDedicatedNE (pa : ProvisionAssemblerCommon) (r : QoSRegion)
    (st : assembly) : result assembly :=
  let '(result, throttled) := st in
  if negb (QoSRegionType_eqb (Type_ r) QoSRegionTypeDedicatedNumaExclusive)
  then inl (Errorf ("region " ++ Name r ++ " is not a DedicatedNE region")) else
  do controlKnob <- GetProvision r;
  do regionNuma <- firstNuma r;
  let reservedForReclaim := getNUMAsResource (reservedForReclaim pa) (GetBindingNumas r) in
  let available := getNUMAsResource (numaAvailable pa) (GetBindingNumas r) in
  let nonReclaimRequirement :=
    float_to_int (knobValue controlKnob ControlKnobNonReclaimedCPURequirement) in
  let nonReclaimRequirement :=
    if negb (EnableReclaim r) then available else nonReclaimRequirement in
  let '(reclaimedCoresSize, reclaimedCoresLimit) :=
    if IsCgroup2UnifiedMode then
      let reclaimedCoresLimit :=
        Qmax (int_to_float reservedForReclaim)
             (int_to_float (available - nonReclaimRequirement)) in
      let reclaimedCoresLimit :=
        match controlKnob ControlKnobReclaimedCPUQuota with
        | Some quota => Qmin reclaimedCoresLimit quota
        | None => reclaimedCoresLimit
        end in
      (available, reclaimedCoresLimit)
    else (Z.max reservedForReclaim (available - nonReclaimRequirement), (-1)%Q) in
  inr (SetPoolEntry PoolNameReclaim regionNuma reclaimedCoresSize reclaimedCoresLimit
         result, throttled).

(** The budget of the non-binding share and isolation pools. *)
Definition shareAndIsolatedPoolAvailable (pa : ProvisionAssemblerCommon) : Z :=
  let available := getNUMAsResource (numaAvailable pa) (nonBindingNumas pa) in
  if negb (allowSharedCoresOverlapReclaimedCores pa)
  then available - getNUMAsResource (reservedForReclaim pa) (nonBindingNumas pa)
  else available.

(** With reclaim enabled every share pool lends what it got beyond its
    requirement, and at least one core. *)
Definition sharedOverlapReclaimSizeOf (sharePoolSizes sharePoolRequirements : gmap string Z)
  : gmap string Z :=
  map_imap (fun poolName size =>
              let reclaimSize := size - default 0 (sharePoolRequirements !! poolName) in
              Some (if 0 <? reclaimSize then reclaimSize else 1))
           sharePoolSizes.

Definition inRequirements (sharePoolRequirements : gmap string Z)
    (entry : string * Z) : bool :=
  bool_decide (is_Some (sharePoolRequirements !! fst entry)).

Definition assembleShare (pa : ProvisionAssemblerCommon) (c : collective)
    (st : assembly) : result assembly :=
  let '(result, throttled) := st in
  let isolationUppers := SumUpMapValues (isolationUpperSizes c) in
  let shareAndIsolatedPoolAvailable := shareAndIsolatedPoolAvailable pa in
  let allowExpand :=
    negb (nodeEnableReclaim pa) || allowSharedCoresOverlapReclaimedCores pa in
  let requirements :=
    if allowExpand then sharePoolRequests c else sharePoolRequirements c in
  let isolationPoolSizes :=
    if shareAndIsolatedPoolAvailable <? SumUpMapValues requirements + isolationUppers
    then isolationLowerSizes c else isolationUpperSizes c in
  let '(shareAndIsolatePoolSizes, poolThrottled) :=
    regulatePoolSizes requirements isolationPoolSizes shareAndIsolatedPoolAvailable
      allowExpand in
  let throttled :=
    fold_left (fun t r =>
                 if QoSRegionType_eqb (Type_ r) QoSRegionTypeShare && negb (IsNumaBinding r)
                 then <[Name r := poolThrottled]> t else t)
              (regionMap pa) throttled in
  let result := setPoolEntries shareAndIsolatePoolSizes FakedNUMAID result in
  let nonBindingNUMAsReservedForReclaim :=
    getNUMAsResource (reservedForReclaim pa) (nonBindingNumas pa) in
  do (result, reclaimPoolSizeOfNonBindingNUMAs) <-
    (if allowSharedCoresOverlapReclaimedCores pa then
       let sharePoolSizes :=
         filter (fun entry => inRequirements (sharePoolRequirements c) entry = true)
                shareAndIsolatePoolSizes in
       let isolated :=
         SumUpMapValues
           (filter (fun entry => inRequirements (sharePoolRequirements c) entry = false)
                   shareAndIsolatePoolSizes) in
       let reclaimPoolSize :=
         Z.max nonBindingNUMAsReservedForReclaim
           (shareAndIsolatedPoolAvailable - isolated
            - SumUpMapValues (sharePoolRequirements c)) in
       let reclaimPoolSize :=
         if negb (nodeEnableReclaim pa)
         then nonBindingNUMAsReservedForReclaim else reclaimPoolSize in
       if 0 <? Z.of_nat (size sharePoolSizes) then
         do (sharedOverlapReclaimSize, reclaimPoolSize) <-
           (if negb (nodeEnableReclaim pa) then
              let reclaimPoolSize :=
                Z.min reclaimPoolSize (SumUpMapValues sharePoolSizes) in
              match regulateOverlapReclaimPoolSize sharePoolSizes reclaimPoolSize with
              | inl _ => inl (Errorf "failed to calculate sharedOverlapReclaimSize")
              | inr reclaimSizes => inr (reclaimSizes, reclaimPoolSize)
              end
            else
              let sharedOverlapReclaimSize :=
                sharedOverlapReclaimSizeOf sharePoolSizes (sharePoolRequirements c) in
              let reclaimPoolSize := SumUpMapValues sharedOverlapReclaimSize in
              if reclaimPoolSize <? nonBindingNUMAsReservedForReclaim then
                let reclaimPoolSize := nonBindingNUMAsReservedForReclaim in
                match regulateOverlapReclaimPoolSize sharePoolSizes reclaimPoolSize with
                | inl _ =>
                    inl (Errorf "failed to regulateOverlapReclaimPoolSize for non-binding NUMAs reserved for reclaim")
                | inr regulated => inr (regulated, reclaimPoolSize)
                end
              else inr (sharedOverlapReclaimSize, reclaimPoolSize));
         inr (setPoolOverlapInfos PoolNameReclaim FakedNUMAID sharedOverlapReclaimSize
                result,
              reclaimPoolSize)
       else inr (result, reclaimPoolSize)
     else
       let reclaimPoolSize :=
         shareAndIsolatedPoolAvailable - SumUpMapValues shareAndIsolatePoolSizes
         + nonBindingNUMAsReservedForReclaim in
       let reclaimPoolSize :=
         if negb (nodeEnableReclaim pa)
         then nonBindingNUMAsReservedForReclaim else reclaimPoolSize in
       inr (result, reclaimPoolSize));
  inr (SetPoolEntry PoolNameReclaim FakedNUMAID reclaimPoolSizeOfNonBindingNUMAs (-1)
         result, throttled).

Definition assembleReserve (pa : ProvisionAssemblerCommon)
    (result : InternalCPUCalculationResult) : InternalCPUCalculationResult :=
  SetPoolEntry PoolNameReserve FakedNUMAID (reservePoolSize pa) (-1) result.

Definition collective0 : collective :=
  {| sharePoolRequirements := ∅; sharePoolRequests := ∅;
     isolationUpperSizes := ∅; isolationLowerSizes := ∅ |}.

(** Body of the loop of [AssembleProvision] over the region map. *)
Definition assembleRegion (pa : ProvisionAssemblerCommon)
    (acc : assembly * collective) (r : QoSRegion) : result (assembly * collective) :=
  let '(st, c) := acc in
  do controlKnob <- GetProvision r;
  match Type_ r with
  | QoSRegionTypeShare =>
      if IsNumaBinding r then
        do st <- assembleShareNB pa r st; inr (st, c)
      else
        inr (st,
             {| sharePoolRequirements :=
                  <[OwnerPoolName r :=
                      Z.max 1 (float_to_int
                                 (knobValue controlKnob
                                    ControlKnobNonReclaimedCPURequirement))]>
                    (sharePoolRequirements c);
                sharePoolRequests :=
                  <[OwnerPoolName r := Z.max 1 (math_Ceil (GetPodsRequest r))]>
                    (sharePoolRequests c);
                isolationUpperSizes := isolationUpperSizes c;
                isolationLowerSizes := isolationLowerSizes c |})
  | QoSRegionTypeIsolation =>
      if IsNumaBinding r then
        do st <- assembleIsolationNB pa r st; inr (st, c)
      else
        inr (st,
             {| sharePoolRequirements := sharePoolRequirements c;
                sharePoolRequests := sharePoolRequests c;
                isolationUpperSizes :=
                  <[Name r :=
                      float_to_int (knobValue controlKnob
                                      ControlKnobNonReclaimedCPURequirementUpper)]>
                    (isolationUpperSizes c);
                isolationLowerSizes :=
                  <[Name r :=
                      float_to_int (knobValue controlKnob
                                      ControlKnobNonReclaimedCPURequirementLower)]>
                    (isolationLowerSizes c) |})
  | QoSRegionTypeDedicatedNumaExclusive =>
      do st <- assembleDedicatedNE pa r st; inr (st, c)
  end.

Definition AssembleProvision (pa : ProvisionAssemblerCommon) : result assembly :=
  let calculationResult :=
    {| PoolEntries := ∅; PoolOverlapInfo := ∅;
       AllowSharedCoresOverlapReclaimedCores :=
         allowSharedCoresOverlapReclaimedCores pa |} in
  let calculationResult := assembleReserve pa calculationResult in
  do (st, c) <- foldM (assembleRegion pa) (regionMap pa)
                       ((calculationResult, ∅), collective0);
  assembleShare pa c st.

End Assemblers.

(** *** The second implementation of the assembler

    Its calculation result stores a bare size per pool and NUMA, and its
    region helper is built once, by the constructor. *)

Record InternalCPUCalculationResult0 := mkCalc0 {
  PoolEntries0 : gmap string (gmap Z Z);
  PoolOverlapInfo0 : gmap string (gmap Z (gmap string Z));
  AllowSharedCoresOverlapReclaimedCores0 : bool
}.

(** Modelled from the spec: see [SetPoolEntry]. *)
Definition SetPoolEntry0 (poolName : string) (numaID : Z) (size : Z)
    (r : InternalCPUCalculationResult0) : InternalCPUCalculationResult0 :=
  {| PoolEntries0 :=
       <[poolName := <[numaID := size]> (default ∅ (PoolEntries0 r !! poolName))]>
         (PoolEntries0 r);
     PoolOverlapInfo0 := PoolOverlapInfo0 r;
     AllowSharedCoresOverlapReclaimedCores0 := AllowSharedCoresOverlapReclaimedCores0 r |}.

(** Modelled from the spec: see [SetPoolEntry]. *)
Definition GetPoolEntry0 (poolName : string) (numaID : Z)
    (r : InternalCPUCalculationResult0) : option Z :=
  match PoolEntries0 r !! poolName with
  | Some entries => entries !! numaID
  | None => None
  end.

(** Modelled from the spec: see [SetPoolEntry]. *)
Definition SetPoolOverlapInfo0 (poolName : string) (numaID : Z)
    (overlapPoolName : string) (size : Z)
    (r : InternalCPUCalculationResult0) : InternalCPUCalculationResult0 :=
  let byNuma := default ∅ (PoolOverlapInfo0 r !! poolName) in
  let byPool := default ∅ (byNuma !! numaID) in
  {| PoolEntries0 := PoolEntries0 r;
     PoolOverlapInfo0 :=
       <[poolName := <[numaID := <[overlapPoolName := size]> byPool]> byNuma]>
         (PoolOverlapInfo0 r);
     AllowSharedCoresOverlapReclaimedCores0 := AllowSharedCoresOverlapReclaimedCores0 r |}.

Definition setPoolEntries0 (poolSizes : gmap string Z) (numaID : Z)
    (r : InternalCPUCalculationResult0) : InternalCPUCalculationResult0 :=
  map_fold (fun poolName size acc => SetPoolEntry0 poolName numaID size acc) r poolSizes.

Definition setPoolOverlapInfos0 (poolName : string) (numaID : Z)
    (sizes : gmap string Z) (r : InternalCPUCalculationResult0)
  : InternalCPUCalculationResult0 :=
  map_fold (fun overlapPoolName size acc =>
              SetPoolOverlapInfo0 poolName numaID overlapPoolName size acc)
           r sizes.

(** The second assembler: the same fields, and the regions its helper
    indexed when [NewProvisionAssemblerCommon] ran. *)
Record ProvisionAssemblerCommon0 := mkAssembler0 {
  base :> ProvisionAssemblerCommon;
  regionHelper : list QoSRegion
}.

Definition NewProvisionAssemblerCommon0 (pa : ProvisionAssemblerCommon)
  : ProvisionAssemblerCommon0 :=
  {| base := pa; regionHelper := regionMap pa |}.

(** [getNumasReservedForReclaim]. *)
Definition getNumasReservedForReclaim (pa : ProvisionAssemblerCommon) (numas : list Z) : Z :=
  fold_left (fun res id =>
               match reservedForReclaim pa !! id with
               | Some v => res + v
               | None => res
               end) numas 0.

Definition assembly0 : Type := InternalCPUCalculationResult0 * gmap string bool.

(** What the loop of the second [AssembleProvision] accumulates. *)
Record collective0' := mkCollective0 {
  shares : Z;
  isolationUppers : Z;
  sharePoolRequirements0 : gmap string Z;
  isolationUpperSizes0 : gmap string Z;
  isolationLowerSizes0 : gmap string Z
}.

Section Assemblers0.

Variable regulatePoolSizes0 :
  gmap string Z -> Z -> bool -> bool -> gmap string Z * bool.

Variable PodEnableReclaim : string -> bool -> result bool.

Variable MergeMapInt : gmap string Z -> gmap string Z -> gmap string Z.

Variable SortedByValue : gmap string Z -> list (string * Z).

(** The budget of a share region bound to a NUMA. *)
Definition availableSNB0 (pa : ProvisionAssemblerCommon0) (r : QoSRegion) : Z :=
  let available := getNUMAsResource (numaAvailable pa) (GetBindingNumas r) in
  if allowSharedCoresOverlapReclaimedCores pa
  then available + getNUMAsResource (reservedForReclaim pa) (GetBindingNumas r)
  else available.

(** The budget of the non-binding share and isolation pools. *)
Definition shareAndIsolatedPoolAvailable0 (pa : ProvisionAssemblerCommon0) : Z :=
  let available := getNUMAsResource (numaAvailable pa) (nonBindingNumas pa) in
  if allowSharedCoresOverlapReclaimedCores pa
  then available + getNUMAsResource (reservedForReclaim pa) (nonBindingNumas pa)
  else available.

(** The proportional split of the reclaim size over the share pools, with
    the remainder carried to one end of the sorted pools. *)
Definition sharedOverlapReclaimSizeOf0 (sharePoolSizes : gmap string Z)
    (reclaimPoolSizeOfNonBindingNUMAs : Z) : gmap string Z :=
  let sharePoolSum := SumUpMapValues sharePoolSizes in
  let ps := SortedByValue sharePoolSizes in
  let sharedOverlapReclaimSize :=
    fold_left (fun m '(sharePoolName, sharePoolSize) =>
                 let size :=
                   math_Round (int_to_float (reclaimPoolSizeOfNonBindingNUMAs * sharePoolSize)
                               / int_to_float sharePoolSum)%Q in
                 if 0 <? size then <[sharePoolName := size]> m else m)
              ps (∅ : gmap string Z) in
  let diff := reclaimPoolSizeOfNonBindingNUMAs - SumUpMapValues sharedOverlapReclaimSize in
  if 0 <? diff then
    match ps with
    | (key, _) :: _ =>
        <[key := default 0 (sharedOverlapReclaimSize !! key) + diff]>
          sharedOverlapReclaimSize
    | [] => sharedOverlapReclaimSize
    end
  else if diff <? 0 then
    match last ps with
    | Some (key, _) =>
        <[key := default 0 (sharedOverlapReclaimSize !! key) - diff]>
          sharedOverlapReclaimSize
    | None => sharedOverlapReclaimSize
    end
  else sharedOverlapReclaimSize.

Definition assembleShareNB0 (pa : ProvisionAssemblerCommon0) (r : QoSRegion)
    (controlKnob : ControlKnob) (st : assembly0) : result assembly0 :=
  let '(calculationResult, throttled) := st in
  do regionNuma <- firstNuma r;
  let reservedForReclaim := getNumasReservedForReclaim pa (GetBindingNumas r) in
  let nonReclaimRequirement :=
    float_to_int (knobValue controlKnob ControlKnobNonReclaimedCPURequirement) in
  let available := availableSNB0 pa r in
  let isolationRegions := GetRegions (regionHelper pa) regionNuma QoSRegionTypeIsolation in
  do knobs <-
    foldM (fun (acc : list (string * ControlKnob) * Z) isolationRegion =>
             do isolationControlKnob <- GetProvision isolationRegion;
             inr ((Name isolationRegion, isolationControlKnob) :: fst acc,
                  snd acc + float_to_int
                    (knobValue isolationControlKnob
                       ControlKnobNonReclaimedCPURequirementUpper)))
          isolationRegions ([], 0);
  let '(isolationRegionControlKnobs, isolationUpperSum) := knobs in
  let isolationRegionControlKnobKey :=
    match isolationRegions with
    | [] => ControlKnobNonReclaimedCPURequirementUpper
    | _ :: _ =>
        if available <? nonReclaimRequirement + isolationUpperSum
        then ControlKnobNonReclaimedCPURequirementLower
        else ControlKnobNonReclaimedCPURequirementUpper
    end in
  let poolRequirements : gmap string Z :=
    fold_right
      (fun '(isolationRegionName, isolationRegionControlKnob) m =>
         <[isolationRegionName :=
             float_to_int (knobValue isolationRegionControlKnob
                             isolationRegionControlKnobKey)]> m)
      {[ OwnerPoolName r := nonReclaimRequirement ]} isolationRegionControlKnobs in
  let '(poolSizes, poolThrottled) :=
    regulatePoolSizes0 poolRequirements available (nodeEnableReclaim pa)
      (allowSharedCoresOverlapReclaimedCores pa) in
  let throttled := <[Name r := poolThrottled]> throttled in
  let calculationResult := setPoolEntries0 poolSizes regionNuma calculationResult in
  let ownerPoolSize := default 0 (poolSizes !! OwnerPoolName r) in
  let reclaimedCoresSize := available - SumUpMapValues poolSizes + reservedForReclaim in
  let '(calculationResult, reclaimedCoresSize) :=
    if allowSharedCoresOverlapReclaimedCores pa then
      let reclaimedCoresAvail :=
        ownerPoolSize - default 0 (poolRequirements !! OwnerPoolName r) in
      let reclaimedCoresAvail :=
        if negb (nodeEnableReclaim pa) then 0 else reclaimedCoresAvail in
      let reclaimedCoresSize :=
        Z.max (getNumasReservedForReclaim pa (GetBindingNumas r)) reclaimedCoresAvail in
      let reclaimedCoresSize := Z.min reclaimedCoresSize ownerPoolSize in
      (SetPoolOverlapInfo0 PoolNameReclaim regionNuma (OwnerPoolName r)
         reclaimedCoresSize calculationResult,
       reclaimedCoresSize)
    else (calculationResult, reclaimedCoresSize) in
  inr (SetPoolEntry0 PoolNameReclaim regionNuma reclaimedCoresSize calculationResult,
       throttled).

Definition assembleDedicatedNE0 (pa : ProvisionAssemblerCommon0) (r : QoSRegion)
    (controlKnob : ControlKnob) (st : assembly0) : result assembly0 :=
  let '(calculationResult, throttled) := st in
  do regionNuma <- firstNuma r;
  let reservedForReclaim := getNumasReservedForReclaim pa (GetBindingNumas r) in
  match GetPods r with
  | [podUID] =>
      do enableReclaim <- PodEnableReclaim podUID (nodeEnableReclaim pa);
      if negb enableReclaim then
        if 0 <? reservedForReclaim
        then inr (SetPoolEntry0 PoolNameReclaim regionNuma reservedForReclaim
                    calculationResult, throttled)
        else inr (calculationResult, throttled)
      else
        let available := getNUMAsResource (numaAvailable pa) (GetBindingNumas r) in
        let nonReclaimRequirement :=
          float_to_int (knobValue controlKnob ControlKnobNonReclaimedCPURequirement) in
        let reclaimed := available - nonReclaimRequirement + reservedForReclaim in
        inr (SetPoolEntry0 PoolNameReclaim regionNuma reclaimed calculationResult,
             throttled)
  | _ =>
      inl (Errorf "more than one pod are assgined to numa exclusive region")
  end.

(** Body of the loop of the second [AssembleProvision]. *)
Definition assembleRegion0 (pa : ProvisionAssemblerCommon0)
    (acc : assembly0 * collective0') (r : QoSRegion)
  : result (assembly0 * collective0') :=
  let '(st, c) := acc in
  do controlKnob <- GetProvision r;
  match Type_ r with
  | QoSRegionTypeShare =>
      if IsNumaBinding r then
        do st <- assembleShareNB0 pa r controlKnob st; inr (st, c)
      else
        let requirement :=
          float_to_int (knobValue controlKnob ControlKnobNonReclaimedCPURequirement) in
        inr (st,
             {| shares := shares c + requirement;
                isolationUppers := isolationUppers c;
                sharePoolRequirements0 :=
                  <[OwnerPoolName r := requirement]> (sharePoolRequirements0 c);
                isolationUpperSizes0 := isolationUpperSizes0 c;
                isolationLowerSizes0 := isolationLowerSizes0 c |})
  | QoSRegionTypeIsolation =>
      if IsNumaBinding r then
        do regionNuma <- firstNuma r;
        match GetRegions (regionHelper pa) regionNuma QoSRegionTypeShare with
        | [] =>
            inr ((SetPoolEntry0 (Name r) regionNuma
                    (float_to_int
                       (knobValue controlKnob ControlKnobNonReclaimedCPURequirementUpper))
                    (fst st), snd st), c)
        | _ :: _ => inr (st, c)
        end
      else
        let upper :=
          float_to_int (knobValue controlKnob ControlKnobNonReclaimedCPURequirementUpper) in
        inr (st,
             {| shares := shares c;
                isolationUppers := isolationUppers c + upper;
                sharePoolRequirements0 := sharePoolRequirements0 c;
                isolationUpperSizes0 := <[Name r := upper]> (isolationUpperSizes0 c);
                isolationLowerSizes0 :=
                  <[Name r :=
                      float_to_int (knobValue controlKnob
                                      ControlKnobNonReclaimedCPURequirementLower)]>
                    (isolationLowerSizes0 c) |})
  | QoSRegionTypeDedicatedNumaExclusive =>
      do st <- assembleDedicatedNE0 pa r controlKnob st; inr (st, c)
  end.

(** The part of the second [AssembleProvision] after the loop. *)
Definition assembleShare0 (pa : ProvisionAssemblerCommon0) (c : collective0')
    (st : assembly0) : assembly0 :=
  let '(calculationResult, throttled) := st in
  let shareAndIsolatedPoolAvailable := shareAndIsolatedPoolAvailable0 pa in
  let shareAndIsolatePoolSizeRequirements :=
    if shareAndIsolatedPoolAvailable <? shares c + isolationUppers c
    then MergeMapInt (sharePoolRequirements0 c) (isolationLowerSizes0 c)
    else MergeMapInt (sharePoolRequirements0 c) (isolationUpperSizes0 c) in
  let '(shareAndIsolatePoolSizes, poolThrottled) :=
    regulatePoolSizes0 shareAndIsolatePoolSizeRequirements shareAndIsolatedPoolAvailable
      (nodeEnableReclaim pa) (allowSharedCoresOverlapReclaimedCores pa) in
  let throttled :=
    fold_left (fun t r =>
                 if QoSRegionType_eqb (Type_ r) QoSRegionTypeShare && negb (IsNumaBinding r)
                 then <[Name r := poolThrottled]> t else t)
              (regionMap pa) throttled in
  let calculationResult :=
    setPoolEntries0 shareAndIsolatePoolSizes FakedNUMAID calculationResult in
  let reservedNB := getNumasReservedForReclaim pa (nonBindingNumas pa) in
  let reclaimPoolSizeOfNonBindingNUMAs :=
    shareAndIsolatedPoolAvailable - SumUpMapValues shareAndIsolatePoolSizes + reservedNB in
  let '(calculationResult, reclaimPoolSizeOfNonBindingNUMAs) :=
    if allowSharedCoresOverlapReclaimedCores pa then
      let sharePoolSizes : gmap string Z :=
        map_imap (fun poolName _ => Some (default 0 (shareAndIsolatePoolSizes !! poolName)))
                 (sharePoolRequirements0 c) in
      let isolated := shareAndIsolatedPoolAvailable - SumUpMapValues sharePoolSizes in
      let reclaimPoolSize :=
        Z.max reservedNB
          (shareAndIsolatedPoolAvailable - isolated
           - SumUpMapValues (sharePoolRequirements0 c)) in
      let reclaimPoolSize :=
        if negb (nodeEnableReclaim pa) then reservedNB else reclaimPoolSize in
      if 0 <? Z.of_nat (size sharePoolSizes) then
        let reclaimPoolSize := Z.min reclaimPoolSize (SumUpMapValues sharePoolSizes) in
        (setPoolOverlapInfos0 PoolNameReclaim FakedNUMAID
           (sharedOverlapReclaimSizeOf0 sharePoolSizes reclaimPoolSize) calculationResult,
         reclaimPoolSize)
      else (calculationResult, reclaimPoolSize)
    else (calculationResult, reclaimPoolSizeOfNonBindingNUMAs) in
  (SetPoolEntry0 PoolNameReclaim FakedNUMAID reclaimPoolSizeOfNonBindingNUMAs
     calculationResult, throttled).

Definition AssembleProvision0 (pa : ProvisionAssemblerCommon0) : result assembly0 :=
  let calculationResult :=
    {| PoolEntries0 := ∅; PoolOverlapInfo0 := ∅;
       AllowSharedCoresOverlapReclaimedCores0 :=
         allowSharedCoresOverlapReclaimedCores pa |} in
  let calculationResult :=
    SetPoolEntry0 PoolNameReserve FakedNUMAID (reservePoolSize pa) calculationResult in
  do (st, c) <- foldM (assembleRegion0 pa) (regionMap pa)
                      ((calculationResult, ∅),
                       {| shares := 0; isolationUppers := 0;
                          sharePoolRequirements0 := ∅;
                          isolationUpperSizes0 := ∅; isolationLowerSizes0 := ∅ |});
  inr (assembleShare0 pa c st).

End Assemblers0.

(** The sizes of a calculation result of the first implementation, in the
    shape of the second one's result. *)
Definition poolSizesOf (r : InternalCPUCalculationResult) : gmap string (gmap Z Z) :=
  (fun entries : gmap Z CPUResource => Size <$> entries) <$> PoolEntries r.

(** The reclaim entry that the specification prescribes for a dedicated
    NUMA-exclusive region. *)
Definition dedicatedReclaimSpec (v2 : bool) (pa : ProvisionAssemblerCommon)
    (r : QoSRegion) (knob : ControlKnob) (entry : CPUResource) : Prop :=
  let available := getNUMAsResource (numaAvailable pa) (GetBindingNumas r) in
  let reserved := getNUMAsResource (reservedForReclaim pa) (GetBindingNumas r) in
  let nonReclaim :=
    if EnableReclaim r
    then float_to_int (knobValue knob ControlKnobNonReclaimedCPURequirement)
    else available in
  if v2 then
    Size entry = available /\
    (Quota entry ==
       match knob ControlKnobReclaimedCPUQuota with
       | Some quota => Qmin (inject_Z (Z.max reserved (available - nonReclaim))) quota
       | None => inject_Z (Z.max reserved (available - nonReclaim))
       end)%Q
  else Size entry = Z.max reserved (available - nonReclaim).

(** Scenario 3 of the specification: one dedicated region on a NUMA of 32
    cores, nothing reserved, 6 cores reserved for reclaim, a knob of 20. *)
Definition scenario3Region : QoSRegion :=
  {| Name := "dedicated-numa-exclusive-0";
     Type_ := QoSRegionTypeDedicatedNumaExclusive;
     IsNumaBinding := true;
     GetBindingNumas := [0];
     OwnerPoolName := "dedicated";
     GetProvision :=
       inr (fun name =>
              match name with
              | ControlKnobNonReclaimedCPURequirement => Some 20%Q
              | _ => None
              end);
     GetPodsRequest := 20%Q;
     EnableReclaim := true;
     GetPods := ["pod-0"%string] |}.

Definition scenario3 : ProvisionAssemblerCommon :=
  {| regionMap := [scenario3Region];
     reservedForReclaim := {[ 0 := 6 ]};
     numaAvailable := {[ 0 := 32 - 0 ]};
     nonBindingNumas := [];
     allowSharedCoresOverlapReclaimedCores := false;
     nodeEnableReclaim := true;
     reservePoolSize := 0 |}.

(** *** The two versions compared *)

(** A node whose only region is a share region without NUMA binding; shared
    and reclaimed cores may overlap. *)
Definition shareRegion : QoSRegion :=
  {| Name := "share";
     Type_ := QoSRegionTypeShare;
     IsNumaBinding := false;
     GetBindingNumas := [0];
     OwnerPoolName := "share";
     GetProvision :=
       inr (fun name =>
              match name with
              | ControlKnobNonReclaimedCPURequirement => Some 4%Q
              | _ => None
              end);
     GetPodsRequest := 4%Q;
     EnableReclaim := true;
     GetPods := ["pod-1"%string] |}.

Definition overlapNode : ProvisionAssemblerCommon :=
  {| regionMap := [shareRegion];
     reservedForReclaim := {[ 0 := 4 ]};
     numaAvailable := {[ 0 := 10 ]};
     nonBindingNumas := [0];
     allowSharedCoresOverlapReclaimedCores := true;
     nodeEnableReclaim := true;
     reservePoolSize := 0 |}.

Definition overlapNodeSizes : gmap string (gmap Z Z) :=
  {[ "reserve"%string := {[ -1 := 0 ]};
     "share"%string := {[ -1 := 10 ]};
     "reclaim"%string := {[ -1 := 6 ]} ]}.

Definition overlapNodeSizes0 : gmap string (gmap Z Z) :=
  {[ "reserve"%string := {[ -1 := 0 ]};
     "share"%string := {[ -1 := 14 ]};
     "reclaim"%string := {[ -1 := 10 ]} ]}.

(** Regulators that give every share pool the whole budget when they may
    expand; with the union and the entry list of maps they meet the
    assumptions under which the two implementations are compared. *)
Definition expandingRegulator (share isolation : gmap string Z) (budget : Z)
    (allowExpand : bool) : gmap string Z * bool :=
  (if allowExpand then (fun _ => budget) <$> share else share, false).

Definition expandingRegulator0 (pools : gmap string Z) (budget : Z)
    (enableReclaim allowOverlap : bool) : gmap string Z * bool :=
  (if allowOverlap then (fun _ => budget) <$> pools else pools, false).


(** *** The region index of the second implementation

    [RegionMapHelper]: NUMA id to region type to the regions of that type
    bound to that NUMA; a type without record reads as the empty slice. *)
Abbreviation RegionMapHelper := (gmap Z (QoSRegionType -> list QoSRegion)).

Definition preProcessRegions (regions : list QoSRegion) (rm : RegionMapHelper)
  : RegionMapHelper :=
  fold_left
    (fun rm r =>
       fold_left
         (fun (rm : RegionMapHelper) numaID =>
            let numaRecords := default (fun _ => []) (rm !! numaID) in
            let numaRegions := numaRecords (Type_ r) ++ [r] in
            <[numaID := fun regionType =>
                          if QoSRegionType_eqb regionType (Type_ r)
                          then numaRegions else numaRecords regionType]> rm)
         (GetBindingNumas r) rm)
    regions rm.

Definition NewRegionMap (regions : list QoSRegion) : RegionMapHelper :=
  preProcessRegions regions ∅.

(** The method [GetRegions] of [RegionMapHelper]. *)
Definition RegionMapHelper_GetRegions (rm : RegionMapHelper) (numaID : Z)
    (regionType : QoSRegionType) : list QoSRegion :=
  match rm !! numaID with
  | None => []
  | Some numaRecords => numaRecords regionType
  end.

(** A region whose provision policy has no result yet, on the node of
    scenario 3. *)
Definition pendingRegion : QoSRegion :=
  {| Name := "share-pending";
     Type_ := QoSRegionTypeShare;
     IsNumaBinding := false;
     GetBindingNumas := [0];
     OwnerPoolName := "share";
     GetProvision := inl (Errorf "no valid provision");
     GetPodsRequest := 4%Q;
     EnableReclaim := true;
     GetPods := ["pod-2"%string] |}.

Definition pendingNode : ProvisionAssemblerCommon :=
  {| regionMap := [scenario3Region; pendingRegion];
     reservedForReclaim := reservedForReclaim scenario3;
     numaAvailable := numaAvailable scenario3;
     nonBindingNumas := [];
     allowSharedCoresOverlapReclaimedCores := false;
     nodeEnableReclaim := true;
     reservePoolSize := 0 |}.

(** An isolation region alone on NUMA 1: 32 cores available, 6 reserved for
    reclaim, an upper requirement of 8 and a lower one of 4. *)
Definition isolationRegion : QoSRegion :=
  {| Name := "isolation-0";
     Type_ := QoSRegionTypeIsolation;
     IsNumaBinding := true;
     GetBindingNumas := [1];
     OwnerPoolName := "isolation-0";
     GetProvision :=
       inr (fun name =>
              match name with
              | ControlKnobNonReclaimedCPURequirementUpper => Some 8%Q
              | ControlKnobNonReclaimedCPURequirementLower => Some 4%Q
              | _ => None
              end);
     GetPodsRequest := 8%Q;
     EnableReclaim := true;
     GetPods := ["pod-3"%string] |}.

Definition isolationNode : ProvisionAssemblerCommon :=
  {| regionMap := [isolationRegion];
     reservedForReclaim := {[ 1 := 6 ]};
     numaAvailable := {[ 1 := 32 ]};
     nonBindingNumas := [];
     allowSharedCoresOverlapReclaimedCores := false;
     nodeEnableReclaim := true;
     reservePoolSize := 0 |}.

Definition emptyCalculationResult : InternalCPUCalculationResult :=
  {| PoolEntries := ∅; PoolOverlapInfo := ∅;
     AllowSharedCoresOverlapReclaimedCores := false |}.

Definition isolationAssembly : assembly :=
  (SetPoolEntry PoolNameReclaim 1 24 (-1)
     (SetPoolEntry "isolation-0" 1 8 (-1) emptyCalculationResult), ∅).

(** Reading an overlap record of a calculation result: the size that
    [poolName] shares with [overlapPoolName] at a NUMA. *)
Definition overlapSizeOf (poolName : string) (numaID : Z) (overlapPoolName : string)
    (r : InternalCPUCalculationResult) : option Z :=
  match PoolOverlapInfo r !! poolName with
  | Some byNuma =>
      match byNuma !! numaID with
      | Some byPool => byPool !! overlapPoolName
      | None => None
      end
  | None => None
  end.

(** A share region bound to NUMA 0 on a node where shared and reclaimed
    cores may overlap: 10 cores available, 4 reserved for reclaim, a
    requirement of 4. *)
Definition shareNumaRegion : QoSRegion :=
  {| Name := "share-numa";
     Type_ := QoSRegionTypeShare;
     IsNumaBinding := true;
     GetBindingNumas := [0];
     OwnerPoolName := "share-numa";
     GetProvision :=
       inr (fun name =>
              match name with
              | ControlKnobNonReclaimedCPURequirement => Some 4%Q
              | _ => None
              end);
     GetPodsRequest := 4%Q;
     EnableReclaim := true;
     GetPods := ["pod-4"%string] |}.

Definition shareNumaNode : ProvisionAssemblerCommon :=
  {| regionMap := [shareNumaRegion];
     reservedForReclaim := {[ 0 := 4 ]};
     numaAvailable := {[ 0 := 10 ]};
     nonBindingNumas := [];
     allowSharedCoresOverlapReclaimedCores := true;
     nodeEnableReclaim := true;
     reservePoolSize := 0 |}.

Definition shareNumaAssembly : assembly :=
  (SetPoolEntry PoolNameReclaim 0 6 (-1)
     (SetPoolOverlapInfo PoolNameReclaim 0 "share-numa" 6
        (SetPoolEntry "share-numa" 0 10 (-1) emptyCalculationResult)),
   {[ "share-numa"%string := false ]}).

(** The integer value of a knob of a region's provision; a region without
    provision reads as zero. *)
Definition requirementOf (r : QoSRegion) (name : ControlKnobName) : Z :=
  match GetProvision r with
  | inr controlKnob => float_to_int (knobValue controlKnob name)
  | inl _ => 0
  end.

Definition sumOfRequirements (regions : list QoSRegion) (name : ControlKnobName) : Z :=
  fold_right (fun r acc => requirementOf r name + acc) 0 regions.

(** An isolation region that shares NUMA 0 with [shareNumaRegion]; the
    requests of the two do not fit in the 10 cores of the NUMA. *)
Definition crowdingRegion : QoSRegion :=
  {| Name := "isolation-1";
     Type_ := QoSRegionTypeIsolation;
     IsNumaBinding := true;
     GetBindingNumas := [0];
     OwnerPoolName := "isolation-1";
     GetProvision :=
       inr (fun name =>
              match name with
              | ControlKnobNonReclaimedCPURequirementUpper => Some 8%Q
              | ControlKnobNonReclaimedCPURequirementLower => Some 4%Q
              | _ => None
              end);
     GetPodsRequest := 8%Q;
     EnableReclaim := true;
     GetPods := ["pod-5"%string] |}.

Definition crowdedNumaNode : ProvisionAssemblerCommon :=
  {| regionMap := [shareNumaRegion; crowdingRegion];
     reservedForReclaim := {[ 0 := 4 ]};
     numaAvailable := {[ 0 := 10 ]};
     nonBindingNumas := [];
     allowSharedCoresOverlapReclaimedCores := false;
     nodeEnableReclaim := true;
     reservePoolSize := 0 |}.

End Assembler.

(** ** CPU resource advisor (plugin/qosaware/resource/cpu, advisor) *)

Module Advisor.

Inductive QoSLevel : Type :=
  | PodAnnotationQoSLevelSharedCores
  | PodAnnotationQoSLevelDedicatedCores
  | PodAnnotationQoSLevelReclaimedCores
  | PodAnnotationQoSLevelSystemCores.

(** The fields of [types.ContainerInfo] the advisor reads or writes, and the
    result of its method [IsNumaBinding]. *)
Record ContainerInfo := mkContainerInfo {
  PodUID : string;
  ContainerName : string;
  QoSLevelOf : QoSLevel;
  OwnerPoolName : string;
  OriginOwnerPoolName : string;
  TopologyAwareAssignments : gmap Z (gset Z);
  CPURequest : Q;
  CPULimit : Q;
  Isolated : bool;
  RampUp : bool;
  IsNumaBinding : bool
}.

Definition metricCPUAdvisorPoolSize : string := "cpu_advisor_pool_size".

Definition metricCPUAdvisorPoolQuota : string := "cpu_advisor_pool_quota".

Definition metricCPUAdvisorUpdateDuration : string := "cpu_advisor_update_duration".

Definition metricRegionStatus : string := "region_status".

Definition metricRegionIndicatorTargetPrefix : string := "region_indicator_target_".

Definition metricRegionIndicatorCurrentPrefix : string := "region_indicator_current_".

Definition metricRegionIndicatorErrorPrefix : string := "region_indicator_error_".

(** *** Container to region assignment *)

Section Assignment.

(** The configuration, the lookups into the meta cache and the region
    constructors, none of which is under src/. *)
Variable EnableShareCoresNumaBinding : bool.

Variable IsolationForceEnablePools : gset string.

Variable IsolationNonExclusivePools : gset string.

Variable getPoolRegions : string -> list Assembler.QoSRegion.

Variable getRegionsByRegionNames : gset string -> list Assembler.QoSRegion.

Variable getContainerRegions :
  ContainerInfo -> Assembler.QoSRegionType -> result (list Assembler.QoSRegion).

Variable NewQoSRegionIsolation : ContainerInfo -> string -> Z -> Assembler.QoSRegion.

Variable NewQoSRegionShare : ContainerInfo -> Z -> Assembler.QoSRegion.

Variable NewQoSRegionDedicatedNumaExclusive : ContainerInfo -> Z -> Assembler.QoSRegion.

Definition emptyOwnerPoolName (ci : ContainerInfo) : error :=
  Errorf ("empty owner pool name, " ++ PodUID ci ++ "/" ++ ContainerName ci).

(** The first part of [assignShareContainerToRegions]: either the NUMA the
    region is keyed on, or the values the function returns at once. *)
Definition shareContainerNuma (ci : ContainerInfo)
  : Z + (list Assembler.QoSRegion * option error) :=
  if EnableShareCoresNumaBinding && IsNumaBinding ci then
    if String.eqb (OwnerPoolName ci) "" then inr ([], Some (emptyOwnerPoolName ci))
    else
      match map_to_list (TopologyAwareAssignments ci) with
      | [(key, _)] => inl key
      | _ =>
          inr ([], Some (Errorf ("invalid topology aware assignments of container: "
                                 ++ PodUID ci ++ "/" ++ ContainerName ci)))
      end
  else
    if RampUp ci then inr ([], None)
    else if String.eqb (OwnerPoolName ci) ""
            && Qlt_bool (math_Abs (CPURequest ci)) 1000000000%Q
    then inr ([], None)
    else if negb (RampUp ci) && String.eqb (OwnerPoolName ci) ""
    then inr ([], Some (emptyOwnerPoolName ci))
    else inl Assembler.FakedNUMAID.

Definition nonEmpty {A} (l : list A) : bool :=
  match l with [] => false | _ :: _ => true end.

Definition assignShareContainerToRegions (ci : ContainerInfo)
  : list Assembler.QoSRegion * option error :=
  match shareContainerNuma ci with
  | inr returned => returned
  | inl numaID =>
      if Isolated ci || bool_decide (OriginOwnerPoolName ci ∈ IsolationForceEnablePools)
      then
        let create regionName := ([NewQoSRegionIsolation ci regionName numaID], None) in
        if bool_decide (OriginOwnerPoolName ci ∈ IsolationNonExclusivePools) then
          let regionName := OriginOwnerPoolName ci in
          if nonEmpty (getPoolRegions regionName)
          then (getPoolRegions regionName, None)
          else if nonEmpty (getRegionsByRegionNames {[ regionName ]})
          then (getRegionsByRegionNames {[ regionName ]}, None)
          else create regionName
        else
          match getContainerRegions ci Assembler.QoSRegionTypeIsolation with
          | inl err => ([], Some err)
          | inr regions =>
              if nonEmpty regions then (regions, None) else create ""%string
          end
      else
        if nonEmpty (getPoolRegions (OriginOwnerPoolName ci))
        then (getPoolRegions (OriginOwnerPoolName ci), None)
        else ([NewQoSRegionShare ci numaID], None)
  end.

Definition assignDedicatedContainerToRegions (ci : ContainerInfo)
  : list Assembler.QoSRegion * option error :=
  match getContainerRegions ci Assembler.QoSRegionTypeDedicatedNumaExclusive with
  | inl err => ([], Some err)
  | inr regions =>
      if nonEmpty regions then (regions, None)
      else
        (regions ++
           map (fun entry => NewQoSRegionDedicatedNumaExclusive ci (fst entry))
               (map_to_list (TopologyAwareAssignments ci)),
         None)
  end.

(** [assignToRegions]; a nil container is [None]. *)
Definition assignToRegions (ci : option ContainerInfo)
  : list Assembler.QoSRegion * option error :=
  match ci with
  | None => ([], Some (Errorf "container info is nil"))
  | Some ci =>
      match QoSLevelOf ci with
      | PodAnnotationQoSLevelSharedCores => assignShareContainerToRegions ci
      | PodAnnotationQoSLevelDedicatedCores => assignDedicatedContainerToRegions ci
      | _ => ([], None)
      end
  end.

End Assignment.

(** *** The tick *)

(** The state the advisor shares with the meta cache and the meta server.
    The region map and the containers are listed in the order in which they
    are ranged over. *)
Record world := mkWorld {
  regionMap : list Assembler.QoSRegion;
  containers : list ContainerInfo;
  nonBindingNumas : list Z;
  numRegionsPerNuma : gmap Z Z;
  allowSharedCoresOverlapReclaimedCores : bool;
  reservePoolExists : bool;
  NUMANodes : list Z;
  NUMAToCPUs : gmap Z (gset Z)
}.

(** [cpuResourceAdvisor]: the flag, the shared state, whether the two
    assemblers were initialised, and the names of the metrics stored in the
    emitter so far. *)
Record cpuResourceAdvisor := mkAdvisor {
  advisorUpdated : bool;
  shared : world;
  provisionAssembler : bool;
  headroomAssembler : bool;
  emitted : list string
}.

(** Modelled from the spec: [CPUSizeInNUMAs] is not under src/; the spec
    reads it as the cpu capacity of the given NUMAs. *)
Definition CPUSizeInNUMAs (w : world) (numas : list Z) : Z :=
  fold_left (fun res id => res + Z.of_nat (size (default ∅ (NUMAToCPUs w !! id))))
            numas 0.

(** The CPU limits, as ints, of the containers of the given pods. *)
Definition podsCPULimit (w : world) (pods : list string) : Z :=
  fold_left (fun res containerInfo =>
               if bool_decide (PodUID containerInfo ∈ pods)
               then res + float_to_int (CPULimit containerInfo) else res)
            (containers w) 0.

(** Body of the loop of [checkIsolationSafety]; an error of [GetProvision]
    ends the check. *)
Definition isolationSafetyStep (w : world) (shareAndIsolationPoolSize : Z)
    (r : Assembler.QoSRegion) : result Z :=
  match Assembler.Type_ r with
  | Assembler.QoSRegionTypeShare =>
      do controlKnob <- Assembler.GetProvision r;
      inr (shareAndIsolationPoolSize
           + float_to_int (Assembler.knobValue controlKnob
                             Assembler.ControlKnobNonReclaimedCPURequirement))
  | Assembler.QoSRegionTypeIsolation =>
      inr (shareAndIsolationPoolSize + podsCPULimit w (Assembler.GetPods r))
  | Assembler.QoSRegionTypeDedicatedNumaExclusive => inr shareAndIsolationPoolSize
  end.

(** [checkIsolationSafety].  The set of non-binding NUMAs the function
    computes locally is not used; the capacity is that of the advisor's
    [nonBindingNumas]. *)
Definition checkIsolationSafety (w : world) : bool :=
  match foldM (isolationSafetyStep w) (regionMap w) 0 with
  | inl _ => false
  | inr shareAndIsolationPoolSize =>
      let nonBindingSize := CPUSizeInNUMAs w (nonBindingNumas w) in
      if nonBindingSize <? shareAndIsolationPoolSize then false else true
  end.

Definition setBindingNumas (numas : list Z) (r : Assembler.QoSRegion)
  : Assembler.QoSRegion :=
  {| Assembler.Name := Assembler.Name r;
     Assembler.Type_ := Assembler.Type_ r;
     Assembler.IsNumaBinding := Assembler.IsNumaBinding r;
     Assembler.GetBindingNumas := numas;
     Assembler.OwnerPoolName := Assembler.OwnerPoolName r;
     Assembler.GetProvision := Assembler.GetProvision r;
     Assembler.GetPodsRequest := Assembler.GetPodsRequest r;
     Assembler.EnableReclaim := Assembler.EnableReclaim r;
     Assembler.GetPods := Assembler.GetPods r |}.

Definition difference (a b : list Z) : list Z :=
  filter (fun id => id ∉ b) a.

Section Tick.

(** Parts of the tick that are not under src/ or that belong to other
    components: the refresh of the available resources, the isolator, the
    construction of the region map, the policies of the regions, the two
    assemblers and the indicators a region exposes.  They act on the shared
    state only. *)
Variable updateNumasAvailableResource : world -> world.

Variable GetIsolatedPods : world -> list string.

Variable assignContainersToRegions : world -> world * option string.

Variable gcRegionMap : world -> world.

Variable AllowSharedCoresOverlapReclaimedCoresConf : bool.

Variable updateRegions : world -> world.

Variable AssembleProvision :
  world -> world * result Assembler.InternalCPUCalculationResult.

Variable updateRegionStatus : world -> world.

Variable indicatorNames : Assembler.QoSRegion -> list string.

Variable HeadroomAssemblerGetHeadroom : world -> result (Z * gmap Z Z).

(** [setIsolatedContainers]. *)
Definition setIsolatedContainers (enableIsolated : bool) (w : world) : world * bool :=
  let isolatedPods := if enableIsolated then GetIsolatedPods w else [] in
  ({| regionMap := regionMap w;
      containers :=
        map (fun ci =>
               {| PodUID := PodUID ci; ContainerName := ContainerName ci;
                  QoSLevelOf := QoSLevelOf ci; OwnerPoolName := OwnerPoolName ci;
                  OriginOwnerPoolName := OriginOwnerPoolName ci;
                  TopologyAwareAssignments := TopologyAwareAssignments ci;
                  CPURequest := CPURequest ci; CPULimit := CPULimit ci;
                  Isolated := bool_decide (PodUID ci ∈ isolatedPods);
                  RampUp := RampUp ci; IsNumaBinding := IsNumaBinding ci |})
            (containers w);
      nonBindingNumas := nonBindingNumas w;
      numRegionsPerNuma := numRegionsPerNuma w;
      allowSharedCoresOverlapReclaimedCores := allowSharedCoresOverlapReclaimedCores w;
      reservePoolExists := reservePoolExists w;
      NUMANodes := NUMANodes w;
      NUMAToCPUs := NUMAToCPUs w |},
   nonEmpty isolatedPods).

(** [updateAdvisorEssentials]. *)
Definition updateAdvisorEssentials (w : world) : world :=
  let nonBinding :=
    fold_left (fun numas r =>
                 if negb (Assembler.IsNumaBinding r) then numas
                 else
                   match Assembler.Type_ r with
                   | Assembler.QoSRegionTypeDedicatedNumaExclusive
                   | Assembler.QoSRegionTypeShare =>
                       difference numas (Assembler.GetBindingNumas r)
                   | Assembler.QoSRegionTypeIsolation => numas
                   end)
              (regionMap w) (NUMANodes w) in
  let regions :=
    map (fun r =>
           if negb (Assembler.IsNumaBinding r)
              && Assembler.QoSRegionType_eqb (Assembler.Type_ r)
                   Assembler.QoSRegionTypeShare
           then setBindingNumas nonBinding r else r)
        (regionMap w) in
  let reset :=
    fold_left (fun m numaID => <[numaID := 0]> m) (NUMANodes w) (numRegionsPerNuma w) in
  let counted :=
    fold_left (fun m r =>
                 fold_left (fun m numaID => <[numaID := default 0 (m !! numaID) + 1]> m)
                           (Assembler.GetBindingNumas r) m)
              regions reset in
  {| regionMap := regions;
     containers := containers w;
     nonBindingNumas := nonBinding;
     numRegionsPerNuma := counted;
     allowSharedCoresOverlapReclaimedCores := AllowSharedCoresOverlapReclaimedCoresConf;
     reservePoolExists := reservePoolExists w;
     NUMANodes := NUMANodes w;
     NUMAToCPUs := NUMAToCPUs w |}.

(** [assembleProvision]. *)
Definition assembleProvision (cra : cpuResourceAdvisor) (w : world)
  : world * result Assembler.InternalCPUCalculationResult :=
  if provisionAssembler cra then AssembleProvision w
  else (w, inl (Errorf "no legal provision assembler")).

(** The names of the metrics [emitMetrics] stores. *)
Definition emitMetrics (w : world)
    (calculationResult : Assembler.InternalCPUCalculationResult) : list string :=
  flat_map (fun r =>
              metricRegionStatus ::
              flat_map (fun indicatorName =>
                          [(metricRegionIndicatorTargetPrefix ++ indicatorName)%string;
                           (metricRegionIndicatorCurrentPrefix ++ indicatorName)%string;
                           (metricRegionIndicatorErrorPrefix ++ indicatorName)%string])
                       (indicatorNames r))
           (regionMap w)
  ++ flat_map (fun poolEntry =>
                 flat_map (fun _ => [metricCPUAdvisorPoolSize; metricCPUAdvisorPoolQuota])
                          (map_to_list (snd poolEntry)))
              (map_to_list (Assembler.PoolEntries calculationResult)).

(** The shared state at the point where the isolation safety is checked,
    when the tick gets that far. *)
Definition regionsAssigned (tryIsolation : bool) (w : world)
  : world * bool * option string :=
  let w := updateNumasAvailableResource w in
  let '(w, isolationExists) := setIsolatedContainers tryIsolation w in
  let '(w, err) := assignContainersToRegions w in
  (w, isolationExists, err).

(** The shared state on which the isolation safety is checked. *)
Definition checkedWorld (tryIsolation : bool) (cra : cpuResourceAdvisor) : world :=
  updateAdvisorEssentials
    (gcRegionMap (fst (fst (regionsAssigned tryIsolation (shared cra))))).

(** The run gets as far as the isolation safety check. *)
Definition reachesCheck (tryIsolation : bool) (cra : cpuResourceAdvisor) : bool :=
  reservePoolExists (shared cra)
  && match snd (regionsAssigned tryIsolation (shared cra)) with
     | None => true
     | Some _ => false
     end.

Definition isolationExists (tryIsolation : bool) (cra : cpuResourceAdvisor) : bool :=
  snd (fst (regionsAssigned tryIsolation (shared cra))).

(** The run gets past the check, to the update of the region policies and
    the assignment of the flag. *)
Definition policiesUpdated (tryIsolation : bool) (cra : cpuResourceAdvisor) : bool :=
  reachesCheck tryIsolation cra
  && negb (tryIsolation && isolationExists tryIsolation cra
           && negb (checkIsolationSafety (checkedWorld tryIsolation cra))).

(** [updateWithIsolationGuardian].  The deferred function stores the update
    duration on every return. *)
Definition updateWithIsolationGuardian (tryIsolation : bool) (cra : cpuResourceAdvisor)
  : cpuResourceAdvisor * result Assembler.InternalCPUCalculationResult :=
  let finish (updated : bool) (w : world) (names : list string)
             (r : result Assembler.InternalCPUCalculationResult) :=
    ({| advisorUpdated := updated; shared := w;
        provisionAssembler := provisionAssembler cra;
        headroomAssembler := headroomAssembler cra;
        emitted := emitted cra ++ names ++ [metricCPUAdvisorUpdateDuration] |}, r) in
  if negb (reservePoolExists (shared cra))
  then finish (advisorUpdated cra) (shared cra) []
         (inl (Errorf "reserve pool does not exist"))
  else
    let '(w, isolationExists, err) := regionsAssigned tryIsolation (shared cra) in
    match err with
    | Some msg =>
        finish (advisorUpdated cra) w []
          (inl (Errorf ("failed to assign containers to regions: " ++ msg)))
    | None =>
        let w := updateAdvisorEssentials (gcRegionMap w) in
        if tryIsolation && isolationExists && negb (checkIsolationSafety w)
        then finish (advisorUpdated cra) w [] (inl errIsolationSafetyCheckFailed)
        else
          let w := updateRegions w in
          let '(w, assembled) := assembleProvision cra w in
          match assembled with
          | inl _ => finish true w [] (inl (Errorf "failed to assemble provisioner"))
          | inr calculationResult =>
              let w := updateRegionStatus w in
              finish true w (emitMetrics w calculationResult) (inr calculationResult)
          end
    end.

(** [update]. *)
Definition update (cra : cpuResourceAdvisor)
  : cpuResourceAdvisor * result Assembler.InternalCPUCalculationResult :=
  let '(cra', r) := updateWithIsolationGuardian true cra in
  match r with
  | inl errIsolationSafetyCheckFailed => updateWithIsolationGuardian false cra'
  | inl err => (cra', inl err)
  | inr calculationResult => (cra', inr calculationResult)
  end.

(** [GetHeadroom]. *)
Definition GetHeadroom (cra : cpuResourceAdvisor) : result (Z * gmap Z Z) :=
  if negb (advisorUpdated cra) then inl (Errorf "advisor not updated")
  else if negb (headroomAssembler cra) then inl (Errorf "no legal assembler")
  else HeadroomAssemblerGetHeadroom (shared cra).

End Tick.

(** [NewCPUResourceAdvisor]: nothing is updated yet. *)
Definition NewCPUResourceAdvisor (w : world) (provision headroom : bool)
  : cpuResourceAdvisor :=
  {| advisorUpdated := false; shared := w;
     provisionAssembler := provision; headroomAssembler := headroom;
     emitted := [] |}.

(** A shared-cores container past ramp-up, without owner pool and without
    request information. *)
Definition idleContainer : ContainerInfo :=
  {| PodUID := "pod-0"; ContainerName := "main";
     QoSLevelOf := PodAnnotationQoSLevelSharedCores;
     OwnerPoolName := ""; OriginOwnerPoolName := "";
     TopologyAwareAssignments := ∅;
     CPURequest := 0%Q; CPULimit := 0%Q;
     Isolated := false; RampUp := false; IsNumaBinding := false |}.

Definition rampingContainer : ContainerInfo :=
  {| PodUID := "pod-1"; ContainerName := "main";
     QoSLevelOf := PodAnnotationQoSLevelSharedCores;
     OwnerPoolName := ""; OriginOwnerPoolName := "";
     TopologyAwareAssignments := ∅;
     CPURequest := 2%Q; CPULimit := 4%Q;
     Isolated := false; RampUp := true; IsNumaBinding := false |}.

(** A region as the constructors of the region package would build it. *)
Definition newRegion (regionType : Assembler.QoSRegionType) (ci : ContainerInfo)
    (regionName : string) (numaID : Z) : Assembler.QoSRegion :=
  {| Assembler.Name := regionName;
     Assembler.Type_ := regionType;
     Assembler.IsNumaBinding := negb (numaID =? Assembler.FakedNUMAID);
     Assembler.GetBindingNumas := [numaID];
     Assembler.OwnerPoolName := OriginOwnerPoolName ci;
     Assembler.GetProvision := inl (Errorf "provision not ready");
     Assembler.GetPodsRequest := CPURequest ci;
     Assembler.EnableReclaim := true;
     Assembler.GetPods := [PodUID ci] |}.

Definition assignToRegionsNoRegions : option ContainerInfo ->
    list Assembler.QoSRegion * option error :=
  assignToRegions false ∅ ∅ (fun _ => []) (fun _ => []) (fun _ _ => inr [])
    (newRegion Assembler.QoSRegionTypeIsolation)
    (fun ci => newRegion Assembler.QoSRegionTypeShare ci (OriginOwnerPoolName ci))
    (fun ci => newRegion Assembler.QoSRegionTypeDedicatedNumaExclusive ci (PodUID ci)).

(** *** The tick: isolation retry and the updated flag *)

(** How many update durations the emitter holds: one per run of
    [updateWithIsolationGuardian]. *)
Definition durations (cra : cpuResourceAdvisor) : nat :=
  count_occ String.string_dec (emitted cra) metricCPUAdvisorUpdateDuration.

(** The sum that [checkIsolationSafety] compares with the capacity of the
    non-binding NUMAs: the requirement of every share region and the CPU
    limits of the containers of every isolation region. *)
Definition shareAndIsolationPoolSize (w : world) : Z :=
  fold_left (fun acc r =>
               match isolationSafetyStep w acc r with
               | inr v => v
               | inl _ => acc
               end) (regionMap w) 0.

(** A node of two NUMAs of eight cpus with a share region that requires ten
    cores and an isolation region whose pod is limited to eight. *)
Definition crowdedWorld : world :=
  {| regionMap :=
       [ {| Assembler.Name := "share";
            Assembler.Type_ := Assembler.QoSRegionTypeShare;
            Assembler.IsNumaBinding := false;
            Assembler.GetBindingNumas := [0; 1];
            Assembler.OwnerPoolName := "share";
            Assembler.GetProvision :=
              inr (fun name =>
                     match name with
                     | Assembler.ControlKnobNonReclaimedCPURequirement => Some 10%Q
                     | _ => None
                     end);
            Assembler.GetPodsRequest := 10%Q;
            Assembler.EnableReclaim := true;
            Assembler.GetPods := ["pod-share"%string] |};
         {| Assembler.Name := "isolation-pod-iso";
            Assembler.Type_ := Assembler.QoSRegionTypeIsolation;
            Assembler.IsNumaBinding := false;
            Assembler.GetBindingNumas := [0; 1];
            Assembler.OwnerPoolName := "share";
            Assembler.GetProvision := inr (fun _ => Some 8%Q);
            Assembler.GetPodsRequest := 4%Q;
            Assembler.EnableReclaim := true;
            Assembler.GetPods := ["pod-iso"%string] |} ];
     containers :=
       [ {| PodUID := "pod-share"; ContainerName := "main";
            QoSLevelOf := PodAnnotationQoSLevelSharedCores;
            OwnerPoolName := "share"; OriginOwnerPoolName := "share";
            TopologyAwareAssignments := ∅;
            CPURequest := 10%Q; CPULimit := 10%Q;
            Isolated := false; RampUp := false; IsNumaBinding := false |};
         {| PodUID := "pod-iso"; ContainerName := "main";
            QoSLevelOf := PodAnnotationQoSLevelSharedCores;
            OwnerPoolName := "share"; OriginOwnerPoolName := "share";
            TopologyAwareAssignments := ∅;
            CPURequest := 4%Q; CPULimit := 8%Q;
            Isolated := false; RampUp := false; IsNumaBinding := false |} ];
     nonBindingNumas := [0; 1];
     numRegionsPerNuma := ∅;
     allowSharedCoresOverlapReclaimedCores := false;
     reservePoolExists := true;
     NUMANodes := [0; 1];
     NUMAToCPUs := {[ 0 := list_to_set [0; 1; 2; 3; 4; 5; 6; 7];
                      1 := list_to_set [8; 9; 10; 11; 12; 13; 14; 15] ]} |}.

(** Collaborators that leave the shared state alone; the isolator reports the
    given pods, and provision assembly yields the given outcome. *)
Definition stubTick (isolatedPods : list string)
    (assembled : result Assembler.InternalCPUCalculationResult)
    (cra : cpuResourceAdvisor)
  : cpuResourceAdvisor * result Assembler.InternalCPUCalculationResult :=
  update (fun w => w) (fun _ => isolatedPods) (fun w => (w, None)) (fun w => w) false
    (fun w => w) (fun w => (w, assembled)) (fun w => w) (fun _ => []) cra.

Definition emptyResult : Assembler.InternalCPUCalculationResult :=
  {| Assembler.PoolEntries := ∅; Assembler.PoolOverlapInfo := ∅;
     Assembler.AllowSharedCoresOverlapReclaimedCores := false |}.


(** A shared-cores container of pool "share", past ramp-up, bound to NUMA 1. *)
Definition boundContainer : ContainerInfo :=
  {| PodUID := "pod-2"; ContainerName := "main";
     QoSLevelOf := PodAnnotationQoSLevelSharedCores;
     OwnerPoolName := "share"; OriginOwnerPoolName := "share";
     TopologyAwareAssignments := {[ 1 := list_to_set [8; 9] ]};
     CPURequest := 2%Q; CPULimit := 2%Q;
     Isolated := false; RampUp := false; IsNumaBinding := true |}.

(** A dedicated-cores container that spans NUMA 0 and NUMA 1. *)
Definition dedicatedContainer : ContainerInfo :=
  {| PodUID := "pod-3"; ContainerName := "main";
     QoSLevelOf := PodAnnotationQoSLevelDedicatedCores;
     OwnerPoolName := "dedicated"; OriginOwnerPoolName := "dedicated";
     TopologyAwareAssignments :=
       {[ 0 := list_to_set [0; 1; 2; 3]; 1 := list_to_set [8; 9; 10; 11] ]};
     CPURequest := 8%Q; CPULimit := 8%Q;
     Isolated := false; RampUp := false; IsNumaBinding := true |}.

(** An advisor whose policies were updated by an earlier tick. *)
Definition updatedAdvisor : cpuResourceAdvisor :=
  {| advisorUpdated := true; shared := crowdedWorld;
     provisionAssembler := true; headroomAssembler := true;
     emitted := [] |}.

(** The crowded node before the reserve pool is reported. *)
Definition noReserveWorld : world :=
  {| regionMap := regionMap crowdedWorld;
     containers := containers crowdedWorld;
     nonBindingNumas := nonBindingNumas crowdedWorld;
     numRegionsPerNuma := numRegionsPerNuma crowdedWorld;
     allowSharedCoresOverlapReclaimedCores := false;
     reservePoolExists := false;
     NUMANodes := NUMANodes crowdedWorld;
     NUMAToCPUs := NUMAToCPUs crowdedWorld |}.

End Advisor.

(** ** Memory plugin checkpoint (qrm-plugins/memory/dynamicpolicy/state) *)

Module Checkpoint.

Section Checkpoint.

(** The types of the machine state and of the pod entries are declared
    elsewhere in the package. *)
Variable NUMANodeResourcesMap : Type.
Variable PodResourceEntries : Type.

Record MemoryPluginCheckpoint := mkCheckpoint {
  PolicyName : string;
  MachineState : NUMANodeResourcesMap;
  NUMAHeadroom : gmap Z Z;
  PodResourceEntriesOf : PodResourceEntries;
  SocketTopology : gmap Z string;
  Checksum : Z
}.

(** The libraries the checkpoint is built on: [encoding/json] and the
    checksum of the kubelet's checkpoint manager, a 32-bit hash of the
    object. *)
Variable json_Marshal : MemoryPluginCheckpoint -> result (list Byte.byte).
Variable json_Unmarshal :
  list Byte.byte -> MemoryPluginCheckpoint -> result MemoryPluginCheckpoint.
Variable checksum_New : MemoryPluginCheckpoint -> Z.

Definition withChecksum (ck : Z) (cp : MemoryPluginCheckpoint) : MemoryPluginCheckpoint :=
  {| PolicyName := PolicyName cp; MachineState := MachineState cp;
     NUMAHeadroom := NUMAHeadroom cp; PodResourceEntriesOf := PodResourceEntriesOf cp;
     SocketTopology := SocketTopology cp; Checksum := ck |}.

(** [Checksum.Verify]: the stored value against the hash of the data. *)
Definition checksum_Verify (ck : Z) (data : MemoryPluginCheckpoint) : option error :=
  if ck =? checksum_New data then None else Some (Errorf "checkpoint is corrupted").

(** [MarshalCheckpoint]: the receiver after the call and the bytes. *)
Definition MarshalCheckpoint (cp : MemoryPluginCheckpoint)
  : MemoryPluginCheckpoint * result (list Byte.byte) :=
  let cp := withChecksum 0 cp in
  let cp := withChecksum (checksum_New cp) cp in
  (cp, json_Marshal cp).

(** [UnmarshalCheckpoint]. *)
Definition UnmarshalCheckpoint (blob : list Byte.byte) (cp : MemoryPluginCheckpoint)
  : result MemoryPluginCheckpoint :=
  json_Unmarshal blob cp.

(** [VerifyChecksum]: the receiver after the call and the error. *)
Definition VerifyChecksum (cp : MemoryPluginCheckpoint)
  : MemoryPluginCheckpoint * option error :=
  let ck := Checksum cp in
  let cp := withChecksum 0 cp in
  let err := checksum_Verify ck cp in
  (withChecksum ck cp, err).

End Checkpoint.

Arguments PolicyName {_ _} _.
Arguments MachineState {_ _} _.
Arguments NUMAHeadroom {_ _} _.
Arguments PodResourceEntriesOf {_ _} _.
Arguments SocketTopology {_ _} _.
Arguments Checksum {_ _} _.
Arguments withChecksum {_ _} _ _.
Arguments checksum_Verify {_ _} _ _ _.
Arguments MarshalCheckpoint {_ _} _ _ _.
Arguments UnmarshalCheckpoint {_ _} _ _ _.
Arguments VerifyChecksum {_ _} _ _.

End Checkpoint.

(** ** Memory plugin helpers (qrm-plugins/memory/dynamicpolicy, util.go) *)

Module MemoryPolicyUtil.

(** What [getReservedMemory] reads of the configuration. *)
Record Configuration := mkConfiguration {
  UseKubeletReservedConfig : bool;
  ReservedMemoryGB : Z
}.

(** The NUMA node ids of [machineInfo.Topology], in order. *)
Record MachineInfo := mkMachineInfo {
  Topology : list Z
}.

(** [resource.MustParse("1Gi").Value()]. *)
Definition unitGB : Z := 1073741824.

Section ReservedMemory.

(** The kubelet configuration and the lookup of a reserved quantity in it
    are not under src/: the lookup gives the quantity's value in bytes and
    whether it was found. *)
Variable KubeletConfiguration : Type.

Variable GetReservedQuantity : KubeletConfiguration -> string -> result (Z * bool).

Record MetaServer := mkMetaServer {
  GetKubeletConfig : result KubeletConfiguration
}.

(** The part of [getReservedMemory] that settles [reservedMemoryGB]. *)
Definition reservedMemoryGBOf (conf : Configuration) (metaServer : MetaServer)
  : result Q :=
  if UseKubeletReservedConfig conf then
    match GetKubeletConfig metaServer with
    | inl _ => inl (Errorf "failed to get kubelet config")
    | inr klConfig =>
        match GetReservedQuantity klConfig "memory" with
        | inl _ => inl (Errorf "GetKubeletReservedQuantity failed with error")
        | inr (reservedQuantity, _) =>
            inr (int_to_float reservedQuantity / int_to_float unitGB)%Q
        end
    end
  else inr (int_to_float (ReservedMemoryGB conf)).

(** [getReservedMemory]; a nil argument is [None].  The conversion
    [uint64(math.Ceil(x))] is the ceiling for the [x >= 0] of the model. *)
Definition getReservedMemory (conf : option Configuration)
    (metaServer : option MetaServer) (machineInfo : option MachineInfo)
  : result (gmap Z Z) :=
  match conf, metaServer, machineInfo with
  | None, _, _ => inl (Errorf "nil conf")
  | Some _, None, _ => inl (Errorf "nil metaServer")
  | Some _, Some _, None => inl (Errorf "nil machineInfo")
  | Some conf, Some metaServer, Some machineInfo =>
      let numasCount := Z.of_nat (length (Topology machineInfo)) in
      do reservedMemoryGB <- reservedMemoryGBOf conf metaServer;
      let perNumaReservedGB :=
        math_Ceil (reservedMemoryGB / int_to_float numasCount)%Q in
      let perNumaReservedQuantity := perNumaReservedGB * unitGB in
      inr (fold_left (fun reservedMemory id =>
                        <[id := perNumaReservedQuantity]> reservedMemory)
                     (Topology machineInfo) ∅)
  end.

End ReservedMemory.

Arguments GetKubeletConfig {_} _.
Arguments reservedMemoryGBOf {_} _ _ _.
Arguments getReservedMemory {_} _ _ _ _.

(** What [applySidecarAllocationInfoFromMainContainer] reads and writes of
    a [state.AllocationInfo]: the NUMA allocation result, a set of NUMA ids,
    and the annotations.  The sidecar's annotation map is an allocated map. *)
Record AllocationInfo := mkAllocationInfo {
  NumaAllocationResult : gset Z;
  Annotations : gmap string string
}.

(** [applySidecarAllocationInfoFromMainContainer]: the sidecar's allocation
    info after the call and the returned flag. *)
Definition applySidecarAllocationInfoFromMainContainer
    (sidecarAllocationInfo mainAllocationInfo : AllocationInfo)
  : AllocationInfo * bool :=
  let '(numaAllocationResult, changed) :=
    if negb (bool_decide (NumaAllocationResult sidecarAllocationInfo
                          = NumaAllocationResult mainAllocationInfo))
    then (NumaAllocationResult mainAllocationInfo, true)
    else (NumaAllocationResult sidecarAllocationInfo, false) in
  let '(annotations, changed) :=
    map_fold (fun key value (acc : gmap string string * bool) =>
                match fst acc !! key with
                | Some _ => acc
                | None => (<[key := value]> (fst acc), true)
                end)
             (Annotations sidecarAllocationInfo, changed)
             (Annotations mainAllocationInfo) in
  ({| NumaAllocationResult := numaAllocationResult; Annotations := annotations |},
   changed).

(** A machine of two NUMA nodes, with 5 GB reserved by configuration. *)
Definition twoNumaMachine : MachineInfo := {| Topology := [0; 1] |}.

Definition fiveGB : Configuration :=
  {| UseKubeletReservedConfig := false; ReservedMemoryGB := 5 |}.

End MemoryPolicyUtil.


(** ** Cache reaper (sysadvisor, qosaware/resource/memory/plugin) *)

Module CacheReaper.

(** The container types: the reaper tells the main container from the
    others. *)
Inductive ContainerType : Type :=
  | ContainerType_MAIN
  | ContainerType_SIDECAR.

(** The fields of [types.ContainerInfo] the reaper reads. *)
Record ContainerInfo := mkContainerInfo {
  PodUID : string;
  PodName : string;
  ContainerName : string;
  ContainerTypeOf : ContainerType;
  QoSLevelOf : Advisor.QoSLevel
}.

(** The pressure states: the reaper tells the drop-cache state from the
    others. *)
Inductive MemoryPressureState : Type :=
  | MemoryPressureDropCache
  | MemoryPressureOtherState.

(** [types.MemoryPressureCondition]: a nil target is [None]. *)
Record MemoryPressureCondition := mkCondition {
  State : MemoryPressureState;
  TargetReclaimed : option Z
}.

(** [types.MemoryPressureStatus]; the NUMA conditions are listed in the
    order in which the map is ranged over. *)
Record MemoryPressureStatus := mkStatus {
  NodeCondition : MemoryPressureCondition;
  NUMAConditions : list (Z * MemoryPressureCondition)
}.

(** A condition that makes [Reconcile] select containers. *)
Definition dropsCache (condition : MemoryPressureCondition) : bool :=
  match State condition, TargetReclaimed condition with
  | MemoryPressureDropCache, Some _ => true
  | _, _ => false
  end.

(** [types.ContainerMemoryAdvices]. *)
Record ContainerMemoryAdvices := mkAdvice {
  AdvicePodUID : string;
  AdviceContainerName : string;
  Values : gmap string string
}.

Section Reaper.

(** Not under src/: the metric lookup of the QoS helper, the sorter, which
    reorders the slice it is given, and the name under which a container is
    kept. *)
Variable GetContainerMetric : string -> string -> string -> Z -> result Q.

Variable Sort : Z -> string -> list ContainerInfo -> list ContainerInfo.

Variable GeneratePodContainerName : string -> string -> string.

(** The names of the two metrics, constants of the package consts. *)
Variable MetricMemCacheContainer : string.

Variable MetricsMemFilePerNumaContainer : string.

(** The loop of [selectContainers] over the sorted containers, from the
    sum reached so far. *)
Fixpoint selectLoop (cacheToReap : Z) (numaID : Z) (metricName : string)
    (containers : list ContainerInfo) (sum : Z) : list ContainerInfo :=
  match containers with
  | [] => []
  | ci :: containers =>
      match GetContainerMetric (PodUID ci) (ContainerName ci) metricName numaID with
      | inl _ => selectLoop cacheToReap numaID metricName containers sum
      | inr metric =>
          let sum := sum + float_to_int metric in
          if cacheToReap <? sum then [ci]
          else ci :: selectLoop cacheToReap numaID metricName containers sum
      end
  end.

(** [selectContainers].  The sorter works on the slice it is given, so the
    caller's [containers] are in the sorted order after the call: the result
    is that slice and the selection. *)
Definition selectContainers (containers : list ContainerInfo) (cacheToReap : Z)
    (numaID : Z) (metricName : string) : list ContainerInfo * list ContainerInfo :=
  let containers := Sort numaID metricName containers in
  (containers, selectLoop cacheToReap numaID metricName containers 0).

(** [reclaimedContainersFilter]; a nil container is [None]. *)
Definition reclaimedContainersFilter (ci : option ContainerInfo) : bool :=
  match ci with
  | None => false
  | Some ci =>
      match QoSLevelOf ci, ContainerTypeOf ci with
      | Advisor.PodAnnotationQoSLevelReclaimedCores, ContainerType_MAIN => true
      | _, _ => false
      end
  end.

(** [metaReader.GetContainers(filter)] over the containers of the meta
    cache. *)
Definition GetContainers (metaCache : list ContainerInfo)
    (filter_ : option ContainerInfo -> bool) : list ContainerInfo :=
  filter (fun ci => filter_ (Some ci) = true) metaCache.

Definition keep (selected : list ContainerInfo)
    (containersToReapCache : gmap string ContainerInfo) : gmap string ContainerInfo :=
  fold_left (fun m ci =>
               <[GeneratePodContainerName (PodName ci) (ContainerName ci) := ci]> m)
            selected containersToReapCache.

(** What [Reconcile] does for one condition, of the node or of a NUMA, with
    the local variables [containers] and [containersToReapCache]. *)
Definition reconcileCondition (condition : MemoryPressureCondition) (numaID : Z)
    (metricName : string)
    (acc : list ContainerInfo * gmap string ContainerInfo)
  : list ContainerInfo * gmap string ContainerInfo :=
  let '(containers, containersToReapCache) := acc in
  match State condition, TargetReclaimed condition with
  | MemoryPressureDropCache, Some target =>
      let '(containers, selected) :=
        selectContainers containers target numaID metricName in
      (containers, keep selected containersToReapCache)
  | _, _ => acc
  end.

(** [Reconcile]: the new value of the field [containersToReapCache]; the
    value the field had plays no part. *)
Definition Reconcile (metaCache : list ContainerInfo) (status : MemoryPressureStatus)
  : gmap string ContainerInfo :=
  let containers := GetContainers metaCache reclaimedContainersFilter in
  let containersToReapCache : gmap string ContainerInfo := ∅ in
  let acc :=
    reconcileCondition (NodeCondition status) (-1) MetricMemCacheContainer
      (containers, containersToReapCache) in
  snd (fold_left (fun acc '(numaID, condition) =>
                    reconcileCondition condition numaID
                      MetricsMemFilePerNumaContainer acc)
                 (NUMAConditions status) acc).

(** [GetAdvices]: one entry for each container kept. *)
Definition GetAdvices (containersToReapCache : gmap string ContainerInfo)
  : list ContainerMemoryAdvices :=
  map (fun entry =>
         {| AdvicePodUID := PodUID (snd entry);
            AdviceContainerName := ContainerName (snd entry);
            Values := {[ "drop_cache"%string := "true"%string ]} |})
      (map_to_list containersToReapCache).

(** The cache that reaping a container is counted for; a container without
    reading counts for nothing. *)
Definition cacheOf (numaID : Z) (metricName : string) (ci : ContainerInfo) : Z :=
  match GetContainerMetric (PodUID ci) (ContainerName ci) metricName numaID with
  | inr metric => float_to_int metric
  | inl _ => 0
  end.

Definition hasMetric (numaID : Z) (metricName : string) (ci : ContainerInfo) : bool :=
  negb (is_err (GetContainerMetric (PodUID ci) (ContainerName ci) metricName numaID)).

Definition cacheSum (numaID : Z) (metricName : string) (cs : list ContainerInfo) : Z :=
  fold_right (fun ci acc => cacheOf numaID metricName ci + acc) 0 cs.

End Reaper.

(** Three reclaimed-cores containers with 3, 5 and 4 units of cache, and a
    main container of shared cores. *)
Definition reapee (name : string) (qos : Advisor.QoSLevel) : ContainerInfo :=
  {| PodUID := name; PodName := name; ContainerName := "main";
     ContainerTypeOf := ContainerType_MAIN; QoSLevelOf := qos |}.

Definition reapees : list ContainerInfo :=
  [ reapee "a" Advisor.PodAnnotationQoSLevelReclaimedCores;
    reapee "b" Advisor.PodAnnotationQoSLevelReclaimedCores;
    reapee "s" Advisor.PodAnnotationQoSLevelSharedCores;
    reapee "c" Advisor.PodAnnotationQoSLevelReclaimedCores ].

Definition reapeeCache (podUID containerName metricName : string) (numaID : Z)
  : result Q :=
  if String.eqb podUID "a" then inr 3%Q
  else if String.eqb podUID "b" then inr 5%Q
  else if String.eqb podUID "c" then inr 4%Q
  else inl (Errorf "no metric").

End CacheReaper.

(** ** CPU plugin, periodic checks (qrm-plugins/cpu/dynamicpolicy) *)

Module CPUDynamicPolicy.

Section ResidualState.

(** Not under src/: the entries of a pod in the state, of which the check
    reads only whether they are a pool entry; the machine state and its
    derivation from the pod entries; the re-adjustment of the allocations;
    the two constants of the package; the removal of a pod in the advisor. *)
Variable ContainerEntries : Type.

Variable IsPoolEntry : ContainerEntries -> bool.

Variable NUMANodeMap : Type.

Variable generateMachineStateFromPodEntries :
  gmap string ContainerEntries -> result NUMANodeMap.

Variable stateCheckPeriod : Z.

Variable maxResidualTime : Z.

Variable RemovePod : string -> option error.

(** The fields of [DynamicPolicy] the check works on.  [metaServer] is
    [None] for a nil meta server, and otherwise what its [GetPodList] returns:
    the UIDs of the pods of the pod watcher.  The state hands out a copy of
    its pod entries and takes the new ones with [SetPodEntries]. *)
Record DynamicPolicy := mkPolicy {
  podEntries : gmap string ContainerEntries;
  machineState : NUMANodeMap;
  residualHitMap : gmap string Z;
  enableCPUAdvisor : bool;
  metaServer : option (result (list string))
}.

Variable adjustAllocationEntries : DynamicPolicy -> DynamicPolicy * option error.

(** A pod with state that is not a pool and that the pod watcher does not
    show. *)
Definition residual (podSet : gset string) (podEntries : gmap string ContainerEntries)
    (podUID : string) : bool :=
  match podEntries !! podUID with
  | Some containerEntries =>
      negb (IsPoolEntry containerEntries) && negb (bool_decide (podUID ∈ podSet))
  | None => false
  end.

(** The first loop: the pods with state that the pod watcher does not
    show, and their hit counts. *)
Definition countResidualPods (podSet : gset string)
    (podEntries : gmap string ContainerEntries) (residualHitMap : gmap string Z)
  : gset string * gmap string Z :=
  map_fold (fun podUID containerEntries (acc : gset string * gmap string Z) =>
              if IsPoolEntry containerEntries then acc
              else if negb (bool_decide (podUID ∈ podSet))
              then ({[ podUID ]} ∪ fst acc,
                    <[podUID := default 0 (snd acc !! podUID) + 1]> (snd acc))
              else acc)
           (∅, residualHitMap) podEntries.

(** The second loop: hit counts of pods that are not residual are dropped,
    and the residual pods that were hit for long enough are to be deleted. *)
Definition selectPodsToDelete (residualSet : gset string) (residualHitMap : gmap string Z)
  : gmap string Z * gset string :=
  map_fold (fun podUID hitCount (acc : gmap string Z * gset string) =>
              if negb (bool_decide (podUID ∈ residualSet))
              then (delete podUID (fst acc), snd acc)
              else if maxResidualTime <=? hitCount * stateCheckPeriod
              then (fst acc, {[ podUID ]} ∪ snd acc)
              else acc)
           (residualHitMap, ∅) residualHitMap.

(** The third loop: a pod is deleted from the entries unless the advisor
    refuses its removal. *)
Definition deletePods (enableCPUAdvisor : bool) (podsToDelete : list string)
    (podEntries : gmap string ContainerEntries) : gmap string ContainerEntries :=
  fold_left (fun podEntries podUID =>
               match (if enableCPUAdvisor then RemovePod podUID else None) with
               | Some _ => podEntries
               | None => delete podUID podEntries
               end) podsToDelete podEntries.

(** The pod entries and the hit counts that the three loops leave. *)
Definition residualPodsCleared (p : DynamicPolicy) (podList : list string)
  : gmap string ContainerEntries * gmap string Z * gset string :=
  let podSet : gset string := list_to_set podList in
  let '(residualSet, hitMap) :=
    countResidualPods podSet (podEntries p) (residualHitMap p) in
  let '(hitMap, podsToDelete) := selectPodsToDelete residualSet hitMap in
  (deletePods (enableCPUAdvisor p) (elements podsToDelete) (podEntries p),
   hitMap, podsToDelete).

(** [clearResidualState]: the policy after the call and the error that the
    deferred function reports to the health registry. *)
Definition clearResidualState (p : DynamicPolicy) : DynamicPolicy * option error :=
  match metaServer p with
  | None => (p, None)
  | Some (inl err) => (p, Some err)
  | Some (inr podList) =>
      let '(podEntries', hitMap, podsToDelete) := residualPodsCleared p podList in
      let p :=
        {| podEntries := podEntries p; machineState := machineState p;
           residualHitMap := hitMap; enableCPUAdvisor := enableCPUAdvisor p;
           metaServer := metaServer p |} in
      if 0 <? Z.of_nat (size podsToDelete) then
        match generateMachineStateFromPodEntries podEntries' with
        | inl err => (p, Some err)
        | inr updatedMachineState =>
            adjustAllocationEntries
              {| podEntries := podEntries'; machineState := updatedMachineState;
                 residualHitMap := hitMap; enableCPUAdvisor := enableCPUAdvisor p;
                 metaServer := metaServer p |}
        end
      else (p, None)
  end.

End ResidualState.

Arguments podEntries {_ _} _.
Arguments machineState {_ _} _.
Arguments residualHitMap {_ _} _.
Arguments enableCPUAdvisor {_ _} _.
Arguments metaServer {_ _} _.

(** *** The cpuset check *)

(** What [checkCPUSet] reads of a [state.AllocationInfo]: the QoS level,
    the answers of its methods and the cpuset the state holds for it. *)
Record AllocationInfo := mkAllocationInfo {
  QoSLevel : Advisor.QoSLevel;
  CheckMainContainer : bool;
  CheckShared : bool;
  CheckDedicated : bool;
  OriginalAllocationResult : gset Z
}.

(** The entries of a pod, the containers in the order in which they are
    ranged over; a nil allocation info is [None]. *)
Record PodContainerEntries := mkEntries {
  IsPoolEntryOf : bool;
  containerEntries : list (string * option AllocationInfo)
}.

(** What the deferred function reports to the health registry. *)
Inductive healthReport : Type :=
  | ReportError (err : error)
  | ReportNotReady (message : string)
  | ReportReady.

(** The local variables of the first loop; [actualCPUSets] keeps, with the
    cpuset read for a container, the allocation info that the second loop
    looks up under the same pod and container. *)
Record checked := mkChecked {
  err : option error;
  invalidCPUSet : bool;
  actualCPUSets : list (string * string * gset Z * AllocationInfo)
}.

Section CheckCPUSet.

(** Not under src/: the requested cores of a container, the container id
    of the meta server and the cpuset of the container's cgroup. *)
Variable getContainerRequestedCores : AllocationInfo -> Q.

Variable GetContainerID : string -> string -> result string.

Variable GetCPUSetForContainer : string -> string -> result (gset Z).

(** Body of the loop over the containers of a pod. *)
Definition checkContainer (podUID : string) (st : checked)
    (entry : string * option AllocationInfo) : checked :=
  let '(containerName, allocationInfo) := entry in
  match allocationInfo with
  | None => st
  | Some allocationInfo =>
      if negb (CheckMainContainer allocationInfo) then st
      else if CheckShared allocationInfo
              && Qeq_bool (getContainerRequestedCores allocationInfo) 0
      then st
      else
        match GetContainerID podUID containerName with
        | inl e =>
            {| err := Some e; invalidCPUSet := invalidCPUSet st;
               actualCPUSets := actualCPUSets st |}
        | inr containerId =>
            match GetCPUSetForContainer podUID containerId with
            | inl e =>
                {| err := Some e; invalidCPUSet := invalidCPUSet st;
                   actualCPUSets := actualCPUSets st |}
            | inr cpus =>
                {| err := None;
                   invalidCPUSet :=
                     if CheckDedicated allocationInfo
                        && negb (bool_decide
                                   (cpus = OriginalAllocationResult allocationInfo))
                     then true else invalidCPUSet st;
                   actualCPUSets :=
                     actualCPUSets st ++ [(podUID, containerName, cpus, allocationInfo)] |}
            end
        end
  end.

(** The first loop. *)
Definition collectCPUSets (podEntries : list (string * PodContainerEntries)) : checked :=
  fold_left (fun st '(podUID, entries) =>
               if IsPoolEntryOf entries then st
               else fold_left (checkContainer podUID) (containerEntries entries) st)
            podEntries
            {| err := None; invalidCPUSet := false; actualCPUSets := [] |}.

(** Body of the second loop: the overlap found so far and the unions of
    the dedicated and of the shared cpusets. *)
Definition overlapStep (acc : bool * gset Z * gset Z)
    (entry : string * string * gset Z * AllocationInfo) : bool * gset Z * gset Z :=
  let '(cpuSetOverlap, unionDedicatedCPUSet, unionSharedCPUSet) := acc in
  let '(_, _, cset, allocationInfo) := entry in
  match QoSLevel allocationInfo with
  | Advisor.PodAnnotationQoSLevelDedicatedCores =>
      (if negb cpuSetOverlap
          && negb (bool_decide (cset ∩ unionDedicatedCPUSet = ∅))
       then true else cpuSetOverlap,
       unionDedicatedCPUSet ∪ cset, unionSharedCPUSet)
  | Advisor.PodAnnotationQoSLevelSharedCores =>
      (cpuSetOverlap, unionDedicatedCPUSet, unionSharedCPUSet ∪ cset)
  | _ => acc
  end.

(** The second loop and the comparison of the two unions. *)
Definition cpuSetOverlapOf (actual : list (string * string * gset Z * AllocationInfo))
  : bool :=
  let '(cpuSetOverlap, unionDedicatedCPUSet, unionSharedCPUSet) :=
    fold_left overlapStep actual (false, ∅, ∅) in
  let regionOverlap :=
    negb (bool_decide (unionSharedCPUSet ∩ unionDedicatedCPUSet = ∅)) in
  if negb cpuSetOverlap then regionOverlap else cpuSetOverlap.

(** [checkCPUSet]: what it reports to the health registry. *)
Definition checkCPUSet (podEntries : list (string * PodContainerEntries)) : healthReport :=
  let st := collectCPUSets podEntries in
  let cpuSetOverlap := cpuSetOverlapOf (actualCPUSets st) in
  match err st with
  | Some e => ReportError e
  | None =>
      if invalidCPUSet st then ReportNotReady "invalid cpuset exists"
      else if cpuSetOverlap then ReportNotReady "cpuset overlap"
      else ReportReady
  end.

End CheckCPUSet.

(** The cpusets of two entries meet. *)
Definition meets (a b : string * string * gset Z * AllocationInfo) : Prop :=
  snd (fst a) ∩ snd (fst b) <> ∅.

Definition isDedicated (a : string * string * gset Z * AllocationInfo) : Prop :=
  QoSLevel (snd a) = Advisor.PodAnnotationQoSLevelDedicatedCores.

Definition isShared (a : string * string * gset Z * AllocationInfo) : Prop :=
  QoSLevel (snd a) = Advisor.PodAnnotationQoSLevelSharedCores.

End CPUDynamicPolicy.

(** * Part II: the properties *)

Lemma float_to_int_inject (i : Z) : float_to_int (int_to_float i) = i.
Proof. unfold float_to_int, int_to_float; simpl. apply Z.quot_1_r. Qed.

Lemma float_to_int_nonneg (f : Q) : (0 <= f)%Q -> 0 <= float_to_int f.
Proof.
  unfold Qle, float_to_int; simpl; intros H.
  apply Z.quot_pos; lia.
Qed.

Lemma float_to_int_floor (f : Q) : (0 <= f)%Q -> float_to_int f = Qfloor f.
Proof.
  destruct f as [n d]; unfold Qle, float_to_int, Qfloor; simpl; intros H.
  apply Z.quot_div_nonneg; lia.
Qed.

Lemma float_to_int_mono (f g : Q) :
  (0 <= f)%Q -> (f <= g)%Q -> float_to_int f <= float_to_int g.
Proof.
  intros Hf Hfg.
  rewrite !float_to_int_floor by (try assumption; eapply Qle_trans; eassumption).
  now apply Qfloor_resp_le.
Qed.

Module HealthzFacts.
Import Healthz.

(** *** Report mode does not recover by itself *)

Lemma readiness_report_not_ready timeoutMessage now st :
  Mode st = HealthzCheckModeReport ->
  State st <> HealthzCheckStateReady ->
  Ready (readiness timeoutMessage now st) = false.
Proof.
  intros Hmode Hstate. unfold readiness. rewrite Hmode. simpl.
  destruct (_ && _); simpl; [reflexivity|].
  apply String.eqb_neq, Hstate.
Qed.

Lemma readiness_report_timeout timeoutMessage now st :
  Mode st = HealthzCheckModeReport ->
  0 < TimeoutPeriod st -> LastUpdateTime st <> 0 ->
  LastUpdateTime st + TimeoutPeriod st < now ->
  readiness timeoutMessage now st = {| Ready := false; Message := "timeout" |}.
Proof.
  intros Hmode Ht Hz Hlt. unfold readiness. rewrite Hmode. simpl.
  replace (0 <? TimeoutPeriod st) with true by (symmetry; apply Z.ltb_lt; lia).
  replace (LastUpdateTime st =? 0) with false by (symmetry; apply Z.eqb_neq; lia).
  replace (LastUpdateTime st <? now - TimeoutPeriod st) with true
    by (symmetry; apply Z.ltb_lt; lia).
  reflexivity.
Qed.

(** C9 (amended): in report mode nothing recovers by itself.  After the
    caller's report of a state [s] with message [msg] at instant [t], a check
    with a timeout [TimeoutPeriod > 0] is served as ready exactly when [s] is
    the ready state and no more than [TimeoutPeriod] has elapsed since [t];
    once more has elapsed it is served as not ready with the message
    "timeout", whatever was reported.  So a check whose caller last reported
    a failure is not ready at any later instant: within the timeout it
    carries the caller's message, afterwards "timeout". *)
Theorem report_mode_failure_never_recovers
    (timeoutMessage : Z -> Z -> string) (m : gmap string healthzCheckStatus)
    (name s msg : string) (st : healthzCheckStatus) (t now : Z) :
  m !! name = Some st ->
  Mode st = HealthzCheckModeReport ->
  0 < TimeoutPeriod st -> 0 < t ->
  GetRegisterReadinessCheckResult timeoutMessage now
    (fst (UpdateHealthzState t name s msg m)) !! name
  = Some (if t + TimeoutPeriod st <? now
          then {| Ready := false; Message := "timeout" |}
          else {| Ready := String.eqb s HealthzCheckStateReady; Message := msg |})
  /\ (s <> HealthzCheckStateReady ->
      Ready <$> (GetRegisterReadinessCheckResult timeoutMessage now
                   (fst (UpdateHealthzState t name s msg m)) !! name)
      = Some false).
Proof.
  intros Hm Hmode Hto Ht.
  assert (Hres : GetRegisterReadinessCheckResult timeoutMessage now
                   (fst (UpdateHealthzState t name s msg m)) !! name
                 = Some (if t + TimeoutPeriod st <? now
                         then {| Ready := false; Message := "timeout" |}
                         else {| Ready := String.eqb s HealthzCheckStateReady;
                                 Message := msg |})).
  { unfold GetRegisterReadinessCheckResult, UpdateHealthzState.
    rewrite Hm; simpl. rewrite lookup_fmap, lookup_insert_eq; simpl. f_equal.
    destruct (Z.ltb_spec (t + TimeoutPeriod st) now) as [Hlate|Hin].
    - apply readiness_report_timeout; simpl; try lia. exact Hmode.
    - unfold readiness, update. cbn [Mode State StatusMessage LastUpdateTime
        TimeoutPeriod]. rewrite Hmode. cbn [String.eqb Ascii.eqb Bool.eqb].
      replace (t <? now - TimeoutPeriod st) with false
        by (symmetry; apply Z.ltb_ge; lia).
      rewrite andb_false_r. reflexivity. }
  split; [exact Hres|].
  intros Hs. rewrite Hres. apply String.eqb_neq in Hs.
  destruct (_ <? _); cbn; [reflexivity|]. now rewrite Hs.
Qed.

Lemma report_mode_failure_never_recovers_witness :
  GetRegisterReadinessCheckResult (fun _ _ => ""%string) (1000 + tenSeconds + 1)
    (fst (UpdateHealthzState 1000 "sync" HealthzCheckStateNotReady "boom"
            reportRegistry)) !! "sync"
  = Some {| Ready := false; Message := "timeout" |}.
Proof.
  apply (proj1 (report_mode_failure_never_recovers (fun _ _ => ""%string)
                  reportRegistry "sync" HealthzCheckStateNotReady "boom"
                  {| State := HealthzCheckStateReady; StatusMessage := InitMessage;
                     LastUpdateTime := 0; Mode := HealthzCheckModeReport;
                     TimeoutPeriod := tenSeconds; UnhealthyStartTime := 0;
                     TolerationPeriod := 0; temporary := false; count := 0 |}
                  1000 (1000 + tenSeconds + 1) eq_refl eq_refl eq_refl eq_refl)).
Defined.

(** The claim as stated fails: the check below is in report mode, its
    caller last reported a failure, at instant 1000, more than the timeout of
    ten seconds has elapsed since with no new report, and the check is not
    served as ready. *)
Lemma report_mode_no_auto_recovery :
  let registry :=
    fst (UpdateHealthzState 1000 "sync" HealthzCheckStateNotReady "boom"
           reportRegistry) in
  Mode <$> registry !! "sync" = Some HealthzCheckModeReport
  /\ TimeoutPeriod <$> registry !! "sync" = Some tenSeconds
  /\ State <$> registry !! "sync" = Some HealthzCheckStateNotReady
  /\ LastUpdateTime <$> registry !! "sync" = Some 1000
  /\ 1000 + tenSeconds < 1000 + tenSeconds + 1
  /\ Ready <$> (GetRegisterReadinessCheckResult (fun _ _ => ""%string)
                  (1000 + tenSeconds + 1) registry !! "sync")
     = Some false.
Proof. cbv zeta. repeat split; vm_compute; reflexivity. Qed.


(** *** Temporary heartbeat checks are reference counted *)

Lemma RegisterTemporaryHeartbeatCheck_iter
    (m : gmap string healthzCheckStatus) (name initState : string)
    (now timeout tolerationPeriod : Z) (k : nat) :
  m !! name = None ->
  Nat.iter (S k)
    (RegisterTemporaryHeartbeatCheck now name timeout initState tolerationPeriod) m
  = <[name := {| State := initState; StatusMessage := InitMessage;
                 LastUpdateTime := now; Mode := HealthzCheckModeHeartBeat;
                 TimeoutPeriod := timeout; UnhealthyStartTime := 0;
                 TolerationPeriod := tolerationPeriod;
                 temporary := true; count := Z.of_nat (S k) |}]> m.
Proof.
  intros Hm. induction k as [|k IH].
  - simpl. unfold RegisterTemporaryHeartbeatCheck. rewrite Hm. reflexivity.
  - rewrite Nat.iter_succ, IH.
    unfold RegisterTemporaryHeartbeatCheck at 1.
    rewrite lookup_insert_eq. cbn [temporary negb State StatusMessage
      LastUpdateTime Mode TimeoutPeriod UnhealthyStartTime TolerationPeriod count].
    rewrite insert_insert_eq. do 2 f_equal. lia.
Qed.

Lemma UnregisterTemporaryHeartbeatCheck_iter
    (m : gmap string healthzCheckStatus) (name : string)
    (st : healthzCheckStatus) (j : nat) :
  temporary st = true -> Mode st = HealthzCheckModeHeartBeat ->
  Z.of_nat j < count st ->
  Nat.iter j (UnregisterTemporaryHeartbeatCheck name) (<[name := st]> m)
  = <[name := {| State := State st; StatusMessage := StatusMessage st;
                 LastUpdateTime := LastUpdateTime st; Mode := Mode st;
                 TimeoutPeriod := TimeoutPeriod st;
                 UnhealthyStartTime := UnhealthyStartTime st;
                 TolerationPeriod := TolerationPeriod st;
                 temporary := temporary st;
                 count := count st - Z.of_nat j |}]> m.
Proof.
  intros Htmp Hmode. induction j as [|j IH]; intros Hj.
  - simpl. rewrite Z.sub_0_r. destruct st; reflexivity.
  - rewrite Nat.iter_succ, IH by lia.
    unfold UnregisterTemporaryHeartbeatCheck, unregisterHealthCheck.
    rewrite lookup_insert_eq. cbn [temporary negb State StatusMessage
      LastUpdateTime Mode TimeoutPeriod UnhealthyStartTime TolerationPeriod count].
    rewrite Htmp, Hmode. cbn [negb]. rewrite String.eqb_refl. cbn [negb].
    replace (count st - Z.of_nat j - 1 =? 0) with false
      by (symmetry; apply Z.eqb_neq; lia).
    rewrite insert_insert_eq. do 2 f_equal. lia.
Qed.

(** X1: a temporary heartbeat check is reference counted.  When a name that
    is not registered is registered [k+1] times as a temporary check, the
    check survives every run of at most [k] unregistrations, holding the
    number of registrations that are left, and the [k+1]-th unregistration
    removes it, which gives back the registry of before. *)
Theorem temporary_check_reference_counted
    (m : gmap string healthzCheckStatus) (name initState : string)
    (now timeout tolerationPeriod : Z) (k : nat) :
  m !! name = None ->
  let registered :=
    Nat.iter (S k)
      (RegisterTemporaryHeartbeatCheck now name timeout initState tolerationPeriod)
      m in
  (forall j : nat, (j <= k)%nat ->
     exists st,
       Nat.iter j (UnregisterTemporaryHeartbeatCheck name) registered !! name
         = Some st
       /\ count st = Z.of_nat (S k - j) /\ temporary st = true
       /\ Mode st = HealthzCheckModeHeartBeat /\ TimeoutPeriod st = timeout
       /\ TolerationPeriod st = tolerationPeriod)
  /\ Nat.iter (S k) (UnregisterTemporaryHeartbeatCheck name) registered = m.
Proof.
  intros Hm registered. subst registered.
  rewrite RegisterTemporaryHeartbeatCheck_iter by exact Hm.
  split.
  - intros j Hj.
    rewrite UnregisterTemporaryHeartbeatCheck_iter
      by (cbn [temporary Mode count]; try reflexivity; lia).
    rewrite lookup_insert_eq. eexists; split; [reflexivity|].
    cbn [temporary Mode count TimeoutPeriod TolerationPeriod].
    repeat split; lia.
  - rewrite Nat.iter_succ.
    rewrite UnregisterTemporaryHeartbeatCheck_iter
      by (cbn [temporary Mode count]; try reflexivity; lia).
    unfold UnregisterTemporaryHeartbeatCheck, unregisterHealthCheck.
    rewrite lookup_insert_eq. cbn [temporary negb State StatusMessage
      LastUpdateTime Mode TimeoutPeriod UnhealthyStartTime TolerationPeriod count].
    rewrite String.eqb_refl. cbn [negb].
    replace (Z.of_nat (S k) - Z.of_nat k - 1 =? 0) with true
      by (symmetry; apply Z.eqb_eq; lia).
    rewrite delete_insert_eq. apply delete_id, Hm.
Qed.

Lemma temporary_check_reference_counted_witness :
  (exists st,
     Nat.iter 1 (UnregisterTemporaryHeartbeatCheck "probe")
       (Nat.iter 2
          (RegisterTemporaryHeartbeatCheck 5 "probe" tenSeconds
             HealthzCheckStateReady 0) reportRegistry) !! "probe" = Some st
     /\ count st = 1)
  /\ Nat.iter 2 (UnregisterTemporaryHeartbeatCheck "probe")
       (Nat.iter 2
          (RegisterTemporaryHeartbeatCheck 5 "probe" tenSeconds
             HealthzCheckStateReady 0) reportRegistry) = reportRegistry.
Proof.
  destruct (temporary_check_reference_counted reportRegistry "probe"
              HealthzCheckStateReady 5 tenSeconds 0 1 eq_refl) as [Hkeep Hgone].
  split; [|exact Hgone].
  destruct (Hkeep 1%nat (le_n 1)) as (st & Hst & Hc & _).
  exists st. split; [exact Hst | exact Hc].
Defined.

(** *** Permanent checks keep their configuration *)

Lemma registryStep_permanent
    (m : gmap string healthzCheckStatus) (c : Z * registryCall)
    (name : string) (st : healthzCheckStatus) :
  m !! name = Some st -> temporary st = false ->
  exists st', registryStep m c !! name = Some st'
    /\ temporary st' = false /\ Mode st' = Mode st
    /\ TimeoutPeriod st' = TimeoutPeriod st
    /\ TolerationPeriod st' = TolerationPeriod st.
Proof.
  intros Hm Htmp.
  assert (Hsame : exists st', m !! name = Some st'
    /\ temporary st' = false /\ Mode st' = Mode st
    /\ TimeoutPeriod st' = TimeoutPeriod st
    /\ TolerationPeriod st' = TolerationPeriod st)
    by (exists st; auto).
  assert (Hupd : forall now n s msg,
    exists st', fst (UpdateHealthzState now n s msg m) !! name = Some st'
    /\ temporary st' = false /\ Mode st' = Mode st
    /\ TimeoutPeriod st' = TimeoutPeriod st
    /\ TolerationPeriod st' = TolerationPeriod st).
  { intros now n s msg. unfold UpdateHealthzState.
    destruct (m !! n) as [o|] eqn:Hn; cbn [fst]; [|exact Hsame].
    destruct (decide (n = name)) as [->|Hne].
    - rewrite lookup_insert_eq. rewrite Hm in Hn. injection Hn as <-.
      eexists; split; [reflexivity|]. cbn. auto.
    - rewrite lookup_insert_ne by exact Hne. exact Hsame. }
  destruct c as [now [n t s p | n t s p | n | n t s | n s msg | n err]];
    cbn [registryStep].
  - unfold RegisterHeartbeatCheck.
    destruct (m !! n) eqn:Hn; [exact Hsame|].
    rewrite lookup_insert_ne by congruence. exact Hsame.
  - unfold RegisterTemporaryHeartbeatCheck.
    destruct (m !! n) as [o|] eqn:Hn.
    + destruct (temporary o) eqn:Ho; cbn [negb]; [|exact Hsame].
      rewrite lookup_insert_ne by congruence. exact Hsame.
    + rewrite lookup_insert_ne by congruence. exact Hsame.
  - unfold UnregisterTemporaryHeartbeatCheck, unregisterHealthCheck.
    destruct (m !! n) as [o|] eqn:Hn; [|exact Hsame].
    destruct (temporary o) eqn:Ho; cbn [negb]; [|exact Hsame].
    destruct (String.eqb (Mode o) HealthzCheckModeHeartBeat); cbn [negb];
      [|exact Hsame].
    destruct (count o - 1 =? 0).
    + rewrite lookup_delete_ne by congruence. exact Hsame.
    + rewrite lookup_insert_ne by congruence. exact Hsame.
  - unfold RegisterReportCheck.
    destruct (m !! n) eqn:Hn; [exact Hsame|].
    rewrite lookup_insert_ne by congruence. exact Hsame.
  - apply Hupd.
  - unfold UpdateHealthzStateByError. destruct err; apply Hupd.
Qed.

(** X2: a check that is registered and not temporary stays registered
    through every sequence of calls of the registry (registrations of any
    kind under any name, unregistrations, state updates), and keeps its mode,
    its timeout and its toleration period: no call changes the mode of an
    existing check, and only temporary checks can be unregistered. *)
Theorem permanent_check_is_never_removed
    (calls : list (Z * registryCall)) (m : gmap string healthzCheckStatus)
    (name : string) (st : healthzCheckStatus) :
  m !! name = Some st -> temporary st = false ->
  exists st', registryRun calls m !! name = Some st'
    /\ temporary st' = false /\ Mode st' = Mode st
    /\ TimeoutPeriod st' = TimeoutPeriod st
    /\ TolerationPeriod st' = TolerationPeriod st.
Proof.
  unfold registryRun. revert m st.
  induction calls as [|c calls IH]; intros m st Hm Htmp.
  - exists st; auto.
  - cbn [fold_left].
    destruct (registryStep_permanent m c name st Hm Htmp)
      as (st1 & H1 & Ht1 & Hmode & Hto & Htol).
    destruct (IH _ st1 H1 Ht1) as (st' & H' & Ht' & Hmode' & Hto' & Htol').
    exists st'. repeat split; congruence.
Qed.

Lemma permanent_check_is_never_removed_witness :
  exists st',
    registryRun
      [(7, CallRegisterTemporaryHeartbeatCheck "sync" 1 HealthzCheckStateReady 1);
       (8, CallUnregisterTemporaryHeartbeatCheck "sync");
       (9, CallRegisterHeartbeatCheck "sync" 1 HealthzCheckStateReady 1);
       (10, CallUpdateHealthzStateByError "sync" (Some "boom"%string))]
      reportRegistry !! "sync" = Some st'
    /\ Mode st' = HealthzCheckModeReport /\ TimeoutPeriod st' = tenSeconds.
Proof.
  destruct (permanent_check_is_never_removed
              [(7, CallRegisterTemporaryHeartbeatCheck "sync" 1 HealthzCheckStateReady 1);
               (8, CallUnregisterTemporaryHeartbeatCheck "sync");
               (9, CallRegisterHeartbeatCheck "sync" 1 HealthzCheckStateReady 1);
               (10, CallUpdateHealthzStateByError "sync" (Some "boom"%string))]
              reportRegistry "sync"
              {| State := HealthzCheckStateReady; StatusMessage := InitMessage;
                 LastUpdateTime := 0; Mode := HealthzCheckModeReport;
                 TimeoutPeriod := tenSeconds; UnhealthyStartTime := 0;
                 TolerationPeriod := 0; temporary := false; count := 0 |}
              eq_refl eq_refl) as (st' & H & _ & Hmode & Hto & _).
  exists st'. split; [exact H|]. split; [exact Hmode | exact Hto].
Defined.

(** *** Heartbeat mode *)

(** X3: the toleration period of a heartbeat check runs from the update
    that took the check out of the ready state, and later updates that
    report a non-ready state do not restart it.  A ready check with a
    toleration period [TolerationPeriod > 0] that is reported not ready at
    [t1] and again at [t2] is still served as ready at an instant [now]
    within the toleration period of [t1] (the heartbeat being in time), and
    as not ready at every instant later than [t1 + TolerationPeriod], however
    recent [t2] is. *)
Theorem toleration_runs_from_first_failure
    (timeoutMessage : Z -> Z -> string) (st : healthzCheckStatus)
    (s1 s2 msg1 msg2 : string) (t1 t2 now : Z) :
  Mode st = HealthzCheckModeHeartBeat ->
  State st = HealthzCheckStateReady ->
  s1 <> HealthzCheckStateReady -> s2 <> HealthzCheckStateReady ->
  0 < TolerationPeriod st ->
  let st2 := update t2 (update t1 st s1 msg1) s2 msg2 in
  UnhealthyStartTime st2 = t1
  /\ (now - t1 <= TolerationPeriod st ->
      TimeoutPeriod st <= 0 \/ now - t2 <= TimeoutPeriod st ->
      readiness timeoutMessage now st2 = {| Ready := true; Message := msg2 |})
  /\ (TolerationPeriod st < now - t1 ->
      Ready (readiness timeoutMessage now st2) = false).
Proof.
  intros Hmode Hready Hs1 Hs2 Htol st2.
  apply String.eqb_neq in Hs1. apply String.eqb_neq in Hs2.
  assert (Hu : UnhealthyStartTime st2 = t1).
  { subst st2. unfold update. cbn [State UnhealthyStartTime].
    rewrite Hready, String.eqb_refl, Hs1, Hs2. reflexivity. }
  split; [exact Hu|].
  unfold readiness. rewrite Hu.
  subst st2. unfold update at 1 2 3 4 5 6 7 8.
  cbn [Mode State StatusMessage LastUpdateTime TimeoutPeriod TolerationPeriod].
  unfold update. cbn [Mode State StatusMessage LastUpdateTime TimeoutPeriod
    TolerationPeriod].
  rewrite Hmode, String.eqb_refl, Hs2. cbn [negb andb].
  replace (TolerationPeriod st <=? 0) with false
    by (symmetry; apply Z.leb_gt; lia).
  replace (0 <? TolerationPeriod st) with true
    by (symmetry; apply Z.ltb_lt; lia).
  cbn [andb]. split.
  - intros Hin Hbeat.
    replace (TolerationPeriod st <? now - t1) with false
      by (symmetry; apply Z.ltb_ge; lia).
    replace ((0 <? TimeoutPeriod st) && (TimeoutPeriod st <? now - t2))
      with false; [reflexivity|].
    symmetry. apply andb_false_iff. rewrite Z.ltb_ge, Z.ltb_ge. lia.
  - intros Hout.
    replace (TolerationPeriod st <? now - t1) with true
      by (symmetry; apply Z.ltb_lt; lia).
    destruct (_ && _); reflexivity.
Qed.

Lemma toleration_runs_from_first_failure_witness :
  Ready (readiness (fun _ _ => ""%string) 31
           (update 30
              (update 10
                 {| State := HealthzCheckStateReady; StatusMessage := InitMessage;
                    LastUpdateTime := 0; Mode := HealthzCheckModeHeartBeat;
                    TimeoutPeriod := 5; UnhealthyStartTime := 0;
                    TolerationPeriod := 20; temporary := false; count := 0 |}
                 HealthzCheckStateNotReady "a")
              HealthzCheckStateFailed "b")) = false.
Proof.
  refine (proj2 (proj2 (toleration_runs_from_first_failure (fun _ _ => ""%string)
                   {| State := HealthzCheckStateReady; StatusMessage := InitMessage;
                      LastUpdateTime := 0; Mode := HealthzCheckModeHeartBeat;
                      TimeoutPeriod := 5; UnhealthyStartTime := 0;
                      TolerationPeriod := 20; temporary := false; count := 0 |}
                   HealthzCheckStateNotReady HealthzCheckStateFailed "a" "b"
                   10 30 31 eq_refl eq_refl _ _ eq_refl)) eq_refl);
    discriminate.
Defined.

(** X4: a heartbeat check with a timeout [TimeoutPeriod > 0] whose caller
    last reported the ready state at [t] is served as ready exactly as long
    as no more than [TimeoutPeriod] has elapsed since [t]; after that it is
    not ready and the message is the timeout text, not the caller's. *)
Theorem heartbeat_ready_until_timeout
    (timeoutMessage : Z -> Z -> string) (m : gmap string healthzCheckStatus)
    (name msg : string) (st : healthzCheckStatus) (t now : Z) :
  m !! name = Some st ->
  Mode st = HealthzCheckModeHeartBeat ->
  0 < TimeoutPeriod st ->
  GetRegisterReadinessCheckResult timeoutMessage now
    (fst (UpdateHealthzState t name HealthzCheckStateReady msg m)) !! name
  = Some (if now - t <=? TimeoutPeriod st
          then {| Ready := true; Message := msg |}
          else {| Ready := false;
                  Message := timeoutMessage (TimeoutPeriod st) t |}).
Proof.
  intros Hm Hmode Hto.
  unfold GetRegisterReadinessCheckResult, UpdateHealthzState.
  rewrite Hm. cbn [fst]. rewrite lookup_fmap, lookup_insert_eq.
  cbn [fmap option_fmap option_map]. f_equal.
  unfold readiness, update.
  cbn [Mode State StatusMessage LastUpdateTime TimeoutPeriod TolerationPeriod
    UnhealthyStartTime].
  rewrite Hmode, !String.eqb_refl. cbn [negb]. rewrite !andb_false_r.
  replace (0 <? TimeoutPeriod st) with true by (symmetry; apply Z.ltb_lt; lia).
  cbn [andb].
  destruct (Z.leb_spec (now - t) (TimeoutPeriod st)) as [Hin|Hout].
  - replace (TimeoutPeriod st <? now - t) with false
      by (symmetry; apply Z.ltb_ge; lia).
    reflexivity.
  - replace (TimeoutPeriod st <? now - t) with true
      by (symmetry; apply Z.ltb_lt; lia).
    reflexivity.
Qed.

Lemma heartbeat_ready_until_timeout_witness :
  GetRegisterReadinessCheckResult (fun _ _ => "late"%string) 16
    (fst (UpdateHealthzState 10 "beat" HealthzCheckStateReady "ok"
            (RegisterHeartbeatCheck 1 "beat" 5 HealthzCheckStateReady 0 ∅)))
    !! "beat"
  = Some {| Ready := false; Message := "late" |}.
Proof.
  exact (heartbeat_ready_until_timeout (fun _ _ => "late"%string)
           (RegisterHeartbeatCheck 1 "beat" 5 HealthzCheckStateReady 0 ∅)
           "beat" "ok"
           {| State := HealthzCheckStateReady; StatusMessage := InitMessage;
              LastUpdateTime := 1; Mode := HealthzCheckModeHeartBeat;
              TimeoutPeriod := 5; UnhealthyStartTime := 0;
              TolerationPeriod := 0; temporary := false; count := 0 |}
           10 16 eq_refl eq_refl eq_refl).
Defined.

End HealthzFacts.

Lemma Qlt_bool_iff (a b : Q) : Qlt_bool a b = true <-> (a < b)%Q.
Proof.
  unfold Qlt_bool. rewrite negb_true_iff, <- not_true_iff_false, Qle_bool_iff.
  split; [apply Qnot_le_lt | apply Qlt_not_le].
Qed.

Module MemoryHeadroomFacts.
Import MemoryHeadroom.

(** *** The loops of [Update] *)

(** Spec-side quantities *)

Lemma numaStep_ok e a n a' :
  numaStep e a n = inr a' ->
  metricsAvailable e n /\
  reclaimableMemory a' = (reclaimableMemory a + numaReclaimable e n)%Q /\
  availNUMATotal a' = (availNUMATotal a + numaMetric e n MetricMemTotalNuma)%Q /\
  reservedForAllocate a' =
    (reservedForAllocate a + ReservedForAllocate e / int_to_float (NumNUMANodes e))%Q /\
  numaReclaimableMemory a' = <[n := numaReclaimable e n]> (numaReclaimableMemory a).
Proof.
  unfold numaStep, bind, numaReclaimable, numaMetric, metricsAvailable.
  destruct (GetNumaMetric e n MetricMemFreeNuma) as [?|free] eqn:Hf; [discriminate|].
  destruct (GetNumaMetric e n MetricMemInactiveFileNuma) as [?|inact] eqn:Hi; [discriminate|].
  destruct (GetNumaMetric e n MetricMemTotalNuma) as [?|total] eqn:Ht; [discriminate|].
  intros [= <-]; simpl. split; [|auto].
  intros []; eauto.
Qed.

Lemma foldM_numaStep_ok e l : forall a a',
  foldM (numaStep e) l a = inr a' ->
  Forall (metricsAvailable e) l /\
  (reclaimableMemory a' == reclaimableMemory a + Qsum (map (numaReclaimable e) l))%Q /\
  (availNUMATotal a' ==
     availNUMATotal a + Qsum (map (fun n => numaMetric e n MetricMemTotalNuma) l))%Q /\
  (reservedForAllocate a' ==
     reservedForAllocate a
     + Qsum (map (fun _ => ReservedForAllocate e / int_to_float (NumNUMANodes e)) l))%Q /\
  (forall n, numaReclaimableMemory a' !! n =
             if bool_decide (n ∈ l) then Some (numaReclaimable e n)
             else numaReclaimableMemory a !! n).
Proof.
  induction l as [|x l IH]; simpl; intros a a' H.
  - injection H as <-. repeat split; try (simpl; lra). constructor.
  - unfold bind in H. destruct (numaStep e a x) as [?|a1] eqn:H1; [discriminate|].
    apply numaStep_ok in H1 as (Hm & Hr & Ht & Ha & Hn).
    apply IH in H as (Hm' & Hr' & Ht' & Ha' & Hn').
    split; [constructor; assumption|].
    rewrite Hr', Ht', Ha', Hr, Ht, Ha. repeat split; try lra.
    intros n. rewrite Hn', Hn.
    destruct (decide (n = x)) as [->|Hne].
    + rewrite lookup_insert_eq.
      rewrite (bool_decide_eq_true_2 (x ∈ x :: l)) by apply list_elem_of_here.
      destruct (bool_decide (x ∈ l)); reflexivity.
    + rewrite lookup_insert_ne by congruence.
      destruct (decide (n ∈ l)).
      * rewrite !bool_decide_eq_true_2; auto using list_elem_of_further.
      * rewrite !bool_decide_eq_false_2; auto. rewrite elem_of_cons. tauto.
Qed.

Lemma fold_addAt x l : forall m n,
  NoDup l ->
  fold_left (addAt x) l m !! n =
  if bool_decide (n ∈ l) then Some (default 0%Q (m !! n) + x)%Q else m !! n.
Proof.
  induction l as [|k l IH]; simpl; intros m n Hnd.
  - reflexivity.
  - apply NoDup_cons in Hnd as [Hk Hnd]. rewrite IH by assumption.
    unfold addAt.
    destruct (decide (n = k)) as [->|Hne].
    + rewrite (bool_decide_eq_false_2 (k ∈ l)) by assumption.
      rewrite (bool_decide_eq_true_2 (k ∈ k :: l)) by apply list_elem_of_here.
      apply lookup_insert_eq.
    + rewrite !lookup_insert_ne by congruence.
      destruct (decide (n ∈ l)) as [Hin|Hin].
      * rewrite !bool_decide_eq_true_2; auto using list_elem_of_further.
      * rewrite !bool_decide_eq_false_2; auto.
        rewrite elem_of_cons. tauto.
Qed.

Lemma containerStep_lookup a c n :
  numaReclaimableMemory (containerStep a c) !! n =
  if eligible c && bool_decide (n ∈ TopologyAwareAssignments c)
  then Some (default 0%Q (numaReclaimableMemory a !! n) + containerShare c n)%Q
  else numaReclaimableMemory a !! n.
Proof.
  unfold containerStep, containerShare, eligible; simpl.
  destruct (Qlt_bool _ _ && (_ <? _)) eqn:He; simpl; [|reflexivity].
  rewrite fold_addAt by apply NoDup_elements.
  rewrite (bool_decide_ext _ (n ∈ TopologyAwareAssignments c)) by apply elem_of_elements.
  destruct (bool_decide _); reflexivity.
Qed.

Lemma containerStep_spec a c :
  reclaimableMemory (containerStep a c) = (reclaimableMemory a + MemoryRequest c)%Q /\
  availNUMATotal (containerStep a c) = availNUMATotal a /\
  reservedForAllocate (containerStep a c) = reservedForAllocate a /\
  forall n,
    (default 0%Q (numaReclaimableMemory (containerStep a c) !! n)
     == default 0%Q (numaReclaimableMemory a !! n) + containerShare c n)%Q /\
    (is_Some (numaReclaimableMemory (containerStep a c) !! n) <->
     is_Some (numaReclaimableMemory a !! n)
     \/ eligible c && bool_decide (n ∈ TopologyAwareAssignments c) = true).
Proof.
  split; [reflexivity|]. split; [reflexivity|]. split; [reflexivity|].
  intros n. rewrite containerStep_lookup.
  unfold containerShare.
  destruct (eligible c && bool_decide _); simpl.
  - split; [lra|]. split; eauto.
  - split; [lra|]. split; auto. intros [?|?]; auto; discriminate.
Qed.

Lemma fold_containerStep_spec cs : forall a,
  (reclaimableMemory (fold_left containerStep cs a)
   == reclaimableMemory a + Qsum (map MemoryRequest cs))%Q /\
  availNUMATotal (fold_left containerStep cs a) = availNUMATotal a /\
  reservedForAllocate (fold_left containerStep cs a) = reservedForAllocate a /\
  forall n,
    (default 0%Q (numaReclaimableMemory (fold_left containerStep cs a) !! n)
     == default 0%Q (numaReclaimableMemory a !! n)
        + Qsum (map (fun c => containerShare c n) cs))%Q /\
    (is_Some (numaReclaimableMemory (fold_left containerStep cs a) !! n) <->
     is_Some (numaReclaimableMemory a !! n) \/ touches cs n).
Proof.
  induction cs as [|c cs IH]; intros a.
  - cbn [fold_left map Qsum fold_right].
    split; [lra|]. split; [reflexivity|]. split; [reflexivity|].
    intros n. split; [lra|]. split; auto.
    intros [?|H]; auto. inversion H.
  - cbn [fold_left map Qsum fold_right].
    destruct (containerStep_spec a c) as (Hr & Ht & Ha & Hn).
    destruct (IH (containerStep a c)) as (Hr' & Ht' & Ha' & Hn').
    rewrite Hr', Ht', Ha', Hr, Ht, Ha.
    split; [unfold Qsum; lra|]. split; [reflexivity|]. split; [reflexivity|].
    intros n. destruct (Hn n) as [Hq Hs]. destruct (Hn' n) as [Hq' Hs'].
    split.
    + rewrite Hq', Hq. unfold Qsum. lra.
    + rewrite Hs', Hs. unfold touches. rewrite Exists_cons. tauto.
Qed.

Lemma fillEmpty_lookup l : forall m n,
  fillEmpty l m !! n =
  match m !! n with
  | Some v => Some v
  | None => if bool_decide (n ∈ l) then Some 0 else None
  end.
Proof.
  unfold fillEmpty. induction l as [|k l IH]; simpl; intros m n.
  - destruct (m !! n); reflexivity.
  - rewrite IH. destruct (m !! k) eqn:Hk.
    + destruct (m !! n) eqn:Hn; [reflexivity|].
      assert (n <> k) by congruence.
      destruct (decide (n ∈ l)).
      * rewrite !bool_decide_eq_true_2; auto using list_elem_of_further.
      * rewrite !bool_decide_eq_false_2; auto. rewrite elem_of_cons. tauto.
    + destruct (decide (n = k)) as [->|Hne].
      * rewrite lookup_insert_eq, Hk.
        rewrite (bool_decide_eq_true_2 (k ∈ k :: l)) by apply list_elem_of_here.
        reflexivity.
      * rewrite lookup_insert_ne by congruence.
        destruct (m !! n); [reflexivity|].
        destruct (decide (n ∈ l)).
        -- rewrite !bool_decide_eq_true_2; auto using list_elem_of_further.
        -- rewrite !bool_decide_eq_false_2; auto. rewrite elem_of_cons. tauto.
Qed.

Lemma reduceRatioOf_comp h h' r r' :
  (h == h')%Q -> (r == r')%Q -> (reduceRatioOf h r == reduceRatioOf h' r')%Q.
Proof.
  intros Hh Hr. unfold reduceRatioOf.
  destruct (Qlt_bool 0 r) eqn:H1, (Qlt_bool 0 r') eqn:H2.
  - now rewrite Hh, Hr.
  - apply Qlt_bool_iff in H1. rewrite Hr in H1. apply Qlt_bool_iff in H1. congruence.
  - apply Qlt_bool_iff in H2. rewrite <- Hr in H2. apply Qlt_bool_iff in H2. congruence.
  - reflexivity.
Qed.

Lemma compute_ok e h nh :
  compute e = inr (h, nh) ->
  exists avail cs scale,
    GetAvailableNUMAsAndReclaimedCores e = inr (avail, cs) /\
    GetNodeMetricScaleFactor e = inr scale /\
    Forall (metricsAvailable e) avail /\
    (h == expectedHeadroom e avail cs scale)%Q /\
    (forall n, n ∈ avail ->
       exists v, nh !! n = Some (float_to_int v) /\
         (v == numaReclaimableTotal e cs n
               * reduceRatioOf (expectedHeadroom e avail cs scale)
                               (totalReclaimable e avail cs))%Q) /\
    (forall n, n ∈ NUMANodes e -> ~ hasData avail cs n -> nh !! n = Some 0).
Proof.
  unfold compute, bind.
  destruct (GetAvailableNUMAsAndReclaimedCores e) as [?|[avail cs]] eqn:Hav; [discriminate|].
  destruct (foldM (numaStep e) avail locals0) as [?|a] eqn:Hfold; [discriminate|].
  destruct (GetNodeMetricScaleFactor e) as [?|scale] eqn:Hsc; [discriminate|].
  intros [= <- <-]. exists avail, cs, scale.
  apply foldM_numaStep_ok in Hfold as (Hm & Hr & Ht & Ha & Hn). simpl in Hr, Ht, Ha.
  destruct (fold_containerStep_spec cs a) as (Hr' & Ht' & Ha' & Hn').
  assert (HR : (reclaimableMemory (fold_left containerStep cs a)
                == totalReclaimable e avail cs)%Q).
  { unfold totalReclaimable. rewrite Hr', Hr. lra. }
  assert (HH : (Qmax (reclaimableMemory (fold_left containerStep cs a)
                      - availNUMATotal (fold_left containerStep cs a) * scale / 10000
                      - reservedForAllocate (fold_left containerStep cs a)) 0
                == expectedHeadroom e avail cs scale)%Q).
  { unfold expectedHeadroom, watermarkReserve, allocateReserve.
    rewrite Q.max_comm. apply Q.max_compat; [reflexivity|].
    rewrite HR, Ht', Ha', Ht, Ha. field. }
  repeat split; try assumption.
  - intros n Hin.
    destruct (Hn' n) as [Hq Hs].
    assert (Hpre : numaReclaimableMemory a !! n = Some (numaReclaimable e n)).
    { rewrite Hn. now rewrite bool_decide_eq_true_2. }
    destruct (proj2 Hs (or_introl (ex_intro _ _ Hpre))) as [v Hv].
    rewrite Hv, Hpre in Hq. simpl in Hq.
    eexists. split.
    + rewrite fillEmpty_lookup, lookup_fmap, Hv. simpl. reflexivity.
    + unfold numaReclaimableTotal. rewrite Hq.
      apply Qmult_comp; [reflexivity|]. now apply reduceRatioOf_comp.
  - intros n Hin Hnd.
    rewrite fillEmpty_lookup, lookup_fmap.
    destruct (numaReclaimableMemory (fold_left containerStep cs a) !! n) as [v|] eqn:Hv.
    + exfalso. apply Hnd. destruct (Hn' n) as [_ Hs].
      destruct (proj1 Hs (ex_intro _ _ Hv)) as [[w Hw]|Ht2].
      * left. rewrite Hn in Hw. destruct (decide (n ∈ avail)); [assumption|].
        rewrite bool_decide_eq_false_2 in Hw by assumption. discriminate.
      * now right.
    + simpl. now rewrite bool_decide_eq_true_2.
Qed.

Lemma foldM_numaStep_total e l : forall a,
  Forall (metricsAvailable e) l -> exists a', foldM (numaStep e) l a = inr a'.
Proof.
  induction l as [|n l IH]; intros a Hall; simpl.
  - eauto.
  - apply Forall_cons in Hall as [Hn Hall].
    destruct (Hn MetricMemFreeNuma) as [f Hf].
    destruct (Hn MetricMemInactiveFileNuma) as [i Hi].
    destruct (Hn MetricMemTotalNuma) as [t Ht].
    unfold numaStep at 1. rewrite Hf, Hi, Ht. simpl. apply IH, Hall.
Qed.

Lemma compute_total e avail cs scale :
  GetAvailableNUMAsAndReclaimedCores e = inr (avail, cs) ->
  Forall (metricsAvailable e) avail ->
  GetNodeMetricScaleFactor e = inr scale ->
  exists h nh, compute e = inr (h, nh).
Proof.
  intros Hav Hall Hsc. unfold compute. rewrite Hav. simpl.
  destruct (foldM_numaStep_total e avail locals0 Hall) as [a ->]. simpl.
  rewrite Hsc. simpl. eauto.
Qed.

Lemma compute_metric_failure e avail cs n name err :
  GetAvailableNUMAsAndReclaimedCores e = inr (avail, cs) ->
  n ∈ avail -> GetNumaMetric e n name = inl err ->
  is_err (compute e) = true.
Proof.
  intros Hav Hin Hfail.
  destruct (compute e) as [?|[h nh]] eqn:Hc; [reflexivity|].
  apply compute_ok in Hc as (avail' & cs' & scale & Hav' & _ & Hall & _).
  rewrite Hav in Hav'. injection Hav' as <- <-.
  rewrite Forall_forall in Hall. destruct (Hall n Hin name) as [v Hv]. congruence.
Qed.

Lemma Update_status e p :
  updateStatus (fst (Update e p)) =
  if is_err (compute e) then PolicyUpdateFailed else PolicyUpdateSucceeded.
Proof. unfold Update. destruct (compute e) as [?|[? ?]]; reflexivity. Qed.

Lemma Update_error e p :
  snd (Update e p) = None <-> is_err (compute e) = false.
Proof. unfold Update. destruct (compute e) as [?|[? ?]]; simpl; split; congruence. Qed.

(** No call of the run is an [Update] that succeeds. *)

(** Every [GetHeadroom] of the run returned an error. *)

Lemma run_failed cs : forall p,
  updateStatus p = PolicyUpdateFailed -> noSuccessfulUpdate cs ->
  updateStatus (fst (run p cs)) = PolicyUpdateFailed /\ allRefused (snd (run p cs)).
Proof.
  induction cs as [|c cs IH]; intros p Hp Hall; simpl.
  - split; [assumption|constructor].
  - apply Forall_cons in Hall as [Hc Hall].
    destruct c as [e|]; simpl.
    + destruct (Update e p) as [p' err] eqn:Hu.
      assert (Hp' : updateStatus p' = PolicyUpdateFailed).
      { specialize (Hc p). pose proof (Update_status e p) as Hs.
        pose proof (Update_error e p) as He. rewrite Hu in *. simpl in *.
        destruct (is_err (compute e)); [assumption|]. exfalso. apply Hc, He. reflexivity. }
      destruct (IH p' Hp' Hall) as [H1 H2].
      destruct (run p' cs) as [p'' os]. simpl in *. split; [assumption|].
      constructor; [exact I|assumption].
    + destruct (IH p Hp Hall) as [H1 H2].
      destruct (run p cs) as [p'' os]. simpl in *. split; [assumption|].
      constructor; [|assumption]. unfold GetHeadroom. rewrite Hp. reflexivity.
Qed.

Lemma Qsum_le {A} (f g : A -> Q) l :
  (forall x, x ∈ l -> (f x <= g x)%Q) -> (Qsum (map f l) <= Qsum (map g l))%Q.
Proof.
  induction l as [|x l IH]; intros H; simpl.
  - lra.
  - assert (f x <= g x)%Q by (apply H, list_elem_of_here).
    assert (Qsum (map f l) <= Qsum (map g l))%Q
      by (apply IH; intros; apply H, list_elem_of_further; assumption).
    lra.
Qed.

Lemma Qsum_ext {A} (f g : A -> Q) l :
  (forall x, f x = g x) -> Qsum (map f l) = Qsum (map g l).
Proof. intros H. induction l; simpl; congruence. Qed.

Lemma metricsAvailable_double e n :
  metricsAvailable e n -> metricsAvailable (doubleInactiveFile e) n.
Proof.
  intros H name. destruct name; simpl; try apply H.
  destruct (H MetricMemInactiveFileNuma) as [v ->]. simpl. eauto.
Qed.

Lemma numaMetric_double_inactive e n :
  (numaMetric (doubleInactiveFile e) n MetricMemInactiveFileNuma
   == 2 * numaMetric e n MetricMemInactiveFileNuma)%Q.
Proof.
  unfold numaMetric; simpl.
  destruct (GetNumaMetric e n MetricMemInactiveFileNuma); simpl; lra.
Qed.

Lemma expectedHeadroom_double e avail cs scale :
  (0 <= CacheBasedRatio e)%Q ->
  (forall n, n ∈ avail -> (0 <= numaMetric e n MetricMemInactiveFileNuma)%Q) ->
  (expectedHeadroom e avail cs scale
   <= expectedHeadroom (doubleInactiveFile e) avail cs scale)%Q.
Proof.
  intros Hr Hnn. unfold expectedHeadroom.
  apply Q.max_le_compat_l.
  assert (H1 : watermarkReserve (doubleInactiveFile e) avail scale
               = watermarkReserve e avail scale) by reflexivity.
  assert (H2 : allocateReserve (doubleInactiveFile e) avail = allocateReserve e avail)
    by reflexivity.
  rewrite H1, H2.
  assert (H3 : (totalReclaimable e avail cs
                <= totalReclaimable (doubleInactiveFile e) avail cs)%Q).
  { unfold totalReclaimable.
    assert (Qsum (map (numaReclaimable e) avail)
            <= Qsum (map (numaReclaimable (doubleInactiveFile e)) avail))%Q.
    { apply Qsum_le. intros n Hin. unfold numaReclaimable.
      rewrite numaMetric_double_inactive. change (CacheBasedRatio (doubleInactiveFile e))
        with (CacheBasedRatio e).
      change (numaMetric (doubleInactiveFile e) n MetricMemFreeNuma)
        with (numaMetric e n MetricMemFreeNuma).
      specialize (Hnn n Hin). nra. }
    lra. }
  lra.
Qed.

(** *** The claims on the memory headroom policy *)

Lemma reduceRatioOf_pos h r : (0 < r)%Q -> reduceRatioOf h r = (h / r)%Q.
Proof.
  intros H. unfold reduceRatioOf. apply Qlt_bool_iff in H. now rewrite H.
Qed.

Lemma reduceRatioOf_zero h r : (r == 0)%Q -> reduceRatioOf h r = 0%Q.
Proof.
  intros H. unfold reduceRatioOf.
  destruct (Qlt_bool 0 r) eqn:E; [|reflexivity].
  apply Qlt_bool_iff in E. rewrite H in E. lra.
Qed.

Lemma Update_ok e p p' :
  Update e p = (p', None) ->
  compute e = inr (memoryHeadroom p', numaMemoryHeadroom p') /\
  updateStatus p' = PolicyUpdateSucceeded.
Proof.
  unfold Update. destruct (compute e) as [?|[h nh]]; [discriminate|].
  intros [= <-]. split; reflexivity.
Qed.

Lemma Update_failed e p p' err :
  Update e p = (p', Some err) -> updateStatus p' = PolicyUpdateFailed.
Proof.
  unfold Update. destruct (compute e) as [?|[h nh]]; [|discriminate].
  intros [= <- _]. reflexivity.
Qed.

(** C2. On every successful [Update] the total headroom is
    [max 0 (R - W - A)], with [R] the reclaimable memory of the available
    NUMAs plus the memory requests of the reclaimed-cores containers, [W] the
    watermark reserve and [A] the reservation summed over the available NUMAs;
    [GetHeadroom] reports that total (as an int64 quantity); every available
    NUMA reports its reclaimable amount scaled by total/R (and by 0 when R is
    0); every NUMA of the machine without data reports 0.  On the inputs of
    scenario 5 the total is 15.36G and each NUMA reports 7.68G. *)
Theorem numa_aware_headroom_formula :
  (forall e p p', Update e p = (p', None) ->
     exists avail cs scale,
       GetAvailableNUMAsAndReclaimedCores e = inr (avail, cs) /\
       GetNodeMetricScaleFactor e = inr scale /\
       (memoryHeadroom p' == expectedHeadroom e avail cs scale)%Q /\
       GetHeadroom p' = inr (float_to_int (memoryHeadroom p'), numaMemoryHeadroom p') /\
       (forall n, n ∈ avail ->
          exists v, numaMemoryHeadroom p' !! n = Some (float_to_int v) /\
            (v == numaReclaimableTotal e cs n
                  * reduceRatioOf (expectedHeadroom e avail cs scale)
                                  (totalReclaimable e avail cs))%Q) /\
       (forall n, n ∈ NUMANodes e -> ~ hasData avail cs n ->
          numaMemoryHeadroom p' !! n = Some 0)) /\
  (forall h r, (0 < r)%Q -> reduceRatioOf h r = (h / r)%Q) /\
  (forall h r, (r == 0)%Q -> reduceRatioOf h r = 0%Q) /\
  (exists p', Update scenario5 NewPolicyNUMAAware = (p', None) /\
     (memoryHeadroom p' == (1536 # 100) * G)%Q /\
     GetHeadroom p' = inr (16492674416, {[0 := 8246337208; 1 := 8246337208]}) /\
     float_to_int ((1536 # 100) * G)%Q = 16492674416 /\
     float_to_int ((768 # 100) * G)%Q = 8246337208).
Proof.
  split; [|split; [exact reduceRatioOf_pos|split; [exact reduceRatioOf_zero|]]].
  - intros e p p' Hu. apply Update_ok in Hu as [Hc Hs].
    apply compute_ok in Hc as (avail & cs & scale & Hav & Hsc & _ & Hh & Hn & Hz).
    exists avail, cs, scale. repeat split; try assumption.
    unfold GetHeadroom. now rewrite Hs.
  - eexists. split; [vm_compute; reflexivity|].
    split; [vm_compute; reflexivity|].
    split; [vm_compute; reflexivity|].
    split; vm_compute; reflexivity.
Qed.

Lemma numa_aware_headroom_formula_witness :
  exists avail cs scale,
    GetAvailableNUMAsAndReclaimedCores scenario5 = inr (avail, cs) /\
    GetNodeMetricScaleFactor scenario5 = inr scale /\
    (memoryHeadroom (fst (Update scenario5 NewPolicyNUMAAware))
     == expectedHeadroom scenario5 avail cs scale)%Q.
Proof.
  destruct (proj1 numa_aware_headroom_formula scenario5 NewPolicyNUMAAware
              (fst (Update scenario5 NewPolicyNUMAAware)))
    as (avail & cs & scale & H1 & H2 & H3 & _).
  - vm_compute. reflexivity.
  - exists avail, cs, scale. repeat split; assumption.
Defined.

(** C5. When [Update] returns an error the status is [PolicyUpdateFailed],
    and from then on every [GetHeadroom] is refused, whatever calls follow, as
    long as none of them is an [Update] that succeeds; a failing fetch of a
    NUMA metric or of the scale factor, or a failing helper, makes [Update]
    return an error.  After an [Update] that succeeds [GetHeadroom] returns
    the headroom that this [Update] computed. *)
Theorem update_failure_blocks_headroom :
  (forall e p p' err, Update e p = (p', Some err) ->
     updateStatus p' = PolicyUpdateFailed /\
     is_err (GetHeadroom p') = true /\
     forall cs, noSuccessfulUpdate cs ->
       updateStatus (fst (run p' cs)) = PolicyUpdateFailed /\
       allRefused (snd (run p' cs)) /\
       is_err (GetHeadroom (fst (run p' cs))) = true) /\
  (forall e p avail cs n name err,
     GetAvailableNUMAsAndReclaimedCores e = inr (avail, cs) ->
     n ∈ avail -> GetNumaMetric e n name = inl err ->
     snd (Update e p) <> None) /\
  (forall e p, is_err (GetNodeMetricScaleFactor e) = true
               \/ is_err (GetAvailableNUMAsAndReclaimedCores e) = true ->
     snd (Update e p) <> None) /\
  (forall e p p', Update e p = (p', None) ->
     updateStatus p' = PolicyUpdateSucceeded /\
     compute e = inr (memoryHeadroom p', numaMemoryHeadroom p') /\
     GetHeadroom p' = inr (float_to_int (memoryHeadroom p'), numaMemoryHeadroom p')).
Proof.
  split; [|split; [|split]].
  - intros e p p' err Hu. apply Update_failed in Hu.
    split; [assumption|]. split; [unfold GetHeadroom; now rewrite Hu|].
    intros cs Hcs. destruct (run_failed cs p' Hu Hcs) as [H1 H2].
    split; [assumption|]. split; [assumption|].
    unfold GetHeadroom. now rewrite H1.
  - intros e p avail cs n name err Hav Hin Hfail Hnone.
    apply Update_error in Hnone.
    rewrite (compute_metric_failure e avail cs n name err Hav Hin Hfail) in Hnone.
    discriminate.
  - intros e p H Hnone. apply Update_error in Hnone.
    unfold compute in Hnone.
    destruct (GetAvailableNUMAsAndReclaimedCores e) as [?|[avail cs]]; simpl in *;
      [discriminate|].
    destruct (foldM (numaStep e) avail locals0); simpl in *; [discriminate|].
    destruct (GetNodeMetricScaleFactor e); simpl in *; [discriminate|].
    destruct H; discriminate.
  - intros e p p' Hu. apply Update_ok in Hu as [Hc Hs].
    split; [assumption|]. split; [assumption|].
    unfold GetHeadroom. now rewrite Hs.
Qed.

Lemma update_failure_blocks_headroom_witness :
  updateStatus (fst (Update brokenMetrics (fst (Update scenario5 NewPolicyNUMAAware))))
  = PolicyUpdateFailed /\
  is_err (GetHeadroom
            (fst (Update brokenMetrics (fst (Update scenario5 NewPolicyNUMAAware)))))
  = true.
Proof.
  destruct (proj1 update_failure_blocks_headroom brokenMetrics
              (fst (Update scenario5 NewPolicyNUMAAware))
              (fst (Update brokenMetrics (fst (Update scenario5 NewPolicyNUMAAware))))
              (Errorf "metric not found")) as (H1 & H2 & _).
  - vm_compute. reflexivity.
  - split; assumption.
Defined.

(** C7. Doubling the inactive-file metric of every NUMA, everything else
    unchanged, never decreases the total headroom of a successful [Update],
    neither the float the policy stores nor the int64 quantity that
    [GetHeadroom] reports.  The cache ratio lies in [0, 1] and the metric, a
    byte count, is not negative. *)
Theorem doubling_inactive_file_monotone
    (e : Env) (p p1 : PolicyNUMAAware) (avail : list Z) (cs : list ContainerInfo) :
  (0 <= CacheBasedRatio e)%Q -> (CacheBasedRatio e <= 1)%Q ->
  GetAvailableNUMAsAndReclaimedCores e = inr (avail, cs) ->
  (forall n, n ∈ avail -> (0 <= numaMetric e n MetricMemInactiveFileNuma)%Q) ->
  Update e p = (p1, None) ->
  exists p2, Update (doubleInactiveFile e) p = (p2, None) /\
    (memoryHeadroom p1 <= memoryHeadroom p2)%Q /\
    exists t1 m1 t2 m2, GetHeadroom p1 = inr (t1, m1) /\
                        GetHeadroom p2 = inr (t2, m2) /\ t1 <= t2.
Proof.
  intros Hr0 Hr1 Hav Hnn Hu.
  apply Update_ok in Hu as [Hc Hs].
  apply compute_ok in Hc as (avail' & cs' & scale & Hav' & Hsc & Hall & Hh & _).
  rewrite Hav in Hav'. injection Hav' as <- <-.
  destruct (compute_total (doubleInactiveFile e) avail cs scale) as (h2 & nh2 & Hc2);
    [exact Hav| |exact Hsc|].
  { eapply Forall_impl; [exact Hall|]. intros n. apply metricsAvailable_double. }
  exists {| memoryHeadroom := h2; numaMemoryHeadroom := nh2;
            updateStatus := PolicyUpdateSucceeded |}.
  split; [unfold Update; now rewrite Hc2|].
  apply compute_ok in Hc2 as (avail2 & cs2 & scale2 & Hav2 & Hsc2 & _ & Hh2 & _).
  simpl in Hav2, Hsc2. rewrite Hav in Hav2. injection Hav2 as <- <-.
  rewrite Hsc in Hsc2. injection Hsc2 as <-.
  assert (Hle : (memoryHeadroom p1 <= h2)%Q).
  { rewrite Hh, Hh2. now apply expectedHeadroom_double. }
  split; [exact Hle|].
  exists (float_to_int (memoryHeadroom p1)), (numaMemoryHeadroom p1),
    (float_to_int h2), nh2.
  unfold GetHeadroom. rewrite Hs. simpl. repeat split.
  apply float_to_int_mono; [|exact Hle].
  rewrite Hh. unfold expectedHeadroom. apply Q.le_max_l.
Qed.

Lemma doubling_inactive_file_monotone_witness :
  exists p2, Update (doubleInactiveFile scenario5) NewPolicyNUMAAware = (p2, None) /\
    (memoryHeadroom (fst (Update scenario5 NewPolicyNUMAAware)) <= memoryHeadroom p2)%Q.
Proof.
  destruct (doubling_inactive_file_monotone scenario5 NewPolicyNUMAAware
              (fst (Update scenario5 NewPolicyNUMAAware)) [0; 1] [])
    as (p2 & H1 & H2 & _).
  - vm_compute. discriminate.
  - vm_compute. discriminate.
  - reflexivity.
  - intros n _. vm_compute. discriminate.
  - vm_compute. reflexivity.
  - exists p2. split; assumption.
Defined.


(** *** Further properties of the policy *)

Lemma GetHeadroom_Update e p q :
  GetHeadroom (fst (Update e p)) = GetHeadroom (fst (Update e q)).
Proof.
  unfold Update. destruct (compute e) as [?|[h nh]]; reflexivity.
Qed.

Lemma run_last_update cs : forall p,
  GetHeadroom (fst (run p cs))
  = match fold_left (fun last c =>
                       match c with
                       | CallUpdate e => Some e
                       | CallGetHeadroom => last
                       end) cs None with
    | Some e => servedAfter e
    | None => GetHeadroom p
    end
  /\ forall e0,
       fold_left (fun last c =>
                    match c with
                    | CallUpdate e => Some e
                    | CallGetHeadroom => last
                    end) cs (Some e0)
       = match fold_left (fun last c =>
                            match c with
                            | CallUpdate e => Some e
                            | CallGetHeadroom => last
                            end) cs None with
         | Some e => Some e
         | None => Some e0
         end.
Proof.
  induction cs as [|c cs IH]; intros p.
  - split; reflexivity.
  - cbn [run fold_left]. destruct c as [e|]; cbn [step].
    + destruct (Update e p) as [p' err] eqn:Hu.
      destruct (IH p') as [H1 H2].
      destruct (run p' cs) as [p'' os]. cbn [fst] in *.
      split.
      * rewrite (H2 e), H1.
        destruct (fold_left _ cs None); [reflexivity|].
        unfold servedAfter. replace p' with (fst (Update e p)) by now rewrite Hu.
        apply GetHeadroom_Update.
      * intros e0. rewrite (H2 e). destruct (fold_left _ cs None); reflexivity.
    + destruct (IH p) as [H1 H2].
      destruct (run p cs) as [p'' os]. cbn [fst] in *.
      split; [exact H1 | exact H2].
Qed.

(** X5: what [GetHeadroom] serves depends on the last [Update] alone.
    After any run of calls on any policy, [GetHeadroom] answers as it would
    right after the last [Update] of the run, made on a fresh policy: the
    error if that [Update] failed, its headroom if it succeeded; nothing of
    the earlier updates shows through.  A run without [Update] leaves the
    answer as it was. *)
Theorem headroom_depends_on_last_update (p : PolicyNUMAAware) (cs : list call) :
  GetHeadroom (fst (run p cs))
  = match lastUpdate cs with
    | Some e => servedAfter e
    | None => GetHeadroom p
    end.
Proof. exact (proj1 (run_last_update cs p)). Qed.

Lemma compute_shape e h nh :
  compute e = inr (h, nh) ->
  exists avail cs scale a,
    GetAvailableNUMAsAndReclaimedCores e = inr (avail, cs)
    /\ GetNodeMetricScaleFactor e = inr scale
    /\ foldM (numaStep e) avail locals0 = inr a
    /\ h = Qmax (reclaimableMemory (fold_left containerStep cs a)
                 - availNUMATotal (fold_left containerStep cs a) * scale / 10000
                 - reservedForAllocate (fold_left containerStep cs a)) 0
    /\ nh = fillEmpty (NUMANodes e)
              ((fun v => float_to_int
                           (v * reduceRatioOf h
                                  (reclaimableMemory (fold_left containerStep cs a)))%Q)
               <$> numaReclaimableMemory (fold_left containerStep cs a)).
Proof.
  unfold compute, bind.
  destruct (GetAvailableNUMAsAndReclaimedCores e) as [?|[avail cs]] eqn:Hav; [discriminate|].
  destruct (foldM (numaStep e) avail locals0) as [?|a] eqn:Hfold; [discriminate|].
  destruct (GetNodeMetricScaleFactor e) as [?|scale] eqn:Hsc; [discriminate|].
  intros [= <- <-]. exists avail, cs, scale, a. repeat split; assumption.
Qed.

Lemma containerShare_nonneg c n : (0 <= containerShare c n)%Q.
Proof.
  unfold containerShare, eligible.
  destruct (Qlt_bool 0 (MemoryRequest c)) eqn:Hq; cbn [andb]; [|lra].
  destruct (0 <? _) eqn:Hl; cbn [andb]; [|lra].
  destruct (bool_decide _); [|lra].
  apply Qlt_bool_iff in Hq. apply Z.ltb_lt in Hl.
  apply Qle_shift_div_l.
  - unfold int_to_float. change 0%Q with (inject_Z 0). rewrite <- Zlt_Qlt. exact Hl.
  - lra.
Qed.

Lemma Qsum_nonneg {A} (f : A -> Q) l :
  (forall x, (0 <= f x)%Q) -> (0 <= Qsum (map f l))%Q.
Proof.
  intros H. induction l as [|x l IH]; simpl; [lra|]. specialize (H x). lra.
Qed.

Lemma reduceRatioOf_nonneg h r : (0 <= h)%Q -> (0 <= reduceRatioOf h r)%Q.
Proof.
  intros Hh. unfold reduceRatioOf.
  destruct (Qlt_bool 0 r) eqn:Hr; [|lra].
  apply Qlt_bool_iff in Hr. apply Qle_shift_div_l; [exact Hr|lra].
Qed.

(** X6: after a successful [Update] the total is not negative and the
    per-NUMA map has an entry for every NUMA node of the machine, whether the
    node is available, only touched by a reclaimed-cores container, or
    neither; and when the cache ratio and the free and inactive-file readings
    of the available NUMAs are not negative, no entry of the map is negative
    either. *)
Theorem every_numa_gets_nonnegative_headroom
    (e : Env) (p p' : PolicyNUMAAware) (avail : list Z) (cs : list ContainerInfo) :
  Update e p = (p', None) ->
  GetAvailableNUMAsAndReclaimedCores e = inr (avail, cs) ->
  (0 <= memoryHeadroom p')%Q
  /\ (forall n, n ∈ NUMANodes e -> is_Some (numaMemoryHeadroom p' !! n))
  /\ ((0 <= CacheBasedRatio e)%Q ->
      (forall n, n ∈ avail ->
         (0 <= numaMetric e n MetricMemFreeNuma)%Q
         /\ (0 <= numaMetric e n MetricMemInactiveFileNuma)%Q) ->
      forall n v, numaMemoryHeadroom p' !! n = Some v -> 0 <= v).
Proof.
  intros Hu Hav.
  apply Update_ok in Hu as [Hc _].
  apply compute_shape in Hc
    as (avail' & cs' & scale & a & Hav' & Hsc & Hfold & Hh & Hnh).
  rewrite Hav in Hav'. injection Hav' as <- <-.
  assert (Hpos : (0 <= memoryHeadroom p')%Q) by (rewrite Hh; apply Q.le_max_r).
  split; [exact Hpos|].
  split.
  - intros n Hin. rewrite Hnh, fillEmpty_lookup.
    destruct (_ !! n); [eauto|].
    rewrite bool_decide_eq_true_2 by exact Hin. eauto.
  - intros Hratio Hmetrics n v. rewrite Hnh, fillEmpty_lookup, lookup_fmap.
    apply foldM_numaStep_ok in Hfold as (_ & _ & _ & _ & Hn).
    destruct (fold_containerStep_spec cs a) as (_ & _ & _ & Hn').
    destruct (Hn' n) as [Hq _].
    destruct (numaReclaimableMemory (fold_left containerStep cs a) !! n)
      as [x|] eqn:Hx; cbn [fmap option_fmap option_map].
    + intros [= <-]. apply float_to_int_nonneg.
      cbn [default] in Hq.
      assert (Hx0 : (0 <= x)%Q).
      { rewrite Hq.
        assert (0 <= default 0 (numaReclaimableMemory a !! n))%Q.
        { rewrite Hn. destruct (decide (n ∈ avail)) as [Hin|Hin].
          - rewrite bool_decide_eq_true_2 by exact Hin. cbn [default].
            destruct (Hmetrics n Hin) as [Hf Hi]. unfold numaReclaimable.
            pose proof (Qmult_le_0_compat _ _ Hi Hratio). unfold id. lra.
          - rewrite bool_decide_eq_false_2 by exact Hin.
            cbn [locals0 numaReclaimableMemory]. rewrite lookup_empty.
            cbn [default]. unfold id. lra. }
        pose proof (Qsum_nonneg (fun c => containerShare c n) cs
                      (fun c => containerShare_nonneg c n)).
        lra. }
      apply Qmult_le_0_compat; [exact Hx0|].
      apply reduceRatioOf_nonneg, Hpos.
    + destruct (bool_decide _); [|discriminate]. intros [= <-]. lia.
Qed.

Lemma every_numa_gets_nonnegative_headroom_witness :
  (0 <= memoryHeadroom (fst (Update scenario5 NewPolicyNUMAAware)))%Q
  /\ is_Some (numaMemoryHeadroom (fst (Update scenario5 NewPolicyNUMAAware)) !! 0)
  /\ is_Some (numaMemoryHeadroom (fst (Update scenario5 NewPolicyNUMAAware)) !! 1)
  /\ (0 <= default 0
             (numaMemoryHeadroom (fst (Update scenario5 NewPolicyNUMAAware)) !! 0)).
Proof.
  destruct (every_numa_gets_nonnegative_headroom scenario5
              NewPolicyNUMAAware (fst (Update scenario5 NewPolicyNUMAAware))
              [0; 1] []) as (Htotal & Hall & Hentries).
  - vm_compute. reflexivity.
  - reflexivity.
  - split; [exact Htotal|].
    assert (H0 : (0 : Z) ∈ NUMANodes scenario5)
      by (apply (bool_decide_unpack _); vm_compute; exact I).
    assert (H1 : (1 : Z) ∈ NUMANodes scenario5)
      by (apply (bool_decide_unpack _); vm_compute; exact I).
    split; [exact (Hall 0 H0)|]. split; [exact (Hall 1 H1)|].
    destruct (Hall 0 H0) as [v Hv]. rewrite Hv. cbn [default].
    eapply Hentries; [vm_compute; discriminate| |exact Hv].
    intros n _. split; vm_compute; discriminate.
Defined.

Lemma float_to_int_zero (f : Q) : (f == 0)%Q -> float_to_int f = 0.
Proof.
  unfold Qeq, float_to_int. cbn [Qnum Qden]. intros H.
  replace (Qnum f) with 0 by lia. apply Z.quot_0_l. discriminate.
Qed.

Lemma reduceRatioOf_no_headroom h r : (h == 0)%Q -> (reduceRatioOf h r == 0)%Q.
Proof.
  intros Hh. unfold reduceRatioOf.
  destruct (Qlt_bool 0 r) eqn:E; [|reflexivity].
  apply Qlt_bool_iff in E. rewrite Hh. field. lra.
Qed.

(** X7: when the reclaimable memory does not exceed the watermark
    reserve plus the reservation, a successful [Update] ends with no
    headroom at all: [GetHeadroom] reports a total of [0] and every entry of
    the per-NUMA map is [0]. *)
Theorem no_headroom_below_reserves
    (e : Env) (p p' : PolicyNUMAAware) (avail : list Z) (cs : list ContainerInfo)
    (scale : Q) :
  Update e p = (p', None) ->
  GetAvailableNUMAsAndReclaimedCores e = inr (avail, cs) ->
  GetNodeMetricScaleFactor e = inr scale ->
  (totalReclaimable e avail cs
   <= watermarkReserve e avail scale + allocateReserve e avail)%Q ->
  exists m, GetHeadroom p' = inr (0, m)
    /\ (forall n, n ∈ NUMANodes e -> m !! n = Some 0)
    /\ (forall n v, m !! n = Some v -> v = 0).
Proof.
  intros Hu Hav Hsc Hle.
  apply Update_ok in Hu as [Hc Hs].
  pose proof Hc as Hc'.
  apply compute_ok in Hc' as (avail' & cs' & scale' & Hav' & Hsc' & _ & Hh & _).
  rewrite Hav in Hav'. injection Hav' as <- <-.
  rewrite Hsc in Hsc'. injection Hsc' as <-.
  assert (Hzero : (memoryHeadroom p' == 0)%Q).
  { rewrite Hh. unfold expectedHeadroom. apply Q.max_l. lra. }
  apply compute_shape in Hc
    as (avail' & cs' & scale' & a & _ & _ & _ & _ & Hnh).
  assert (Hall : forall n v, numaMemoryHeadroom p' !! n = Some v -> v = 0).
  { intros n v. rewrite Hnh, fillEmpty_lookup, lookup_fmap.
    destruct (numaReclaimableMemory _ !! n) as [x|];
      cbn [fmap option_fmap option_map].
    - intros [= <-]. apply float_to_int_zero.
      rewrite (reduceRatioOf_no_headroom _ _ Hzero). ring.
    - destruct (bool_decide _); [|discriminate]. intros [= <-]. reflexivity. }
  exists (numaMemoryHeadroom p'). split.
  - unfold GetHeadroom. rewrite Hs. now rewrite (float_to_int_zero _ Hzero).
  - split; [|exact Hall].
    intros n Hin.
    assert (Hsome : is_Some (numaMemoryHeadroom p' !! n)).
    { rewrite Hnh, fillEmpty_lookup. destruct (_ !! n); [eauto|].
      rewrite bool_decide_eq_true_2 by exact Hin. eauto. }
    destruct Hsome as [v Hv]. rewrite Hv. f_equal. eapply Hall, Hv.
Qed.

Lemma no_headroom_below_reserves_witness :
  exists m,
    GetHeadroom (fst (Update overReserved NewPolicyNUMAAware)) = inr (0, m)
    /\ (forall n, n ∈ [0; 1] -> m !! n = Some 0).
Proof.
  destruct (no_headroom_below_reserves overReserved NewPolicyNUMAAware
              (fst (Update overReserved NewPolicyNUMAAware)) [0; 1] [] 100%Q)
    as (m & H1 & H2 & _).
  - vm_compute. reflexivity.
  - reflexivity.
  - reflexivity.
  - vm_compute. discriminate.
  - exists m. split; [exact H1 | exact H2].
Defined.

End MemoryHeadroomFacts.

Module AssemblerFacts.
Import Assembler.

(** *** Pool entries *)

Lemma GetPoolEntry_SetPoolEntry_eq poolName numaID size quota r :
  GetPoolEntry poolName numaID (SetPoolEntry poolName numaID size quota r)
  = Some {| Size := size; Quota := quota |}.
Proof.
  unfold GetPoolEntry, SetPoolEntry; simpl.
  rewrite lookup_insert_eq. apply lookup_insert_eq.
Qed.

Lemma GetPoolEntry_SetPoolEntry_numa poolName poolName' numaID numaID' size quota r :
  numaID <> numaID' ->
  GetPoolEntry poolName numaID (SetPoolEntry poolName' numaID' size quota r)
  = GetPoolEntry poolName numaID r.
Proof.
  intros Hne. unfold GetPoolEntry, SetPoolEntry; simpl.
  destruct (decide (poolName = poolName')) as [->|Hp].
  - rewrite lookup_insert_eq, lookup_insert_ne by congruence.
    destruct (PoolEntries r !! poolName'); simpl; [reflexivity|apply lookup_empty].
  - rewrite lookup_insert_ne by congruence. reflexivity.
Qed.

Lemma GetPoolEntry_SetPoolEntry_pool poolName poolName' numaID numaID' size quota r :
  poolName <> poolName' ->
  GetPoolEntry poolName numaID (SetPoolEntry poolName' numaID' size quota r)
  = GetPoolEntry poolName numaID r.
Proof.
  intros Hne. unfold GetPoolEntry, SetPoolEntry; simpl.
  rewrite lookup_insert_ne by congruence. reflexivity.
Qed.

Lemma GetPoolEntry_setPoolEntries_numa poolName numaID numaID' poolSizes r :
  numaID <> numaID' ->
  GetPoolEntry poolName numaID (setPoolEntries poolSizes numaID' r)
  = GetPoolEntry poolName numaID r.
Proof.
  intros Hne. unfold setPoolEntries.
  apply (map_fold_weak_ind
           (fun acc _ => GetPoolEntry poolName numaID acc = GetPoolEntry poolName numaID r)).
  - reflexivity.
  - intros i x m acc _ IH. now rewrite GetPoolEntry_SetPoolEntry_numa.
Qed.

Lemma PoolEntries_setPoolOverlapInfos poolName numaID sizes r :
  PoolEntries (setPoolOverlapInfos poolName numaID sizes r) = PoolEntries r.
Proof.
  unfold setPoolOverlapInfos.
  apply (map_fold_weak_ind (fun acc _ => PoolEntries acc = PoolEntries r)).
  - reflexivity.
  - intros i x m acc _ IH. exact IH.
Qed.

Lemma Qmax_inject (a b : Z) : (Qmax (inject_Z a) (inject_Z b) == inject_Z (Z.max a b))%Q.
Proof.
  destruct (Z.le_ge_cases a b) as [H|H].
  - rewrite Z.max_r by assumption. apply Q.max_r. now rewrite <- Zle_Qle.
  - rewrite Z.max_l by assumption. apply Q.max_l. now rewrite <- Zle_Qle.
Qed.

Section DedicatedNE.

Variable regulatePoolSizes :
  gmap string Z -> gmap string Z -> Z -> bool -> gmap string Z * bool.

Variable regulateOverlapReclaimPoolSize :
  gmap string Z -> Z -> result (gmap string Z).

Variable v2 : bool.

(** The reclaim entry that [assembleDedicatedNE] writes. *)
Lemma assembleDedicatedNE_entry pa r st knob numa rest :
  Type_ r = QoSRegionTypeDedicatedNumaExclusive ->
  GetProvision r = inr knob ->
  GetBindingNumas r = numa :: rest ->
  let available := getNUMAsResource (numaAvailable pa) (GetBindingNumas r) in
  let reserved := getNUMAsResource (reservedForReclaim pa) (GetBindingNumas r) in
  let nonReclaim :=
    if EnableReclaim r
    then float_to_int (knobValue knob ControlKnobNonReclaimedCPURequirement)
    else available in
  exists st' entry,
    assembleDedicatedNE v2 pa r st = inr st' /\
    snd st' = snd st /\
    GetPoolEntry PoolNameReclaim numa (fst st') = Some entry /\
    (forall p n, n <> numa -> GetPoolEntry p n (fst st') = GetPoolEntry p n (fst st)) /\
    Size entry = (if v2 then available else Z.max reserved (available - nonReclaim)) /\
    Quota entry =
      (if v2 then
         match knob ControlKnobReclaimedCPUQuota with
         | Some quota =>
             Qmin (Qmax (int_to_float reserved) (int_to_float (available - nonReclaim)))
                  quota
         | None => Qmax (int_to_float reserved) (int_to_float (available - nonReclaim))
         end
       else (-1)%Q).
Proof.
  intros Hty Hknob Hnuma available reserved nonReclaim.
  subst available reserved nonReclaim. destruct st as [res thr].
  unfold assembleDedicatedNE, firstNuma. rewrite Hty, Hknob. simpl.
  rewrite !Hnuma.
  destruct (EnableReclaim r), v2; simpl;
    (eexists (_, _), _; split; [reflexivity|]; simpl;
     split; [reflexivity|]; split; [apply GetPoolEntry_SetPoolEntry_eq|];
     split; [intros; now apply GetPoolEntry_SetPoolEntry_numa|];
     split; reflexivity).
Qed.

End DedicatedNE.

Lemma filter_inRequirements_empty (m : gmap string Z) :
  filter (fun entry => inRequirements ∅ entry = true) m = ∅.
Proof.
  apply map_empty_filter. intros k v _. unfold inRequirements. simpl.
  rewrite lookup_empty. rewrite bool_decide_eq_false_2; [discriminate|].
  intros [? ?]; discriminate.
Qed.

Section Provision.

Variable regulatePoolSizes :
  gmap string Z -> gmap string Z -> Z -> bool -> gmap string Z * bool.

Variable regulateOverlapReclaimPoolSize :
  gmap string Z -> Z -> result (gmap string Z).

Variable v2 : bool.

Lemma assembleDedicatedNE_spec pa r st knob numa rest :
  Type_ r = QoSRegionTypeDedicatedNumaExclusive ->
  GetProvision r = inr knob ->
  GetBindingNumas r = numa :: rest ->
  exists st' entry,
    assembleDedicatedNE v2 pa r st = inr st' /\
    GetPoolEntry PoolNameReclaim numa (fst st') = Some entry /\
    dedicatedReclaimSpec v2 pa r knob entry.
Proof.
  intros Hty Hknob Hnuma.
  destruct (assembleDedicatedNE_entry v2 pa r st knob numa rest Hty Hknob Hnuma)
    as (st' & entry & H1 & _ & H2 & _ & H3 & H4).
  exists st', entry. split; [assumption|]. split; [assumption|].
  unfold dedicatedReclaimSpec. destruct v2.
  - split; [assumption|]. rewrite H4.
    destruct (knob ControlKnobReclaimedCPUQuota).
    + apply Q.min_compat; [apply Qmax_inject|reflexivity].
    + apply Qmax_inject.
  - assumption.
Qed.

Lemma assembleShare_empty_collective pa st :
  exists st',
    assembleShare regulatePoolSizes regulateOverlapReclaimPoolSize pa collective0 st
    = inr st' /\
    forall p n, n <> FakedNUMAID ->
      GetPoolEntry p n (fst st') = GetPoolEntry p n (fst st).
Proof.
  destruct st as [res thr]. unfold assembleShare. simpl.
  destruct (regulatePoolSizes _ _ _ _) as [sizes thr'].
  destruct (allowSharedCoresOverlapReclaimedCores pa); simpl.
  - rewrite filter_inRequirements_empty. rewrite map_size_empty. simpl.
    eexists. split; [reflexivity|]. simpl. intros p n Hn.
    rewrite GetPoolEntry_SetPoolEntry_numa by assumption.
    now apply GetPoolEntry_setPoolEntries_numa.
  - eexists. split; [reflexivity|]. simpl. intros p n Hn.
    rewrite GetPoolEntry_SetPoolEntry_numa by assumption.
    now apply GetPoolEntry_setPoolEntries_numa.
Qed.

Lemma AssembleProvision_dedicated pa r knob numa rest :
  regionMap pa = [r] ->
  Type_ r = QoSRegionTypeDedicatedNumaExclusive ->
  GetProvision r = inr knob ->
  GetBindingNumas r = numa :: rest ->
  numa <> FakedNUMAID ->
  exists st' entry,
    AssembleProvision regulatePoolSizes regulateOverlapReclaimPoolSize v2 pa = inr st' /\
    GetPoolEntry PoolNameReclaim numa (fst st') = Some entry /\
    dedicatedReclaimSpec v2 pa r knob entry.
Proof.
  intros Hmap Hty Hknob Hnuma Hfaked.
  unfold AssembleProvision. rewrite Hmap. cbn [foldM].
  unfold assembleRegion at 1. rewrite Hknob, Hty. cbn [bind].
  destruct (assembleDedicatedNE_spec pa r
              (assembleReserve pa
                 {| PoolEntries := ∅; PoolOverlapInfo := ∅;
                    AllowSharedCoresOverlapReclaimedCores :=
                      allowSharedCoresOverlapReclaimedCores pa |}, ∅)
              knob numa rest Hty Hknob Hnuma) as (st1 & entry & H1 & H2 & H3).
  rewrite H1. cbn [bind].
  destruct (assembleShare_empty_collective pa st1) as (st2 & H4 & H5).
  exists st2, entry. split; [exact H4|]. split; [|exact H3].
  rewrite H5 by assumption. exact H2.
Qed.

End Provision.

(** C1. For a dedicated NUMA-exclusive region the non-reclaim requirement is
    the NUMA's available size when reclaim is disabled and the (integer part
    of the) NonReclaimedCPURequirement knob otherwise.  Under cgroup v2 the
    reclaim entry of the region's NUMA has size available and quota
    max(reservedForReclaim, available - nonReclaim), capped by the
    ReclaimedCPUQuota knob when present; otherwise its size is
    max(reservedForReclaim, available - nonReclaim).  This holds of
    [assembleDedicatedNE] and of [AssembleProvision] on a region map that
    holds the region, whatever the regulators do.  Scenario 3 yields size 32
    and quota 12. *)
Theorem dedicated_numa_exclusive_reclaim_pool
    (regulatePoolSizes :
       gmap string Z -> gmap string Z -> Z -> bool -> gmap string Z * bool)
    (regulateOverlapReclaimPoolSize : gmap string Z -> Z -> result (gmap string Z)) :
  (forall v2 pa r st knob numa rest,
     Type_ r = QoSRegionTypeDedicatedNumaExclusive ->
     GetProvision r = inr knob ->
     GetBindingNumas r = numa :: rest ->
     exists st' entry,
       assembleDedicatedNE v2 pa r st = inr st' /\
       GetPoolEntry PoolNameReclaim numa (fst st') = Some entry /\
       dedicatedReclaimSpec v2 pa r knob entry) /\
  (forall v2 pa r knob numa rest,
     regionMap pa = [r] ->
     Type_ r = QoSRegionTypeDedicatedNumaExclusive ->
     GetProvision r = inr knob ->
     GetBindingNumas r = numa :: rest ->
     numa <> FakedNUMAID ->
     exists st' entry,
       AssembleProvision regulatePoolSizes regulateOverlapReclaimPoolSize v2 pa
       = inr st' /\
       GetPoolEntry PoolNameReclaim numa (fst st') = Some entry /\
       dedicatedReclaimSpec v2 pa r knob entry) /\
  (exists st' quota,
     AssembleProvision regulatePoolSizes regulateOverlapReclaimPoolSize true scenario3
     = inr st' /\
     GetPoolEntry PoolNameReclaim 0 (fst st') = Some {| Size := 32; Quota := quota |} /\
     (quota == 12)%Q).
Proof.
  split; [|split].
  - intros v2 pa r st knob numa rest. apply assembleDedicatedNE_spec.
  - intros v2 pa r knob numa rest. apply AssembleProvision_dedicated.
  - destruct (AssembleProvision_dedicated regulatePoolSizes
                regulateOverlapReclaimPoolSize true scenario3 scenario3Region
                (fun name =>
                   match name with
                   | ControlKnobNonReclaimedCPURequirement => Some 20%Q
                   | _ => None
                   end) 0 [])
      as (st' & [size quota] & H1 & H2 & H3 & H4);
      [reflexivity|reflexivity|reflexivity|reflexivity|discriminate|].
    exists st', quota. split; [exact H1|].
    simpl in H3. vm_compute in H3. subst size. split; [exact H2|].
    simpl in H4. rewrite H4. vm_compute. reflexivity.
Qed.

Lemma dedicated_numa_exclusive_reclaim_pool_witness :
  exists st' entry,
    assembleDedicatedNE true scenario3 scenario3Region
      ({| PoolEntries := ∅; PoolOverlapInfo := ∅;
          AllowSharedCoresOverlapReclaimedCores := false |}, ∅) = inr st' /\
    GetPoolEntry PoolNameReclaim 0 (fst st') = Some entry /\
    Size entry = 32 /\ (Quota entry == 12)%Q.
Proof.
  destruct (proj1 (dedicated_numa_exclusive_reclaim_pool
                     (fun share _ _ _ => (share, false)) (fun share _ => inr share))
              true scenario3 scenario3Region
              ({| PoolEntries := ∅; PoolOverlapInfo := ∅;
                  AllowSharedCoresOverlapReclaimedCores := false |}, ∅)
              (fun name =>
                 match name with
                 | ControlKnobNonReclaimedCPURequirement => Some 20%Q
                 | _ => None
                 end) 0 [])
    as (st' & entry & H1 & H2 & H3 & H4).
  - reflexivity.
  - reflexivity.
  - reflexivity.
  - exists st', entry. split; [exact H1|]. split; [exact H2|].
    split; [exact H3|]. rewrite H4. vm_compute. reflexivity.
Defined.

Lemma PoolEntries0_SetPoolEntry0 poolName numaID size r :
  PoolEntries0 (SetPoolEntry0 poolName numaID size r)
  = <[poolName := <[numaID := size]> (default ∅ (PoolEntries0 r !! poolName))]>
      (PoolEntries0 r).
Proof. reflexivity. Qed.

Lemma PoolEntries0_setPoolOverlapInfos0 poolName numaID sizes r :
  PoolEntries0 (setPoolOverlapInfos0 poolName numaID sizes r) = PoolEntries0 r.
Proof.
  unfold setPoolOverlapInfos0.
  apply (map_fold_weak_ind (fun acc _ => PoolEntries0 acc = PoolEntries0 r)).
  - reflexivity.
  - intros i x m acc _ IH. exact IH.
Qed.

Lemma GetPoolEntry0_SetPoolEntry0_eq poolName numaID size r :
  GetPoolEntry0 poolName numaID (SetPoolEntry0 poolName numaID size r) = Some size.
Proof.
  unfold GetPoolEntry0, SetPoolEntry0; simpl.
  rewrite lookup_insert_eq. apply lookup_insert_eq.
Qed.

Lemma GetPoolEntry0_SetPoolEntry0_pool poolName poolName' numaID numaID' size r :
  poolName <> poolName' ->
  GetPoolEntry0 poolName numaID (SetPoolEntry0 poolName' numaID' size r)
  = GetPoolEntry0 poolName numaID r.
Proof.
  intros Hne. unfold GetPoolEntry0, SetPoolEntry0; simpl.
  rewrite lookup_insert_ne by congruence. reflexivity.
Qed.

Lemma GetPoolEntry0_SetPoolEntry0_numa poolName poolName' numaID numaID' size r :
  numaID <> numaID' ->
  GetPoolEntry0 poolName numaID (SetPoolEntry0 poolName' numaID' size r)
  = GetPoolEntry0 poolName numaID r.
Proof.
  intros Hne. unfold GetPoolEntry0, SetPoolEntry0; simpl.
  destruct (decide (poolName = poolName')) as [->|Hp].
  - rewrite lookup_insert_eq, lookup_insert_ne by congruence.
    destruct (PoolEntries0 r !! poolName'); simpl; [reflexivity|apply lookup_empty].
  - rewrite lookup_insert_ne by congruence. reflexivity.
Qed.

Lemma GetPoolEntry0_setPoolEntries0_numa poolName numaID numaID' poolSizes r :
  numaID <> numaID' ->
  GetPoolEntry0 poolName numaID (setPoolEntries0 poolSizes numaID' r)
  = GetPoolEntry0 poolName numaID r.
Proof.
  intros Hne. unfold setPoolEntries0.
  apply (map_fold_weak_ind
           (fun acc _ => GetPoolEntry0 poolName numaID acc
                         = GetPoolEntry0 poolName numaID r)).
  - reflexivity.
  - intros i x m acc _ IH. now rewrite GetPoolEntry0_SetPoolEntry0_numa.
Qed.

Lemma GetPoolEntry0_setPoolOverlapInfos0 p n poolName numaID sizes r :
  GetPoolEntry0 p n (setPoolOverlapInfos0 poolName numaID sizes r)
  = GetPoolEntry0 p n r.
Proof.
  unfold GetPoolEntry0. now rewrite PoolEntries0_setPoolOverlapInfos0.
Qed.

Lemma poolSizesOf_differ r r0 p n entry size :
  GetPoolEntry p n r = Some entry -> GetPoolEntry0 p n r0 = Some size ->
  Size entry <> size -> poolSizesOf r <> PoolEntries0 r0.
Proof.
  unfold GetPoolEntry, GetPoolEntry0, poolSizesOf. intros H1 H2 Hne Heq.
  rewrite <- Heq, lookup_fmap in H2.
  destruct (PoolEntries r !! p) as [entries|]; simpl in H2; [|discriminate].
  rewrite lookup_fmap, H1 in H2. simpl in H2. congruence.
Qed.

Lemma GetRegions_other_type (r : QoSRegion) numa regionType :
  Type_ r <> regionType -> GetRegions [r] numa regionType = [].
Proof.
  intros Hne. unfold GetRegions. rewrite filter_cons_False; [reflexivity|].
  cbv beta. intros H. apply Is_true_true, andb_prop in H as [_ H].
  destruct (Type_ r), regionType; try discriminate; congruence.
Qed.

Ltac eval_closed_tests :=
  repeat match goal with
         | |- context [if ?b then _ else _] =>
             let v := eval vm_compute in b in
             progress (change b with v); cbv iota
         end.

Section Divergence.

Variable regulatePoolSizes :
  gmap string Z -> gmap string Z -> Z -> bool -> gmap string Z * bool.

Variable regulateOverlapReclaimPoolSize :
  gmap string Z -> Z -> result (gmap string Z).

Variable v2 : bool.

Variable regulatePoolSizes0 :
  gmap string Z -> Z -> bool -> bool -> gmap string Z * bool.

Variable PodEnableReclaim : string -> bool -> result bool.

Variable MergeMapInt : gmap string Z -> gmap string Z -> gmap string Z.

Variable SortedByValue : gmap string Z -> list (string * Z).

Hypothesis regulatePoolSizes_expands : forall pool requirement budget,
  requirement <= budget ->
  fst (regulatePoolSizes {[ pool := requirement ]} ∅ budget true) = {[ pool := budget ]}.

Hypothesis regulatePoolSizes0_expands : forall pool requirement budget enableReclaim,
  requirement <= budget ->
  fst (regulatePoolSizes0 {[ pool := requirement ]} budget enableReclaim true)
  = {[ pool := budget ]}.

Hypothesis MergeMapInt_empty : forall m, MergeMapInt m ∅ = m.

Lemma AssembleProvision_overlapNode :
  exists st,
    AssembleProvision regulatePoolSizes regulateOverlapReclaimPoolSize v2 overlapNode
    = inr st /\
    poolSizesOf (fst st) = overlapNodeSizes.
Proof.
  pose proof (regulatePoolSizes_expands "share" 4 10 ltac:(lia)) as E.
  unfold AssembleProvision.
  replace (foldM _ _ _) with
    (inr (B := assembly * collective)
       ((assembleReserve overlapNode
           {| PoolEntries := ∅; PoolOverlapInfo := ∅;
              AllowSharedCoresOverlapReclaimedCores := true |}, ∅),
        {| sharePoolRequirements := {[ "share"%string := 4 ]};
           sharePoolRequests := {[ "share"%string := 4 ]};
           isolationUpperSizes := ∅; isolationLowerSizes := ∅ |})
     : result (assembly * collective))
    by (vm_compute; reflexivity).
  cbn [bind]. unfold assembleShare. cbv beta iota zeta.
  match goal with
  | |- context [regulatePoolSizes ?a ?b ?c ?d] =>
      replace (regulatePoolSizes a b c d)
        with (regulatePoolSizes {[ "share"%string := 4 ]} ∅ 10 true)
        by (f_equal; vm_compute; reflexivity)
  end.
  destruct (regulatePoolSizes {[ "share"%string := 4 ]} ∅ 10 true) as [sizes thr].
  simpl in E. subst sizes.
  eexists. split; [vm_compute; reflexivity|].
  vm_compute; reflexivity.
Qed.

Lemma AssembleProvision0_overlapNode :
  exists st0,
    AssembleProvision0 regulatePoolSizes0 PodEnableReclaim MergeMapInt SortedByValue
      (NewProvisionAssemblerCommon0 overlapNode) = inr st0 /\
    PoolEntries0 (fst st0) = overlapNodeSizes0.
Proof.
  pose proof (regulatePoolSizes0_expands "share" 4 14 true ltac:(lia)) as E.
  pose proof (MergeMapInt_empty {[ "share"%string := 4 ]}) as M.
  unfold AssembleProvision0.
  replace (foldM _ _ _) with
    (inr (B := assembly0 * collective0')
       ((SetPoolEntry0 PoolNameReserve FakedNUMAID 0
           {| PoolEntries0 := ∅; PoolOverlapInfo0 := ∅;
              AllowSharedCoresOverlapReclaimedCores0 := true |}, ∅),
        {| shares := 4; isolationUppers := 0;
           sharePoolRequirements0 := {[ "share"%string := 4 ]};
           isolationUpperSizes0 := ∅; isolationLowerSizes0 := ∅ |})
     : result (assembly0 * collective0'))
    by (vm_compute; reflexivity).
  cbn [bind]. unfold assembleShare0. cbv beta iota zeta.
  match goal with
  | |- context [if ?b then MergeMapInt ?a1 ?b1 else MergeMapInt ?a2 ?b2] =>
      replace (if b then MergeMapInt a1 b1 else MergeMapInt a2 b2)
        with (MergeMapInt {[ "share"%string := 4 ]} ∅)
        by (replace b with false by (vm_compute; reflexivity);
            f_equal; vm_compute; reflexivity)
  end.
  rewrite M.
  match goal with
  | |- context [regulatePoolSizes0 ?a ?b ?c ?d] =>
      replace (regulatePoolSizes0 a b c d)
        with (regulatePoolSizes0 {[ "share"%string := 4 ]} 14 true true)
        by (f_equal; vm_compute; reflexivity)
  end.
  destruct (regulatePoolSizes0 {[ "share"%string := 4 ]} 14 true true) as [sizes thr].
  simpl in E. subst sizes.
  eval_closed_tests.
  eexists. split; [reflexivity|]. cbn [fst].
  rewrite PoolEntries0_SetPoolEntry0, PoolEntries0_setPoolOverlapInfos0.
  vm_compute; reflexivity.
Qed.

Hypothesis SortedByValue_entries : forall m, SortedByValue m ≡ₚ map_to_list m.

Lemma overlap_distribution_differs :
  sharedOverlapReclaimSizeOf {[ "a"%string := 6; "b"%string := 10 ]}
                             {[ "a"%string := 2; "b"%string := 8 ]}
  <> sharedOverlapReclaimSizeOf0 SortedByValue {[ "a"%string := 6; "b"%string := 10 ]} 6.
Proof.
  unfold sharedOverlapReclaimSizeOf0.
  pose proof (SortedByValue_entries {[ "a"%string := 6; "b"%string := 10 ]}) as H.
  remember (SortedByValue {[ "a"%string := 6; "b"%string := 10 ]}) as ps eqn:Hps.
  clear Hps. vm_compute in H. symmetry in H.
  apply Permutation_length_2_inv in H as [-> | ->];
    intros Heq; apply (f_equal (fun m : gmap string Z => m !! "a"%string)) in Heq;
    vm_compute in Heq; discriminate.
Qed.

(** The pool of a share region bound to a NUMA, in the first
    implementation: with overlap allowed and no isolation region on the NUMA
    the regulator is handed the available size of the NUMA as it is. *)
Lemma assembleShareNB_owner_pool pa r knob numa rest st :
  Type_ r = QoSRegionTypeShare -> IsNumaBinding r = true ->
  GetProvision r = inr knob ->
  GetBindingNumas r = numa :: rest ->
  allowSharedCoresOverlapReclaimedCores pa = true ->
  GetRegions (regionMap pa) numa QoSRegionTypeIsolation = [] ->
  OwnerPoolName r <> PoolNameReclaim ->
  Z.max 1 (math_Ceil (GetPodsRequest r))
  <= getNUMAsResource (numaAvailable pa) (GetBindingNumas r) ->
  exists st',
    assembleShareNB regulatePoolSizes v2 pa r st = inr st'
    /\ GetPoolEntry (OwnerPoolName r) numa (fst st')
       = Some {| Size := getNUMAsResource (numaAvailable pa) (GetBindingNumas r);
                 Quota := (-1)%Q |}
    /\ forall p n, n <> numa -> GetPoolEntry p n (fst st') = GetPoolEntry p n (fst st).
Proof.
  intros Hty Hbind Hknob Hnuma Hallow Hiso Howner Hfit.
  destruct st as [res thr].
  unfold assembleShareNB, getIsolationRequirements, firstNuma.
  rewrite Hty, Hbind, Hknob. cbn [QoSRegionType_eqb negb orb bind].
  rewrite !Hnuma in *. cbn [bind]. rewrite Hiso. cbn [foldM bind fold_right].
  rewrite Hallow, orb_true_r.
  pose proof (regulatePoolSizes_expands (OwnerPoolName r) _ _ Hfit) as E.
  destruct (regulatePoolSizes _ _ _ _) as [sizes thr']. cbn [fst] in E. subst sizes.
  unfold setPoolEntries. rewrite map_fold_singleton.
  destruct v2, (nodeEnableReclaim pa); cbn [negb];
    (eexists; split; [reflexivity|]; cbn [fst]; split;
     [rewrite GetPoolEntry_SetPoolEntry_pool by exact Howner;
      apply GetPoolEntry_SetPoolEntry_eq
     |intros p n Hn; rewrite GetPoolEntry_SetPoolEntry_numa by exact Hn;
      exact (GetPoolEntry_SetPoolEntry_numa p _ n numa _ _ res Hn)]).
Qed.


(** The same pool in the second implementation: the regulator is handed the
    available size offset by what is reserved for reclaim. *)
Lemma assembleShareNB0_owner_pool (pa : ProvisionAssemblerCommon) r knob numa rest st0 :
  GetBindingNumas r = numa :: rest ->
  allowSharedCoresOverlapReclaimedCores pa = true ->
  GetRegions (regionMap pa) numa QoSRegionTypeIsolation = [] ->
  OwnerPoolName r <> PoolNameReclaim ->
  float_to_int (knobValue knob ControlKnobNonReclaimedCPURequirement)
  <= getNUMAsResource (numaAvailable pa) (GetBindingNumas r)
     + getNUMAsResource (reservedForReclaim pa) (GetBindingNumas r) ->
  exists st0',
    assembleShareNB0 regulatePoolSizes0 (NewProvisionAssemblerCommon0 pa) r knob st0
    = inr st0'
    /\ GetPoolEntry0 (OwnerPoolName r) numa (fst st0')
       = Some (getNUMAsResource (numaAvailable pa) (GetBindingNumas r)
               + getNUMAsResource (reservedForReclaim pa) (GetBindingNumas r))
    /\ forall p n, n <> numa ->
         GetPoolEntry0 p n (fst st0') = GetPoolEntry0 p n (fst st0).
Proof.
  intros Hnuma Hallow Hiso Howner Hfit.
  destruct st0 as [res thr].
  unfold assembleShareNB0, availableSNB0, firstNuma, NewProvisionAssemblerCommon0.
  cbn [base regionHelper].
  rewrite !Hnuma in *. cbn [bind]. rewrite Hiso. cbn [foldM bind fold_right].
  rewrite Hallow.
  pose proof (regulatePoolSizes0_expands (OwnerPoolName r) _ _ (nodeEnableReclaim pa)
                Hfit) as E.
  destruct (regulatePoolSizes0 _ _ _ _) as [sizes thr']. cbn [fst] in E. subst sizes.
  unfold setPoolEntries0. rewrite map_fold_singleton.
  eexists; split; [reflexivity|]; cbn [fst]; split.
  - rewrite GetPoolEntry0_SetPoolEntry0_pool by exact Howner.
    apply GetPoolEntry0_SetPoolEntry0_eq.
  - intros p n Hn. rewrite GetPoolEntry0_SetPoolEntry0_numa by exact Hn.
    exact (GetPoolEntry0_SetPoolEntry0_numa p _ n numa _ res Hn).
Qed.

(** What the second [AssembleProvision] does after its loop leaves the
    entries of every NUMA but the faked one as they are. *)
Lemma assembleShare0_frame (pa : ProvisionAssemblerCommon0) c st p n :
  n <> FakedNUMAID ->
  GetPoolEntry0 p n
    (fst (assembleShare0 regulatePoolSizes0 MergeMapInt SortedByValue pa c st))
  = GetPoolEntry0 p n (fst st).
Proof.
  intros Hn. destruct st as [res thr]. unfold assembleShare0.
  destruct (regulatePoolSizes0 _ _ _ _) as [sizes thr'].
  destruct (allowSharedCoresOverlapReclaimedCores pa).
  - destruct (0 <? Z.of_nat (size _)); cbn [fst];
      rewrite GetPoolEntry0_SetPoolEntry0_numa by exact Hn;
      rewrite ?GetPoolEntry0_setPoolOverlapInfos0;
      now apply GetPoolEntry0_setPoolEntries0_numa.
  - cbn [fst]. rewrite GetPoolEntry0_SetPoolEntry0_numa by exact Hn.
    now apply GetPoolEntry0_setPoolEntries0_numa.
Qed.

(** A node whose one region is a share region bound to a NUMA, with overlap
    allowed: the two implementations publish the pool of the region with
    sizes that differ by what is reserved for reclaim on the NUMA. *)
Lemma AssembleProvision_share_numa pa r knob numa rest :
  regionMap pa = [r] ->
  Type_ r = QoSRegionTypeShare -> IsNumaBinding r = true ->
  GetProvision r = inr knob ->
  GetBindingNumas r = numa :: rest ->
  numa <> FakedNUMAID ->
  allowSharedCoresOverlapReclaimedCores pa = true ->
  OwnerPoolName r <> PoolNameReclaim ->
  Z.max 1 (math_Ceil (GetPodsRequest r))
  <= getNUMAsResource (numaAvailable pa) (GetBindingNumas r) ->
  float_to_int (knobValue knob ControlKnobNonReclaimedCPURequirement)
  <= getNUMAsResource (numaAvailable pa) (GetBindingNumas r)
     + getNUMAsResource (reservedForReclaim pa) (GetBindingNumas r) ->
  exists st st0,
    AssembleProvision regulatePoolSizes regulateOverlapReclaimPoolSize v2 pa = inr st
    /\ AssembleProvision0 regulatePoolSizes0 PodEnableReclaim MergeMapInt SortedByValue
         (NewProvisionAssemblerCommon0 pa) = inr st0
    /\ GetPoolEntry (OwnerPoolName r) numa (fst st)
       = Some {| Size := getNUMAsResource (numaAvailable pa) (GetBindingNumas r);
                 Quota := (-1)%Q |}
    /\ GetPoolEntry0 (OwnerPoolName r) numa (fst st0)
       = Some (getNUMAsResource (numaAvailable pa) (GetBindingNumas r)
               + getNUMAsResource (reservedForReclaim pa) (GetBindingNumas r)).
Proof.
  intros Hmap Hty Hbind Hknob Hnuma Hfaked Hallow Howner Hfit Hfit0.
  assert (Hiso : GetRegions (regionMap pa) numa QoSRegionTypeIsolation = []).
  { rewrite Hmap. apply GetRegions_other_type. rewrite Hty. discriminate. }
  assert (Hmap0 : regionMap (NewProvisionAssemblerCommon0 pa) = [r]) by exact Hmap.
  unfold AssembleProvision, AssembleProvision0.
  rewrite Hmap, Hmap0. cbn [foldM].
  unfold assembleRegion at 1. unfold assembleRegion0 at 1.
  rewrite Hknob, Hty, Hbind. cbn [bind].
  match goal with
  | |- context [assembleShareNB _ _ _ _ ?s] =>
      destruct (assembleShareNB_owner_pool pa r knob numa rest s
                  Hty Hbind Hknob Hnuma Hallow Hiso Howner Hfit)
        as (st1 & H1 & H2 & _)
  end.
  rewrite H1. cbn [bind].
  destruct (assembleShare_empty_collective regulatePoolSizes
              regulateOverlapReclaimPoolSize pa st1) as (st2 & H3 & H4).
  match goal with
  | |- context [assembleShareNB0 _ _ _ _ ?s] =>
      destruct (assembleShareNB0_owner_pool pa r knob numa rest s
                  Hnuma Hallow Hiso Howner Hfit0) as (st3 & H5 & H6 & _)
  end.
  rewrite H5. cbn [bind].
  eexists st2, _. split; [exact H3|]. split; [reflexivity|]. split.
  - rewrite H4 by exact Hfaked. exact H2.
  - rewrite assembleShare0_frame by exact Hfaked. exact H6.
Qed.

(** C6. The two implementations of [AssembleProvision] are not equivalent.
    On a node with one non-binding share region and overlap allowed they
    publish different pool sizes: the second gives the share pool the budget
    offset by reservedForReclaim (14 = 10 + 4), the first the bare budget
    (10).  (i) Whenever overlap is allowed the budget of the second for the
    non-binding collective is the budget of the first plus
    reservedForReclaim.  For a share region bound to a NUMA the budget that
    the regulator is handed is the available size of the NUMA in the first
    implementation and that size plus reservedForReclaim in the second, and
    the pool of the region is published with these sizes, by
    [assembleShareNB] and the second one's handler on any incoming result and
    by the two [AssembleProvision] on a node with that one region: the
    results differ as soon as something is reserved for reclaim.  (In the
    first implementation the reserve enters only where
    [getIsolationRequirements] decides between the upper and the lower
    requirement of the isolation regions.)  (ii) The overlap reclaim size is
    split proportionally with a carried remainder in the second and as
    size - requirement per pool in the first, and the two splits differ on the
    same share pools.  The regulators, which are not part of the source at
    hand, are assumed to expand a single pool that fits to the whole budget. *)
Theorem assemblers_not_equivalent :
  (exists st st0,
     AssembleProvision regulatePoolSizes regulateOverlapReclaimPoolSize v2 overlapNode
     = inr st /\
     AssembleProvision0 regulatePoolSizes0 PodEnableReclaim MergeMapInt SortedByValue
       (NewProvisionAssemblerCommon0 overlapNode) = inr st0 /\
     poolSizesOf (fst st) <> PoolEntries0 (fst st0) /\
     poolSizesOf (fst st) !! "share"%string = Some {[ FakedNUMAID := 10 ]} /\
     PoolEntries0 (fst st0) !! "share"%string = Some {[ FakedNUMAID := 10 + 4 ]}) /\
  (forall pa : ProvisionAssemblerCommon,
     allowSharedCoresOverlapReclaimedCores pa = true ->
     shareAndIsolatedPoolAvailable0 (NewProvisionAssemblerCommon0 pa)
     = shareAndIsolatedPoolAvailable pa
       + getNUMAsResource (reservedForReclaim pa) (nonBindingNumas pa)) /\
  (forall (pa : ProvisionAssemblerCommon) (r : QoSRegion) knob numa rest st st0,
     let available := getNUMAsResource (numaAvailable pa) (GetBindingNumas r) in
     let reserved := getNUMAsResource (reservedForReclaim pa) (GetBindingNumas r) in
     Type_ r = QoSRegionTypeShare -> IsNumaBinding r = true ->
     GetProvision r = inr knob ->
     GetBindingNumas r = numa :: rest ->
     allowSharedCoresOverlapReclaimedCores pa = true ->
     GetRegions (regionMap pa) numa QoSRegionTypeIsolation = [] ->
     OwnerPoolName r <> PoolNameReclaim ->
     Z.max 1 (math_Ceil (GetPodsRequest r)) <= available ->
     float_to_int (knobValue knob ControlKnobNonReclaimedCPURequirement)
     <= available + reserved ->
     exists st' st0',
       assembleShareNB regulatePoolSizes v2 pa r st = inr st' /\
       assembleShareNB0 regulatePoolSizes0 (NewProvisionAssemblerCommon0 pa) r knob st0
       = inr st0' /\
       GetPoolEntry (OwnerPoolName r) numa (fst st')
       = Some {| Size := available; Quota := (-1)%Q |} /\
       GetPoolEntry0 (OwnerPoolName r) numa (fst st0') = Some (available + reserved)) /\
  (forall (pa : ProvisionAssemblerCommon) (r : QoSRegion) knob numa rest,
     let available := getNUMAsResource (numaAvailable pa) (GetBindingNumas r) in
     let reserved := getNUMAsResource (reservedForReclaim pa) (GetBindingNumas r) in
     regionMap pa = [r] ->
     Type_ r = QoSRegionTypeShare -> IsNumaBinding r = true ->
     GetProvision r = inr knob ->
     GetBindingNumas r = numa :: rest ->
     numa <> FakedNUMAID ->
     allowSharedCoresOverlapReclaimedCores pa = true ->
     OwnerPoolName r <> PoolNameReclaim ->
     Z.max 1 (math_Ceil (GetPodsRequest r)) <= available ->
     float_to_int (knobValue knob ControlKnobNonReclaimedCPURequirement)
     <= available + reserved ->
     exists st st0,
       AssembleProvision regulatePoolSizes regulateOverlapReclaimPoolSize v2 pa
       = inr st /\
       AssembleProvision0 regulatePoolSizes0 PodEnableReclaim MergeMapInt SortedByValue
         (NewProvisionAssemblerCommon0 pa) = inr st0 /\
       GetPoolEntry (OwnerPoolName r) numa (fst st)
       = Some {| Size := available; Quota := (-1)%Q |} /\
       GetPoolEntry0 (OwnerPoolName r) numa (fst st0) = Some (available + reserved) /\
       (reserved <> 0 -> poolSizesOf (fst st) <> PoolEntries0 (fst st0))) /\
  sharedOverlapReclaimSizeOf {[ "a"%string := 6; "b"%string := 10 ]}
                             {[ "a"%string := 2; "b"%string := 8 ]}
  <> sharedOverlapReclaimSizeOf0 SortedByValue {[ "a"%string := 6; "b"%string := 10 ]} 6.
Proof.
  split; [|split; [|split; [|split; [|exact overlap_distribution_differs]]]].
  - destruct AssembleProvision_overlapNode as (st & H1 & H2).
    destruct AssembleProvision0_overlapNode as (st0 & H3 & H4).
    exists st, st0. split; [exact H1|]. split; [exact H3|].
    rewrite H2, H4. split; [|split; vm_compute; reflexivity].
    intros Heq.
    apply (f_equal (fun m : gmap string (gmap Z Z) => m !! "share"%string)) in Heq.
    vm_compute in Heq. discriminate.
  - intros pa Hallow.
    unfold shareAndIsolatedPoolAvailable0, shareAndIsolatedPoolAvailable,
      NewProvisionAssemblerCommon0; simpl.
    rewrite Hallow. reflexivity.
  - intros pa r knob numa rest st st0 available reserved
      Hty Hbind Hknob Hnuma Hallow Hiso Howner Hfit Hfit0.
    destruct (assembleShareNB_owner_pool pa r knob numa rest st
                Hty Hbind Hknob Hnuma Hallow Hiso Howner Hfit) as (st' & H1 & H2 & _).
    destruct (assembleShareNB0_owner_pool pa r knob numa rest st0
                Hnuma Hallow Hiso Howner Hfit0) as (st0' & H3 & H4 & _).
    exists st', st0'. repeat split; assumption.
  - intros pa r knob numa rest available reserved
      Hmap Hty Hbind Hknob Hnuma Hfaked Hallow Howner Hfit Hfit0.
    destruct (AssembleProvision_share_numa pa r knob numa rest
                Hmap Hty Hbind Hknob Hnuma Hfaked Hallow Howner Hfit Hfit0)
      as (st & st0 & H1 & H2 & H3 & H4).
    exists st, st0. split; [exact H1|]. split; [exact H2|].
    split; [exact H3|]. split; [exact H4|].
    intros Hreserved. eapply poolSizesOf_differ; [exact H3|exact H4|].
    cbn [Size]. subst available reserved. lia.
Qed.

End Divergence.

Lemma assemblers_not_equivalent_witness :
  (exists st st0,
     AssembleProvision expandingRegulator (fun share _ => inr share) false overlapNode
     = inr st /\
     AssembleProvision0 expandingRegulator0 (fun _ enable => inr enable)
       (fun a b => a ∪ b) map_to_list (NewProvisionAssemblerCommon0 overlapNode)
     = inr st0 /\
     poolSizesOf (fst st) <> PoolEntries0 (fst st0)) /\
  (exists st st0,
     AssembleProvision expandingRegulator (fun share _ => inr share) false
       shareNumaNode = inr st /\
     AssembleProvision0 expandingRegulator0 (fun _ enable => inr enable)
       (fun a b => a ∪ b) map_to_list (NewProvisionAssemblerCommon0 shareNumaNode)
     = inr st0 /\
     GetPoolEntry "share-numa" 0 (fst st) = Some {| Size := 10; Quota := (-1)%Q |} /\
     GetPoolEntry0 "share-numa" 0 (fst st0) = Some (10 + 4) /\
     poolSizesOf (fst st) <> PoolEntries0 (fst st0)).
Proof.
  destruct (assemblers_not_equivalent expandingRegulator (fun share _ => inr share)
              false expandingRegulator0 (fun _ enable => inr enable)
              (fun a b => a ∪ b) map_to_list)
    as [(st & st0 & H1 & H2 & H3 & _) (_ & _ & Hnuma & _)].
  - intros pool requirement budget _. simpl. apply map_fmap_singleton.
  - intros pool requirement budget enableReclaim _. simpl. apply map_fmap_singleton.
  - intros m. apply (right_id_L ∅ (∪)).
  - intros m. reflexivity.
  - split; [exists st, st0; split; [exact H1|]; split; [exact H2|exact H3]|].
    cbv zeta in Hnuma.
    assert (Ha : getNUMAsResource (numaAvailable shareNumaNode)
                   (GetBindingNumas shareNumaRegion) = 10)
      by (vm_compute; reflexivity).
    assert (Hr : getNUMAsResource (reservedForReclaim shareNumaNode)
                   (GetBindingNumas shareNumaRegion) = 4)
      by (vm_compute; reflexivity).
    destruct (Hnuma shareNumaNode shareNumaRegion
                (fun name =>
                   match name with
                   | ControlKnobNonReclaimedCPURequirement => Some 4%Q
                   | _ => None
                   end) 0 [])
      as (st1 & st2 & H4 & H5 & H6 & H7 & H8).
    + reflexivity.
    + reflexivity.
    + reflexivity.
    + reflexivity.
    + reflexivity.
    + discriminate.
    + reflexivity.
    + discriminate.
    + rewrite Ha. vm_compute. discriminate.
    + rewrite Ha, Hr. vm_compute. discriminate.
    + rewrite Ha in H6. rewrite Ha, Hr in H7. rewrite Hr in H8.
      exists st1, st2. split; [exact H4|]. split; [exact H5|].
      split; [exact H6|]. split; [exact H7|]. apply H8. discriminate.
Defined.


(** *** The region index *)

Lemma QoSRegionType_eqb_eq a b : QoSRegionType_eqb a b = true <-> a = b.
Proof. destruct a, b; simpl; split; congruence. Qed.

Lemma QoSRegionType_eqb_sym a b : QoSRegionType_eqb a b = QoSRegionType_eqb b a.
Proof. destruct a, b; reflexivity. Qed.

Lemma preProcessRegions_numas (r : QoSRegion) (numas : list Z) :
  NoDup numas ->
  forall (rm : RegionMapHelper) numaID regionType,
    RegionMapHelper_GetRegions
      (fold_left
         (fun (rm : RegionMapHelper) numaID =>
            let numaRecords := default (fun _ => []) (rm !! numaID) in
            let numaRegions := numaRecords (Type_ r) ++ [r] in
            <[numaID := fun regionType =>
                          if QoSRegionType_eqb regionType (Type_ r)
                          then numaRegions else numaRecords regionType]> rm)
         numas rm) numaID regionType
    = RegionMapHelper_GetRegions rm numaID regionType
      ++ (if bool_decide (numaID ∈ numas) && QoSRegionType_eqb (Type_ r) regionType
          then [r] else []).
Proof.
  induction 1 as [|k numas Hk Hnd IH]; intros rm numaID regionType.
  - cbn [fold_left]. rewrite bool_decide_eq_false_2 by apply not_elem_of_nil.
    cbn [andb]. now rewrite app_nil_r.
  - cbn [fold_left]. rewrite IH. cbv zeta.
    unfold RegionMapHelper_GetRegions at 1.
    destruct (decide (numaID = k)) as [->|Hne].
    + rewrite lookup_insert_eq.
      rewrite (bool_decide_eq_false_2 (k ∈ numas)) by exact Hk.
      rewrite (bool_decide_eq_true_2 (k ∈ k :: numas)) by apply list_elem_of_here.
      cbn [andb]. rewrite app_nil_r.
      rewrite (QoSRegionType_eqb_sym regionType).
      unfold RegionMapHelper_GetRegions.
      destruct (QoSRegionType_eqb (Type_ r) regionType) eqn:Ht.
      * apply QoSRegionType_eqb_eq in Ht. subst regionType.
        destruct (rm !! k); reflexivity.
      * rewrite app_nil_r. destruct (rm !! k); reflexivity.
    + rewrite lookup_insert_ne by congruence.
      fold (RegionMapHelper_GetRegions rm numaID regionType).
      f_equal.
      destruct (decide (numaID ∈ numas)) as [Hin|Hin].
      * rewrite !bool_decide_eq_true_2; auto using list_elem_of_further.
      * rewrite !bool_decide_eq_false_2; auto. rewrite elem_of_cons. tauto.
Qed.

Lemma preProcessRegions_GetRegions (regions : list QoSRegion) :
  Forall (fun r => NoDup (GetBindingNumas r)) regions ->
  forall (rm : RegionMapHelper) numaID regionType,
    RegionMapHelper_GetRegions (preProcessRegions regions rm) numaID regionType
    = RegionMapHelper_GetRegions rm numaID regionType
      ++ GetRegions regions numaID regionType.
Proof.
  unfold preProcessRegions, GetRegions.
  induction 1 as [|r regions Hr Hall IH]; intros rm numaID regionType.
  - cbn [fold_left]. now rewrite app_nil_r.
  - cbn [fold_left]. rewrite IH, preProcessRegions_numas by exact Hr.
    rewrite <- app_assoc. f_equal.
    destruct (bool_decide (numaID ∈ GetBindingNumas r)
              && QoSRegionType_eqb (Type_ r) regionType) eqn:Hb.
    + rewrite filter_cons_True by (cbv beta; rewrite Hb; exact I). reflexivity.
    + rewrite filter_cons_False by (cbv beta; rewrite Hb; exact id). reflexivity.
Qed.

(** X8: the index that [NewRegionMap] builds answers [GetRegions] with
    exactly the regions of the asked type that are bound to the asked NUMA,
    each once and in the order of the region map; a NUMA or a type without
    region gives the empty slice.  ([GetBindingNumas] is a set of NUMA ids,
    so its slice has no duplicates.) *)
Theorem region_index_lists_bound_regions
    (regions : list QoSRegion) (numaID : Z) (regionType : QoSRegionType) :
  Forall (fun r => NoDup (GetBindingNumas r)) regions ->
  RegionMapHelper_GetRegions (NewRegionMap regions) numaID regionType
  = GetRegions regions numaID regionType
  /\ forall r,
       r ∈ RegionMapHelper_GetRegions (NewRegionMap regions) numaID regionType
       <-> r ∈ regions /\ numaID ∈ GetBindingNumas r /\ Type_ r = regionType.
Proof.
  intros Hnd.
  assert (Heq : RegionMapHelper_GetRegions (NewRegionMap regions) numaID regionType
                = GetRegions regions numaID regionType).
  { unfold NewRegionMap. rewrite preProcessRegions_GetRegions by exact Hnd.
    unfold RegionMapHelper_GetRegions at 1. rewrite lookup_empty. reflexivity. }
  split; [exact Heq|].
  intros r. rewrite Heq. unfold GetRegions.
  rewrite list_elem_of_filter, andb_True, bool_decide_spec, Is_true_true,
    QoSRegionType_eqb_eq.
  tauto.
Qed.

Lemma region_index_lists_bound_regions_witness :
  RegionMapHelper_GetRegions (NewRegionMap [scenario3Region; shareRegion]) 0
    QoSRegionTypeShare
  = [shareRegion].
Proof.
  refine (eq_trans (proj1 (region_index_lists_bound_regions
                             [scenario3Region; shareRegion] 0 QoSRegionTypeShare _))
                   eq_refl).
  repeat constructor; cbn; set_solver.
Defined.

(** *** A region without provision fails the whole assembly *)

Lemma foldM_failing_element {A S} (step : S -> A -> result S) (x : A) (l : list A) :
  x ∈ l -> (forall s, is_err (step s x) = true) ->
  forall s, is_err (foldM step l s) = true.
Proof.
  intros Hin Hx. induction l as [|a l IH]; intros s.
  - exfalso. eapply not_elem_of_nil, Hin.
  - cbn [foldM]. apply elem_of_cons in Hin as [<-|Hin].
    + specialize (Hx s). destruct (step s x); [reflexivity|discriminate].
    + destruct (step s a) as [?|s']; [reflexivity|]. cbn [bind]. apply IH, Hin.
Qed.

(** X9: [AssembleProvision] fails as soon as one region of the region
    map cannot give its provision, whatever the other regions are and
    whatever the regulators compute; no partial result is returned.  This
    holds of both implementations. *)
Theorem assembly_fails_without_provision
    (regulatePoolSizes :
       gmap string Z -> gmap string Z -> Z -> bool -> gmap string Z * bool)
    (regulateOverlapReclaimPoolSize : gmap string Z -> Z -> result (gmap string Z))
    (IsCgroup2UnifiedMode : bool)
    (regulatePoolSizes0 : gmap string Z -> Z -> bool -> bool -> gmap string Z * bool)
    (PodEnableReclaim : string -> bool -> result bool)
    (MergeMapInt : gmap string Z -> gmap string Z -> gmap string Z)
    (SortedByValue : gmap string Z -> list (string * Z))
    (pa : ProvisionAssemblerCommon) (r : QoSRegion) :
  r ∈ regionMap pa ->
  is_err (GetProvision r) = true ->
  is_err (AssembleProvision regulatePoolSizes regulateOverlapReclaimPoolSize
            IsCgroup2UnifiedMode pa) = true
  /\ is_err (AssembleProvision0 regulatePoolSizes0 PodEnableReclaim MergeMapInt
               SortedByValue (NewProvisionAssemblerCommon0 pa)) = true.
Proof.
  intros Hin Herr. split.
  - unfold AssembleProvision.
    match goal with
    | |- context [foldM ?f ?l ?s] =>
        pose proof (foldM_failing_element f r l Hin) as Hfold;
        destruct (foldM f l s) as [?|[st c]] eqn:Hf; [reflexivity|];
        specialize (Hfold ltac:(intros [st' c']; unfold assembleRegion;
                                destruct (GetProvision r);
                                [reflexivity|discriminate]) s);
        rewrite Hf in Hfold; discriminate
    end.
  - unfold AssembleProvision0. cbn [base NewProvisionAssemblerCommon0 regionMap].
    match goal with
    | |- context [foldM ?f ?l ?s] =>
        pose proof (foldM_failing_element f r l Hin) as Hfold;
        destruct (foldM f l s) as [?|[st c]] eqn:Hf; [reflexivity|];
        specialize (Hfold ltac:(intros [st' c']; unfold assembleRegion0;
                                destruct (GetProvision r);
                                [reflexivity|discriminate]) s);
        rewrite Hf in Hfold; discriminate
    end.
Qed.

Lemma assembly_fails_without_provision_witness :
  is_err (AssembleProvision expandingRegulator (fun share _ => inr share) false
            pendingNode) = true.
Proof.
  refine (proj1 (assembly_fails_without_provision expandingRegulator
                   (fun share _ => inr share) false expandingRegulator0
                   (fun _ enable => inr enable) (fun a _ => a) map_to_list
                   pendingNode pendingRegion _ eq_refl)).
  apply list_elem_of_further, list_elem_of_here.
Defined.

(** *** Reclaim pools *)

(** X10: an isolation region bound to a NUMA.  When a share region is
    bound to the same NUMA the region publishes nothing (the share region
    does it).  Otherwise it publishes its own pool with the upper
    requirement, and the NUMA ends with a reclaim entry: an entry that was
    already there is kept as it is, and a new one is never smaller than what
    is reserved for reclaim on the region's NUMAs. *)
Theorem isolation_region_bound_to_numa
    (pa : ProvisionAssemblerCommon) (r : QoSRegion) (st st' : assembly)
    (knob : ControlKnob) (numa : Z) (rest : list Z) :
  Type_ r = QoSRegionTypeIsolation -> IsNumaBinding r = true ->
  GetProvision r = inr knob ->
  GetBindingNumas r = numa :: rest ->
  Name r <> PoolNameReclaim ->
  assembleIsolationNB pa r st = inr st' ->
  (GetRegions (regionMap pa) numa QoSRegionTypeShare <> [] -> st' = st)
  /\ (GetRegions (regionMap pa) numa QoSRegionTypeShare = [] ->
      GetPoolEntry (Name r) numa (fst st')
      = Some {| Size := float_to_int
                          (knobValue knob ControlKnobNonReclaimedCPURequirementUpper);
                Quota := (-1)%Q |}
      /\ match GetPoolEntry PoolNameReclaim numa (fst st) with
         | Some entry => GetPoolEntry PoolNameReclaim numa (fst st') = Some entry
         | None =>
             exists entry,
               GetPoolEntry PoolNameReclaim numa (fst st') = Some entry
               /\ getNUMAsResource (reservedForReclaim pa) (GetBindingNumas r)
                  <= Size entry
         end).
Proof.
  intros Hty Hnb Hknob Hnuma Hname. destruct st as [res thr].
  unfold assembleIsolationNB, firstNuma. rewrite Hty, Hnb, Hknob, Hnuma.
  cbn [QoSRegionType_eqb negb orb bind fst].
  destruct (GetRegions (regionMap pa) numa QoSRegionTypeShare) as [|s ss].
  - rewrite GetPoolEntry_SetPoolEntry_pool by congruence.
    destruct (GetPoolEntry PoolNameReclaim numa res) as [entry|] eqn:Hold.
    + intros [= <-]. split; [congruence|]. intros _. cbn [fst].
      split; [apply GetPoolEntry_SetPoolEntry_eq|].
      rewrite GetPoolEntry_SetPoolEntry_pool by congruence. exact Hold.
    + destruct (foldM _ _ 0) as [?|isolationSizes]; cbn [bind]; [discriminate|].
      intros [= <-]. split; [congruence|]. intros _. cbn [fst].
      split.
      * rewrite GetPoolEntry_SetPoolEntry_pool by congruence.
        apply GetPoolEntry_SetPoolEntry_eq.
      * eexists. split; [apply GetPoolEntry_SetPoolEntry_eq|].
        cbn [Size]. rewrite <- Hnuma. lia.
  - intros [= <-]. split; [reflexivity|]. intros H. discriminate.
Qed.

Lemma isolation_region_bound_to_numa_witness :
  GetPoolEntry "isolation-0" 1 (fst isolationAssembly)
  = Some {| Size := 8; Quota := (-1)%Q |}
  /\ exists entry,
       GetPoolEntry PoolNameReclaim 1 (fst isolationAssembly) = Some entry
       /\ 6 <= Size entry.
Proof.
  assert (Hrun : assembleIsolationNB isolationNode isolationRegion
                   (emptyCalculationResult, ∅) = inr isolationAssembly)
    by (vm_compute; reflexivity).
  destruct (proj2 (isolation_region_bound_to_numa isolationNode isolationRegion
                     (emptyCalculationResult, ∅) isolationAssembly
                     (fun name =>
                        match name with
                        | ControlKnobNonReclaimedCPURequirementUpper => Some 8%Q
                        | ControlKnobNonReclaimedCPURequirementLower => Some 4%Q
                        | _ => None
                        end) 1 [] eq_refl eq_refl eq_refl eq_refl
                     ltac:(discriminate) Hrun) eq_refl) as [Hown Hreclaim].
  split; [exact Hown | exact Hreclaim].
Defined.

Lemma overlapSizeOf_SetPoolOverlapInfo poolName numaID overlapPoolName size r :
  overlapSizeOf poolName numaID overlapPoolName
    (SetPoolOverlapInfo poolName numaID overlapPoolName size r)
  = Some size.
Proof.
  unfold overlapSizeOf, SetPoolOverlapInfo. cbn [PoolOverlapInfo].
  rewrite lookup_insert_eq, lookup_insert_eq. apply lookup_insert_eq.
Qed.

Lemma overlapSizeOf_SetPoolEntry p n o poolName numaID size quota r :
  overlapSizeOf p n o (SetPoolEntry poolName numaID size quota r)
  = overlapSizeOf p n o r.
Proof. reflexivity. Qed.

(** X11: a share region bound to a NUMA, when shared and reclaimed cores
    may overlap.  Whatever sizes the regulator hands out, the reclaim entry
    of the NUMA is never larger than the pool of the region that it overlaps
    (under cgroup v2 it is that pool's size), the overlap record of the
    reclaim pool with that pool carries the same size, and without cgroup v2
    the entry is not below the amount reserved for reclaim as long as the
    pool itself is not. *)
Theorem share_numa_overlap_within_pool
    (regulatePoolSizes :
       gmap string Z -> gmap string Z -> Z -> bool -> gmap string Z * bool)
    (IsCgroup2UnifiedMode : bool)
    (pa : ProvisionAssemblerCommon) (r : QoSRegion) (st st' : assembly)
    (numa : Z) (rest : list Z) :
  allowSharedCoresOverlapReclaimedCores pa = true ->
  GetBindingNumas r = numa :: rest ->
  assembleShareNB regulatePoolSizes IsCgroup2UnifiedMode pa r st = inr st' ->
  exists isolationRequirements entry,
    getIsolationRequirements pa r = inr isolationRequirements
    /\ GetPoolEntry PoolNameReclaim numa (fst st') = Some entry
    /\ overlapSizeOf PoolNameReclaim numa (OwnerPoolName r) (fst st')
       = Some (Size entry)
    /\ let ownerPoolSize :=
         default 0
           (fst (regulatePoolSizes
                   {[ OwnerPoolName r := Z.max 1 (math_Ceil (GetPodsRequest r)) ]}
                   isolationRequirements
                   (getNUMAsResource (numaAvailable pa) (GetBindingNumas r)) true)
              !! OwnerPoolName r) in
       let reserved :=
         getNUMAsResource (reservedForReclaim pa) (GetBindingNumas r) in
       Size entry <= ownerPoolSize
       /\ (IsCgroup2UnifiedMode = true -> Size entry = ownerPoolSize)
       /\ (IsCgroup2UnifiedMode = false -> reserved <= ownerPoolSize ->
           reserved <= Size entry).
Proof.
  intros Hallow Hnuma. destruct st as [res thr].
  unfold assembleShareNB, firstNuma.
  destruct (negb (QoSRegionType_eqb (Type_ r) QoSRegionTypeShare)
            || negb (IsNumaBinding r)); [discriminate|].
  destruct (GetProvision r) as [?|controlKnob]; cbn [bind]; [discriminate|].
  rewrite Hnuma. cbn [bind]. rewrite <- Hnuma.
  destruct (getIsolationRequirements pa r) as [?|isolationRequirements];
    cbn [bind]; [discriminate|].
  rewrite Hallow, orb_true_r.
  destruct (regulatePoolSizes _ _ _ _) as [poolSizes poolThrottled] eqn:Hreg.
  cbn [fst].
  destruct (nodeEnableReclaim pa); cbn [negb];
  destruct IsCgroup2UnifiedMode; intros [= <-]; cbn [fst];
    exists isolationRequirements; eexists;
    (split; [reflexivity|]);
    (split; [apply GetPoolEntry_SetPoolEntry_eq|]);
    (split; [rewrite overlapSizeOf_SetPoolEntry;
             apply overlapSizeOf_SetPoolOverlapInfo|]);
    cbv zeta; rewrite Hreg; cbn [Size fst]; (split; [lia|]); (split; [intros; try reflexivity; try discriminate
                                         | intros; try discriminate; lia]).
Qed.

Lemma share_numa_overlap_within_pool_witness :
  exists entry,
    GetPoolEntry PoolNameReclaim 0 (fst shareNumaAssembly) = Some entry
    /\ overlapSizeOf PoolNameReclaim 0 "share-numa" (fst shareNumaAssembly)
       = Some (Size entry)
    /\ Size entry <= 10.
Proof.
  assert (Hrun : assembleShareNB expandingRegulator false shareNumaNode
                   shareNumaRegion (emptyCalculationResult, ∅)
                 = inr shareNumaAssembly)
    by (vm_compute; reflexivity).
  destruct (share_numa_overlap_within_pool expandingRegulator false shareNumaNode
              shareNumaRegion (emptyCalculationResult, ∅) shareNumaAssembly 0 []
              eq_refl eq_refl Hrun)
    as (isolationRequirements & entry & _ & Hentry & Hoverlap & Hle & _).
  exists entry. split; [exact Hentry|]. split; [exact Hoverlap|].
  exact Hle.
Defined.

Section NonBindingReclaim.

Variable regulatePoolSizes :
  gmap string Z -> gmap string Z -> Z -> bool -> gmap string Z * bool.

Variable regulateOverlapReclaimPoolSize :
  gmap string Z -> Z -> result (gmap string Z).

Lemma assembleShare_reclaim_entry pa c st st' :
  assembleShare regulatePoolSizes regulateOverlapReclaimPoolSize pa c st = inr st' ->
  exists size,
    GetPoolEntry PoolNameReclaim FakedNUMAID (fst st')
    = Some {| Size := size; Quota := (-1)%Q |}
    /\ (nodeEnableReclaim pa = false ->
        size <= getNUMAsResource (reservedForReclaim pa) (nonBindingNumas pa)
        /\ (allowSharedCoresOverlapReclaimedCores pa = false ->
            size = getNUMAsResource (reservedForReclaim pa) (nonBindingNumas pa)))
    /\ (nodeEnableReclaim pa = true ->
        allowSharedCoresOverlapReclaimedCores pa = true ->
        getNUMAsResource (reservedForReclaim pa) (nonBindingNumas pa) <= size).
Proof.
  destruct st as [res thr]. unfold assembleShare.
  destruct (regulatePoolSizes _ _ _ _) as [sizes poolThrottled].
  destruct (allowSharedCoresOverlapReclaimedCores pa); cbv iota.
  - destruct (0 <? Z.of_nat (size _)).
    + destruct (nodeEnableReclaim pa); cbn [negb].
      * destruct (_ <? getNUMAsResource _ _) eqn:Hlt.
        -- destruct (regulateOverlapReclaimPoolSize _ _); cbn [bind];
             [discriminate|].
           intros [= <-]. eexists. split; [apply GetPoolEntry_SetPoolEntry_eq|].
           split; [discriminate|]. intros _ _. lia.
        -- cbn [bind]. intros [= <-].
           eexists. split; [apply GetPoolEntry_SetPoolEntry_eq|].
           split; [discriminate|]. intros _ _. apply Z.ltb_ge in Hlt. exact Hlt.
      * destruct (regulateOverlapReclaimPoolSize _ _); cbn [bind];
          [discriminate|].
        intros [= <-]. eexists. split; [apply GetPoolEntry_SetPoolEntry_eq|].
        split; [|discriminate]. intros _. split; [lia|discriminate].
    + cbn [bind]. intros [= <-].
      eexists. split; [apply GetPoolEntry_SetPoolEntry_eq|].
      destruct (nodeEnableReclaim pa); cbn [negb].
      * split; [discriminate|]. intros _ _. lia.
      * split; [|discriminate]. intros _. split; [lia|discriminate].
  - cbn [bind]. intros [= <-].
    eexists. split; [apply GetPoolEntry_SetPoolEntry_eq|].
    destruct (nodeEnableReclaim pa); cbn [negb].
    + split; discriminate.
    + split; [|discriminate]. intros _. split; [lia|reflexivity].
Qed.

End NonBindingReclaim.

(** X12: the reclaim pool of the non-binding NUMAs.  Every result of
    [AssembleProvision] holds a reclaim entry at the faked NUMA id, without
    quota.  With reclaim disabled on the node its size never exceeds what is
    reserved for reclaim on the non-binding NUMAs, and is exactly that amount
    when shared and reclaimed cores do not overlap; with reclaim enabled and
    overlap allowed it is never below that amount.  This holds whatever the
    regions are and whatever the regulators compute. *)
Theorem non_binding_reclaim_pool_bounds
    (regulatePoolSizes :
       gmap string Z -> gmap string Z -> Z -> bool -> gmap string Z * bool)
    (regulateOverlapReclaimPoolSize : gmap string Z -> Z -> result (gmap string Z))
    (IsCgroup2UnifiedMode : bool)
    (pa : ProvisionAssemblerCommon) (st' : assembly) :
  AssembleProvision regulatePoolSizes regulateOverlapReclaimPoolSize
    IsCgroup2UnifiedMode pa = inr st' ->
  exists size,
    GetPoolEntry PoolNameReclaim FakedNUMAID (fst st')
    = Some {| Size := size; Quota := (-1)%Q |}
    /\ (nodeEnableReclaim pa = false ->
        size <= getNUMAsResource (reservedForReclaim pa) (nonBindingNumas pa)
        /\ (allowSharedCoresOverlapReclaimedCores pa = false ->
            size = getNUMAsResource (reservedForReclaim pa) (nonBindingNumas pa)))
    /\ (nodeEnableReclaim pa = true ->
        allowSharedCoresOverlapReclaimedCores pa = true ->
        getNUMAsResource (reservedForReclaim pa) (nonBindingNumas pa) <= size).
Proof.
  unfold AssembleProvision.
  destruct (foldM _ _ _) as [?|[st c]]; cbn [bind]; [discriminate|].
  apply assembleShare_reclaim_entry.
Qed.

Lemma non_binding_reclaim_pool_bounds_witness :
  exists size,
    GetPoolEntry PoolNameReclaim FakedNUMAID
      (SetPoolEntry PoolNameReclaim FakedNUMAID 6 (-1)
         (setPoolOverlapInfos PoolNameReclaim FakedNUMAID {[ "share"%string := 6 ]}
            (SetPoolEntry "share" FakedNUMAID 10 (-1)
               (SetPoolEntry PoolNameReserve FakedNUMAID 0 (-1)
                  {| PoolEntries := ∅; PoolOverlapInfo := ∅;
                     AllowSharedCoresOverlapReclaimedCores := true |}))))
    = Some {| Size := size; Quota := (-1)%Q |}
    /\ 4 <= size.
Proof.
  destruct (non_binding_reclaim_pool_bounds expandingRegulator
              (fun share _ => inr share) false overlapNode
              (SetPoolEntry PoolNameReclaim FakedNUMAID 6 (-1)
                 (setPoolOverlapInfos PoolNameReclaim FakedNUMAID
                    {[ "share"%string := 6 ]}
                    (SetPoolEntry "share" FakedNUMAID 10 (-1)
                       (SetPoolEntry PoolNameReserve FakedNUMAID 0 (-1)
                          {| PoolEntries := ∅; PoolOverlapInfo := ∅;
                             AllowSharedCoresOverlapReclaimedCores := true |}))),
               {[ "share"%string := false ]}))
    as (size & Hentry & _ & Hfloor).
  - vm_compute. reflexivity.
  - exists size. split; [exact Hentry|]. exact (Hfloor eq_refl eq_refl).
Defined.

(** *** The two implementations on a dedicated region *)

Lemma getNumasReservedForReclaim_getNUMAsResource pa numas :
  getNumasReservedForReclaim pa numas
  = getNUMAsResource (reservedForReclaim pa) numas.
Proof.
  unfold getNumasReservedForReclaim, getNUMAsResource.
  enough (H : forall acc,
             fold_left (fun res id =>
                          match reservedForReclaim pa !! id with
                          | Some v => res + v
                          | None => res
                          end) numas acc
             = fold_left (fun res id => res + default 0 (reservedForReclaim pa !! id))
                 numas acc) by apply H.
  induction numas as [|n numas IH]; intros acc; [reflexivity|].
  cbn [fold_left]. rewrite <- IH.
  destruct (reservedForReclaim pa !! n); cbn [default]; [reflexivity|].
  now rewrite Z.add_0_r.
Qed.

(** X13: the two implementations on a dedicated NUMA-exclusive region
    with reclaim enabled (no cgroup v2 quota in play).  The first publishes a
    reclaim pool of [max(reserved, available - requirement)] cores on the
    region's NUMA, the second one of [available - requirement + reserved]:
    the second is larger by [min(reserved, available - requirement)], so the
    two agree only when that minimum is zero. *)
Theorem dedicated_reclaim_of_both_implementations
    (PodEnableReclaim : string -> bool -> result bool)
    (pa : ProvisionAssemblerCommon) (r : QoSRegion) (knob : ControlKnob)
    (numa : Z) (rest : list Z) (podUID : string)
    (st : assembly) (st0 : assembly0) :
  Type_ r = QoSRegionTypeDedicatedNumaExclusive ->
  GetProvision r = inr knob ->
  GetBindingNumas r = numa :: rest ->
  EnableReclaim r = true ->
  GetPods r = [podUID] ->
  PodEnableReclaim podUID (nodeEnableReclaim pa) = inr true ->
  let available := getNUMAsResource (numaAvailable pa) (GetBindingNumas r) in
  let reserved := getNUMAsResource (reservedForReclaim pa) (GetBindingNumas r) in
  let requirement :=
    float_to_int (knobValue knob ControlKnobNonReclaimedCPURequirement) in
  exists st1 st2 entry,
    assembleDedicatedNE false pa r st = inr st1
    /\ assembleDedicatedNE0 PodEnableReclaim (NewProvisionAssemblerCommon0 pa) r
         knob st0 = inr st2
    /\ GetPoolEntry PoolNameReclaim numa (fst st1) = Some entry
    /\ Size entry = Z.max reserved (available - requirement)
    /\ GetPoolEntry0 PoolNameReclaim numa (fst st2)
       = Some (Size entry + Z.min reserved (available - requirement)).
Proof.
  intros Hty Hknob Hnuma Hreclaim Hpods Hpod available reserved requirement.
  destruct st as [res thr], st0 as [res0 thr0].
  unfold assembleDedicatedNE, assembleDedicatedNE0, firstNuma.
  rewrite Hty, Hknob, Hreclaim, Hpods. cbn [QoSRegionType_eqb negb bind].
  rewrite Hnuma. cbn [bind]. rewrite <- Hnuma.
  cbn [base NewProvisionAssemblerCommon0 nodeEnableReclaim numaAvailable].
  rewrite Hpod. cbn [bind negb].
  rewrite getNumasReservedForReclaim_getNUMAsResource.
  cbn [base NewProvisionAssemblerCommon0 reservedForReclaim].
  eexists _, _, _. split; [reflexivity|]. split; [reflexivity|]. cbn [fst].
  split; [apply GetPoolEntry_SetPoolEntry_eq|].
  split; [reflexivity|].
  rewrite GetPoolEntry0_SetPoolEntry0_eq. cbn [Size]. f_equal.
  subst available reserved requirement. lia.
Qed.

Lemma dedicated_reclaim_of_both_implementations_witness :
  exists st1 st2 entry,
    assembleDedicatedNE false scenario3 scenario3Region (emptyCalculationResult, ∅)
      = inr st1
    /\ assembleDedicatedNE0 (fun _ enable => inr enable)
         (NewProvisionAssemblerCommon0 scenario3) scenario3Region
         (fun name =>
            match name with
            | ControlKnobNonReclaimedCPURequirement => Some 20%Q
            | _ => None
            end)
         ({| PoolEntries0 := ∅; PoolOverlapInfo0 := ∅;
             AllowSharedCoresOverlapReclaimedCores0 := false |}, ∅) = inr st2
    /\ GetPoolEntry PoolNameReclaim 0 (fst st1) = Some entry
    /\ Size entry = 12
    /\ GetPoolEntry0 PoolNameReclaim 0 (fst st2) = Some (Size entry + 6).
Proof.
  exact (dedicated_reclaim_of_both_implementations (fun _ enable => inr enable)
           scenario3 scenario3Region
           (fun name =>
              match name with
              | ControlKnobNonReclaimedCPURequirement => Some 20%Q
              | _ => None
              end) 0 [] "pod-0" (emptyCalculationResult, ∅)
           ({| PoolEntries0 := ∅; PoolOverlapInfo0 := ∅;
               AllowSharedCoresOverlapReclaimedCores0 := false |}, ∅)
           eq_refl eq_refl eq_refl eq_refl eq_refl eq_refl).
Defined.

(** *** Isolation requirements on a NUMA *)

Lemma isolation_knobs_collected (l : list QoSRegion) :
  forall (acc : list (string * ControlKnob)) (s : Z) knobs sum,
    foldM (fun (acc : list (string * ControlKnob) * Z) isolationRegion =>
             do isolationControlKnob <- GetProvision isolationRegion;
             inr ((Name isolationRegion, isolationControlKnob) :: fst acc,
                  snd acc + float_to_int
                    (knobValue isolationControlKnob
                       ControlKnobNonReclaimedCPURequirementUpper)))
          l (acc, s) = inr (knobs, sum) ->
    sum = s + sumOfRequirements l ControlKnobNonReclaimedCPURequirementUpper
    /\ (forall name knob, (name, knob) ∈ knobs ->
          (name, knob) ∈ acc
          \/ exists ir, ir ∈ l /\ Name ir = name /\ GetProvision ir = inr knob)
    /\ (forall ir, ir ∈ l -> exists knob, (Name ir, knob) ∈ knobs)
    /\ (forall entry, entry ∈ acc -> entry ∈ knobs).
Proof.
  induction l as [|x l IH]; intros acc s knobs sum.
  - cbn [foldM]. intros [= <- <-]. cbn [sumOfRequirements fold_right].
    split; [lia|]. split; [auto|]. split; [|auto].
    intros ir Hin. exfalso. eapply not_elem_of_nil, Hin.
  - cbn [foldM]. destruct (GetProvision x) as [?|kx] eqn:Hx; cbn [bind];
      [discriminate|].
    cbn [fst snd]. intros Hfold. apply IH in Hfold as (Hsum & Hfrom & Hall & Hacc).
    split; [|split; [|split]].
    + assert (Hreq : requirementOf x ControlKnobNonReclaimedCPURequirementUpper
                     = float_to_int
                         (knobValue kx ControlKnobNonReclaimedCPURequirementUpper))
        by (unfold requirementOf; now rewrite Hx).
      unfold sumOfRequirements in *. cbn [fold_right]. lia.
    + intros name knob Hin. destruct (Hfrom name knob Hin) as [Hc|(ir & Hir & Hn & Hp)].
      * apply elem_of_cons in Hc as [[= -> ->]|Hc]; [|left; exact Hc].
        right. exists x. split; [apply list_elem_of_here|]. split; [reflexivity|exact Hx].
      * right. exists ir. split; [apply list_elem_of_further, Hir|]. auto.
    + intros ir Hin. apply elem_of_cons in Hin as [->|Hin].
      * exists kx. apply Hacc, list_elem_of_here.
      * apply Hall, Hin.
    + intros entry Hin. apply Hacc, list_elem_of_further, Hin.
Qed.

Lemma requirements_of_knobs (key : ControlKnobName) (knobs : list (string * ControlKnob)) :
  let req : gmap string Z :=
    fold_right
      (fun '(isolationRegionName, isolationRegionControlKnob) m =>
         <[isolationRegionName :=
             float_to_int (knobValue isolationRegionControlKnob key)]> m)
      ∅ knobs in
  (forall name v, req !! name = Some v ->
     exists knob, (name, knob) ∈ knobs /\ v = float_to_int (knobValue knob key))
  /\ (forall name knob, (name, knob) ∈ knobs -> is_Some (req !! name)).
Proof.
  induction knobs as [|[n k] knobs [IH1 IH2]]; cbn [fold_right].
  - split.
    + intros name v. rewrite lookup_empty. discriminate.
    + intros name knob Hin. exfalso. eapply not_elem_of_nil, Hin.
  - split.
    + intros name v. destruct (decide (name = n)) as [->|Hne].
      * rewrite lookup_insert_eq. intros [= <-]. exists k.
        split; [apply list_elem_of_here|reflexivity].
      * rewrite lookup_insert_ne by congruence. intros Hv.
        destruct (IH1 name v Hv) as (knob & Hin & Hval).
        exists knob. split; [apply list_elem_of_further, Hin|exact Hval].
    + intros name knob Hin. destruct (decide (name = n)) as [->|Hne].
      * rewrite lookup_insert_eq. eauto.
      * rewrite lookup_insert_ne by congruence.
        apply elem_of_cons in Hin as [[= -> ->]|Hin]; [congruence|].
        eapply IH2, Hin.
Qed.

(** X14: the isolation requirements that go with a share region bound
    to a NUMA.  Every isolation region bound to that NUMA gets an entry, each
    entry is the requirement of such a region, and all of them are taken from
    the same knob: the upper requirement when the pods' requests of the share
    region and the upper requirements of the isolation regions fit together
    in the budget of the NUMA, the lower requirement of every one of them as
    soon as they do not. *)
Theorem isolation_requirements_downgrade_together
    (pa : ProvisionAssemblerCommon) (r : QoSRegion) (numa : Z) (rest : list Z)
    (isolationRequirements : gmap string Z) :
  GetBindingNumas r = numa :: rest ->
  getIsolationRequirements pa r = inr isolationRequirements ->
  let isolationRegions := GetRegions (regionMap pa) numa QoSRegionTypeIsolation in
  let available :=
    getNUMAsResource (numaAvailable pa) (GetBindingNumas r)
    + (if allowSharedCoresOverlapReclaimedCores pa
       then getNUMAsResource (reservedForReclaim pa) (GetBindingNumas r) else 0) in
  let key :=
    if available <? Z.max 1 (math_Ceil (GetPodsRequest r))
                    + sumOfRequirements isolationRegions
                        ControlKnobNonReclaimedCPURequirementUpper
    then ControlKnobNonReclaimedCPURequirementLower
    else ControlKnobNonReclaimedCPURequirementUpper in
  (forall ir, ir ∈ isolationRegions -> is_Some (isolationRequirements !! Name ir))
  /\ (forall name v, isolationRequirements !! name = Some v ->
        exists ir, ir ∈ isolationRegions /\ Name ir = name
                   /\ v = requirementOf ir key).
Proof.
  intros Hnuma. unfold getIsolationRequirements, firstNuma.
  rewrite Hnuma. cbn [bind]. rewrite <- Hnuma.
  set (isolationRegions := GetRegions (regionMap pa) numa QoSRegionTypeIsolation).
  destruct (foldM _ isolationRegions _) as [?|[knobs sum]] eqn:Hfold; cbn [bind];
    [discriminate|].
  apply isolation_knobs_collected in Hfold as (Hsum & Hfrom & Hall & _).
  cbn [Z.add] in Hsum.
  intros [= <-]. cbv zeta.
  match goal with
  | |- context [fold_right _ ∅ knobs] =>
      match goal with
      | |- context [knobValue _ ?k] =>
          destruct (requirements_of_knobs k knobs) as [Hvals Hdom]
      end
  end.
  assert (Hkey :
    match isolationRegions with
    | [] => ControlKnobNonReclaimedCPURequirementUpper
    | _ :: _ =>
        if (if allowSharedCoresOverlapReclaimedCores pa
            then getNUMAsResource (numaAvailable pa) (GetBindingNumas r)
                 + getNUMAsResource (reservedForReclaim pa) (GetBindingNumas r)
            else getNUMAsResource (numaAvailable pa) (GetBindingNumas r))
           <? Z.max 1 (math_Ceil (GetPodsRequest r)) + sum
        then ControlKnobNonReclaimedCPURequirementLower
        else ControlKnobNonReclaimedCPURequirementUpper
    end
    = (if getNUMAsResource (numaAvailable pa) (GetBindingNumas r)
          + (if allowSharedCoresOverlapReclaimedCores pa
             then getNUMAsResource (reservedForReclaim pa) (GetBindingNumas r)
             else 0)
          <? Z.max 1 (math_Ceil (GetPodsRequest r))
             + sumOfRequirements isolationRegions
                 ControlKnobNonReclaimedCPURequirementUpper
       then ControlKnobNonReclaimedCPURequirementLower
       else ControlKnobNonReclaimedCPURequirementUpper)
    \/ isolationRegions = []).
  { destruct isolationRegions as [|i is']; [right; reflexivity|]. left.
    rewrite Hsum. destruct (allowSharedCoresOverlapReclaimedCores pa).
    - reflexivity.
    - now rewrite Z.add_0_r. }
  split.
  - intros ir Hin. destruct (Hall ir Hin) as [knob Hk]. eapply Hdom, Hk.
  - intros name v Hv. destruct (Hvals name v Hv) as (knob & Hin & ->).
    destruct (Hfrom name knob Hin) as [Hnil|(ir & Hir & Hname & Hprov)].
    + exfalso. eapply not_elem_of_nil, Hnil.
    + exists ir. split; [exact Hir|]. split; [exact Hname|].
      unfold requirementOf. rewrite Hprov.
      destruct Hkey as [Hkey|Hempty].
      * now rewrite Hkey.
      * rewrite Hempty in Hir. exfalso. eapply not_elem_of_nil, Hir.
Qed.

Lemma isolation_requirements_downgrade_together_witness :
  exists ir,
    ir ∈ [crowdingRegion] /\ Name ir = "isolation-1"%string
    /\ 4 = requirementOf ir ControlKnobNonReclaimedCPURequirementLower.
Proof.
  exact (proj2 (isolation_requirements_downgrade_together crowdedNumaNode
                  shareNumaRegion 0 [] {[ "isolation-1"%string := 4 ]}
                  eq_refl eq_refl) "isolation-1"%string 4 eq_refl).
Defined.

End AssemblerFacts.

Module AdvisorFacts.
Import Advisor.

(** *** Region assignment of share containers *)

Section AssignmentFacts.

Variable EnableShareCoresNumaBinding : bool.

Variable IsolationForceEnablePools : gset string.

Variable IsolationNonExclusivePools : gset string.

Variable getPoolRegions : string -> list Assembler.QoSRegion.

Variable getRegionsByRegionNames : gset string -> list Assembler.QoSRegion.

Variable getContainerRegions :
  ContainerInfo -> Assembler.QoSRegionType -> result (list Assembler.QoSRegion).

Variable NewQoSRegionIsolation : ContainerInfo -> string -> Z -> Assembler.QoSRegion.

Variable NewQoSRegionShare : ContainerInfo -> Z -> Assembler.QoSRegion.

Variable NewQoSRegionDedicatedNumaExclusive : ContainerInfo -> Z -> Assembler.QoSRegion.

Local Abbreviation assign :=
  (assignToRegions EnableShareCoresNumaBinding IsolationForceEnablePools
     IsolationNonExclusivePools getPoolRegions getRegionsByRegionNames
     getContainerRegions NewQoSRegionIsolation NewQoSRegionShare
     NewQoSRegionDedicatedNumaExclusive).

Lemma shareContainerNuma_ramp_up ci :
  IsNumaBinding ci = false -> RampUp ci = true ->
  shareContainerNuma EnableShareCoresNumaBinding ci = inr ([], None).
Proof.
  intros Hb Hr. unfold shareContainerNuma. rewrite Hb, Hr, andb_false_r. reflexivity.
Qed.

Lemma shareContainerNuma_empty_owner ci :
  IsNumaBinding ci = false -> RampUp ci = false -> OwnerPoolName ci = ""%string ->
  shareContainerNuma EnableShareCoresNumaBinding ci =
  inr ([], if Qlt_bool (math_Abs (CPURequest ci)) 1000000000%Q
           then None else Some (emptyOwnerPoolName ci)).
Proof.
  intros Hb Hr Ho. unfold shareContainerNuma. rewrite Hb, Hr, Ho, andb_false_r. simpl.
  destruct (Qlt_bool _ _); reflexivity.
Qed.

(** C4 (amended). A shared-cores container without NUMA binding that is in
    ramp-up is skipped: no region, no error.  One that is not in ramp-up and
    has an empty owner pool name is assigned to no region either: it is
    ignored without error when it carries no request information (a CPU
    request of 0), and an error returned for it is the empty-owner-pool
    error. *)
Theorem share_container_without_owner_pool (ci : ContainerInfo) :
  QoSLevelOf ci = PodAnnotationQoSLevelSharedCores ->
  IsNumaBinding ci = false ->
  (RampUp ci = true -> assign (Some ci) = ([], None)) /\
  (RampUp ci = false -> OwnerPoolName ci = ""%string ->
   (CPURequest ci == 0)%Q -> assign (Some ci) = ([], None)) /\
  (RampUp ci = false -> OwnerPoolName ci = ""%string ->
   fst (assign (Some ci)) = [] /\
   (snd (assign (Some ci)) = None
    \/ snd (assign (Some ci)) = Some (emptyOwnerPoolName ci))).
Proof.
  intros Hq Hb. unfold assignToRegions. rewrite Hq.
  unfold assignShareContainerToRegions. split; [|split].
  - intros Hr. now rewrite shareContainerNuma_ramp_up.
  - intros Hr Ho Hz. rewrite shareContainerNuma_empty_owner by assumption.
    replace (Qlt_bool (math_Abs (CPURequest ci)) 1000000000) with true; [reflexivity|].
    symmetry. apply Qlt_bool_iff. unfold math_Abs. rewrite Hz. reflexivity.
  - intros Hr Ho. rewrite shareContainerNuma_empty_owner by assumption.
    destruct (Qlt_bool _ _); simpl; auto.
Qed.

End AssignmentFacts.

Lemma share_container_without_owner_pool_witness :
  assignToRegionsNoRegions (Some rampingContainer) = ([], None).
Proof.
  exact (proj1 (share_container_without_owner_pool false ∅ ∅ (fun _ => [])
                  (fun _ => []) (fun _ _ => inr [])
                  (newRegion Assembler.QoSRegionTypeIsolation)
                  (fun ci => newRegion Assembler.QoSRegionTypeShare ci
                               (OriginOwnerPoolName ci))
                  (fun ci => newRegion Assembler.QoSRegionTypeDedicatedNumaExclusive ci
                               (PodUID ci))
                  rampingContainer eq_refl eq_refl) eq_refl).
Defined.

(** The claim as stated fails: the container below is past ramp-up and has
    no owner pool, and region assignment returns no error for it. *)
Lemma share_container_empty_owner_no_error :
  QoSLevelOf idleContainer = PodAnnotationQoSLevelSharedCores /\
  IsNumaBinding idleContainer = false /\
  RampUp idleContainer = false /\
  OwnerPoolName idleContainer = ""%string /\
  assignToRegionsNoRegions (Some idleContainer) = ([], None).
Proof. repeat split; vm_compute; reflexivity. Qed.

Lemma foldM_isolationSafetyStep w l : forall acc s,
  foldM (isolationSafetyStep w) l acc = inr s ->
  s = fold_left (fun acc r =>
                   match isolationSafetyStep w acc r with
                   | inr v => v
                   | inl _ => acc
                   end) l acc.
Proof.
  induction l as [|r l IH]; simpl; intros acc s H.
  - congruence.
  - unfold bind in H. destruct (isolationSafetyStep w acc r) as [?|v]; [discriminate|].
    now apply IH.
Qed.

Lemma checkIsolationSafety_exceeds w :
  CPUSizeInNUMAs w (nonBindingNumas w) < shareAndIsolationPoolSize w ->
  checkIsolationSafety w = false.
Proof.
  intros H. unfold checkIsolationSafety.
  destruct (foldM (isolationSafetyStep w) (regionMap w) 0) as [?|s] eqn:E; [reflexivity|].
  apply foldM_isolationSafetyStep in E. fold (shareAndIsolationPoolSize w) in E. subst s.
  apply Z.ltb_lt in H. now rewrite H.
Qed.

Section TickFacts.

Variable updateNumasAvailableResource : world -> world.

Variable GetIsolatedPods : world -> list string.

Variable assignContainersToRegions : world -> world * option string.

Variable gcRegionMap : world -> world.

Variable AllowSharedCoresOverlapReclaimedCoresConf : bool.

Variable updateRegions : world -> world.

Variable AssembleProvision :
  world -> world * result Assembler.InternalCPUCalculationResult.

Variable updateRegionStatus : world -> world.

Variable indicatorNames : Assembler.QoSRegion -> list string.

Local Abbreviation guardian :=
  (updateWithIsolationGuardian updateNumasAvailableResource GetIsolatedPods
     assignContainersToRegions gcRegionMap AllowSharedCoresOverlapReclaimedCoresConf
     updateRegions AssembleProvision updateRegionStatus indicatorNames).

Local Abbreviation tick :=
  (update updateNumasAvailableResource GetIsolatedPods
     assignContainersToRegions gcRegionMap AllowSharedCoresOverlapReclaimedCoresConf
     updateRegions AssembleProvision updateRegionStatus indicatorNames).

Local Abbreviation checkedWorld :=
  (Advisor.checkedWorld updateNumasAvailableResource GetIsolatedPods
     assignContainersToRegions gcRegionMap AllowSharedCoresOverlapReclaimedCoresConf).

Local Abbreviation reachesCheck :=
  (Advisor.reachesCheck updateNumasAvailableResource GetIsolatedPods
     assignContainersToRegions).

Local Abbreviation isolationExists :=
  (Advisor.isolationExists updateNumasAvailableResource GetIsolatedPods
     assignContainersToRegions).

Local Abbreviation policiesUpdated :=
  (Advisor.policiesUpdated updateNumasAvailableResource GetIsolatedPods
     assignContainersToRegions gcRegionMap AllowSharedCoresOverlapReclaimedCoresConf).

Lemma emitMetrics_no_duration w calculationResult :
  count_occ String.string_dec (emitMetrics indicatorNames w calculationResult)
            metricCPUAdvisorUpdateDuration = 0%nat.
Proof.
  apply count_occ_not_In. unfold emitMetrics. intros H.
  apply in_app_or in H as [H|H].
  - apply in_flat_map in H as (r & _ & [H|H]); [discriminate|].
    apply in_flat_map in H as (name & _ & H). simpl in H.
    destruct H as [H|[H|[H|[]]]]; discriminate.
  - apply in_flat_map in H as (entry & _ & H).
    apply in_flat_map in H as (x & _ & H). simpl in H.
    destruct H as [H|[H|[]]]; discriminate.
Qed.

Lemma emitted_not_nil (l names : list string) (x : string) : l ++ names ++ [x] <> [].
Proof.
  intros H. apply app_eq_nil in H as [_ H]. apply app_eq_nil in H as [_ H]. discriminate.
Qed.

Lemma count_duration (l names : list string) :
  count_occ String.string_dec names metricCPUAdvisorUpdateDuration = 0%nat ->
  count_occ String.string_dec (l ++ names ++ [metricCPUAdvisorUpdateDuration])
            metricCPUAdvisorUpdateDuration
  = S (count_occ String.string_dec l metricCPUAdvisorUpdateDuration).
Proof.
  intros H. rewrite !count_occ_app, H.
  rewrite (count_occ_cons_eq _ _ eq_refl). simpl. lia.
Qed.

Lemma guardian_spec tryIsolation cra :
  emitted (fst (guardian tryIsolation cra)) <> [] /\
  durations (fst (guardian tryIsolation cra)) = S (durations cra) /\
  advisorUpdated (fst (guardian tryIsolation cra))
  = advisorUpdated cra || policiesUpdated tryIsolation cra /\
  provisionAssembler (fst (guardian tryIsolation cra)) = provisionAssembler cra /\
  headroomAssembler (fst (guardian tryIsolation cra)) = headroomAssembler cra /\
  (snd (guardian tryIsolation cra) = inl errIsolationSafetyCheckFailed <->
   reachesCheck tryIsolation cra = true /\ tryIsolation = true /\
   isolationExists tryIsolation cra = true /\
   checkIsolationSafety (checkedWorld tryIsolation cra) = false).
Proof.
  unfold updateWithIsolationGuardian, Advisor.policiesUpdated, Advisor.reachesCheck,
    Advisor.isolationExists, Advisor.checkedWorld, durations.
  destruct (reservePoolExists (shared cra)); cbn [negb andb fst snd].
  2:{ cbn [emitted advisorUpdated provisionAssembler headroomAssembler].
      rewrite orb_false_r, count_duration by reflexivity.
      repeat split; try apply emitted_not_nil; try discriminate.
      intros (H & _); discriminate. }
  destruct (regionsAssigned _ _ _ tryIsolation (shared cra)) as [[w isolated] err].
  cbn [fst snd]. destruct err as [msg|].
  { cbn [emitted advisorUpdated provisionAssembler headroomAssembler fst snd andb].
    rewrite orb_false_r, count_duration by reflexivity.
    repeat split; try apply emitted_not_nil; try discriminate.
    intros (H & _); discriminate. }
  destruct (tryIsolation && isolated && negb (checkIsolationSafety _)) eqn:Hc.
  { cbn [emitted advisorUpdated provisionAssembler headroomAssembler fst snd andb negb].
    rewrite orb_false_r, count_duration by reflexivity.
    apply andb_prop in Hc as [Hc Hs]. apply andb_prop in Hc as [Ht Hi].
    apply negb_true_iff in Hs.
    repeat split; try apply emitted_not_nil; assumption. }
  assert (Hno : ~ (tryIsolation = true /\ isolated = true /\
                   checkIsolationSafety
                     (updateAdvisorEssentials AllowSharedCoresOverlapReclaimedCoresConf
                        (gcRegionMap w)) = false)).
  { intros (-> & -> & Hs). rewrite Hs in Hc. discriminate. }
  cbn [negb andb]. rewrite orb_true_r.
  destruct (assembleProvision _ _ _) as [w' [err|res]];
    cbn [emitted advisorUpdated provisionAssembler headroomAssembler fst snd].
  - rewrite count_duration by reflexivity.
    repeat split; try apply emitted_not_nil; try discriminate.
    intros (_ & H); tauto.
  - rewrite count_duration by apply emitMetrics_no_duration.
    repeat split; try apply emitted_not_nil; try discriminate.
    intros (_ & H); tauto.
Qed.

Lemma tick_unfold cra :
  tick cra =
  match snd (guardian true cra) with
  | inl errIsolationSafetyCheckFailed => guardian false (fst (guardian true cra))
  | _ => guardian true cra
  end.
Proof.
  unfold update. destruct (guardian true cra) as [cra' [[| |]|res]]; reflexivity.
Qed.

Lemma guardian_false_no_safety_error cra :
  snd (guardian false cra) <> inl errIsolationSafetyCheckFailed.
Proof.
  intros H. apply (proj2 (proj2 (proj2 (proj2 (proj2 (guardian_spec false cra)))))) in H.
  destruct H as (_ & H & _). discriminate.
Qed.

(** C3. A tick that reaches the isolation safety check with isolated pods
    present and with the share and isolation pool sizes exceeding the cpu
    capacity of the non-binding NUMAs fails its first pass with the safety
    error, and [update] then returns what a second pass with isolation
    disabled returns: two passes in all.  The second pass never fails with the
    safety error, so no tick has more than one retry, and a tick whose check
    passes is a single pass. *)
Theorem isolation_safety_retry :
  (forall cra,
     reachesCheck true cra = true ->
     isolationExists true cra = true ->
     CPUSizeInNUMAs (checkedWorld true cra) (nonBindingNumas (checkedWorld true cra))
     < shareAndIsolationPoolSize (checkedWorld true cra) ->
     snd (guardian true cra) = inl errIsolationSafetyCheckFailed /\
     tick cra = guardian false (fst (guardian true cra)) /\
     durations (fst (tick cra)) = (durations cra + 2)%nat) /\
  (forall cra,
     reachesCheck true cra = true ->
     checkIsolationSafety (checkedWorld true cra) = true ->
     tick cra = guardian true cra /\
     durations (fst (tick cra)) = (durations cra + 1)%nat) /\
  (forall cra, (durations (fst (tick cra)) <= durations cra + 2)%nat) /\
  (forall cra, snd (tick cra) <> inl errIsolationSafetyCheckFailed).
Proof.
  split; [|split; [|split]].
  - intros cra Hr Hi Hex.
    assert (Hs : snd (guardian true cra) = inl errIsolationSafetyCheckFailed).
    { apply (proj2 (proj2 (proj2 (proj2 (proj2 (guardian_spec true cra)))))).
      repeat split; try assumption. now apply checkIsolationSafety_exceeds. }
    split; [exact Hs|]. rewrite tick_unfold, Hs. split; [reflexivity|].
    destruct (guardian_spec false (fst (guardian true cra))) as (_ & -> & _).
    destruct (guardian_spec true cra) as (_ & -> & _). lia.
  - intros cra Hr Hs.
    assert (Hn : snd (guardian true cra) <> inl errIsolationSafetyCheckFailed).
    { intros H.
      apply (proj2 (proj2 (proj2 (proj2 (proj2 (guardian_spec true cra)))))) in H.
      destruct H as (_ & _ & _ & H). congruence. }
    rewrite tick_unfold.
    destruct (snd (guardian true cra)) as [[| |]|]; try (now destruct Hn);
      (split; [reflexivity|]);
      destruct (guardian_spec true cra) as (_ & -> & _); lia.
  - intros cra. rewrite tick_unfold.
    destruct (snd (guardian true cra)) as [[| |]|].
    + destruct (guardian_spec false (fst (guardian true cra))) as (_ & -> & _).
      destruct (guardian_spec true cra) as (_ & -> & _). lia.
    + destruct (guardian_spec true cra) as (_ & -> & _). lia.
    + destruct (guardian_spec true cra) as (_ & -> & _). lia.
    + destruct (guardian_spec true cra) as (_ & -> & _). lia.
  - intros cra. rewrite tick_unfold.
    destruct (snd (guardian true cra)) as [[| |]|] eqn:E.
    + apply guardian_false_no_safety_error.
    + rewrite E. discriminate.
    + rewrite E. discriminate.
    + rewrite E. discriminate.
Qed.

Variable HeadroomAssemblerGetHeadroom : world -> result (Z * gmap Z Z).

(** C10 (amended). [GetHeadroom] returns an error as long as the flag
    [advisorUpdated] is unset, and a new advisor has it unset.  A pass sets
    the flag exactly when it gets past the isolation safety check, to the
    update of the region policies, which is before provision is assembled; so
    headroom is served only by an advisor in which some pass got that far,
    whether or not that tick then completed. *)
Theorem headroom_needs_updated_policies :
  (forall cra,
     advisorUpdated cra = false ->
     GetHeadroom HeadroomAssemblerGetHeadroom cra = inl (Errorf "advisor not updated")) /\
  (forall w provision headroom,
     advisorUpdated (NewCPUResourceAdvisor w provision headroom) = false) /\
  (forall tryIsolation cra,
     advisorUpdated (fst (guardian tryIsolation cra))
     = advisorUpdated cra || policiesUpdated tryIsolation cra) /\
  (forall cra hr,
     GetHeadroom HeadroomAssemblerGetHeadroom (fst (tick cra)) = inr hr ->
     advisorUpdated cra = true
     \/ policiesUpdated true cra = true
     \/ policiesUpdated false (fst (guardian true cra)) = true).
Proof.
  split; [|split; [|split]].
  - intros cra H. unfold GetHeadroom. now rewrite H.
  - reflexivity.
  - intros t cra. apply guardian_spec.
  - intros cra hr H.
    assert (Hu : advisorUpdated (fst (tick cra)) = true).
    { unfold GetHeadroom in H. destruct (advisorUpdated (fst (tick cra)));
        [reflexivity|discriminate]. }
    rewrite tick_unfold in Hu.
    destruct (snd (guardian true cra)) as [[| |]|].
    + destruct (guardian_spec false (fst (guardian true cra))) as (_ & _ & E & _).
      rewrite E in Hu.
      destruct (guardian_spec true cra) as (_ & _ & E' & _). rewrite E' in Hu.
      apply orb_prop in Hu as [Hu|Hu]; [apply orb_prop in Hu as [Hu|Hu]|]; auto.
    + destruct (guardian_spec true cra) as (_ & _ & E' & _). rewrite E' in Hu.
      apply orb_prop in Hu as [Hu|Hu]; auto.
    + destruct (guardian_spec true cra) as (_ & _ & E' & _). rewrite E' in Hu.
      apply orb_prop in Hu as [Hu|Hu]; auto.
    + destruct (guardian_spec true cra) as (_ & _ & E' & _). rewrite E' in Hu.
      apply orb_prop in Hu as [Hu|Hu]; auto.
Qed.

End TickFacts.

Lemma isolation_safety_retry_witness :
  durations (fst (stubTick ["pod-iso"%string] (inr emptyResult)
                    (NewCPUResourceAdvisor crowdedWorld true true))) = 2%nat.
Proof.
  destruct (proj1 (isolation_safety_retry (fun w => w) (fun _ => ["pod-iso"%string])
                     (fun w => (w, None)) (fun w => w) false (fun w => w)
                     (fun w => (w, inr emptyResult)) (fun w => w) (fun _ => []))
              (NewCPUResourceAdvisor crowdedWorld true true)) as (_ & _ & H).
  - reflexivity.
  - reflexivity.
  - vm_compute. reflexivity.
  - exact H.
Defined.

Lemma headroom_needs_updated_policies_witness :
  GetHeadroom (fun _ => inr (8, ∅)) (NewCPUResourceAdvisor crowdedWorld true true)
  = inl (Errorf "advisor not updated").
Proof.
  apply (proj1 (headroom_needs_updated_policies (fun w => w) (fun _ => [])
                  (fun w => (w, None)) (fun w => w) false (fun w => w)
                  (fun w => (w, inr emptyResult)) (fun w => w) (fun _ => [])
                  (fun _ => inr (8, ∅)))).
  reflexivity.
Defined.

(** The claim as stated fails: the first tick of a new advisor ends with an
    error, because provision could not be assembled, and the next call of
    [GetHeadroom] is served. *)
Lemma headroom_served_after_failed_tick :
  advisorUpdated (NewCPUResourceAdvisor crowdedWorld true true) = false /\
  snd (stubTick [] (inl (Errorf "provision not ready"))
         (NewCPUResourceAdvisor crowdedWorld true true))
  = inl (Errorf "failed to assemble provisioner") /\
  GetHeadroom (fun _ => inr (8, ∅))
    (fst (stubTick [] (inl (Errorf "provision not ready"))
            (NewCPUResourceAdvisor crowdedWorld true true)))
  = inr (8, ∅).
Proof. repeat split; vm_compute; reflexivity. Qed.


(** *** Region assignment, further cases *)

Section AssignmentCases.

Variable EnableShareCoresNumaBinding : bool.

Variable IsolationForceEnablePools : gset string.

Variable IsolationNonExclusivePools : gset string.

Variable getPoolRegions : string -> list Assembler.QoSRegion.

Variable getRegionsByRegionNames : gset string -> list Assembler.QoSRegion.

Variable getContainerRegions :
  ContainerInfo -> Assembler.QoSRegionType -> result (list Assembler.QoSRegion).

Variable NewQoSRegionIsolation : ContainerInfo -> string -> Z -> Assembler.QoSRegion.

Variable NewQoSRegionShare : ContainerInfo -> Z -> Assembler.QoSRegion.

Variable NewQoSRegionDedicatedNumaExclusive : ContainerInfo -> Z -> Assembler.QoSRegion.

Local Abbreviation assign :=
  (assignToRegions EnableShareCoresNumaBinding IsolationForceEnablePools
     IsolationNonExclusivePools getPoolRegions getRegionsByRegionNames
     getContainerRegions NewQoSRegionIsolation NewQoSRegionShare
     NewQoSRegionDedicatedNumaExclusive).

Lemma nonEmpty_true {A} (l : list A) : nonEmpty l = true -> l <> [].
Proof. destruct l; [discriminate|]. intros _ H. discriminate. Qed.

(** X15: a shared-cores container with NUMA binding, when share cores
    may bind to NUMAs.  Without owner pool name it is an error, in ramp-up or
    not; with a topology assignment that does not name exactly one NUMA it is
    an error too; and otherwise the container is keyed on the one NUMA of its
    assignment: with no region of its pool yet and no isolation, the result
    is one new share region on that NUMA. *)
Theorem numa_binding_share_container (ci : ContainerInfo) :
  EnableShareCoresNumaBinding = true ->
  QoSLevelOf ci = PodAnnotationQoSLevelSharedCores ->
  IsNumaBinding ci = true ->
  (OwnerPoolName ci = ""%string ->
   assign (Some ci) = ([], Some (emptyOwnerPoolName ci)))
  /\ (OwnerPoolName ci <> ""%string -> size (TopologyAwareAssignments ci) <> 1%nat ->
      exists msg, assign (Some ci) = ([], Some (Errorf msg)))
  /\ (forall numaID cpus,
        OwnerPoolName ci <> ""%string ->
        TopologyAwareAssignments ci = {[ numaID := cpus ]} ->
        Isolated ci = false ->
        OriginOwnerPoolName ci ∉ IsolationForceEnablePools ->
        getPoolRegions (OriginOwnerPoolName ci) = [] ->
        assign (Some ci) = ([NewQoSRegionShare ci numaID], None)).
Proof.
  intros Hconf Hq Hb. unfold assignToRegions. rewrite Hq.
  unfold assignShareContainerToRegions, shareContainerNuma.
  rewrite Hconf, Hb. cbn [andb]. split; [|split].
  - intros ->. reflexivity.
  - intros Ho Hsize. apply String.eqb_neq in Ho. rewrite Ho.
    rewrite <- length_map_to_list in Hsize.
    destruct (map_to_list (TopologyAwareAssignments ci)) as [|[k v] [|e l]];
      simpl in Hsize; [eauto|now destruct Hsize|eauto].
  - intros numaID cpus Ho Htaa Hiso Hforce Hpool.
    apply String.eqb_neq in Ho. rewrite Ho, Htaa, map_to_list_singleton.
    rewrite Hiso, (bool_decide_eq_false_2 _ Hforce), Hpool. reflexivity.
Qed.

(** X16: a dedicated-cores container.  Regions that the container
    already has are reused as they are and nothing is built; an error of the
    lookup is returned with no region; and a container without region gets
    one new region for each NUMA of its topology assignment, and only those,
    so none at all when the assignment is empty. *)
Theorem dedicated_container_regions (ci : ContainerInfo) :
  QoSLevelOf ci = PodAnnotationQoSLevelDedicatedCores ->
  (forall err,
     getContainerRegions ci Assembler.QoSRegionTypeDedicatedNumaExclusive = inl err ->
     assign (Some ci) = ([], Some err))
  /\ (forall r regions,
        getContainerRegions ci Assembler.QoSRegionTypeDedicatedNumaExclusive
        = inr (r :: regions) ->
        assign (Some ci) = (r :: regions, None))
  /\ (getContainerRegions ci Assembler.QoSRegionTypeDedicatedNumaExclusive = inr [] ->
      snd (assign (Some ci)) = None
      /\ length (fst (assign (Some ci))) = size (TopologyAwareAssignments ci)
      /\ forall r, r ∈ fst (assign (Some ci))
                   <-> exists numaID,
                         is_Some (TopologyAwareAssignments ci !! numaID)
                         /\ r = NewQoSRegionDedicatedNumaExclusive ci numaID).
Proof.
  intros Hq. unfold assignToRegions. rewrite Hq.
  unfold assignDedicatedContainerToRegions. split; [|split].
  - intros err ->. reflexivity.
  - intros r regions ->. reflexivity.
  - intros ->. cbn [nonEmpty app fst snd]. split; [reflexivity|].
    split; [now rewrite length_map, length_map_to_list|].
    intros r. rewrite list_elem_of_fmap. split.
    + intros ([numaID cpus] & -> & Hin). apply elem_of_map_to_list in Hin.
      exists numaID. split; [eauto|reflexivity].
    + intros (numaID & [cpus Hin] & ->). exists (numaID, cpus).
      split; [reflexivity|]. now apply elem_of_map_to_list.
Qed.

(** X17: a shared-cores container that is past ramp-up and has an owner
    pool name is never left without region: whenever its assignment returns
    no error, it returns at least one region, reused or new. *)
Theorem share_container_gets_a_region (ci : ContainerInfo)
    (regions : list Assembler.QoSRegion) :
  QoSLevelOf ci = PodAnnotationQoSLevelSharedCores ->
  RampUp ci = false -> OwnerPoolName ci <> ""%string ->
  assign (Some ci) = (regions, None) ->
  regions <> [].
Proof.
  intros Hq Hr Ho. apply String.eqb_neq in Ho.
  unfold assignToRegions. rewrite Hq.
  unfold assignShareContainerToRegions, shareContainerNuma.
  rewrite Hr, Ho. cbn [andb negb].
  assert (Hrest : forall numaID,
    (if Isolated ci || bool_decide (OriginOwnerPoolName ci ∈ IsolationForceEnablePools)
     then
       if bool_decide (OriginOwnerPoolName ci ∈ IsolationNonExclusivePools)
       then
         if nonEmpty (getPoolRegions (OriginOwnerPoolName ci))
         then (getPoolRegions (OriginOwnerPoolName ci), None)
         else if nonEmpty (getRegionsByRegionNames {[OriginOwnerPoolName ci]})
              then (getRegionsByRegionNames {[OriginOwnerPoolName ci]}, None)
              else ([NewQoSRegionIsolation ci (OriginOwnerPoolName ci) numaID], None)
       else
         match getContainerRegions ci Assembler.QoSRegionTypeIsolation with
         | inl err => ([], Some err)
         | inr regions0 =>
             if nonEmpty regions0 then (regions0, None)
             else ([NewQoSRegionIsolation ci "" numaID], None)
         end
     else
       if nonEmpty (getPoolRegions (OriginOwnerPoolName ci))
       then (getPoolRegions (OriginOwnerPoolName ci), None)
       else ([NewQoSRegionShare ci numaID], None)) = (regions, @None error) ->
    regions <> []).
  { intros numaID.
    destruct (Isolated ci || _).
    - destruct (bool_decide (_ ∈ IsolationNonExclusivePools)).
      + destruct (nonEmpty (getPoolRegions _)) eqn:H1.
        * intros [= <-]. now apply nonEmpty_true.
        * destruct (nonEmpty (getRegionsByRegionNames _)) eqn:H2.
          -- intros [= <-]. now apply nonEmpty_true.
          -- intros [= <-]. discriminate.
      + destruct (getContainerRegions _ _) as [?|rs]; [discriminate|].
        destruct (nonEmpty rs) eqn:H1.
        * intros [= <-]. now apply nonEmpty_true.
        * intros [= <-]. discriminate.
    - destruct (nonEmpty (getPoolRegions _)) eqn:H1.
      + intros [= <-]. now apply nonEmpty_true.
      + intros [= <-]. discriminate. }
  destruct (EnableShareCoresNumaBinding && IsNumaBinding ci).
  - destruct (map_to_list (TopologyAwareAssignments ci)) as [|[k v] [|e l]];
      [discriminate|apply Hrest|discriminate].
  - apply Hrest.
Qed.

End AssignmentCases.

Lemma numa_binding_share_container_witness :
  assignToRegions true ∅ ∅ (fun _ => []) (fun _ => []) (fun _ _ => inr [])
    (newRegion Assembler.QoSRegionTypeIsolation)
    (fun ci => newRegion Assembler.QoSRegionTypeShare ci (OriginOwnerPoolName ci))
    (fun ci => newRegion Assembler.QoSRegionTypeDedicatedNumaExclusive ci (PodUID ci))
    (Some boundContainer)
  = ([newRegion Assembler.QoSRegionTypeShare boundContainer "share" 1], None).
Proof.
  refine (proj2 (proj2 (numa_binding_share_container true ∅ ∅ (fun _ => [])
                   (fun _ => []) (fun _ _ => inr [])
                   (newRegion Assembler.QoSRegionTypeIsolation)
                   (fun ci => newRegion Assembler.QoSRegionTypeShare ci
                                (OriginOwnerPoolName ci))
                   (fun ci => newRegion Assembler.QoSRegionTypeDedicatedNumaExclusive ci
                                (PodUID ci))
                   boundContainer eq_refl eq_refl eq_refl))
            1 (list_to_set [8; 9]) _ eq_refl eq_refl _ eq_refl).
  - discriminate.
  - apply not_elem_of_empty.
Defined.

Lemma dedicated_container_regions_witness :
  length (fst (assignToRegionsNoRegions (Some dedicatedContainer)))
  = size (TopologyAwareAssignments dedicatedContainer).
Proof.
  exact (proj1 (proj2 (proj2 (proj2 (dedicated_container_regions false ∅ ∅
                   (fun _ => []) (fun _ => []) (fun _ _ => inr [])
                   (newRegion Assembler.QoSRegionTypeIsolation)
                   (fun ci => newRegion Assembler.QoSRegionTypeShare ci
                                (OriginOwnerPoolName ci))
                   (fun ci => newRegion Assembler.QoSRegionTypeDedicatedNumaExclusive ci
                                (PodUID ci))
                   dedicatedContainer eq_refl)) eq_refl))).
Defined.

Lemma share_container_gets_a_region_witness :
  [newRegion Assembler.QoSRegionTypeShare boundContainer "share"
     Assembler.FakedNUMAID] <> [].
Proof.
  exact (share_container_gets_a_region false ∅ ∅ (fun _ => []) (fun _ => [])
           (fun _ _ => inr [])
           (newRegion Assembler.QoSRegionTypeIsolation)
           (fun ci => newRegion Assembler.QoSRegionTypeShare ci
                        (OriginOwnerPoolName ci))
           (fun ci => newRegion Assembler.QoSRegionTypeDedicatedNumaExclusive ci
                        (PodUID ci))
           boundContainer
           [newRegion Assembler.QoSRegionTypeShare boundContainer "share"
              Assembler.FakedNUMAID]
           eq_refl eq_refl ltac:(discriminate) eq_refl).
Defined.

(** *** The isolation safety check, in full *)

Lemma foldM_isolationSafetyStep_total w l : forall acc,
  (forall r, r ∈ l -> Assembler.Type_ r = Assembler.QoSRegionTypeShare ->
             is_err (Assembler.GetProvision r) = false) ->
  exists s, foldM (isolationSafetyStep w) l acc = inr s.
Proof.
  induction l as [|r l IH]; intros acc Hok; cbn [foldM]; [eauto|].
  assert (Hr : exists v, isolationSafetyStep w acc r = inr v).
  { unfold isolationSafetyStep.
    destruct (Assembler.Type_ r) eqn:Hty; eauto.
    specialize (Hok r (list_elem_of_here _ _) Hty).
    destruct (Assembler.GetProvision r); [discriminate|]. cbn [bind]. eauto. }
  destruct Hr as [v ->]. cbn [bind]. apply IH.
  intros r' Hin. apply Hok, list_elem_of_further, Hin.
Qed.

Lemma foldM_isolationSafetyStep_ok w l : forall acc s,
  foldM (isolationSafetyStep w) l acc = inr s ->
  forall r, r ∈ l -> Assembler.Type_ r = Assembler.QoSRegionTypeShare ->
            is_err (Assembler.GetProvision r) = false.
Proof.
  induction l as [|x l IH]; intros acc s Hfold r Hin Hty.
  - exfalso. eapply not_elem_of_nil, Hin.
  - cbn [foldM] in Hfold.
    destruct (isolationSafetyStep w acc x) as [?|v] eqn:Hx; [discriminate|].
    cbn [bind] in Hfold. apply elem_of_cons in Hin as [->|Hin].
    + unfold isolationSafetyStep in Hx. rewrite Hty in Hx.
      destruct (Assembler.GetProvision x); [discriminate|reflexivity].
    + eapply IH; eassumption.
Qed.

(** X18: the isolation safety check passes exactly when every share
    region has a provision and the sum of the share regions' requirements and
    of the CPU limits of the isolation regions' containers does not exceed
    the cpu capacity of the advisor's non-binding NUMAs.  Dedicated regions
    take no part in the sum, and one share region without provision fails the
    check whatever the sizes are. *)
Theorem isolation_safety_check_passes_iff (w : world) :
  checkIsolationSafety w = true
  <-> (forall r, r ∈ regionMap w ->
         Assembler.Type_ r = Assembler.QoSRegionTypeShare ->
         is_err (Assembler.GetProvision r) = false)
      /\ shareAndIsolationPoolSize w <= CPUSizeInNUMAs w (nonBindingNumas w).
Proof.
  unfold checkIsolationSafety. split.
  - destruct (foldM (isolationSafetyStep w) (regionMap w) 0) as [?|s] eqn:Hfold;
      [discriminate|].
    pose proof (foldM_isolationSafetyStep_ok _ _ _ _ Hfold) as Hok.
    apply foldM_isolationSafetyStep in Hfold.
    fold (shareAndIsolationPoolSize w) in Hfold. subst s.
    destruct (Z.ltb_spec (CPUSizeInNUMAs w (nonBindingNumas w))
                (shareAndIsolationPoolSize w)); [discriminate|].
    intros _. split; [exact Hok|assumption].
  - intros [Hok Hle].
    destruct (foldM_isolationSafetyStep_total w (regionMap w) 0 Hok) as [s Hfold].
    rewrite Hfold. apply foldM_isolationSafetyStep in Hfold.
    fold (shareAndIsolationPoolSize w) in Hfold. subst s.
    destruct (Z.ltb_spec (CPUSizeInNUMAs w (nonBindingNumas w))
                (shareAndIsolationPoolSize w)); [lia|reflexivity].
Qed.

(** *** The essentials of the advisor *)

Lemma difference_spec (a b : list Z) (n : Z) : n ∈ difference a b <-> n ∈ a /\ n ∉ b.
Proof. unfold difference. rewrite list_elem_of_filter. tauto. Qed.

Lemma difference_NoDup (a b : list Z) : NoDup a -> NoDup (difference a b).
Proof. apply NoDup_filter. Qed.

Lemma nonBinding_fold (regions : list Assembler.QoSRegion) : forall (numas : list Z) n,
  n ∈ fold_left (fun numas r =>
                   if negb (Assembler.IsNumaBinding r) then numas
                   else
                     match Assembler.Type_ r with
                     | Assembler.QoSRegionTypeDedicatedNumaExclusive
                     | Assembler.QoSRegionTypeShare =>
                         difference numas (Assembler.GetBindingNumas r)
                     | Assembler.QoSRegionTypeIsolation => numas
                     end) regions numas
  <-> n ∈ numas
      /\ forall r, r ∈ regions -> Assembler.IsNumaBinding r = true ->
           Assembler.Type_ r <> Assembler.QoSRegionTypeIsolation ->
           n ∉ Assembler.GetBindingNumas r.
Proof.
  induction regions as [|x regions IH]; intros numas n; cbn [fold_left].
  - split; [|tauto]. intros H. split; [exact H|].
    intros r Hin. exfalso. eapply not_elem_of_nil, Hin.
  - rewrite IH. split.
    + intros [Hn Hrest].
      assert (Hx : n ∈ numas
                   /\ (Assembler.IsNumaBinding x = true ->
                       Assembler.Type_ x <> Assembler.QoSRegionTypeIsolation ->
                       n ∉ Assembler.GetBindingNumas x)).
      { destruct (Assembler.IsNumaBinding x); cbn [negb] in Hn;
          [|split; [exact Hn|discriminate]].
        destruct (Assembler.Type_ x);
          try (apply difference_spec in Hn as [Hn Hnot]; split; [exact Hn|auto]).
        split; [exact Hn|congruence]. }
      destruct Hx as [Hn' Hx]. split; [exact Hn'|].
      intros r Hin. apply elem_of_cons in Hin as [->|Hin]; [exact Hx|].
      apply Hrest, Hin.
    + intros [Hn Hall]. split.
      * destruct (Assembler.IsNumaBinding x) eqn:Hb; cbn [negb]; [|exact Hn].
        destruct (Assembler.Type_ x) eqn:Hty; [| exact Hn |];
          (apply difference_spec; split; [exact Hn|]);
          apply (Hall x (list_elem_of_here _ _) Hb); congruence.
      * intros r Hin. apply Hall, list_elem_of_further, Hin.
Qed.

(** X19: the non-binding NUMAs that [updateAdvisorEssentials] computes
    are the NUMA nodes of the machine that no NUMA-binding share or dedicated
    region is bound to; isolation regions and regions without NUMA binding
    take no NUMA away.  Afterwards every share region without NUMA binding is
    bound to exactly these NUMAs, and the overlap switch is the configured
    one. *)
Theorem non_binding_numas_of_essentials (conf : bool) (w : world) :
  let w' := updateAdvisorEssentials conf w in
  (forall n,
     n ∈ nonBindingNumas w'
     <-> n ∈ NUMANodes w
         /\ forall r, r ∈ regionMap w -> Assembler.IsNumaBinding r = true ->
              Assembler.Type_ r <> Assembler.QoSRegionTypeIsolation ->
              n ∉ Assembler.GetBindingNumas r)
  /\ (forall r, r ∈ regionMap w' -> Assembler.IsNumaBinding r = false ->
        Assembler.Type_ r = Assembler.QoSRegionTypeShare ->
        Assembler.GetBindingNumas r = nonBindingNumas w')
  /\ allowSharedCoresOverlapReclaimedCores w' = conf.
Proof.
  cbv zeta. split; [|split].
  - intros n. unfold updateAdvisorEssentials. cbn [nonBindingNumas].
    apply nonBinding_fold.
  - intros r Hin Hb Hty. unfold updateAdvisorEssentials in *.
    cbn [regionMap nonBindingNumas] in *.
    apply list_elem_of_fmap in Hin as (r0 & -> & _).
    destruct (negb (Assembler.IsNumaBinding r0)
              && Assembler.QoSRegionType_eqb (Assembler.Type_ r0)
                   Assembler.QoSRegionTypeShare) eqn:Hc.
    + reflexivity.
    + rewrite Hb, Hty in Hc. discriminate.
  - reflexivity.
Qed.

Lemma count_numas (numas : list Z) :
  NoDup numas ->
  forall (m : gmap Z Z) n,
    fold_left (fun m numaID => <[numaID := default 0 (m !! numaID) + 1]> m) numas m
      !! n
    = if bool_decide (n ∈ numas) then Some (default 0 (m !! n) + 1) else m !! n.
Proof.
  induction 1 as [|k numas Hk Hnd IH]; intros m n; cbn [fold_left].
  - reflexivity.
  - rewrite IH. destruct (decide (n = k)) as [->|Hne].
    + rewrite (bool_decide_eq_false_2 (k ∈ numas)) by exact Hk.
      rewrite (bool_decide_eq_true_2 (k ∈ k :: numas)) by apply list_elem_of_here.
      apply lookup_insert_eq.
    + rewrite !lookup_insert_ne by congruence.
      destruct (decide (n ∈ numas)) as [Hin|Hin].
      * rewrite !bool_decide_eq_true_2; auto using list_elem_of_further.
      * rewrite !bool_decide_eq_false_2; auto. rewrite elem_of_cons. tauto.
Qed.

Lemma count_regions (regions : list Assembler.QoSRegion) :
  Forall (fun r => NoDup (Assembler.GetBindingNumas r)) regions ->
  forall (m : gmap Z Z) n v,
    m !! n = Some v ->
    fold_left (fun m r =>
                 fold_left (fun m numaID => <[numaID := default 0 (m !! numaID) + 1]> m)
                           (Assembler.GetBindingNumas r) m)
              regions m !! n
    = Some (v + Z.of_nat
                  (length (filter (fun r => n ∈ Assembler.GetBindingNumas r) regions))).
Proof.
  induction 1 as [|r regions Hr Hall IH]; intros m n v Hm; cbn [fold_left].
  - rewrite Hm. cbn. f_equal. lia.
  - destruct (decide (n ∈ Assembler.GetBindingNumas r)) as [Hin|Hin].
    + rewrite (IH _ n (v + 1)).
      * rewrite filter_cons_True by exact Hin. cbn [length]. f_equal. lia.
      * rewrite count_numas by exact Hr.
        rewrite bool_decide_eq_true_2 by exact Hin. now rewrite Hm.
    + rewrite (IH _ n v).
      * rewrite filter_cons_False by exact Hin. reflexivity.
      * rewrite count_numas by exact Hr.
        rewrite bool_decide_eq_false_2 by exact Hin. exact Hm.
Qed.

Lemma reset_numas (numas : list Z) : forall (m : gmap Z Z) n,
  n ∈ numas ->
  fold_left (fun m numaID => <[numaID := 0]> m) numas m !! n = Some 0.
Proof.
  induction numas as [|k numas IH]; intros m n Hin; cbn [fold_left].
  - exfalso. eapply not_elem_of_nil, Hin.
  - destruct (decide (n ∈ numas)) as [Hn|Hn]; [now apply IH|].
    apply elem_of_cons in Hin as [->|Hin]; [|contradiction].
    clear IH. revert m. induction numas as [|j numas IH]; intros m; cbn [fold_left].
    + apply lookup_insert_eq.
    + rewrite not_elem_of_cons in Hn. destruct Hn as [Hne Hn].
      rewrite insert_insert_ne by congruence. apply IH, Hn.
Qed.

Lemma nonBinding_fold_NoDup (regions : list Assembler.QoSRegion) : forall numas,
  NoDup numas ->
  NoDup (fold_left (fun numas r =>
                      if negb (Assembler.IsNumaBinding r) then numas
                      else
                        match Assembler.Type_ r with
                        | Assembler.QoSRegionTypeDedicatedNumaExclusive
                        | Assembler.QoSRegionTypeShare =>
                            difference numas (Assembler.GetBindingNumas r)
                        | Assembler.QoSRegionTypeIsolation => numas
                        end) regions numas).
Proof.
  induction regions as [|r regions IH]; intros numas Hnd; cbn [fold_left];
    [exact Hnd|].
  apply IH. destruct (negb _); [exact Hnd|].
  destruct (Assembler.Type_ r); try exact Hnd; now apply difference_NoDup.
Qed.

(** X20: after [updateAdvisorEssentials] the region quantity of every
    NUMA node of the machine is the number of regions of the region map that
    are bound to that NUMA, counted afresh: whatever the counter held before
    is forgotten.  (The NUMA nodes and the binding NUMAs of a region are sets,
    so their slices have no duplicates.) *)
Theorem region_quantity_per_numa (conf : bool) (w : world) (n : Z) :
  NoDup (NUMANodes w) ->
  Forall (fun r => NoDup (Assembler.GetBindingNumas r)) (regionMap w) ->
  n ∈ NUMANodes w ->
  let w' := updateAdvisorEssentials conf w in
  numRegionsPerNuma w' !! n
  = Some (Z.of_nat
            (length (filter (fun r => n ∈ Assembler.GetBindingNumas r)
                            (regionMap w')))).
Proof.
  intros Hnodes Hregions Hin. cbv zeta. unfold updateAdvisorEssentials.
  cbn [numRegionsPerNuma regionMap].
  assert (Hnd : Forall (fun r => NoDup (Assembler.GetBindingNumas r))
                  (regionMap (updateAdvisorEssentials conf w))).
  { unfold updateAdvisorEssentials. cbn [regionMap].
    apply Forall_fmap. eapply Forall_impl; [exact Hregions|].
    intros r Hr. cbn. destruct (negb _ && _); [|exact Hr].
    cbn [setBindingNumas Assembler.GetBindingNumas].
    now apply nonBinding_fold_NoDup. }
  unfold updateAdvisorEssentials in Hnd. cbn [regionMap] in Hnd.
  rewrite (count_regions _ Hnd _ n 0); [reflexivity|].
  now apply reset_numas.
Qed.

Lemma region_quantity_per_numa_witness :
  numRegionsPerNuma (updateAdvisorEssentials false crowdedWorld) !! 1
  = Some (Z.of_nat
            (length (filter (fun r => 1 ∈ Assembler.GetBindingNumas r)
                            (regionMap (updateAdvisorEssentials false crowdedWorld))))).
Proof.
  apply (region_quantity_per_numa false crowdedWorld 1).
  - apply (bool_decide_unpack _). vm_compute. exact I.
  - apply (bool_decide_unpack _). vm_compute. exact I.
  - apply (bool_decide_unpack _). vm_compute. exact I.
Defined.

(** *** Ticks in sequence *)

Section TickSequences.

Variable updateNumasAvailableResource : world -> world.

Variable GetIsolatedPods : world -> list string.

Variable assignContainersToRegions : world -> world * option string.

Variable gcRegionMap : world -> world.

Variable AllowSharedCoresOverlapReclaimedCoresConf : bool.

Variable updateRegions : world -> world.

Variable AssembleProvision :
  world -> world * result Assembler.InternalCPUCalculationResult.

Variable updateRegionStatus : world -> world.

Variable indicatorNames : Assembler.QoSRegion -> list string.

Variable HeadroomAssemblerGetHeadroom : world -> result (Z * gmap Z Z).

Local Abbreviation guardian :=
  (updateWithIsolationGuardian updateNumasAvailableResource GetIsolatedPods
     assignContainersToRegions gcRegionMap AllowSharedCoresOverlapReclaimedCoresConf
     updateRegions AssembleProvision updateRegionStatus indicatorNames).

Local Abbreviation tick :=
  (update updateNumasAvailableResource GetIsolatedPods
     assignContainersToRegions gcRegionMap AllowSharedCoresOverlapReclaimedCoresConf
     updateRegions AssembleProvision updateRegionStatus indicatorNames).

Lemma tick_keeps cra :
  (advisorUpdated cra = true -> advisorUpdated (fst (tick cra)) = true)
  /\ provisionAssembler (fst (tick cra)) = provisionAssembler cra
  /\ headroomAssembler (fst (tick cra)) = headroomAssembler cra.
Proof.
  rewrite tick_unfold.
  destruct (guardian_spec updateNumasAvailableResource GetIsolatedPods
              assignContainersToRegions gcRegionMap
              AllowSharedCoresOverlapReclaimedCoresConf
              updateRegions AssembleProvision updateRegionStatus indicatorNames
              true cra) as (_ & _ & Hu & Hp & Hh & _).
  destruct (guardian_spec updateNumasAvailableResource GetIsolatedPods
              assignContainersToRegions gcRegionMap
              AllowSharedCoresOverlapReclaimedCoresConf
              updateRegions AssembleProvision updateRegionStatus indicatorNames
              false (fst (guardian true cra))) as (_ & _ & Hu' & Hp' & Hh' & _).
  destruct (snd (guardian true cra)) as [[| |]|].
  - rewrite Hu', Hu, Hp', Hp, Hh', Hh. split; [|split; reflexivity].
    intros ->. reflexivity.
  - rewrite Hu, Hp, Hh. split; [|split; reflexivity]. intros ->. reflexivity.
  - rewrite Hu, Hp, Hh. split; [|split; reflexivity]. intros ->. reflexivity.
  - rewrite Hu, Hp, Hh. split; [|split; reflexivity]. intros ->. reflexivity.
Qed.

(** X21: the flag [advisorUpdated] is never taken back.  Once it is set,
    it stays set through any number of further ticks, whether they succeed,
    fail or retry, and the two assemblers stay as they were; so [GetHeadroom]
    does not fall back to refusing for want of an update: with a headroom
    assembler in place it answers what that assembler answers on the shared
    state of the moment. *)
Theorem advisor_updated_is_never_reset (cra : cpuResourceAdvisor) (n : nat) :
  advisorUpdated cra = true ->
  let cra' := Nat.iter n (fun c => fst (tick c)) cra in
  advisorUpdated cra' = true
  /\ provisionAssembler cra' = provisionAssembler cra
  /\ headroomAssembler cra' = headroomAssembler cra
  /\ GetHeadroom HeadroomAssemblerGetHeadroom cra'
     = (if headroomAssembler cra
        then HeadroomAssemblerGetHeadroom (shared cra')
        else inl (Errorf "no legal assembler")).
Proof.
  intros Hu. cbv zeta.
  assert (Hinv : advisorUpdated (Nat.iter n (fun c => fst (tick c)) cra) = true
                 /\ provisionAssembler (Nat.iter n (fun c => fst (tick c)) cra)
                    = provisionAssembler cra
                 /\ headroomAssembler (Nat.iter n (fun c => fst (tick c)) cra)
                    = headroomAssembler cra).
  { induction n as [|n (IHu & IHp & IHh)]; [auto|].
    rewrite Nat.iter_succ.
    destruct (tick_keeps (Nat.iter n (fun c => fst (tick c)) cra))
      as (Hu' & Hp' & Hh').
    rewrite Hp', Hh'. auto. }
  destruct Hinv as (Hu' & Hp' & Hh').
  split; [exact Hu'|]. split; [exact Hp'|]. split; [exact Hh'|].
  unfold GetHeadroom. rewrite Hu', Hh'. cbn [negb].
  destruct (headroomAssembler cra); reflexivity.
Qed.

(** X22: ticks on a node whose reserve pool does not exist are refused
    at once, as often as they come: each returns the error that names the
    reserve pool without a second pass, and after any number of them the
    shared state, the flag and the assemblers are as before; the only trace
    is one update duration per tick in the emitter. *)
Theorem ticks_without_reserve_pool (cra : cpuResourceAdvisor) (n : nat) :
  reservePoolExists (shared cra) = false ->
  Nat.iter n (fun c => fst (tick c)) cra
  = {| advisorUpdated := advisorUpdated cra; shared := shared cra;
       provisionAssembler := provisionAssembler cra;
       headroomAssembler := headroomAssembler cra;
       emitted := emitted cra ++ replicate n metricCPUAdvisorUpdateDuration |}
  /\ snd (tick (Nat.iter n (fun c => fst (tick c)) cra))
     = inl (Errorf "reserve pool does not exist").
Proof.
  intros Hr.
  assert (Hstep : forall c, reservePoolExists (shared c) = false ->
            tick c
            = ({| advisorUpdated := advisorUpdated c; shared := shared c;
                  provisionAssembler := provisionAssembler c;
                  headroomAssembler := headroomAssembler c;
                  emitted := emitted c ++ [metricCPUAdvisorUpdateDuration] |},
               inl (Errorf "reserve pool does not exist"))).
  { intros c Hc. unfold update, updateWithIsolationGuardian. rewrite Hc.
    reflexivity. }
  assert (Hiter : Nat.iter n (fun c => fst (tick c)) cra
            = {| advisorUpdated := advisorUpdated cra; shared := shared cra;
                 provisionAssembler := provisionAssembler cra;
                 headroomAssembler := headroomAssembler cra;
                 emitted := emitted cra
                            ++ replicate n metricCPUAdvisorUpdateDuration |}).
  { induction n as [|n IH].
    - cbn. rewrite app_nil_r. destruct cra; reflexivity.
    - rewrite Nat.iter_succ, IH, Hstep by exact Hr.
      cbn [fst advisorUpdated shared provisionAssembler headroomAssembler emitted].
      f_equal. rewrite <- app_assoc. f_equal.
      change (S n) with (1 + n)%nat. rewrite Nat.add_comm, replicate_add.
      reflexivity. }
  split; [exact Hiter|].
  rewrite Hiter, Hstep by exact Hr. reflexivity.
Qed.

End TickSequences.

Lemma advisor_updated_is_never_reset_witness :
  advisorUpdated
    (Nat.iter 2 (fun c => fst (stubTick [] (inl (Errorf "provision not ready")) c))
       updatedAdvisor) = true.
Proof.
  exact (proj1 (advisor_updated_is_never_reset (fun w => w) (fun _ => [])
                  (fun w => (w, None)) (fun w => w) false (fun w => w)
                  (fun w => (w, inl (Errorf "provision not ready"))) (fun w => w)
                  (fun _ => []) (fun _ => inr (8, ∅)) updatedAdvisor 2 eq_refl)).
Defined.

Lemma ticks_without_reserve_pool_witness :
  snd (stubTick [] (inr emptyResult)
         (Nat.iter 3 (fun c => fst (stubTick [] (inr emptyResult) c))
            (NewCPUResourceAdvisor noReserveWorld true true)))
  = inl (Errorf "reserve pool does not exist").
Proof.
  exact (proj2 (ticks_without_reserve_pool (fun w => w) (fun _ => [])
                  (fun w => (w, None)) (fun w => w) false (fun w => w)
                  (fun w => (w, inr emptyResult)) (fun w => w)
                  (fun _ => []) (NewCPUResourceAdvisor noReserveWorld true true) 3
                  eq_refl)).
Defined.

(** *** Isolation marks *)

(** X23: [setIsolatedContainers] makes the isolation marks of the
    containers follow the isolator and nothing else.  A container is marked
    isolated afterwards exactly when isolation is tried and the isolator
    lists its pod, whatever its mark was before; with isolation not tried no
    container stays marked.  The function reports whether any pod is
    isolated, and leaves the containers otherwise, and the rest of the shared
    state, as they were. *)
Theorem isolation_marks_follow_isolator
    (GetIsolatedPods : world -> list string) (enableIsolated : bool) (w : world) :
  let w' := fst (setIsolatedContainers GetIsolatedPods enableIsolated w) in
  (snd (setIsolatedContainers GetIsolatedPods enableIsolated w) = true
   <-> enableIsolated = true /\ GetIsolatedPods w <> [])
  /\ length (containers w') = length (containers w)
  /\ (forall i ci',
        containers w' !! i = Some ci' ->
        exists ci,
          containers w !! i = Some ci
          /\ (Isolated ci' = true
              <-> enableIsolated = true /\ PodUID ci ∈ GetIsolatedPods w)
          /\ PodUID ci' = PodUID ci /\ ContainerName ci' = ContainerName ci
          /\ QoSLevelOf ci' = QoSLevelOf ci /\ OwnerPoolName ci' = OwnerPoolName ci
          /\ OriginOwnerPoolName ci' = OriginOwnerPoolName ci
          /\ TopologyAwareAssignments ci' = TopologyAwareAssignments ci
          /\ CPURequest ci' = CPURequest ci /\ CPULimit ci' = CPULimit ci
          /\ RampUp ci' = RampUp ci /\ IsNumaBinding ci' = IsNumaBinding ci)
  /\ regionMap w' = regionMap w /\ nonBindingNumas w' = nonBindingNumas w
  /\ NUMANodes w' = NUMANodes w /\ reservePoolExists w' = reservePoolExists w
  /\ numRegionsPerNuma w' = numRegionsPerNuma w
  /\ allowSharedCoresOverlapReclaimedCores w'
     = allowSharedCoresOverlapReclaimedCores w
  /\ NUMAToCPUs w' = NUMAToCPUs w.
Proof.
  cbv zeta. unfold setIsolatedContainers. cbn [fst snd containers regionMap
    nonBindingNumas NUMANodes reservePoolExists numRegionsPerNuma
    allowSharedCoresOverlapReclaimedCores NUMAToCPUs].
  split; [|split; [|split]].
  - destruct enableIsolated.
    + destruct (GetIsolatedPods w) as [|p ps]; cbn [nonEmpty].
      * split; [discriminate|]. intros [_ H]. now destruct H.
      * split; [|reflexivity]. intros _. split; [reflexivity|discriminate].
    + cbn [nonEmpty]. split; [discriminate|]. intros [H _]. discriminate.
  - apply length_map.
  - intros i ci' Hi. rewrite list_lookup_fmap in Hi.
    destruct (containers w !! i) as [ci|]; [|discriminate].
    cbn in Hi. injection Hi as <-. exists ci. split; [reflexivity|].
    cbn [Isolated PodUID ContainerName QoSLevelOf OwnerPoolName OriginOwnerPoolName
      TopologyAwareAssignments CPURequest CPULimit RampUp IsNumaBinding].
    split; [|repeat split].
    rewrite bool_decide_eq_true. destruct enableIsolated.
    + tauto.
    + split; [intros H; exfalso; eapply not_elem_of_nil, H|].
      intros [H _]. discriminate.
  - repeat split.
Qed.

End AdvisorFacts.

Module CheckpointFacts.
Import Checkpoint.

Section CheckpointFacts.

Variable NUMANodeResourcesMap : Type.
Variable PodResourceEntries : Type.
Variable json_Marshal :
  MemoryPluginCheckpoint NUMANodeResourcesMap PodResourceEntries ->
  result (list Byte.byte).
Variable json_Unmarshal :
  list Byte.byte ->
  MemoryPluginCheckpoint NUMANodeResourcesMap PodResourceEntries ->
  result (MemoryPluginCheckpoint NUMANodeResourcesMap PodResourceEntries).
Variable checksum_New :
  MemoryPluginCheckpoint NUMANodeResourcesMap PodResourceEntries -> Z.

Local Abbreviation checkpoint :=
  (MemoryPluginCheckpoint NUMANodeResourcesMap PodResourceEntries).
Local Abbreviation MarshalCheckpoint :=
  (Checkpoint.MarshalCheckpoint json_Marshal checksum_New).
Local Abbreviation UnmarshalCheckpoint :=
  (Checkpoint.UnmarshalCheckpoint json_Unmarshal).
Local Abbreviation VerifyChecksum := (Checkpoint.VerifyChecksum checksum_New).

Lemma withChecksum_twice a b (cp : checkpoint) : withChecksum a (withChecksum b cp) = withChecksum a cp.
Proof. reflexivity. Qed.

Lemma withChecksum_same (cp : checkpoint) : withChecksum (Checksum cp) cp = cp.
Proof. destruct cp; reflexivity. Qed.

(** The checksum that [MarshalCheckpoint] writes is the hash of the
    checkpoint with a zero checksum, and [VerifyChecksum] accepts it. *)
Lemma MarshalCheckpoint_checksum (cp : checkpoint) :
  Checksum (fst (MarshalCheckpoint cp))
  = checksum_New (withChecksum 0 (fst (MarshalCheckpoint cp))) /\
  VerifyChecksum (fst (MarshalCheckpoint cp)) = (fst (MarshalCheckpoint cp), None).
Proof.
  unfold Checkpoint.MarshalCheckpoint, Checkpoint.VerifyChecksum, checksum_Verify; simpl.
  rewrite !withChecksum_twice. split; [reflexivity|].
  rewrite Z.eqb_refl. reflexivity.
Qed.

(** Marshalling is idempotent on what it leaves in the receiver. *)
Lemma MarshalCheckpoint_again (cp : checkpoint) :
  MarshalCheckpoint (fst (MarshalCheckpoint cp)) = MarshalCheckpoint cp.
Proof.
  unfold Checkpoint.MarshalCheckpoint; simpl. rewrite !withChecksum_twice. reflexivity.
Qed.

(** Whenever the JSON decoder restores, in the fresh checkpoint, the value
    that was encoded, a second marshal gives the same bytes and the checksum
    of the restored checkpoint is accepted.  Whether [encoding/json] restores
    every checkpoint is a property of that library and of the types of the
    machine state and the pod entries. *)
Lemma round_trip_when_decoder_restores (cp fresh : checkpoint) blob restored :
  snd (MarshalCheckpoint cp) = inr blob ->
  UnmarshalCheckpoint blob fresh = inr restored ->
  restored = fst (MarshalCheckpoint cp) ->
  snd (MarshalCheckpoint restored) = inr blob /\
  snd (VerifyChecksum restored) = None.
Proof.
  intros Hm _ ->. rewrite MarshalCheckpoint_again. split; [exact Hm|].
  now rewrite (proj2 (MarshalCheckpoint_checksum cp)).
Qed.

End CheckpointFacts.


Section ChecksumFacts.

Variable NUMANodeResourcesMap : Type.
Variable PodResourceEntries : Type.
Variable json_Marshal :
  MemoryPluginCheckpoint NUMANodeResourcesMap PodResourceEntries ->
  result (list Byte.byte).
Variable checksum_New :
  MemoryPluginCheckpoint NUMANodeResourcesMap PodResourceEntries -> Z.

Local Abbreviation checkpoint :=
  (MemoryPluginCheckpoint NUMANodeResourcesMap PodResourceEntries).
Local Abbreviation MarshalCheckpoint :=
  (Checkpoint.MarshalCheckpoint json_Marshal checksum_New).
Local Abbreviation VerifyChecksum := (Checkpoint.VerifyChecksum checksum_New).

(** X24: the checksum a checkpoint carries when it is marshalled plays
    no part: the bytes and the checksum that [MarshalCheckpoint] produces are
    those of the same checkpoint with any other checksum.  [VerifyChecksum]
    gives the checkpoint back as it was, checksum included, and it accepts
    exactly the checkpoints whose checksum is the hash of the checkpoint with
    a zero checksum, which is what [MarshalCheckpoint] leaves behind. *)
Theorem checksum_covers_the_data_only (cp : checkpoint) (ck : Z) :
  MarshalCheckpoint (withChecksum ck cp) = MarshalCheckpoint cp
  /\ fst (VerifyChecksum cp) = cp
  /\ (snd (VerifyChecksum cp) = None
      <-> Checksum cp = checksum_New (withChecksum 0 cp))
  /\ snd (VerifyChecksum (fst (MarshalCheckpoint cp))) = None.
Proof.
  split; [|split; [|split]].
  - reflexivity.
  - unfold Checkpoint.VerifyChecksum. cbn [fst]. destruct cp; reflexivity.
  - unfold Checkpoint.VerifyChecksum, checksum_Verify. cbn [snd].
    destruct (Z.eqb_spec (Checksum cp) (checksum_New (withChecksum 0 cp))).
    + tauto.
    + split; [discriminate|contradiction].
  - unfold Checkpoint.VerifyChecksum, Checkpoint.MarshalCheckpoint, checksum_Verify.
    cbn [fst snd Checksum withChecksum PolicyName MachineState NUMAHeadroom
      PodResourceEntriesOf SocketTopology].
    now rewrite Z.eqb_refl.
Qed.

End ChecksumFacts.

End CheckpointFacts.

Module MemoryPolicyUtilFacts.
Import MemoryPolicyUtil.

(** *** Reserved memory per NUMA *)

Lemma spread_lookup (v : Z) (ids : list Z) : forall (m : gmap Z Z) id,
  fold_left (fun reservedMemory id => <[id := v]> reservedMemory) ids m !! id
  = if bool_decide (id ∈ ids) then Some v else m !! id.
Proof.
  induction ids as [|k ids IH]; intros m id; cbn [fold_left].
  - reflexivity.
  - rewrite IH. destruct (decide (id ∈ ids)) as [Hin|Hin].
    + rewrite !bool_decide_eq_true_2; auto using list_elem_of_further.
    + rewrite (bool_decide_eq_false_2 (id ∈ ids)) by exact Hin.
      destruct (decide (id = k)) as [->|Hne].
      * rewrite lookup_insert_eq.
        now rewrite bool_decide_eq_true_2 by apply list_elem_of_here.
      * rewrite lookup_insert_ne by congruence.
        rewrite bool_decide_eq_false_2; [reflexivity|].
        rewrite elem_of_cons. tauto.
Qed.

(** X25: [getReservedMemory] spreads the reserved memory evenly over
    the NUMA nodes of the machine and never reserves less than asked.  On a
    machine with at least one NUMA node and a reservation that is not
    negative, every NUMA node of the topology, and no other key, gets the
    same whole number of GiB; the amounts add up to at least the reservation
    and exceed it by less than one GiB per NUMA node. *)
Theorem reserved_memory_is_spread_evenly
    (KubeletConfiguration : Type)
    (GetReservedQuantity : KubeletConfiguration -> string -> result (Z * bool))
    (conf : Configuration) (metaServer : MetaServer KubeletConfiguration)
    (machineInfo : MachineInfo) (reservedMemoryGB : Q) :
  Topology machineInfo <> [] ->
  reservedMemoryGBOf GetReservedQuantity conf metaServer = inr reservedMemoryGB ->
  (0 <= reservedMemoryGB)%Q ->
  exists reservedMemory perNumaReservedGB,
    getReservedMemory GetReservedQuantity (Some conf) (Some metaServer)
      (Some machineInfo) = inr reservedMemory
    /\ (forall id, reservedMemory !! id
                   = if bool_decide (id ∈ Topology machineInfo)
                     then Some (perNumaReservedGB * unitGB) else None)
    /\ 0 <= perNumaReservedGB
    /\ (reservedMemoryGB
        <= inject_Z (Z.of_nat (length (Topology machineInfo)) * perNumaReservedGB))%Q
    /\ (inject_Z (Z.of_nat (length (Topology machineInfo)) * perNumaReservedGB)
        < reservedMemoryGB + inject_Z (Z.of_nat (length (Topology machineInfo))))%Q.
Proof.
  intros Htopo Hgb Hpos. unfold getReservedMemory. rewrite Hgb. cbn [bind].
  set (n := Z.of_nat (length (Topology machineInfo))).
  assert (Hn : 0 < n).
  { subst n. destruct (Topology machineInfo); [congruence|]. cbn [length]. lia. }
  assert (HnQ : (0 < inject_Z n)%Q)
    by (change 0%Q with (inject_Z 0); now rewrite <- Zlt_Qlt).
  unfold math_Ceil, int_to_float.
  set (x := (reservedMemoryGB / inject_Z n)%Q).
  eexists _, (Qceiling x). split; [reflexivity|].
  split; [intros id; rewrite spread_lookup, lookup_empty; reflexivity|].
  assert (Hx : (0 <= x)%Q) by (subst x; apply Qle_shift_div_l; [exact HnQ|lra]).
  assert (Hup : (x <= inject_Z (Qceiling x))%Q) by apply Qle_ceiling.
  assert (Hlow : (inject_Z (Qceiling x) - 1 < x)%Q).
  { pose proof (Qceiling_lt x) as H. unfold Z.sub in H.
    rewrite inject_Z_plus, inject_Z_opp in H. exact H. }
  assert (Hgbx : (reservedMemoryGB == x * inject_Z n)%Q)
    by (subst x; field; lra).
  split.
  - rewrite Zle_Qle. eapply Qle_trans; [exact Hx|exact Hup].
  - rewrite inject_Z_mult. split.
    + rewrite Hgbx. nra.
    + rewrite Hgbx. nra.
Qed.

Lemma reserved_memory_is_spread_evenly_witness :
  exists reservedMemory perNumaReservedGB,
    getReservedMemory (fun (_ : unit) _ => inr (0, false)) (Some fiveGB)
      (Some {| GetKubeletConfig := inr tt |}) (Some twoNumaMachine)
    = inr reservedMemory
    /\ (forall id, reservedMemory !! id
                   = if bool_decide (id ∈ [0; 1])
                     then Some (perNumaReservedGB * unitGB) else None)
    /\ (5 <= inject_Z (2 * perNumaReservedGB))%Q.
Proof.
  destruct (reserved_memory_is_spread_evenly unit (fun _ _ => inr (0, false))
              fiveGB {| GetKubeletConfig := inr tt |} twoNumaMachine 5%Q)
    as (reservedMemory & per & Hrun & Hmap & _ & Hle & _).
  - discriminate.
  - reflexivity.
  - discriminate.
  - exists reservedMemory, per. split; [exact Hrun|]. split; [exact Hmap|exact Hle].
Defined.

(** *** Sidecar allocation info *)

Lemma applySidecar_annotations (sidecar main : gmap string string) (changed : bool) :
  let r := map_fold (fun key value (acc : gmap string string * bool) =>
                       match fst acc !! key with
                       | Some _ => acc
                       | None => (<[key := value]> (fst acc), true)
                       end) (sidecar, changed) main in
  fst r = sidecar ∪ main
  /\ (snd r = true <-> changed = true \/ sidecar ∪ main <> sidecar).
Proof.
  cbv zeta.
  apply (map_fold_weak_ind
           (fun (r : gmap string string * bool) (m : gmap string string) =>
              fst r = sidecar ∪ m
              /\ (snd r = true <-> changed = true \/ sidecar ∪ m <> sidecar))).
  - cbn [fst snd]. rewrite (right_id_L ∅ (∪)). split; [reflexivity|]. tauto.
  - intros key value m [ann ch] Hm [Hann Hch]. cbn [fst snd] in *. subst ann.
    destruct ((sidecar ∪ m) !! key) as [v|] eqn:Hlook.
    + cbn [fst snd].
      assert (Hs : sidecar !! key = Some v).
      { apply lookup_union_Some_raw in Hlook as [H|[_ H]]; [exact H|congruence]. }
      assert (Heq : sidecar ∪ <[key := value]> m = sidecar ∪ m).
      { apply map_eq. intros k. rewrite !lookup_union.
        destruct (decide (k = key)) as [->|Hne].
        - rewrite lookup_insert_eq, Hm, Hs. reflexivity.
        - now rewrite lookup_insert_ne by congruence. }
      rewrite Heq. split; [reflexivity|exact Hch].
    + cbn [fst snd].
      apply lookup_union_None in Hlook as [Hs _].
      split.
      * apply map_eq. intros k. rewrite !lookup_union.
        destruct (decide (k = key)) as [->|Hne].
        -- rewrite !lookup_insert_eq, Hs. reflexivity.
        -- rewrite !lookup_insert_ne by congruence. now rewrite lookup_union.
      * split; [|reflexivity]. intros _. right. intros Heq.
        assert (Hk : (sidecar ∪ <[key := value]> m) !! key = sidecar !! key)
          by now rewrite Heq.
        rewrite lookup_union, lookup_insert_eq, Hs in Hk. discriminate.
Qed.

(** X26: [applySidecarAllocationInfoFromMainContainer] gives the sidecar
    the NUMA allocation of the main container and the annotations of the main
    container that the sidecar lacks, and never overwrites an annotation the
    sidecar has.  The flag it returns is true exactly when the sidecar's
    allocation info changed, and applying the function a second time changes
    nothing and returns false. *)
Theorem sidecar_follows_main_container (sidecar main : AllocationInfo) :
  let sidecar' := fst (applySidecarAllocationInfoFromMainContainer sidecar main) in
  let changed := snd (applySidecarAllocationInfoFromMainContainer sidecar main) in
  NumaAllocationResult sidecar' = NumaAllocationResult main
  /\ Annotations sidecar' = Annotations sidecar ∪ Annotations main
  /\ (forall key value, Annotations sidecar !! key = Some value ->
        Annotations sidecar' !! key = Some value)
  /\ (changed = true <-> sidecar' <> sidecar)
  /\ applySidecarAllocationInfoFromMainContainer sidecar' main = (sidecar', false).
Proof.
  cbv zeta.
  assert (Hshape : forall s,
    applySidecarAllocationInfoFromMainContainer s main
    = ({| NumaAllocationResult := NumaAllocationResult main;
          Annotations := Annotations s ∪ Annotations main |},
       negb (bool_decide (NumaAllocationResult s = NumaAllocationResult main))
       || negb (bool_decide (Annotations s ∪ Annotations main = Annotations s)))).
  { intros s. unfold applySidecarAllocationInfoFromMainContainer.
    destruct (bool_decide_reflect (NumaAllocationResult s = NumaAllocationResult main))
      as [Hnuma|Hnuma]; cbn [negb].
    - destruct (applySidecar_annotations (Annotations s) (Annotations main) false)
        as [Hann Hch].
      destruct (map_fold _ _ _) as [ann ch]. cbn [fst snd] in *. subst ann.
      rewrite Hnuma. f_equal. cbn [orb].
      destruct (bool_decide_reflect
                  (Annotations s ∪ Annotations main = Annotations s)) as [He|He];
        cbn [negb].
      + destruct ch; [|reflexivity]. destruct (proj1 Hch eq_refl); [discriminate|].
        contradiction.
      + apply Hch. right. exact He.
    - destruct (applySidecar_annotations (Annotations s) (Annotations main) true)
        as [Hann Hch].
      destruct (map_fold _ _ _) as [ann ch]. cbn [fst snd] in *. subst ann.
      f_equal. cbn [orb]. apply Hch. left. reflexivity. }
  rewrite Hshape. cbn [fst snd NumaAllocationResult Annotations].
  split; [reflexivity|]. split; [reflexivity|].
  split; [intros key value Hk; apply lookup_union_Some_l, Hk|].
  split.
  - rewrite orb_true_iff, !negb_true_iff, !bool_decide_eq_false. split.
    + intros [Hne|Hne] Heq; apply Hne.
      * apply (f_equal NumaAllocationResult) in Heq. cbn in Heq. congruence.
      * apply (f_equal Annotations) in Heq. cbn in Heq. exact Heq.
    + intros Hne.
      destruct (decide (NumaAllocationResult sidecar = NumaAllocationResult main))
        as [Hn|Hn]; [|left; exact Hn].
      right. intros Ha. apply Hne. destruct sidecar as [n a]. cbn in *. congruence.
  - rewrite Hshape. cbn [NumaAllocationResult Annotations]. f_equal.
    + f_equal. rewrite <- (assoc_L (∪)), (idemp_L (∪)). reflexivity.
    + rewrite bool_decide_eq_true_2 by reflexivity. cbn [negb orb].
      rewrite bool_decide_eq_true_2; [reflexivity|].
      rewrite <- (assoc_L (∪)), (idemp_L (∪)). reflexivity.
Qed.

End MemoryPolicyUtilFacts.


Module CacheReaperFacts.
Import CacheReaper.

Section ReaperFacts.

Variable GetContainerMetric : string -> string -> string -> Z -> result Q.

Variable Sort : Z -> string -> list ContainerInfo -> list ContainerInfo.

Variable GeneratePodContainerName : string -> string -> string.

Variable MetricMemCacheContainer : string.

Variable MetricsMemFilePerNumaContainer : string.

Local Abbreviation selectLoop := (CacheReaper.selectLoop GetContainerMetric).
Local Abbreviation selectContainers :=
  (CacheReaper.selectContainers GetContainerMetric Sort).
Local Abbreviation cacheOf := (CacheReaper.cacheOf GetContainerMetric).
Local Abbreviation hasMetric := (CacheReaper.hasMetric GetContainerMetric).
Local Abbreviation cacheSum := (CacheReaper.cacheSum GetContainerMetric).
Local Abbreviation keep := (CacheReaper.keep GeneratePodContainerName).
Local Abbreviation Reconcile :=
  (CacheReaper.Reconcile GetContainerMetric Sort GeneratePodContainerName
     MetricMemCacheContainer MetricsMemFilePerNumaContainer).

Lemma cacheSum_app numaID metricName (a b : list ContainerInfo) :
  cacheSum numaID metricName (a ++ b)
  = cacheSum numaID metricName a + cacheSum numaID metricName b.
Proof.
  unfold CacheReaper.cacheSum. induction a as [|x a IH]; cbn [app fold_right]; lia.
Qed.

Lemma selectLoop_spec cacheToReap numaID metricName (containers : list ContainerInfo) :
  forall sum, sum <= cacheToReap ->
    let selected := selectLoop cacheToReap numaID metricName containers sum in
    sublist selected containers
    /\ Forall (fun ci => hasMetric numaID metricName ci = true) selected
    /\ (forall init last, selected = init ++ [last] ->
          sum + cacheSum numaID metricName init <= cacheToReap)
    /\ (sum + cacheSum numaID metricName selected <= cacheToReap ->
        selected = filter (fun ci => hasMetric numaID metricName ci = true) containers).
Proof.
  induction containers as [|ci containers IH]; intros sum Hsum;
    cbn [CacheReaper.selectLoop].
  - cbv zeta. split; [constructor|]. split; [constructor|]. split; [|reflexivity].
    intros init last H. destruct init; discriminate.
  - cbv zeta.
    assert (Hci : forall metric,
              GetContainerMetric (PodUID ci) (ContainerName ci) metricName numaID
              = inr metric ->
              hasMetric numaID metricName ci = true
              /\ cacheOf numaID metricName ci = float_to_int metric).
    { intros metric H. unfold CacheReaper.hasMetric, CacheReaper.cacheOf.
      rewrite H. split; reflexivity. }
    destruct (GetContainerMetric (PodUID ci) (ContainerName ci) metricName numaID)
      as [err|metric] eqn:Hm.
    + destruct (IH sum Hsum) as (Hsub & Hall & Hinit & Hfull).
      split; [now apply sublist_cons|]. split; [exact Hall|]. split; [exact Hinit|].
      intros Hle. rewrite filter_cons_False.
      * now apply Hfull.
      * unfold CacheReaper.hasMetric. rewrite Hm. discriminate.
    + destruct (Hci metric eq_refl) as [Hhas Hcache].
      destruct (Z.ltb_spec cacheToReap (sum + float_to_int metric)) as [Hlt|Hge].
      * split; [apply sublist_skip, sublist_nil_l|].
        split; [repeat constructor; exact Hhas|].
        split.
        -- intros init last H.
           destruct init as [|x init]; [cbn; lia|].
           destruct init; discriminate.
        -- cbn [CacheReaper.cacheSum fold_right]. rewrite Hcache. lia.
      * destruct (IH (sum + float_to_int metric) Hge)
          as (Hsub & Hall & Hinit & Hfull).
        split; [now apply sublist_skip|].
        split; [constructor; [exact Hhas|exact Hall]|].
        split.
        -- intros init last H. destruct init as [|x init].
           ++ cbn. lia.
           ++ cbn [app] in H. injection H as <- H.
              specialize (Hinit init last H).
              cbn [CacheReaper.cacheSum fold_right].
              fold (cacheSum numaID metricName init). rewrite Hcache. lia.
        -- cbn [CacheReaper.cacheSum fold_right].
           fold (cacheSum numaID metricName
                   (selectLoop cacheToReap numaID metricName containers
                      (sum + float_to_int metric))).
           rewrite Hcache. intros Hle.
           rewrite filter_cons_True by exact Hhas. f_equal. apply Hfull. lia.
Qed.

(** X27: [selectContainers] takes containers in the order of the sorter,
    skipping those whose metric cannot be read, and stops right after the
    container with which the cache counted so far exceeds the target.  So
    the caller's slice is left in the sorted order, the selection is a
    sub-sequence of the sorted containers, every selected container has a
    reading, the selection without its last container does
    not exceed the target, and when the whole selection does not exceed it,
    every container with a reading was selected. *)
Theorem select_containers_stops_at_target
    (containers : list ContainerInfo) (cacheToReap numaID : Z) (metricName : string) :
  0 <= cacheToReap ->
  let selected := snd (selectContainers containers cacheToReap numaID metricName) in
  fst (selectContainers containers cacheToReap numaID metricName)
  = Sort numaID metricName containers
  /\ sublist selected (Sort numaID metricName containers)
  /\ Forall (fun ci => hasMetric numaID metricName ci = true) selected
  /\ (forall init last, selected = init ++ [last] ->
        cacheSum numaID metricName init <= cacheToReap)
  /\ (cacheSum numaID metricName selected <= cacheToReap ->
      selected = filter (fun ci => hasMetric numaID metricName ci = true)
                        (Sort numaID metricName containers)).
Proof.
  intros Htarget. cbv zeta. unfold CacheReaper.selectContainers. cbn [fst snd].
  destruct (selectLoop_spec cacheToReap numaID metricName
              (Sort numaID metricName containers) 0 Htarget) as (H1 & H2 & H3 & H4).
  split; [reflexivity|]. split; [exact H1|]. split; [exact H2|]. split.
  - intros init last H. specialize (H3 init last H). lia.
  - intros Hle. apply H4. lia.
Qed.

Lemma keep_spec (selected : list ContainerInfo) :
  forall (m : gmap string ContainerInfo) key ci,
    keep selected m !! key = Some ci -> ci ∈ selected \/ m !! key = Some ci.
Proof.
  unfold CacheReaper.keep.
  induction selected as [|x selected IH]; intros m key ci; cbn [fold_left].
  - auto.
  - intros H. apply IH in H as [H|H]; [left; now apply list_elem_of_further|].
    destruct (decide (key = GeneratePodContainerName (PodName x) (ContainerName x)))
      as [->|Hne].
    + rewrite lookup_insert_eq in H. injection H as <-. left. apply list_elem_of_here.
    + rewrite lookup_insert_ne in H by congruence. right. exact H.
Qed.

Lemma selectLoop_sublist cacheToReap numaID metricName (containers : list ContainerInfo) :
  forall sum,
    sublist (selectLoop cacheToReap numaID metricName containers sum) containers.
Proof.
  induction containers as [|ci containers IH]; intros sum;
    cbn [CacheReaper.selectLoop]; [constructor|].
  destruct (GetContainerMetric _ _ _ _); [apply sublist_cons, IH|].
  destruct (_ <? _); [apply sublist_skip, sublist_nil_l|apply sublist_skip, IH].
Qed.

Lemma reconcileCondition_from (metaCache : list ContainerInfo)
    (condition : MemoryPressureCondition) (numaID : Z) (metricName : string)
    (acc : list ContainerInfo * gmap string ContainerInfo) :
  (forall numaID metricName l c, c ∈ Sort numaID metricName l -> c ∈ l) ->
  let kept (acc : list ContainerInfo * gmap string ContainerInfo) :=
    (forall c, c ∈ fst acc ->
       c ∈ metaCache /\ reclaimedContainersFilter (Some c) = true)
    /\ (forall key ci, snd acc !! key = Some ci ->
          ci ∈ metaCache /\ reclaimedContainersFilter (Some ci) = true) in
  kept acc ->
  kept (CacheReaper.reconcileCondition GetContainerMetric Sort
          GeneratePodContainerName condition numaID metricName acc).
Proof.
  intros Hsort. cbv zeta. destruct acc as [containers m]. cbn [fst snd].
  intros [Hc Hm]. unfold CacheReaper.reconcileCondition.
  destruct (State condition), (TargetReclaimed condition) as [target|];
    try (split; assumption).
  unfold CacheReaper.selectContainers. cbn [fst snd]. split.
  - intros c Hin. apply Hc. eapply Hsort, Hin.
  - intros key ci H. apply keep_spec in H as [H|H]; [|eapply Hm, H].
    eapply elem_of_sublist in H; [|apply selectLoop_sublist].
    apply Hc. eapply Hsort, H.
Qed.

Lemma Reconcile_from (metaCache : list ContainerInfo) (status : MemoryPressureStatus) :
  (forall numaID metricName l c, c ∈ Sort numaID metricName l -> c ∈ l) ->
  forall key ci, Reconcile metaCache status !! key = Some ci ->
    ci ∈ metaCache /\ reclaimedContainersFilter (Some ci) = true.
Proof.
  intros Hsort. unfold CacheReaper.Reconcile.
  pose proof (reconcileCondition_from metaCache (NodeCondition status) (-1)
                MetricMemCacheContainer
                (GetContainers metaCache reclaimedContainersFilter, ∅) Hsort)
    as Hstart.
  cbv zeta in Hstart.
  match type of Hstart with ?P -> _ => assert (H0 : P) end.
  { cbn [fst snd]. split.
    - intros c Hin. unfold GetContainers in Hin.
      apply list_elem_of_filter in Hin. tauto.
    - intros key ci H. rewrite lookup_empty in H. discriminate. }
  specialize (Hstart H0). clear H0.
  revert Hstart.
  generalize (CacheReaper.reconcileCondition GetContainerMetric Sort
                GeneratePodContainerName (NodeCondition status) (-1)
                MetricMemCacheContainer
                (GetContainers metaCache reclaimedContainersFilter, ∅)).
  induction (NUMAConditions status) as [|[numaID condition] conditions IH];
    intros acc Hacc; cbn [fold_left]; [exact (proj2 Hacc)|].
  apply IH.
  exact (reconcileCondition_from metaCache condition numaID
           MetricsMemFilePerNumaContainer acc Hsort Hacc).
Qed.

(** X28: the reaper only ever advises to drop the cache of main
    containers of reclaimed cores.  Whatever the pressure status and the
    metrics are, every advice that follows a [Reconcile] names a container of
    the meta cache that is a main container of reclaimed cores, with the one
    value "drop_cache"; and when neither the node nor any NUMA is in the
    drop-cache state with a target, a [Reconcile] leaves nothing to reap,
    whatever was kept before.  (The sorter reorders the containers it is
    given: it does not invent any.) *)
Theorem reaper_advises_reclaimed_main_containers
    (metaCache : list ContainerInfo) (status : MemoryPressureStatus) :
  (forall numaID metricName l c, c ∈ Sort numaID metricName l -> c ∈ l) ->
  (forall advice, advice ∈ GetAdvices (Reconcile metaCache status) ->
     Values advice = {[ "drop_cache"%string := "true"%string ]}
     /\ exists ci, ci ∈ metaCache
          /\ QoSLevelOf ci = Advisor.PodAnnotationQoSLevelReclaimedCores
          /\ ContainerTypeOf ci = ContainerType_MAIN
          /\ AdvicePodUID advice = PodUID ci
          /\ AdviceContainerName advice = ContainerName ci)
  /\ (dropsCache (NodeCondition status) = false ->
      Forall (fun entry => dropsCache (snd entry) = false) (NUMAConditions status) ->
      GetAdvices (Reconcile metaCache status) = []).
Proof.
  intros Hsort. split.
  - intros advice Hin. unfold GetAdvices in Hin.
    apply list_elem_of_fmap in Hin as ([key ci] & -> & Hin).
    apply elem_of_map_to_list in Hin.
    apply (Reconcile_from metaCache status Hsort) in Hin as [Hmeta Hfilter].
    cbn [Values AdvicePodUID AdviceContainerName snd].
    split; [reflexivity|]. exists ci. split; [exact Hmeta|].
    unfold reclaimedContainersFilter in Hfilter.
    destruct (QoSLevelOf ci), (ContainerTypeOf ci); try discriminate.
    repeat split.
  - intros Hnode Hnumas.
    assert (Hempty : Reconcile metaCache status = ∅).
    { assert (Hskip : forall condition numaID metricName acc,
                dropsCache condition = false ->
                CacheReaper.reconcileCondition GetContainerMetric Sort
                  GeneratePodContainerName condition numaID metricName acc = acc).
      { intros condition numaID metricName [containers m] H.
        unfold CacheReaper.reconcileCondition. unfold dropsCache in H.
        destruct (State condition), (TargetReclaimed condition);
          try discriminate; reflexivity. }
      unfold CacheReaper.Reconcile. rewrite Hskip by exact Hnode.
      generalize (GetContainers metaCache reclaimedContainersFilter).
      induction Hnumas as [|[numaID condition] conditions Hc _ IH];
        intros containers; cbn [fold_left]; [reflexivity|].
      cbn [snd] in Hc. rewrite Hskip by exact Hc. apply IH. }
    rewrite Hempty. unfold GetAdvices. now rewrite map_to_list_empty.
Qed.

End ReaperFacts.

Lemma select_containers_stops_at_target_witness :
  snd (CacheReaper.selectContainers reapeeCache (fun _ _ l => l) reapees 7 (-1)
         "cache")
  = filter (fun ci => CacheReaper.hasMetric reapeeCache (-1) "cache" ci = true)
      [ reapee "a" Advisor.PodAnnotationQoSLevelReclaimedCores;
        reapee "b" Advisor.PodAnnotationQoSLevelReclaimedCores ]
  /\ forall init last,
       snd (CacheReaper.selectContainers reapeeCache (fun _ _ l => l) reapees 7
              (-1) "cache") = init ++ [last] ->
       CacheReaper.cacheSum reapeeCache (-1) "cache" init <= 7.
Proof.
  split; [reflexivity|].
  exact (proj1 (proj2 (proj2 (proj2
           (select_containers_stops_at_target reapeeCache
              (fun _ _ l => l) reapees 7 (-1) "cache" ltac:(discriminate)))))).
Defined.

Lemma reaper_advises_reclaimed_main_containers_witness :
  GetAdvices
    (CacheReaper.Reconcile reapeeCache (fun _ _ l => l)
       (fun pod container => (pod ++ "," ++ container)%string) "cache" "file"
       reapees
       {| NodeCondition := {| State := MemoryPressureOtherState;
                              TargetReclaimed := Some 7 |};
          NUMAConditions := [(0, {| State := MemoryPressureDropCache;
                                    TargetReclaimed := None |})] |})
  = [].
Proof.
  refine (proj2 (reaper_advises_reclaimed_main_containers reapeeCache
                   (fun _ _ l => l)
                   (fun pod container => (pod ++ "," ++ container)%string)
                   "cache" "file" reapees
                   {| NodeCondition := {| State := MemoryPressureOtherState;
                                          TargetReclaimed := Some 7 |};
                      NUMAConditions := [(0, {| State := MemoryPressureDropCache;
                                                TargetReclaimed := None |})] |}
                   _) eq_refl _).
  - intros numaID metricName l c H. exact H.
  - repeat constructor.
Defined.

End CacheReaperFacts.

Module CPUDynamicPolicyFacts.
Import CPUDynamicPolicy.

Section ResidualStateFacts.

Variable ContainerEntries : Type.

Variable IsPoolEntry : ContainerEntries -> bool.

Variable stateCheckPeriod : Z.

Variable maxResidualTime : Z.

Variable RemovePod : string -> option error.

Local Abbreviation countResidualPods :=
  (@CPUDynamicPolicy.countResidualPods ContainerEntries IsPoolEntry).
Local Abbreviation selectPodsToDelete :=
  (@CPUDynamicPolicy.selectPodsToDelete stateCheckPeriod maxResidualTime).
Local Abbreviation deletePods :=
  (@CPUDynamicPolicy.deletePods ContainerEntries RemovePod).

Local Abbreviation residual := (@CPUDynamicPolicy.residual ContainerEntries IsPoolEntry).

Lemma countResidualPods_spec (podSet : gset string)
    (entries : gmap string ContainerEntries) (hits : gmap string Z) :
  forall podUID,
    (podUID ∈ fst (countResidualPods podSet entries hits)
     <-> residual podSet entries podUID = true)
    /\ snd (countResidualPods podSet entries hits) !! podUID
       = if residual podSet entries podUID
         then Some (default 0 (hits !! podUID) + 1) else hits !! podUID.
Proof.
  unfold CPUDynamicPolicy.countResidualPods, CPUDynamicPolicy.residual.
  apply (map_fold_weak_ind
           (fun (acc : gset string * gmap string Z) (m : gmap string ContainerEntries) =>
              forall podUID,
                (podUID ∈ fst acc <-> residual podSet m podUID = true)
                /\ snd acc !! podUID
                   = if residual podSet m podUID
                     then Some (default 0 (hits !! podUID) + 1)
                     else hits !! podUID)).
  - intros podUID. unfold CPUDynamicPolicy.residual.
    cbn [fst snd]. rewrite lookup_empty. split; [|reflexivity].
    rewrite elem_of_empty. split; [tauto|discriminate].
  - intros k e m [rs hm] Hk IH podUID. unfold CPUDynamicPolicy.residual in *.
    cbn [fst snd] in *.
    destruct (IH podUID) as [IHin IHhit].
    destruct (decide (podUID = k)) as [->|Hne].
    + rewrite lookup_insert_eq. rewrite Hk in IHin, IHhit.
      destruct (IsPoolEntry e); cbn [negb andb fst snd].
      * split; [exact IHin|exact IHhit].
      * destruct (bool_decide (k ∈ podSet)); cbn [negb fst snd].
        -- split; [exact IHin|exact IHhit].
        -- split.
           ++ rewrite elem_of_union, elem_of_singleton. tauto.
           ++ rewrite lookup_insert_eq, IHhit. reflexivity.
    + rewrite lookup_insert_ne by congruence.
      destruct (IsPoolEntry e); cbn [fst snd]; [split; assumption|].
      destruct (bool_decide (k ∈ podSet)); cbn [negb fst snd]; [split; assumption|].
      split.
      * rewrite elem_of_union, elem_of_singleton. rewrite IHin. split; [|tauto].
        intros [H|H]; [congruence|exact H].
      * rewrite lookup_insert_ne by congruence. exact IHhit.
Qed.

Lemma selectPodsToDelete_fold (residualSet : gset string) (hits m : gmap string Z) :
  forall podUID,
    fst (map_fold (fun podUID hitCount (acc : gmap string Z * gset string) =>
                     if negb (bool_decide (podUID ∈ residualSet))
                     then (delete podUID (fst acc), snd acc)
                     else if maxResidualTime <=? hitCount * stateCheckPeriod
                     then (fst acc, {[ podUID ]} ∪ snd acc)
                     else acc) (hits, ∅) m) !! podUID
    = (if bool_decide (podUID ∈ residualSet) then hits !! podUID
       else match m !! podUID with
            | Some _ => None
            | None => hits !! podUID
            end)
    /\ (podUID ∈ snd (map_fold
                        (fun podUID hitCount (acc : gmap string Z * gset string) =>
                           if negb (bool_decide (podUID ∈ residualSet))
                           then (delete podUID (fst acc), snd acc)
                           else if maxResidualTime <=? hitCount * stateCheckPeriod
                           then (fst acc, {[ podUID ]} ∪ snd acc)
                           else acc) (hits, ∅) m)
        <-> podUID ∈ residualSet
            /\ exists hitCount, m !! podUID = Some hitCount
                 /\ maxResidualTime <= hitCount * stateCheckPeriod).
Proof.
  apply (map_fold_weak_ind
           (fun (acc : gmap string Z * gset string) (m : gmap string Z) =>
              forall podUID,
                fst acc !! podUID
                = (if bool_decide (podUID ∈ residualSet) then hits !! podUID
                   else match m !! podUID with
                        | Some _ => None
                        | None => hits !! podUID
                        end)
                /\ (podUID ∈ snd acc
                    <-> podUID ∈ residualSet
                        /\ exists hitCount, m !! podUID = Some hitCount
                             /\ maxResidualTime <= hitCount * stateCheckPeriod))).
  - intros podUID. cbn [fst snd]. rewrite lookup_empty. split.
    + destruct (bool_decide _); reflexivity.
    + rewrite elem_of_empty. split; [tauto|]. intros (_ & h & H & _). discriminate.
  - intros k x m' [hm del] Hk IH podUID. cbn [fst snd] in *.
    destruct (IH podUID) as [IHhit IHdel].
    destruct (decide (podUID = k)) as [->|Hne].
    + rewrite lookup_insert_eq. rewrite Hk in IHhit, IHdel.
      destruct (bool_decide_reflect (k ∈ residualSet)) as [Hin|Hin]; cbn [negb].
      * destruct (Z.leb_spec maxResidualTime (x * stateCheckPeriod)); cbn [fst snd].
        -- split; [exact IHhit|].
           rewrite elem_of_union, elem_of_singleton. split; [|tauto].
           intros _. split; [exact Hin|]. exists x. split; [reflexivity|assumption].
        -- split; [exact IHhit|]. rewrite IHdel. split.
           ++ intros (_ & h & H' & _). discriminate.
           ++ intros (_ & h & [= <-] & Hle). lia.
      * cbn [fst snd]. split; [apply lookup_delete_eq|].
        rewrite IHdel. split; intros (H' & _); contradiction.
    + rewrite lookup_insert_ne by congruence.
      destruct (bool_decide_reflect (k ∈ residualSet)) as [Hin|Hin]; cbn [negb].
      * destruct (Z.leb_spec maxResidualTime (x * stateCheckPeriod)); cbn [fst snd].
        -- split; [exact IHhit|].
           rewrite elem_of_union, elem_of_singleton, IHdel. split; [|tauto].
           intros [H'|H']; [congruence|exact H'].
        -- split; assumption.
      * cbn [fst snd]. rewrite lookup_delete_ne by congruence. split; assumption.
Qed.

Lemma selectPodsToDelete_spec (residualSet : gset string) (hits : gmap string Z) :
  forall podUID,
    fst (selectPodsToDelete residualSet hits) !! podUID
    = (if bool_decide (podUID ∈ residualSet) then hits !! podUID else None)
    /\ (podUID ∈ snd (selectPodsToDelete residualSet hits)
        <-> podUID ∈ residualSet
            /\ exists hitCount, hits !! podUID = Some hitCount
                 /\ maxResidualTime <= hitCount * stateCheckPeriod).
Proof.
  intros podUID. unfold CPUDynamicPolicy.selectPodsToDelete.
  destruct (selectPodsToDelete_fold residualSet hits hits podUID) as [H1 H2].
  split; [|exact H2].
  rewrite H1. destruct (bool_decide _); [reflexivity|].
  destruct (hits !! podUID); reflexivity.
Qed.

Lemma deletePods_spec (enable : bool) (pods : list string) :
  forall (entries : gmap string ContainerEntries) podUID,
    deletePods enable pods entries !! podUID
    = if bool_decide (podUID ∈ pods)
         && negb (enable && bool_decide (is_Some (RemovePod podUID)))
      then None else entries !! podUID.
Proof.
  unfold CPUDynamicPolicy.deletePods.
  induction pods as [|k pods IH]; intros entries podUID; cbn [fold_left].
  - reflexivity.
  - rewrite IH.
    destruct (decide (podUID ∈ pods)) as [Hin|Hin].
    + rewrite (bool_decide_eq_true_2 (podUID ∈ pods)) by exact Hin.
      rewrite (bool_decide_eq_true_2 (podUID ∈ k :: pods))
        by now apply list_elem_of_further.
      cbn [andb].
      destruct (negb (enable && bool_decide (is_Some (RemovePod podUID)))) eqn:Hrm;
        [reflexivity|].
      destruct (decide (podUID = k)) as [->|Hne].
      * apply negb_false_iff, andb_prop in Hrm as [-> Hsome].
        apply bool_decide_eq_true in Hsome. destruct Hsome as [e ->]. reflexivity.
      * destruct (if enable then RemovePod k else None); [reflexivity|].
        now rewrite lookup_delete_ne by congruence.
    + rewrite (bool_decide_eq_false_2 (podUID ∈ pods)) by exact Hin. cbn [andb].
      destruct (decide (podUID = k)) as [->|Hne].
      * rewrite (bool_decide_eq_true_2 (k ∈ k :: pods)) by apply list_elem_of_here.
        cbn [andb]. destruct enable; cbn [andb negb].
        -- destruct (RemovePod k) as [e|] eqn:Hr.
           ++ rewrite bool_decide_eq_true_2 by eauto. reflexivity.
           ++ rewrite bool_decide_eq_false_2 by (intros [? ?]; discriminate).
              cbn [negb]. apply lookup_delete_eq.
        -- apply lookup_delete_eq.
      * rewrite (bool_decide_eq_false_2 (podUID ∈ k :: pods))
          by (rewrite elem_of_cons; tauto).
        cbn [andb]. destruct (if enable then RemovePod k else None); [reflexivity|].
        now rewrite lookup_delete_ne by congruence.
Qed.

Variable NUMANodeMap : Type.

Variable generateMachineStateFromPodEntries :
  gmap string ContainerEntries -> result NUMANodeMap.

Variable adjustAllocationEntries :
  DynamicPolicy ContainerEntries NUMANodeMap ->
  DynamicPolicy ContainerEntries NUMANodeMap * option error.

Local Abbreviation residualPodsCleared :=
  (@CPUDynamicPolicy.residualPodsCleared ContainerEntries IsPoolEntry NUMANodeMap
     stateCheckPeriod maxResidualTime RemovePod).
Local Abbreviation clearResidualState :=
  (@CPUDynamicPolicy.clearResidualState ContainerEntries IsPoolEntry NUMANodeMap
     generateMachineStateFromPodEntries stateCheckPeriod maxResidualTime RemovePod
     adjustAllocationEntries).

Lemma residualPodsCleared_spec (p : DynamicPolicy ContainerEntries NUMANodeMap)
    (podList : list string) (podUID : string) :
  let hit := default 0 (residualHitMap p !! podUID) + 1 in
  let isResidual := residual (list_to_set podList) (podEntries p) podUID in
  snd (fst (residualPodsCleared p podList)) !! podUID
  = (if isResidual then Some hit else None)
  /\ (podUID ∈ snd (residualPodsCleared p podList)
      <-> isResidual = true /\ maxResidualTime <= hit * stateCheckPeriod)
  /\ fst (fst (residualPodsCleared p podList)) !! podUID
     = if isResidual
          && (maxResidualTime <=? hit * stateCheckPeriod)
          && negb (enableCPUAdvisor p && bool_decide (is_Some (RemovePod podUID)))
       then None else podEntries p !! podUID.
Proof.
  cbv zeta. unfold CPUDynamicPolicy.residualPodsCleared.
  pose proof (countResidualPods_spec (list_to_set podList) (podEntries p)
                (residualHitMap p) podUID) as [Hres Hhit].
  destruct (countResidualPods (list_to_set podList) (podEntries p) (residualHitMap p))
    as [residualSet hits] eqn:Hcount.
  cbn [fst snd] in Hres, Hhit.
  pose proof (selectPodsToDelete_spec residualSet hits podUID) as [Hhit' Hdel].
  destruct (selectPodsToDelete residualSet hits) as [hits' podsToDelete] eqn:Hselect.
  cbn [fst snd] in *.
  assert (Hdel' : podUID ∈ podsToDelete
                  <-> residual (list_to_set podList) (podEntries p) podUID = true
                      /\ maxResidualTime
                         <= (default 0 (residualHitMap p !! podUID) + 1)
                            * stateCheckPeriod).
  { rewrite Hdel, Hres, Hhit. split.
    - intros (Hr & h & Hh & Hle). rewrite Hr in Hh. injection Hh as <-. tauto.
    - intros (Hr & Hle). split; [exact Hr|]. rewrite Hr. eauto. }
  split; [|split; [exact Hdel'|]].
  - rewrite Hhit', Hhit.
    destruct (residual (list_to_set podList) (podEntries p) podUID) eqn:Hr.
    + rewrite bool_decide_eq_true_2 by now apply Hres. reflexivity.
    + rewrite bool_decide_eq_false_2; [reflexivity|].
      intros Hin. apply Hres in Hin. discriminate.
  - rewrite deletePods_spec.
    destruct (residual (list_to_set podList) (podEntries p) podUID) eqn:Hr;
      cbn [andb].
    + destruct (Z.leb_spec maxResidualTime
                  ((default 0 (residualHitMap p !! podUID) + 1) * stateCheckPeriod))
        as [Hle|Hlt]; cbn [andb].
      * rewrite bool_decide_eq_true_2; [reflexivity|].
        apply elem_of_elements, Hdel'. tauto.
      * rewrite bool_decide_eq_false_2; [reflexivity|].
        rewrite elem_of_elements, Hdel'. intros [_ H]. lia.
    + rewrite bool_decide_eq_false_2; [reflexivity|].
      rewrite elem_of_elements, Hdel'. intros [H _]. discriminate.
Qed.

(** X29: [clearResidualState] only ever drops the state of a residual
    pod: one that has entries that are not a pool entry, that the pod watcher
    does not show, whose hit count, this check included, has reached the
    residual time, and whose removal the advisor, when enabled, did not
    refuse.  Every other entry is handed on as it is.  The hit count of every
    residual pod goes up by one and the counts of all other pods are dropped,
    so a pod that shows up again starts from zero.  Without meta server the
    check returns at once with no error, and an error of the pod list is
    returned with the policy unchanged.  With a pod list, the state keeps its
    pod entries and machine state, only the hit counts being new, when no
    pod is to be deleted or when the machine state cannot be generated from
    the entries that are left; otherwise the entries that are left and their
    machine state are what the allocations are adjusted on. *)
Theorem residual_state_clearing_is_safe
    (p : DynamicPolicy ContainerEntries NUMANodeMap) :
  (metaServer p = None -> clearResidualState p = (p, None))
  /\ (forall err, metaServer p = Some (inl err) ->
        clearResidualState p = (p, Some err))
  /\ (forall podList podUID,
        let cleared := residualPodsCleared p podList in
        let hit := default 0 (residualHitMap p !! podUID) + 1 in
        (snd (fst cleared) !! podUID
         = if residual (list_to_set podList) (podEntries p) podUID
           then Some hit else None)
        /\ (fst (fst cleared) !! podUID = None
            \/ fst (fst cleared) !! podUID = podEntries p !! podUID)
        /\ (forall containerEntries,
              podEntries p !! podUID = Some containerEntries ->
              (fst (fst cleared) !! podUID = None
               <-> IsPoolEntry containerEntries = false
                   /\ (podUID ∉ podList)
                   /\ maxResidualTime <= hit * stateCheckPeriod
                   /\ (enableCPUAdvisor p = true -> RemovePod podUID = None))))
  /\ (forall podList, metaServer p = Some (inr podList) ->
        let cleared := residualPodsCleared p podList in
        let counted :=
          {| podEntries := podEntries p; machineState := machineState p;
             residualHitMap := snd (fst cleared);
             enableCPUAdvisor := enableCPUAdvisor p;
             metaServer := metaServer p |} in
        (snd cleared = ∅ -> clearResidualState p = (counted, None))
        /\ (forall err, snd cleared <> ∅ ->
              generateMachineStateFromPodEntries (fst (fst cleared)) = inl err ->
              clearResidualState p = (counted, Some err))
        /\ (forall updatedMachineState, snd cleared <> ∅ ->
              generateMachineStateFromPodEntries (fst (fst cleared))
              = inr updatedMachineState ->
              clearResidualState p
              = adjustAllocationEntries
                  {| podEntries := fst (fst cleared);
                     machineState := updatedMachineState;
                     residualHitMap := snd (fst cleared);
                     enableCPUAdvisor := enableCPUAdvisor p;
                     metaServer := metaServer p |})).
Proof.
  split; [|split; [|split]].
  4:{ intros podList Hmeta. cbv zeta.
      unfold CPUDynamicPolicy.clearResidualState. rewrite Hmeta.
      destruct (residualPodsCleared p podList) as [[entries hits] del].
      cbn [fst snd].
      split; [|split].
      - intros ->. rewrite size_empty. reflexivity.
      - intros err Hne Hgen.
        destruct (Z.ltb_spec 0 (Z.of_nat (size del))) as [_|Hle].
        2:{ exfalso. apply Hne. apply leibniz_equiv, size_empty_iff. lia. }
        rewrite Hgen. reflexivity.
      - intros updatedMachineState Hne Hgen.
        destruct (Z.ltb_spec 0 (Z.of_nat (size del))) as [_|Hle].
        2:{ exfalso. apply Hne. apply leibniz_equiv, size_empty_iff. lia. }
        rewrite Hgen. reflexivity. }
  - intros H. unfold CPUDynamicPolicy.clearResidualState. now rewrite H.
  - intros err H. unfold CPUDynamicPolicy.clearResidualState. now rewrite H.
  - intros podList podUID. cbv zeta.
    destruct (residualPodsCleared_spec p podList podUID) as (Hhit & _ & Hentries).
    cbv zeta in Hhit, Hentries.
    split; [exact Hhit|]. split.
    + rewrite Hentries. destruct (_ && _ && _); auto.
    + intros containerEntries He. rewrite Hentries.
      unfold CPUDynamicPolicy.residual. rewrite He.
      destruct (IsPoolEntry containerEntries); cbn [negb andb].
      { split; [discriminate|]. intros [H _]. discriminate. }
      destruct (bool_decide_reflect (podUID ∈ (list_to_set podList : gset string)))
        as [Hin|Hin]; cbn [negb andb].
      { split; [discriminate|]. intros (_ & H & _).
        apply elem_of_list_to_set in Hin. contradiction. }
      rewrite elem_of_list_to_set in Hin.
      destruct (Z.leb_spec maxResidualTime
                  ((default 0 (residualHitMap p !! podUID) + 1) * stateCheckPeriod))
        as [Hle|Hlt]; cbn [andb].
      2:{ split; [discriminate|]. intros (_ & _ & H & _). lia. }
      destruct (enableCPUAdvisor p); cbn [andb negb].
      * destruct (RemovePod podUID) as [e|] eqn:Hr.
        -- rewrite bool_decide_eq_true_2 by eauto. cbn [negb].
           split; [discriminate|]. intros (_ & _ & _ & H).
           specialize (H eq_refl). discriminate.
        -- rewrite bool_decide_eq_false_2 by (intros [? ?]; discriminate).
           cbn [negb]. split; [|reflexivity]. intros _. repeat split; auto.
      * split; [|reflexivity]. intros _. repeat split; auto. discriminate.
Qed.

End ResidualStateFacts.

(** *** The cpuset check *)

Lemma inter_nonempty (X Y : gset Z) : X ∩ Y <> ∅ <-> exists z, z ∈ X /\ z ∈ Y.
Proof.
  split.
  - intros H. apply set_choose_L in H as [z Hz].
    apply elem_of_intersection in Hz. eauto.
  - intros (z & Hx & Hy) He.
    assert (Hz : z ∈ X ∩ Y) by (apply elem_of_intersection; split; assumption).
    rewrite He in Hz. now apply elem_of_empty in Hz.
Qed.

Lemma overlapStep_eq (f : bool) (D S : gset Z) (pod container : string)
    (cset : gset Z) (ai : AllocationInfo) :
  overlapStep (f, D, S) (pod, container, cset, ai)
  = match QoSLevel ai with
    | Advisor.PodAnnotationQoSLevelDedicatedCores =>
        (if negb f && negb (bool_decide (cset ∩ D = ∅)) then true else f,
         D ∪ cset, S)
    | Advisor.PodAnnotationQoSLevelSharedCores => (f, D, S ∪ cset)
    | _ => (f, D, S)
    end.
Proof. reflexivity. Qed.

Lemma overlap_fold (l : list (string * string * gset Z * AllocationInfo)) :
  forall (f0 : bool) (D0 S0 : gset Z),
    let r := fold_left overlapStep l (f0, D0, S0) in
    (forall z, z ∈ snd (fst r)
               <-> z ∈ D0 \/ exists a, a ∈ l /\ isDedicated a /\ z ∈ snd (fst a))
    /\ (forall z, z ∈ snd r
                  <-> z ∈ S0 \/ exists a, a ∈ l /\ isShared a /\ z ∈ snd (fst a))
    /\ (fst (fst r) = true
        <-> f0 = true
            \/ (exists a, a ∈ l /\ isDedicated a /\ snd (fst a) ∩ D0 <> ∅)
            \/ (exists l1 a l2 b l3,
                  l = l1 ++ a :: l2 ++ b :: l3
                  /\ isDedicated a /\ isDedicated b /\ meets a b)).
Proof.
  induction l as [|x l IH]; intros f0 D0 S0; cbn [fold_left].
  - cbv zeta. cbn [fst snd]. split; [|split].
    + intros z. split; [auto|]. intros [H|(a & H & _)]; [exact H|].
      exfalso. eapply not_elem_of_nil, H.
    + intros z. split; [auto|]. intros [H|(a & H & _)]; [exact H|].
      exfalso. eapply not_elem_of_nil, H.
    + split; [auto|]. intros [H|[(a & H & _)|(l1 & a & l2 & b & l3 & H & _)]].
      * exact H.
      * exfalso. eapply not_elem_of_nil, H.
      * destruct l1; discriminate.
  - destruct x as [[[pod container] cset] ai].
    rewrite overlapStep_eq.
    destruct (QoSLevel ai) eqn:Hq.
    + (* shared *)
      destruct (IH f0 D0 (S0 ∪ cset)) as (HD & HS & HF). cbv zeta in *.
      split; [|split].
      * intros z. rewrite HD. split.
        -- intros [H|(a & Ha & Hd & Hz)]; [auto|].
           right. exists a. split; [now apply list_elem_of_further|auto].
        -- intros [H|(a & Ha & Hd & Hz)]; [auto|].
           apply elem_of_cons in Ha as [->|Ha].
           ++ unfold isDedicated in Hd. cbn in Hd. congruence.
           ++ right. eauto.
      * intros z. rewrite HS, elem_of_union. split.
        -- intros [[H|H]|(a & Ha & Hd & Hz)]; [auto| |].
           ++ right. exists (pod, container, cset, ai).
              split; [apply list_elem_of_here|]. split; [exact Hq|exact H].
           ++ right. exists a. split; [now apply list_elem_of_further|auto].
        -- intros [H|(a & Ha & Hd & Hz)]; [auto|].
           apply elem_of_cons in Ha as [->|Ha]; [left; right; exact Hz|].
           right. eauto.
      * rewrite HF. split.
        -- intros [H|[(a & Ha & Hd & Hm)|(l1 & a & l2 & b & l3 & -> & Hr)]].
           ++ auto.
           ++ right; left. exists a. split; [now apply list_elem_of_further|auto].
           ++ right; right. exists ((pod, container, cset, ai) :: l1), a, l2, b, l3.
              split; [reflexivity|exact Hr].
        -- intros [H|[(a & Ha & Hd & Hm)|(l1 & a & l2 & b & l3 & He & Hda & Hdb & Hm)]].
           ++ auto.
           ++ apply elem_of_cons in Ha as [->|Ha].
              ** unfold isDedicated in Hd. cbn in Hd. congruence.
              ** right; left. eauto.
           ++ destruct l1 as [|y l1]; cbn [app] in He; injection He as <- ->.
              ** unfold isDedicated in Hda. cbn in Hda. congruence.
              ** right; right. exists l1, a, l2, b, l3. auto.
    + (* dedicated *)
      destruct (IH (if negb f0 && negb (bool_decide (cset ∩ D0 = ∅))
                    then true else f0) (D0 ∪ cset) S0) as (HD & HS & HF).
      cbv zeta in *. split; [|split].
      * intros z. rewrite HD, elem_of_union. split.
        -- intros [[H|H]|(a & Ha & Hd & Hz)]; [auto| |].
           ++ right. exists (pod, container, cset, ai).
              split; [apply list_elem_of_here|]. split; [exact Hq|exact H].
           ++ right. exists a. split; [now apply list_elem_of_further|auto].
        -- intros [H|(a & Ha & Hd & Hz)]; [auto|].
           apply elem_of_cons in Ha as [->|Ha]; [left; right; exact Hz|].
           right. eauto.
      * intros z. rewrite HS. split.
        -- intros [H|(a & Ha & Hd & Hz)]; [auto|].
           right. exists a. split; [now apply list_elem_of_further|auto].
        -- intros [H|(a & Ha & Hd & Hz)]; [auto|].
           apply elem_of_cons in Ha as [->|Ha].
           ++ unfold isShared in Hd. cbn in Hd. congruence.
           ++ right. eauto.
      * rewrite HF. split.
        -- intros [H|[(a & Ha & Hd & Hm)|(l1 & a & l2 & b & l3 & -> & Hr)]].
           ++ destruct f0; [auto|]. cbn [negb andb] in H.
              destruct (bool_decide_reflect (cset ∩ D0 = ∅)) as [He|He];
                [discriminate|].
              right; left. exists (pod, container, cset, ai).
              split; [apply list_elem_of_here|]. split; [exact Hq|exact He].
           ++ apply inter_nonempty in Hm as (z & Hz & HzD).
              apply elem_of_union in HzD as [HzD|HzD].
              ** right; left. exists a. split; [now apply list_elem_of_further|].
                 split; [exact Hd|]. apply inter_nonempty. eauto.
              ** apply list_elem_of_split in Ha as (l2 & l3 & ->).
                 right; right. exists [], (pod, container, cset, ai), l2, a, l3.
                 split; [reflexivity|]. split; [exact Hq|]. split; [exact Hd|].
                 apply inter_nonempty. eauto.
           ++ right; right. exists ((pod, container, cset, ai) :: l1), a, l2, b, l3.
              split; [reflexivity|exact Hr].
        -- intros [H|[(a & Ha & Hd & Hm)|(l1 & a & l2 & b & l3 & He & Hda & Hdb & Hm)]].
           ++ left. rewrite H. reflexivity.
           ++ apply elem_of_cons in Ha as [->|Ha].
              ** left. cbn [fst snd] in Hm. destruct f0; [reflexivity|].
                 cbn [negb andb]. rewrite bool_decide_eq_false_2 by exact Hm.
                 reflexivity.
              ** right; left. exists a. split; [exact Ha|]. split; [exact Hd|].
                 apply inter_nonempty in Hm as (z & Hz & HzD).
                 apply inter_nonempty. exists z. split; [exact Hz|].
                 apply elem_of_union. auto.
           ++ destruct l1 as [|y l1]; cbn [app] in He; injection He as <- ->.
              ** right; left. exists b.
                 split; [apply elem_of_app; right; apply list_elem_of_here|].
                 split; [exact Hdb|].
                 apply inter_nonempty in Hm as (z & Hz & Hzb). cbn [fst snd] in Hz.
                 apply inter_nonempty. exists z. split; [exact Hzb|].
                 apply elem_of_union. auto.
              ** right; right. exists l1, a, l2, b, l3. auto.
    + (* reclaimed *)
      destruct (IH f0 D0 S0) as (HD & HS & HF). cbv zeta in *.
      split; [|split].
      * intros z. rewrite HD. split.
        -- intros [H|(a & Ha & Hd & Hz)]; [auto|].
           right. exists a. split; [now apply list_elem_of_further|auto].
        -- intros [H|(a & Ha & Hd & Hz)]; [auto|].
           apply elem_of_cons in Ha as [->|Ha].
           ++ unfold isDedicated in Hd. cbn in Hd. congruence.
           ++ right. eauto.
      * intros z. rewrite HS. split.
        -- intros [H|(a & Ha & Hd & Hz)]; [auto|].
           right. exists a. split; [now apply list_elem_of_further|auto].
        -- intros [H|(a & Ha & Hd & Hz)]; [auto|].
           apply elem_of_cons in Ha as [->|Ha].
           ++ unfold isShared in Hd. cbn in Hd. congruence.
           ++ right. eauto.
      * rewrite HF. split.
        -- intros [H|[(a & Ha & Hd & Hm)|(l1 & a & l2 & b & l3 & -> & Hr)]].
           ++ auto.
           ++ right; left. exists a. split; [now apply list_elem_of_further|auto].
           ++ right; right. exists ((pod, container, cset, ai) :: l1), a, l2, b, l3.
              split; [reflexivity|exact Hr].
        -- intros [H|[(a & Ha & Hd & Hm)|(l1 & a & l2 & b & l3 & He & Hda & Hdb & Hm)]].
           ++ auto.
           ++ apply elem_of_cons in Ha as [->|Ha].
              ** unfold isDedicated in Hd. cbn in Hd. congruence.
              ** right; left. eauto.
           ++ destruct l1 as [|y l1]; cbn [app] in He; injection He as <- ->.
              ** unfold isDedicated in Hda. cbn in Hda. congruence.
              ** right; right. exists l1, a, l2, b, l3. auto.
    + (* system *)
      destruct (IH f0 D0 S0) as (HD & HS & HF). cbv zeta in *.
      split; [|split].
      * intros z. rewrite HD. split.
        -- intros [H|(a & Ha & Hd & Hz)]; [auto|].
           right. exists a. split; [now apply list_elem_of_further|auto].
        -- intros [H|(a & Ha & Hd & Hz)]; [auto|].
           apply elem_of_cons in Ha as [->|Ha].
           ++ unfold isDedicated in Hd. cbn in Hd. congruence.
           ++ right. eauto.
      * intros z. rewrite HS. split.
        -- intros [H|(a & Ha & Hd & Hz)]; [auto|].
           right. exists a. split; [now apply list_elem_of_further|auto].
        -- intros [H|(a & Ha & Hd & Hz)]; [auto|].
           apply elem_of_cons in Ha as [->|Ha].
           ++ unfold isShared in Hd. cbn in Hd. congruence.
           ++ right. eauto.
      * rewrite HF. split.
        -- intros [H|[(a & Ha & Hd & Hm)|(l1 & a & l2 & b & l3 & -> & Hr)]].
           ++ auto.
           ++ right; left. exists a. split; [now apply list_elem_of_further|auto].
           ++ right; right. exists ((pod, container, cset, ai) :: l1), a, l2, b, l3.
              split; [reflexivity|exact Hr].
        -- intros [H|[(a & Ha & Hd & Hm)|(l1 & a & l2 & b & l3 & He & Hda & Hdb & Hm)]].
           ++ auto.
           ++ apply elem_of_cons in Ha as [->|Ha].
              ** unfold isDedicated in Hd. cbn in Hd. congruence.
              ** right; left. eauto.
           ++ destruct l1 as [|y l1]; cbn [app] in He; injection He as <- ->.
              ** unfold isDedicated in Hda. cbn in Hda. congruence.
              ** right; right. exists l1, a, l2, b, l3. auto.
Qed.

Lemma disjoint_union_decide (X D Y : gset Z) :
  bool_decide (X ∩ (D ∪ Y) = ∅)
  = bool_decide (X ∩ D = ∅) && bool_decide (X ∩ Y = ∅).
Proof.
  rewrite <- bool_decide_and. apply bool_decide_ext.
  rewrite intersection_union_l_L. apply empty_union_L.
Qed.

Lemma overlapStep_swap (acc : bool * gset Z * gset Z)
    (x y : string * string * gset Z * AllocationInfo) :
  overlapStep (overlapStep acc x) y = overlapStep (overlapStep acc y) x.
Proof.
  destruct acc as [[f D] S], x as [[[px nx] cx] ax], y as [[[py ny] cy] ay].
  rewrite !overlapStep_eq.
  destruct (QoSLevel ax) eqn:Hx, (QoSLevel ay) eqn:Hy;
    rewrite ?overlapStep_eq, ?Hx, ?Hy; try reflexivity.
  - f_equal. rewrite <- !(assoc_L (∪)). f_equal. apply (comm_L (∪)).
  - assert (Hsets : D ∪ cx ∪ cy = D ∪ cy ∪ cx).
    { rewrite <- !(assoc_L (∪)). f_equal. apply (comm_L (∪)). }
    rewrite Hsets. do 2 f_equal.
    rewrite !disjoint_union_decide, (comm_L (∩) cy cx).
    destruct f, (bool_decide (cx ∩ D = ∅)), (bool_decide (cy ∩ D = ∅)),
      (bool_decide (cx ∩ cy = ∅)); reflexivity.
Qed.

Lemma overlap_fold_perm (l l' : list (string * string * gset Z * AllocationInfo)) :
  l ≡ₚ l' ->
  forall acc, fold_left overlapStep l acc = fold_left overlapStep l' acc.
Proof.
  induction 1 as [|x l l' _ IH|x y l|l l' l'' _ IH1 _ IH2]; intros acc;
    cbn [fold_left].
  - reflexivity.
  - apply IH.
  - now rewrite overlapStep_swap.
  - now rewrite IH1.
Qed.

(** X30: the cpuset check.  An overlap is found exactly when, among the
    cpusets read, the cpusets of two dedicated-cores containers meet or the
    cpuset of a shared-cores container meets that of a dedicated-cores one;
    the order in which the cpusets read are ranged over plays no part.  The
    check reports the ready state exactly when no lookup error is pending,
    no dedicated container runs on a cpuset other than the one of the state,
    and there is no overlap.  A lookup error is pending only as long as no later container
    is read: the error variable is assigned again by every lookup, so a
    main container that is read successfully (one that is not a shared-cores
    container without request) clears the error of the containers before
    it. *)
Theorem cpuset_check_report
    (getContainerRequestedCores : AllocationInfo -> Q)
    (GetContainerID : string -> string -> result string)
    (GetCPUSetForContainer : string -> string -> result (gset Z)) :
  (forall actual,
     cpuSetOverlapOf actual = true
     <-> (exists l1 a l2 b l3,
            actual = l1 ++ a :: l2 ++ b :: l3
            /\ isDedicated a /\ isDedicated b /\ meets a b)
         \/ (exists a b, a ∈ actual /\ b ∈ actual
                         /\ isShared a /\ isDedicated b /\ meets a b))
  /\ (forall actual actual',
        actual ≡ₚ actual' -> cpuSetOverlapOf actual = cpuSetOverlapOf actual')
  /\ (forall podEntries,
        let st := collectCPUSets getContainerRequestedCores GetContainerID
                    GetCPUSetForContainer podEntries in
        checkCPUSet getContainerRequestedCores GetContainerID GetCPUSetForContainer
          podEntries = ReportReady
        <-> err st = None /\ invalidCPUSet st = false
            /\ cpuSetOverlapOf (actualCPUSets st) = false)
  /\ (forall podUID containerName allocationInfo containerId cpus before st,
        CheckMainContainer allocationInfo = true ->
        CheckShared allocationInfo
        && Qeq_bool (getContainerRequestedCores allocationInfo) 0 = false ->
        GetContainerID podUID containerName = inr containerId ->
        GetCPUSetForContainer podUID containerId = inr cpus ->
        err (fold_left (checkContainer getContainerRequestedCores GetContainerID
                          GetCPUSetForContainer podUID)
                       (before ++ [(containerName, Some allocationInfo)]) st)
        = None).
Proof.
  split; [|split; [|split]].
  2:{ intros actual actual' Hperm. unfold cpuSetOverlapOf.
      now rewrite (overlap_fold_perm actual actual' Hperm). }
  - intros actual. unfold cpuSetOverlapOf.
    destruct (overlap_fold actual false ∅ ∅) as (HD & HS & HF). cbv zeta in *.
    destruct (fold_left overlapStep actual (false, ∅, ∅)) as [[f D] S].
    cbn [fst snd] in *.
    assert (Hregion : negb (bool_decide (S ∩ D = ∅)) = true
                      <-> exists a b, a ∈ actual /\ b ∈ actual
                            /\ isShared a /\ isDedicated b /\ meets a b).
    { rewrite negb_true_iff, bool_decide_eq_false, inter_nonempty. split.
      - intros (z & Hs & Hd).
        apply HS in Hs as [Hs|(a & Ha & Hsa & Hza)];
          [now apply elem_of_empty in Hs|].
        apply HD in Hd as [Hd|(b & Hb & Hdb & Hzb)];
          [now apply elem_of_empty in Hd|].
        exists a, b. repeat split; try assumption.
        apply inter_nonempty. eauto.
      - intros (a & b & Ha & Hb & Hsa & Hdb & Hm).
        apply inter_nonempty in Hm as (z & Hza & Hzb).
        exists z. split; [apply HS|apply HD]; right; eauto. }
    assert (Hpairs : f = true
                     <-> exists l1 a l2 b l3,
                           actual = l1 ++ a :: l2 ++ b :: l3
                           /\ isDedicated a /\ isDedicated b /\ meets a b).
    { rewrite HF. split; [|auto].
      intros [H|[(a & _ & _ & H)|H]]; [discriminate| |exact H].
      exfalso. apply H. apply (right_absorb_L ∅ (∩)). }
    destruct f; cbn [negb].
    + split; [intros _; left; now apply Hpairs|reflexivity].
    + rewrite Hregion. split; [auto|].
      intros [H|H]; [|exact H]. apply Hpairs in H. discriminate.
  - intros podEntries. cbv zeta. unfold checkCPUSet.
    destruct (err _); [split; [discriminate|intros [H _]; discriminate]|].
    destruct (invalidCPUSet _);
      [split; [discriminate|intros (_ & H & _); discriminate]|].
    destruct (cpuSetOverlapOf _);
      [split; [discriminate|intros (_ & _ & H); discriminate]|].
    split; auto.
  - intros podUID containerName allocationInfo containerId cpus before st
      Hmain Hshared Hid Hcpus.
    rewrite fold_left_app. cbn [fold_left]. unfold checkContainer at 1.
    rewrite Hmain, Hshared, Hid, Hcpus. reflexivity.
Qed.

End CPUDynamicPolicyFacts.
